(** * The Storage wrapper bridge of torch/csrc/Storage.cpp

    A shallow embedding of the functions of [torch/csrc/Storage.cpp] that
    bridge the intrusively reference-counted [c10::StorageImpl] to its
    Python wrapper [THPStorage], and the properties of the wrap, preserve,
    teardown, slice and byte-access paths.

    The C++ heap is a pair of finite maps (storages and wrapper objects),
    byte buffers are lists of bytes kept in a third map, C++ exceptions and
    the interpreter's error indicator are explicit, and every function
    threads the heap through a small state-and-exception monad. *)

From stdpp Require Import gmap strings list fin_maps.
From Stdlib Require Import ZArith.

Local Open Scope Z_scope.
Set Warnings "-register-all".

(** ** Identifiers *)

Abbreviation StorageId := nat (only parsing).
Abbreviation ObjId := nat (only parsing).
Abbreviation TypeId := nat (only parsing).
Abbreviation BufId := nat (only parsing).

(** ** Errors

    Each constructor carries what the message built at the source line
    carries, and nothing else. *)

Inductive Error : Type :=
  (* line 38 *)
  | NotAStorageSubclass
  (* lines 46 and 55: requested type name, existing wrapper's type name;
     the flag tells the second message ("which is not a subclass of the
     requested type") from the first *)
  | AlreadyWrapped (requested existing : string) (not_a_subclass : bool)
  (* line 68 *)
  | AllocationFailed (type_name : string)
  (* line 252 *)
  | CannotConstructBase
  (* line 276 *)
  | ConflictingAllocatorSpec
  (* line 306 *)
  | UnsupportedDevice
  (* lines 344 and 349 *)
  | NotASequence (type_name : string)
  | NoSequenceLength (type_name : string)
  (* line 377: the sequence's type name and the item's type name *)
  | InvalidElementType (sequence_type item_type : string)
  (* line 408, and the bounds check of storage_set *)
  | IndexOutOfRange (index length : Z)
  (* lines 427 and 496 *)
  | UnsupportedStep (step : Z)
  (* lines 463 and 508 *)
  | CannotIndexWith (type_name : string)
  (* line 475 *)
  | InvalidValueType (type_name : string)
  (* line 669 *)
  | NullResource
  (* a failed TORCH_INTERNAL_ASSERT, once caught *)
  | InternalAssertFailed (line : Z)
  (* raised by the byte, slice and integer helpers *)
  | CouldNotParseReal
  | SliceStepZero
  | IntegerOverflow.

(** What can leave a C++ function other than by return. *)
Inductive Exn : Type :=
  | c10_Error (e : Error)            (* TORCH_CHECK *)
  | internal_assert (line : Z)       (* TORCH_INTERNAL_ASSERT *)
  | std_exception (e : Error)        (* std::runtime_error of a helper *)
  | undefined_behaviour              (* a dangling or null dereference *)
  | diverges.                        (* a loop or recursion that never ends *)

(** ** Data model *)

Inductive PyInterpreterStatus : Type :=
  | DEFINITELY_UNINITIALIZED
  | MAYBE_UNINITIALIZED
  | TAGGED_BY_US.

(** [c10::MaybeOwned<c10::Storage>]: the wrapper's handle on its resource.
    A default-constructed handle borrows the null storage. *)
Inductive MaybeOwned : Type :=
  | owned (s : StorageId)
  | borrowed (s : StorageId)
  | borrowed_null.

Global Instance MaybeOwned_eq_dec : EqDecision MaybeOwned.
Proof. solve_decision. Defined.

Definition unsafeIsBorrowed (c : MaybeOwned) : bool :=
  match c with owned _ => false | _ => true end.

(** [*cdata], then [unsafeGetStorageImpl]: null for the null storage. *)
Definition unsafeGetStorageImpl (c : MaybeOwned) : option StorageId :=
  match c with owned s | borrowed s => Some s | borrowed_null => None end.

(** Modelled from the spec: [c10::impl::PyObjectSlot] is declared in
    c10/core/impl/PyObjectSlot.h, which is not among the sources.  The
    spec's WrapperSlot has a non-owning reference to the current wrapper
    (or none), the flag [owns_wrapper] and an origin tag; the tag is kept
    here as "tagged by this interpreter or not". *)
Record PyObjectSlot : Type := mkSlot {
  pyobj_interpreter : bool;
  pyobj : option ObjId;
  owns_pyobj : bool
}.

Definition empty_slot : PyObjectSlot := mkSlot false None false.

Inductive DeviceType : Type := kCPU | kCUDA | kMPS | kXPU | kMeta | kOtherDevice.

Inductive Allocator : Type :=
  | DefaultCPUAllocator
  | CUDACachingAllocator
  | MPSAllocator
  | DeviceAllocator (d : DeviceType)
  | RawAllocator (address : Z).

Global Instance DeviceType_eq_dec : EqDecision DeviceType.
Proof. solve_decision. Defined.

Global Instance Allocator_eq_dec : EqDecision Allocator.
Proof. solve_decision. Defined.

(** [at::DataPtr]: the bytes are those of buffer [dp_buffer] from
    [dp_offset] on.  [dp_context] is the context handed to the deleter:
    [None] for bytes obtained from the allocator (the deleter frees them),
    [Some parent] for the slice of line 446, whose deleter is
    [intrusive_ptr::decref] on [parent]. *)
Record DataPtr : Type := mkDataPtr {
  dp_buffer : BufId;
  dp_offset : Z;
  dp_context : option StorageId
}.

Record StorageImpl : Type := mkStorageImpl {
  use_count : Z;
  nbytes : Z;
  resizable : bool;
  data_ptr : DataPtr;
  allocator : Allocator;
  device : DeviceType;
  pyobj_slot : PyObjectSlot
}.

(** The wrapper object: the host's header, the per-instance state the
    teardown sequence works on, and the resource handle. *)
Record THPStorage : Type := mkTHPStorage {
  ob_refcnt : Z;
  ob_type : TypeId;
  gc_tracked : bool;
  weakrefs : nat;              (* weak references pointing at the object *)
  cleared_slots : list TypeId; (* levels whose slots clear_slots has cleared *)
  ob_dict : bool;              (* *dictptr != nullptr *)
  cdata : MaybeOwned;
  gc_finalized : bool          (* _PyGC_FINALIZED: tp_finalize has run *)
}.

Record PyTypeObject : Type := mkType {
  tp_name : string;
  tp_base : option TypeId;
  tp_refcnt : Z;
  tp_have_gc : bool;           (* Py_TPFLAGS_HAVE_GC *)
  tp_heaptype : bool;          (* Py_TPFLAGS_HEAPTYPE *)
  tp_finalize : bool;          (* tp_finalize != nullptr *)
  tp_del : bool;               (* tp_del != nullptr *)
  tp_weaklistoffset : Z;
  tp_dictoffset : Z;
  tp_size : Z;                 (* Py_SIZE(type): number of member slots *)
  tp_mro : list TypeId         (* the method resolution order *)
}.

(** The steps of the teardown sequence, logged in the order they run. *)
Inductive Event : Type :=
  | EvUnTrack (o : ObjId)
  | EvTrack (o : ObjId)
  | EvFinalizer (o : ObjId)
  | EvClearWeakRefs (o : ObjId)
  | EvDel (o : ObjId)
  | EvClearNewWeakRefs (o : ObjId)
  | EvClearSlots (o : ObjId) (base : TypeId)
  | EvClearDict (o : ObjId)
  | EvDestroyHandle (o : ObjId)
  | EvFree (o : ObjId)
  | EvDecrefType (t : TypeId).

Record State : Type := mkState {
  storages : gmap nat StorageImpl;
  objects : gmap nat THPStorage;
  buffers : gmap nat (list Z);
  types : gmap nat PyTypeObject;
  THPStorageClass : TypeId;    (* the global of line 31, set by postInit *)
  hermetic : bool;             (* c10::impl::HermeticPyObjectTLS::get_state() *)
  py_err : option Error;       (* the interpreter's error indicator *)
  events : list Event
}.

(** [&THPStorageType], the static base type of line 568. *)
Definition THPStorageType : TypeId := 0%nat.

(** ** Record updates *)

Definition set_storages (f : gmap nat StorageImpl → gmap nat StorageImpl) (st : State) : State :=
  mkState (f (storages st)) (objects st) (buffers st) (types st)
          (THPStorageClass st) (hermetic st) (py_err st) (events st).

Definition set_objects (f : gmap nat THPStorage → gmap nat THPStorage) (st : State) : State :=
  mkState (storages st) (f (objects st)) (buffers st) (types st)
          (THPStorageClass st) (hermetic st) (py_err st) (events st).

Definition set_buffers (f : gmap nat (list Z) → gmap nat (list Z)) (st : State) : State :=
  mkState (storages st) (objects st) (f (buffers st)) (types st)
          (THPStorageClass st) (hermetic st) (py_err st) (events st).

Definition set_types (f : gmap nat PyTypeObject → gmap nat PyTypeObject) (st : State) : State :=
  mkState (storages st) (objects st) (buffers st) (f (types st))
          (THPStorageClass st) (hermetic st) (py_err st) (events st).

Definition set_py_err (e : option Error) (st : State) : State :=
  mkState (storages st) (objects st) (buffers st) (types st)
          (THPStorageClass st) (hermetic st) e (events st).

Definition set_events (l : list Event) (st : State) : State :=
  mkState (storages st) (objects st) (buffers st) (types st)
          (THPStorageClass st) (hermetic st) (py_err st) l.

(** The log is instrumentation: code of the host cannot rewrite it. *)
Definition keeping_events (f : State → State) (st : State) : State :=
  let st' := f st in
  mkState (storages st') (objects st') (buffers st') (types st')
          (THPStorageClass st') (hermetic st') (py_err st') (events st).

Definition log_event (ev : Event) (st : State) : State :=
  mkState (storages st) (objects st) (buffers st) (types st)
          (THPStorageClass st) (hermetic st) (py_err st) (events st ++ [ev]).

Definition with_use_count (n : Z) (i : StorageImpl) : StorageImpl :=
  mkStorageImpl n (nbytes i) (resizable i) (data_ptr i) (allocator i) (device i) (pyobj_slot i).

Definition with_slot (sl : PyObjectSlot) (i : StorageImpl) : StorageImpl :=
  mkStorageImpl (use_count i) (nbytes i) (resizable i) (data_ptr i) (allocator i) (device i) sl.

Definition with_refcnt (n : Z) (o : THPStorage) : THPStorage :=
  mkTHPStorage n (ob_type o) (gc_tracked o) (weakrefs o) (cleared_slots o)
               (ob_dict o) (cdata o) (gc_finalized o).

Definition with_cdata (c : MaybeOwned) (o : THPStorage) : THPStorage :=
  mkTHPStorage (ob_refcnt o) (ob_type o) (gc_tracked o) (weakrefs o) (cleared_slots o)
               (ob_dict o) c (gc_finalized o).

Definition with_tracked (b : bool) (o : THPStorage) : THPStorage :=
  mkTHPStorage (ob_refcnt o) (ob_type o) b (weakrefs o) (cleared_slots o)
               (ob_dict o) (cdata o) (gc_finalized o).

Definition with_weakrefs (n : nat) (o : THPStorage) : THPStorage :=
  mkTHPStorage (ob_refcnt o) (ob_type o) (gc_tracked o) n (cleared_slots o)
               (ob_dict o) (cdata o) (gc_finalized o).

Definition with_cleared (l : list TypeId) (o : THPStorage) : THPStorage :=
  mkTHPStorage (ob_refcnt o) (ob_type o) (gc_tracked o) (weakrefs o) l
               (ob_dict o) (cdata o) (gc_finalized o).

Definition with_dict (b : bool) (o : THPStorage) : THPStorage :=
  mkTHPStorage (ob_refcnt o) (ob_type o) (gc_tracked o) (weakrefs o) (cleared_slots o)
               b (cdata o) (gc_finalized o).

Definition with_finalized (b : bool) (o : THPStorage) : THPStorage :=
  mkTHPStorage (ob_refcnt o) (ob_type o) (gc_tracked o) (weakrefs o) (cleared_slots o)
               (ob_dict o) (cdata o) b.

Definition with_tp_refcnt (n : Z) (t : PyTypeObject) : PyTypeObject :=
  mkType (tp_name t) (tp_base t) n (tp_have_gc t) (tp_heaptype t) (tp_finalize t)
         (tp_del t) (tp_weaklistoffset t) (tp_dictoffset t) (tp_size t) (tp_mro t).

(** ** The state-and-exception monad *)

Inductive Res (A : Type) : Type :=
  | Ok (a : A) (st : State)
  | Throw (e : Exn) (st : State).
Arguments Ok {A} a st.
Arguments Throw {A} e st.

Definition M (A : Type) : Type := State → Res A.

Global Instance M_ret : MRet M := λ A a st, Ok a st.
Global Instance M_bind : MBind M := λ A B f m st,
  match m st with
  | Ok a st' => f a st'
  | Throw e st' => Throw e st'
  end.

Definition throw {A} (e : Exn) : M A := λ st, Throw e st.
Definition get_state : M State := λ st, Ok st st.
Definition modify (f : State → State) : M unit := λ st, Ok tt (f st).

Definition final_state {A} (r : Res A) : State :=
  match r with Ok _ st | Throw _ st => st end.

(** A pointer dereference: a pointer that is not in the heap is undefined
    behaviour, which nothing catches. *)
Definition deref_storage (s : StorageId) : M StorageImpl := λ st,
  match storages st !! s with
  | Some i => Ok i st
  | None => Throw undefined_behaviour st
  end.

Definition deref_obj (o : ObjId) : M THPStorage := λ st,
  match objects st !! o with
  | Some w => Ok w st
  | None => Throw undefined_behaviour st
  end.

Definition deref_type (t : TypeId) : M PyTypeObject := λ st,
  match types st !! t with
  | Some ty => Ok ty st
  | None => Throw undefined_behaviour st
  end.

Definition TORCH_CHECK (cond : bool) (e : Error) : M unit :=
  if cond then mret tt else throw (c10_Error e).

Definition TORCH_INTERNAL_ASSERT (cond : bool) (line : Z) : M unit :=
  if cond then mret tt else throw (internal_assert line).

(** ** Host values passed as arguments *)

Inductive PyObject : Type :=
  | PyLong (z : Z)
  | PySlice (start stop step : option Z)
  | PyStr (s : string)
  | PyFloat
  | PyNone
  | PyList (items : list PyObject)
  | PyStorage (o : ObjId).

(** [THPUtils_typename]: [Py_TYPE(obj)->tp_name]. *)
Definition THPUtils_typename (tys : gmap nat PyTypeObject) (objs : gmap nat THPStorage)
    (x : PyObject) : string :=
  match x with
  | PyLong _ => "int"
  | PySlice _ _ _ => "slice"
  | PyStr _ => "str"
  | PyFloat => "float"
  | PyNone => "NoneType"
  | PyList _ => "list"
  | PyStorage o =>
      match objs !! o with
      | Some w => from_option tp_name "" (tys !! ob_type w)
      | None => ""
      end
  end.

Definition THPUtils_checkLong (x : PyObject) : bool :=
  match x with PyLong _ => true | _ => false end.

Definition PySlice_Check (x : PyObject) : bool :=
  match x with PySlice _ _ _ => true | _ => false end.

Definition INT64_MIN : Z := - 2 ^ 63.
Definition INT64_MAX : Z := 2 ^ 63 - 1.

Definition in_int64 (z : Z) : Prop := INT64_MIN ≤ z ≤ INT64_MAX.

(** Two's complement wrap-around of a 64-bit signed result. *)
Definition wrap_int64 (z : Z) : Z := (z + 2 ^ 63) mod 2 ^ 64 - 2 ^ 63.

(** [THPUtils_unpackLong]: the value as an [int64_t], or an exception when
    it does not fit. *)
Definition THPUtils_unpackLong (x : PyObject) : M Z :=
  match x with
  | PyLong z =>
      if (INT64_MIN <=? z) && (z <=? INT64_MAX) then mret z
      else throw (std_exception IntegerOverflow)
  | _ => throw (std_exception IntegerOverflow)
  end.

(** The slice protocol of the host runtime (Objects/sliceobject.c and
    [_PyEval_SliceIndex] of Python/ceval.c, not among the sources).  A slice
    field is an integer or absent. *)
Definition PY_SSIZE_T_MAX : Z := 2 ^ 63 - 1.
Definition PY_SSIZE_T_MIN : Z := - PY_SSIZE_T_MAX - 1.

(** [_PyEval_SliceIndex]: an integer that does not fit [Py_ssize_t] is
    clipped to the nearest end of its range, without an error. *)
Definition _PyEval_SliceIndex (v : Z) : Z :=
  Z.max PY_SSIZE_T_MIN (Z.min PY_SSIZE_T_MAX v).

(** [PySlice_Unpack]: [None] (a [-1] return, error indicator set) for a
    zero step; a step of [PY_SSIZE_T_MIN] is replaced by [-PY_SSIZE_T_MAX]. *)
Definition PySlice_Unpack (start stop step : option Z) : option (Z * Z * Z) :=
  let step0 := from_option _PyEval_SliceIndex 1 step in
  if step0 =? 0 then None
  else
    let step' := if step0 <? - PY_SSIZE_T_MAX then - PY_SSIZE_T_MAX else step0 in
    let start0 :=
      from_option _PyEval_SliceIndex (if step' <? 0 then PY_SSIZE_T_MAX else 0) start in
    let stop0 :=
      from_option _PyEval_SliceIndex
                  (if step' <? 0 then PY_SSIZE_T_MIN else PY_SSIZE_T_MAX) stop in
    Some (start0, stop0, step').

Definition clip_index (len step i : Z) : Z :=
  if i <? 0 then
    (if i + len <? 0 then (if step <? 0 then -1 else 0) else i + len)
  else if len <=? i then (if step <? 0 then len - 1 else len)
  else i.

(** [PySlice_AdjustIndices]: the clipped start and stop and the number of
    positions of the slice. *)
Definition PySlice_AdjustIndices (len start stop step : Z) : Z * Z * Z :=
  let start' := clip_index len step start in
  let stop' := clip_index len step stop in
  let slicelength :=
    if step <? 0 then
      (if stop' <? start' then (start' - stop' - 1) / (- step) + 1 else 0)
    else
      (if start' <? stop' then (stop' - start' - 1) / step + 1 else 0) in
  (start', stop', slicelength).

(** [PySlice_GetIndicesEx], for a sequence of length [len]: the unpacked
    and clipped [(start, stop, step, slicelength)]. *)
Definition PySlice_GetIndicesEx (start stop step : option Z) (len : Z)
    : option (Z * Z * Z * Z) :=
  match PySlice_Unpack start stop step with
  | None => None
  | Some (start0, stop0, step') =>
      let '(start', stop', slicelength) := PySlice_AdjustIndices len start0 stop0 step' in
      Some (start', stop', step', slicelength)
  end.

(** ** The intrusive reference count of a storage *)

Definition intrusive_ptr_incref (s : StorageId) : M unit :=
  i ← deref_storage s;
  modify (set_storages <[s := with_use_count (use_count i + 1) i]>).

(** Modelled from the spec: [c10::raw::intrusive_ptr::decref] and the
    destructor of [c10::StorageImpl] are in c10, which is not among the
    sources.  A resource is destroyed exactly when its count reaches zero;
    its slot dies with it; its release action frees the bytes through the
    allocator, or, for a slice, decrements the parent instead (the deleter
    of line 449).  [None] when the fuel runs out before the chain of
    parents does. *)
Fixpoint decref_chain (fuel : nat) (s : StorageId) (st : State) : option State :=
  match fuel with
  | O => None
  | S fuel' =>
      match storages st !! s with
      | None => Some st
      | Some i =>
          if 1 <? use_count i then
            Some (set_storages <[s := with_use_count (use_count i - 1) i]> st)
          else
            let st' := set_storages (delete s) st in
            match dp_context (data_ptr i) with
            | Some parent => decref_chain fuel' parent st'
            | None => Some (set_buffers (delete (dp_buffer (data_ptr i))) st')
            end
      end
  end.

Definition intrusive_ptr_decref (s : StorageId) : M unit := λ st,
  match decref_chain (S (size (storages st))) s st with
  | Some st' => Ok tt st'
  | None => Throw undefined_behaviour st
  end.

(** ** The wrapper slot *)

(** Modelled from the spec: [PyObjectSlot::check_pyobj] is in c10, which is
    not among the sources.  No value for a slot this interpreter has not
    tagged; otherwise the recorded wrapper, which may be null.  In hermetic
    mode nothing is reported: lines 78 and 89 never register or look up a
    wrapper there. *)
Definition check_pyobj (s : StorageId) : M (option (option ObjId)) :=
  i ← deref_storage s;
  st ← get_state;
  mret (if pyobj_interpreter (pyobj_slot i) then
          (if hermetic st then None else Some (pyobj (pyobj_slot i)))
        else None).

Definition get_owns_pyobj (s : StorageId) : M bool :=
  i ← deref_storage s;
  mret (owns_pyobj (pyobj_slot i)).

Definition set_owns_pyobj (s : StorageId) (b : bool) : M unit :=
  i ← deref_storage s;
  let sl := pyobj_slot i in
  modify (set_storages <[s := with_slot (mkSlot (pyobj_interpreter sl) (pyobj sl) b) i]>).

(** Modelled from the spec: [PyObjectSlot::init_pyobj].  Binding a new
    wrapper registers it into the slot under the supplied status: the slot
    is tagged unless the status says it already is. *)
Definition init_pyobj (s : StorageId) (obj : ObjId) (status : PyInterpreterStatus) : M unit :=
  i ← deref_storage s;
  let sl := pyobj_slot i in
  let tag := match status with
             | TAGGED_BY_US => pyobj_interpreter sl
             | _ => true
             end in
  modify (set_storages <[s := with_slot (mkSlot tag (Some obj) (owns_pyobj sl)) i]>).

(** ** Bytes *)

Definition read_byte (s : StorageId) (idx : Z) : M Z :=
  i ← deref_storage s;
  st ← get_state;
  match buffers st !! dp_buffer (data_ptr i) with
  | Some l =>
      if dp_offset (data_ptr i) + idx <? 0 then throw undefined_behaviour
      else match l !! Z.to_nat (dp_offset (data_ptr i) + idx) with
           | Some b => mret b
           | None => throw undefined_behaviour
           end
  | None => throw undefined_behaviour
  end.

(** [storage.unsafe_data<uint8_t>()[idx] = value]: no bounds check. *)
Definition write_byte (s : StorageId) (idx : Z) (value : Z) : M unit :=
  i ← deref_storage s;
  st ← get_state;
  match buffers st !! dp_buffer (data_ptr i) with
  | Some l =>
      let pos := dp_offset (data_ptr i) + idx in
      if (pos <? 0) || (Z.of_nat (length l) <=? pos) then throw undefined_behaviour
      else modify (set_buffers <[dp_buffer (data_ptr i) := <[Z.to_nat pos := value]> l]>)
  | None => throw undefined_behaviour
  end.

(** Modelled from the spec: [storage_get] and [storage_set] are declared
    in torch/csrc/StorageMethods.h and defined outside the sources.  An
    out-of-range index fails with [IndexOutOfRange{index, length}]; an
    index in range reads or writes that byte. *)
Definition storage_get (s : StorageId) (idx : Z) : M Z :=
  i ← deref_storage s;
  TORCH_CHECK ((0 <=? idx) && (idx <? nbytes i)) (IndexOutOfRange idx (nbytes i));;
  read_byte s idx.

Definition storage_set (s : StorageId) (idx : Z) (value : Z) : M unit :=
  i ← deref_storage s;
  TORCH_CHECK ((0 <=? idx) && (idx <? nbytes i)) (IndexOutOfRange idx (nbytes i));;
  write_byte s idx value.

(** ** Host object primitives *)

Definition Py_INCREF (o : ObjId) : M unit :=
  w ← deref_obj o;
  modify (set_objects <[o := with_refcnt (ob_refcnt w + 1) w]>).

Definition Py_TYPE (o : ObjId) : M TypeId :=
  w ← deref_obj o;
  mret (ob_type w).

Fixpoint subtype_chain (fuel : nat) (tys : gmap nat PyTypeObject) (a b : TypeId) : bool :=
  bool_decide (a = b) ||
  match fuel with
  | O => false
  | S fuel' =>
      match tys !! a with
      | Some ty =>
          match tp_base ty with
          | Some a' => subtype_chain fuel' tys a' b
          | None => false
          end
      | None => false
      end
  end.

(** The types that [a->tp_mro] lists besides the chain of [tp_base]: under
    multiple inheritance, those that come in through the other bases.  A
    type with an instance layout of its own, as [THPStorageType] has
    ([tp_basicsize] is [sizeof(THPStorage)], line 571), is never among
    them: the host makes such a type the [tp_base] of every class that
    inherits from it (best_base of typeobject.c), which is what the loop of
    line 216 relies on. *)
Definition in_mro (tys : gmap nat PyTypeObject) (a b : TypeId) : bool :=
  negb (bool_decide (b = THPStorageType)) &&
  match tys !! a with
  | Some ty => bool_decide (b ∈ tp_mro ty)
  | None => false
  end.

(** Whether [a->tp_mro] lists [b], read off the chain of [tp_base], which
    the order of a type begins from, and the rest of the order.  On a table
    whose orders are as the host builds them this is the plain search of
    [tp_mro] ([is_subtype_mro] below). *)
Definition is_subtype (tys : gmap nat PyTypeObject) (a b : TypeId) : bool :=
  subtype_chain (size tys) tys a b || in_mro tys a b.

(** [PyType_IsSubtype] of the host runtime: is [b] in the method resolution
    order of [a]? *)
Definition PyType_IsSubtype (a b : TypeId) : M bool :=
  st ← get_state;
  mret (is_subtype (types st) a b).

Definition type_name (t : TypeId) : M string :=
  ty ← deref_type t;
  mret (tp_name ty).

(** [type->tp_alloc(type, 0)]: a zero-filled object with one reference.
    The host's allocator is taken never to return null. *)
Definition tp_alloc (type : TypeId) : M ObjId :=
  ty ← deref_type type;
  st ← get_state;
  let o := fresh (dom (objects st)) in
  modify (set_objects <[o := mkTHPStorage 1 type (tp_have_gc ty) 0 [] false borrowed_null false]>);;
  modify (set_types <[type := with_tp_refcnt (tp_refcnt ty + 1) ty]>);;
  mret o.

(** Assignment to [cdata]: the handle that was there is destroyed, which
    releases its reference when it was an owned one. *)
Definition assign_cdata (o : ObjId) (c : MaybeOwned) : M unit :=
  w ← deref_obj o;
  modify (set_objects <[o := with_cdata c w]>);;
  match cdata w with
  | owned s0 => intrusive_ptr_decref s0
  | _ => mret tt
  end.

Definition Py_DECREF_type (t : TypeId) : M unit :=
  ty ← deref_type t;
  modify (set_types <[t := with_tp_refcnt (tp_refcnt ty - 1) ty]>).

Definition PyObject_GC_UnTrack (o : ObjId) : M unit :=
  w ← deref_obj o;
  modify (set_objects <[o := with_tracked false w]>);;
  modify (log_event (EvUnTrack o)).

Definition PyObject_GC_Track (o : ObjId) : M unit :=
  w ← deref_obj o;
  modify (set_objects <[o := with_tracked true w]>);;
  modify (log_event (EvTrack o)).

Definition PyObject_ClearWeakRefs (o : ObjId) : M unit :=
  w ← deref_obj o;
  modify (set_objects <[o := with_weakrefs 0 w]>);;
  modify (log_event (EvClearWeakRefs o)).

(** The loop of line 209: [_PyWeakref_ClearRef] on every entry of the list,
    callbacks not invoked. *)
Definition clear_new_weakrefs (o : ObjId) : M unit :=
  w ← deref_obj o;
  modify (set_objects <[o := with_weakrefs 0 w]>);;
  modify (log_event (EvClearNewWeakRefs o)).

Definition clear_slots (base : TypeId) (o : ObjId) : M unit :=
  w ← deref_obj o;
  modify (set_objects <[o := with_cleared (cleared_slots w ++ [base]) w]>);;
  modify (log_event (EvClearSlots o base)).

(** A by-value [c10::Storage] parameter that has not been moved from is
    destroyed when an exception unwinds the frame. *)
Definition unwinding {A} (s : StorageId) (m : M A) : M A := λ st,
  match m st with
  | Ok a st' => Ok a st'
  | Throw e st' =>
      match intrusive_ptr_decref s st' with
      | Ok _ st'' => Throw e st''
      | Throw e' st'' => Throw e' st''
      end
  end.

(** [try { ... } catch (const std::exception&)]: every C++ exception is a
    [std::exception]; undefined behaviour and divergence are not caught. *)
Definition try_catch {A} (m : M A) : M (option A) := λ st,
  match m st with
  | Ok a st' => Ok (Some a) st'
  | Throw undefined_behaviour st' => Throw undefined_behaviour st'
  | Throw diverges st' => Throw diverges st'
  | Throw _ st' => Ok None st'
  end.

Definition error_of (e : Exn) : option Error :=
  match e with
  | c10_Error err | std_exception err => Some err
  | internal_assert line => Some (InternalAssertFailed line)
  | undefined_behaviour | diverges => None
  end.

(** [HANDLE_TH_ERRORS ... END_HANDLE_TH_ERRORS_RET(retval)]: a C++ exception
    becomes the interpreter's error indicator and [retval] is returned. *)
Definition HANDLE_TH_ERRORS {A} (retval : A) (body : M A) : M A := λ st,
  match body st with
  | Ok a st' => Ok a st'
  | Throw e st' =>
      match error_of e with
      | Some err => Ok retval (set_py_err (Some err) st')
      | None => Throw e st'
      end
  end.

Definition THPUtils_setError (e : Error) : M unit := modify (set_py_err (Some e)).

(** [THPStorage_Unpack(self).unsafeGetStorageImpl()] *)
Definition THPStorage_Unpack (self : ObjId) : M (option StorageId) :=
  w ← deref_obj self;
  mret (unsafeGetStorageImpl (cdata w)).

(** The same where the source dereferences the result unchecked. *)
Definition THPStorage_Unpack_nonnull (self : ObjId) : M StorageId :=
  c ← THPStorage_Unpack self;
  match c with
  | Some s => mret s
  | None => throw undefined_behaviour
  end.

(** The sequence protocol of the host, for the argument of line 342. *)
Fixpoint chars_of (s : string) : list PyObject :=
  match s with
  | EmptyString => []
  | String c s' => PyStr (String c EmptyString) :: chars_of s'
  end.

Definition sequence_items (x : PyObject) : option (list PyObject) :=
  match x with
  | PyList items => Some items
  | PyStr s => Some (chars_of s)
  | _ => None
  end.

Definition PySequence_Check (x : PyObject) : bool := bool_decide (is_Some (sequence_items x)).

Definition PySequence_Length (x : PyObject) : Z :=
  match sequence_items x with
  | Some items => Z.of_nat (length items)
  | None => -1
  end.

(** The constructor's argument shapes, as the argument parser yields them
    (the index of the matching signature of line 255). *)
Inductive Overload : Type :=
  | NoArgs
  | Sized (size : Z)
  | FromSequence (sequence : PyObject).

Definition overload_idx (ov : Overload) : Z :=
  match ov with NoArgs => 0 | Sized _ => 1 | FromSequence _ => 2 end.

(** ** A small concrete heap

    Four types ([StorageBase], the default class [UntypedStorage], a
    subclass of it with a finalizer, weak references, a dict and member
    slots, and an unrelated subclass of the base), and one CPU resource
    holding the bytes 1..5, wrapped by an [UntypedStorage] object. *)

Module Example.

Definition StorageBase : PyTypeObject :=
  mkType "torch._C.StorageBase" None 1 false false false false 0 0 0 [0%nat].
Definition UntypedStorage : PyTypeObject :=
  mkType "UntypedStorage" (Some 0%nat) 5 false true false false 0 16 0 [1%nat; 0%nat].
Definition MyStorage : PyTypeObject :=
  mkType "MyStorage" (Some 1%nat) 5 true true true true 24 16 2 [2%nat; 1%nat; 0%nat].
Definition OtherStorage : PyTypeObject :=
  mkType "OtherStorage" (Some 0%nat) 5 false true false false 0 16 0 [3%nat; 0%nat].

Definition type_table : gmap nat PyTypeObject :=
  <[3%nat := OtherStorage]>
    (<[2%nat := MyStorage]> (<[1%nat := UntypedStorage]> {[0%nat := StorageBase]})).

(** Resource 0 of [count] references; its wrapper 0 of type [ty] with
    [refs] host references and handle [c]; slot flag [owns]. *)
Definition heap (count : Z) (ty : TypeId) (refs : Z) (c : MaybeOwned) (owns herm : bool) : State :=
  mkState {[ 0%nat := mkStorageImpl count 5 true (mkDataPtr 0 0 None) DefaultCPUAllocator kCPU
                                    (mkSlot true (Some 0%nat) owns) ]}
          {[ 0%nat := mkTHPStorage refs ty false 0 [] false c false ]}
          {[ 0%nat := [1; 2; 3; 4; 5] ]}
          type_table 1%nat herm None [].

(** The wrapper holds the only reference. *)
Definition st5 : State := heap 1 1%nat 1 (owned 0%nat) false false.

(** The byte macros as the spec words them: an integer in 0..255. *)
Definition checkReal (x : PyObject) : bool :=
  match x with PyLong _ => true | _ => false end.

Definition unpackReal (x : PyObject) : option Z :=
  match x with
  | PyLong z => if (0 <=? z) && (z <=? 255) then Some z else None
  | _ => None
  end.

(** The allocators of the example give bytes on the device they are for,
    whatever device is current. *)
Definition allocation_device (a : Allocator) (current : option DeviceType) : DeviceType :=
  match a with
  | DefaultCPUAllocator => kCPU
  | CUDACachingAllocator => kCUDA
  | MPSAllocator => kMPS
  | DeviceAllocator d => d
  | RawAllocator _ => kOtherDevice
  end.

End Example.

(** ** The functions of Storage.cpp *)

Section Storage.

(** What the sources leave to headers and to the host: the default of
    [allow_preexisting_pyobj] (declared with the prototype in Storage.h),
    the byte macros [THPByteUtils_checkReal] and [THPByteUtils_unpackReal]
    ([None] where the latter throws), the build flags, the device of the
    bytes an allocator returns, and the code a type's [tp_finalize] and
    [tp_del] hooks run. *)
Context (allow_preexisting_pyobj_default : bool).
Context (THPByteUtils_checkReal : PyObject → bool).
Context (THPByteUtils_unpackReal : PyObject → option Z).
Context (USE_CUDA USE_MPS : bool).
Context (allocation_device : Allocator → option DeviceType → DeviceType).
Context (finalizer_hook del_hook : ObjId → State → State).

(** [c10::make_intrusive<c10::StorageImpl>(use_byte_size_t(), size,
    allocator, resizable)]: a fresh resource with one reference, an empty
    slot and [size] bytes from the allocator, zero-filled.  Its device is
    the device of the bytes [allocator->allocate(size)] returns: the
    allocators are not among the sources, so what an allocator answers,
    under the device [current] that a guard has made current (if any), is
    the parameter [allocation_device]. *)
Definition make_storage (size : Z) (a : Allocator) (current : option DeviceType)
    (resize : bool) : M StorageId :=
  st ← get_state;
  let b := fresh (dom (buffers st)) in
  let s := fresh (dom (storages st)) in
  modify (set_buffers <[b := replicate (Z.to_nat size) 0]>);;
  modify (set_storages <[s := mkStorageImpl 1 size resize (mkDataPtr b 0 None) a
                                            (allocation_device a current) empty_slot]>);;
  mret s.

Definition TORCH_CHECK_msg (cond : bool) (msg : M Error) : M unit :=
  if cond then mret tt else (e ← msg; throw (c10_Error e)).

(** The message of lines 48-52 and 57-63. *)
Definition already_wrapped (type : TypeId) (obj : ObjId) (not_a_subclass : bool) : M Error :=
  requested ← type_name type;
  obj_type ← Py_TYPE obj;
  existing ← type_name obj_type;
  mret (AlreadyWrapped requested existing not_a_subclass).

(** [THPStorage_NewWithStorage] (line 33) and [THPStorage_Wrap] (line 88)
    call each other.  Each body is written over the function it calls; the
    knot is tied below. *)
Definition NewWithStorage_body (Wrap : StorageId → M ObjId)
    (type : TypeId) (_storage : StorageId)
    (status : PyInterpreterStatus) (allow_preexisting_pyobj : bool) : M ObjId :=
  maybe_pyobj ← unwinding _storage (
    sub ← PyType_IsSubtype type THPStorageType;
    TORCH_CHECK sub NotAStorageSubclass;;
    check_pyobj _storage);
  match maybe_pyobj with
  | Some (Some obj) =>
      unwinding _storage (
        TORCH_CHECK_msg allow_preexisting_pyobj (already_wrapped type obj false);;
        obj_type ← Py_TYPE obj;
        sub ← PyType_IsSubtype obj_type type;
        TORCH_CHECK_msg (bool_decide (obj_type = type) || sub)
                        (already_wrapped type obj true));;
      Wrap _storage
  | _ =>
      obj ← unwinding _storage (tp_alloc type);
      s ← deref_obj obj;
      modify (set_objects <[obj := with_cdata borrowed_null s]>);;
      assign_cdata obj (owned _storage);;
      st ← get_state;
      (if hermetic st then mret tt else init_pyobj _storage obj status);;
      mret obj
  end.

Definition Wrap_body
    (NewWithStorage : TypeId → StorageId → PyInterpreterStatus → bool → M ObjId)
    (storage : StorageId) : M ObjId :=
  st ← get_state;
  if hermetic st then
    NewWithStorage (THPStorageClass st) storage DEFINITELY_UNINITIALIZED
                   allow_preexisting_pyobj_default
  else
    maybe_pyobj ← unwinding storage (check_pyobj storage);
    match maybe_pyobj with
    | Some (Some obj) =>
        owns ← unwinding storage (get_owns_pyobj storage);
        if (owns : bool) then
          set_owns_pyobj storage false;;
          assign_cdata obj (owned storage);;
          mret obj
        else
          Py_INCREF obj;;
          intrusive_ptr_decref storage;;
          mret obj
    | Some None =>
        NewWithStorage (THPStorageClass st) storage TAGGED_BY_US
                       allow_preexisting_pyobj_default
    | None =>
        i ← unwinding storage (deref_storage storage);
        NewWithStorage (THPStorageClass st) storage
          (if use_count i <=? 1 then DEFINITELY_UNINITIALIZED else MAYBE_UNINITIALIZED)
          allow_preexisting_pyobj_default
    end.

(** The fuel bounds the depth of the calls. *)
Fixpoint NewWithStorage_fuel (fuel : nat) {struct fuel}
    : TypeId → StorageId → PyInterpreterStatus → bool → M ObjId :=
  match fuel with
  | O => λ _ _ _ _, throw diverges
  | S fuel' => NewWithStorage_body (Wrap_fuel fuel')
  end
with Wrap_fuel (fuel : nat) {struct fuel} : StorageId → M ObjId :=
  match fuel with
  | O => λ _, throw diverges
  | S fuel' => Wrap_body (NewWithStorage_fuel fuel')
  end.

(** Neither function calls the other more than once in a row, so a depth
    of two is enough (see [NewWithStorage_fuel_enough]). *)
Definition THPStorage_NewWithStorage : TypeId → StorageId → PyInterpreterStatus → bool → M ObjId :=
  NewWithStorage_fuel 3.

Definition THPStorage_Wrap : StorageId → M ObjId := Wrap_fuel 3.

(** Line 123. *)
Definition THPStorage_isPreservable (self : ObjId) : M bool :=
  w ← deref_obj self;
  if unsafeIsBorrowed (cdata w) then mret false
  else
    storage ← THPStorage_Unpack_nonnull self;
    maybe_pyobj ← check_pyobj storage;
    if negb (bool_decide (maybe_pyobj = Some (Some self))) then mret false
    else
      i ← deref_storage storage;
      if use_count i <=? 1 then mret false else mret true.

(** Line 139. *)
Definition THPStorage_tryPreserve (self : ObjId) : M bool :=
  preservable ← THPStorage_isPreservable self;
  if negb preservable then mret false
  else
    storage_impl ← THPStorage_Unpack_nonnull self;
    owns ← get_owns_pyobj storage_impl;
    TORCH_INTERNAL_ASSERT (negb owns) 148;;
    set_owns_pyobj storage_impl true;;
    Py_INCREF self;;
    assign_cdata self (borrowed storage_impl);;
    mret true.

(** [PyObject_CallFinalizer] of the host (Objects/object.c, not among the
    sources): [tp_finalize] runs at most once on an object of a type with
    [Py_TPFLAGS_HAVE_GC], which is marked finalized after the call; on an
    object of another type it runs at every call. *)
Definition PyObject_CallFinalizer (self : ObjId) : M unit :=
  w ← deref_obj self;
  ty ← deref_type (ob_type w);
  if negb (tp_finalize ty) then mret tt
  else if tp_have_gc ty && gc_finalized w then mret tt
  else
    modify (log_event (EvFinalizer self));;
    modify (keeping_events (finalizer_hook self));;
    if tp_have_gc ty then
      w' ← deref_obj self;
      modify (set_objects <[self := with_finalized true w']>)
    else mret tt.

(** [PyObject_CallFinalizerFromDealloc] of the host: the object is
    temporarily given one reference, [PyObject_CallFinalizer] runs, the
    reference is taken back; [-1] when references remain. *)
Definition PyObject_CallFinalizerFromDealloc (self : ObjId) : M Z :=
  w ← deref_obj self;
  modify (set_objects <[self := with_refcnt 1 w]>);;
  PyObject_CallFinalizer self;;
  w' ← deref_obj self;
  modify (set_objects <[self := with_refcnt (ob_refcnt w' - 1) w']>);;
  mret (if ob_refcnt w' - 1 =? 0 then 0 else -1).

(** [type->tp_del(self)]: the host's slot for a legacy [__del__], run under
    the same temporary reference. *)
Definition call_tp_del (self : ObjId) : M unit :=
  w ← deref_obj self;
  modify (set_objects <[self := with_refcnt 1 w]>);;
  modify (log_event (EvDel self));;
  modify (keeping_events (del_hook self));;
  w' ← deref_obj self;
  modify (set_objects <[self := with_refcnt (ob_refcnt w' - 1) w']>).

(** The loop of lines 216-223. *)
Fixpoint clear_slots_loop (fuel : nat) (base : TypeId) (self : ObjId) : M unit :=
  if bool_decide (base = THPStorageType) then mret tt
  else
    match fuel with
    | O => throw diverges
    | S fuel' =>
        ty ← deref_type base;
        (if tp_size ty =? 0 then mret tt else clear_slots base self);;
        match tp_base ty with
        | None => throw (internal_assert 222)
        | Some base' => clear_slots_loop fuel' base' self
        end
    end.

(** Lines 227-236. *)
Definition clear_dict (ty : PyTypeObject) (self : ObjId) : M unit :=
  if tp_dictoffset ty =? 0 then mret tt
  else
    w ← deref_obj self;
    if ob_dict w then
      modify (set_objects <[self := with_dict false w]>);;
      modify (log_event (EvClearDict self))
    else mret tt.

(** [_self->cdata.~MaybeOwned<c10::Storage>()] *)
Definition destroy_cdata (self : ObjId) : M unit :=
  w ← deref_obj self;
  modify (log_event (EvDestroyHandle self));;
  match cdata w with
  | owned s => intrusive_ptr_decref s
  | _ => mret tt
  end.

Definition tp_free (self : ObjId) : M unit :=
  modify (set_objects (delete self));;
  modify (log_event (EvFree self)).

(** Lines 164-183, steps 1 and 2 of the teardown sequence: [true] when
    the finalizer resurrected the object (the [return] of line 180). *)
Definition teardown_finalize (ty : PyTypeObject) (self : ObjId) : M bool :=
  (if tp_have_gc ty then PyObject_GC_UnTrack self else mret tt);;
  if tp_finalize ty then
    PyObject_GC_Track self;;
    rc ← PyObject_CallFinalizerFromDealloc self;
    if rc <? 0 then mret true
    else PyObject_GC_UnTrack self;; mret false
  else mret false.

(** Lines 185-198, steps 3 and 4: [true] when [tp_del] resurrected the
    object (the [return] of line 195). *)
Definition teardown_del (ty : PyTypeObject) (self : ObjId) : M bool :=
  (if tp_weaklistoffset ty =? 0 then mret tt else PyObject_ClearWeakRefs self);;
  if tp_del ty then
    PyObject_GC_Track self;;
    call_tp_del self;;
    w ← deref_obj self;
    if 0 <? ob_refcnt w then mret true
    else PyObject_GC_UnTrack self;; mret false
  else mret false.

(** Lines 200-244, steps 5 to 9. *)
Definition teardown_rest (type : TypeId) (ty : PyTypeObject) (self : ObjId) : M unit :=
  let has_finalizer := tp_finalize ty || tp_del ty in
  (if has_finalizer && negb (tp_weaklistoffset ty =? 0)
   then clear_new_weakrefs self else mret tt);;
  st ← get_state;
  clear_slots_loop (S (size (types st))) type self;;
  clear_dict ty self;;
  type' ← Py_TYPE self;
  TORCH_INTERNAL_ASSERT (bool_decide (type' = type)) 238;;
  destroy_cdata self;;
  tp_free self;;
  TORCH_INTERNAL_ASSERT (tp_heaptype ty) 243;;
  modify (log_event (EvDecrefType type));;
  Py_DECREF_type type.

(** Line 157.  Each early [return] of the source is a branch that ends in
    [mret tt]. *)
Definition THPStorage_subclass_dealloc (self : ObjId) : M unit :=
  preserved ← THPStorage_tryPreserve self;
  if (preserved : bool) then mret tt
  else
    type ← Py_TYPE self;
    ty ← deref_type type;
    resurrected ← teardown_finalize ty self;
    if (resurrected : bool) then mret tt
    else
      resurrected ← teardown_del ty self;
      if (resurrected : bool) then mret tt
      else teardown_rest type ty self.

(** [object_dealloc] of the host (Objects/typeobject.c, not among the
    sources), the [tp_dealloc] a static type inherits when its own is null,
    as that of [THPStorageType] is (line 574): the memory goes back to
    [tp_free]; the handle in it is not destroyed. *)
Definition object_dealloc (self : ObjId) : M unit := tp_free self.

(** [Py_DECREF] of the host on a wrapper: the count goes down, and at zero
    the type's [tp_dealloc] runs.  A heap type of the hierarchy is made by
    the metaclass, whose [tp_init] sets [THPStorage_subclass_dealloc] (line
    616); a static type has what it inherits, [object_dealloc]. *)
Definition Py_DECREF (o : ObjId) : M unit :=
  w ← deref_obj o;
  modify (set_objects <[o := with_refcnt (ob_refcnt w - 1) w]>);;
  if ob_refcnt w - 1 =? 0 then
    ty ← deref_type (ob_type w);
    if tp_heaptype ty then THPStorage_subclass_dealloc o else object_dealloc o
  else mret tt.

(** The device branch of lines 288-312: [None] for a device that is not
    recognized. *)
Definition allocator_of_device (d : DeviceType) : option Allocator :=
  match d with
  | kCPU => Some DefaultCPUAllocator
  | kCUDA => if USE_CUDA then Some CUDACachingAllocator else None
  | kMPS => if USE_MPS then Some MPSAllocator else None
  | kXPU => Some (DeviceAllocator kXPU)
  | kMeta => Some (DeviceAllocator kMeta)
  | kOtherDevice => None
  end.

(** The device the guard of line 283 holds when the resource is made: the
    requested device, which line 312 makes current in the device branch. *)
Definition device_guard (allocator_opt : option Z) (device_opt : option DeviceType)
    : option DeviceType :=
  match allocator_opt with
  | Some _ => None
  | None => device_opt
  end.

(** Lines 286-315. *)
Definition resolve_allocator (allocator_opt : option Z) (device_opt : option DeviceType)
    : option Allocator :=
  match allocator_opt, device_opt with
  | Some address, _ => Some (RawAllocator address)
  | None, Some d => allocator_of_device d
  | None, None => Some DefaultCPUAllocator
  end.

Definition unpackReal_or_throw (x : PyObject) : M Z :=
  match THPByteUtils_unpackReal x with
  | Some v => mret v
  | None => throw (std_exception CouldNotParseReal)
  end.

(** The loop of lines 365-375 under the [try] of line 363.  The result is
    the item in hand when an exception was caught, or [None] when the loop
    ran to its end. *)
Fixpoint pynew_fill (a : Allocator) (storage : StorageId) (items : list PyObject) (i : Z)
    : M (option PyObject) :=
  match items with
  | [] => mret None
  | item :: rest =>
      r ← try_catch (
        value ← unpackReal_or_throw item;
        if bool_decide (a = DefaultCPUAllocator) then write_byte storage i value
        else storage_set storage i value);
      match r with
      | None => mret (Some item)
      | Some _ => pynew_fill a storage rest (i + 1)
      end
  end.

Definition typename_of (x : PyObject) : M string :=
  st ← get_state;
  mret (THPUtils_typename (types st) (objects st) x).

(** Line 247, after the argument parser has chosen the signature. *)
Definition THPStorage_pynew (type : TypeId) (ov : Overload)
    (allocator_opt : option Z) (device_opt : option DeviceType) : M (option ObjId) :=
  HANDLE_TH_ERRORS None (
    TORCH_CHECK (negb (bool_decide (type = THPStorageType))) CannotConstructBase;;
    TORCH_CHECK (negb (bool_decide (is_Some allocator_opt)) ||
                 negb (bool_decide (is_Some device_opt))) ConflictingAllocatorSpec;;
    a ← match resolve_allocator allocator_opt device_opt with
        | Some a => mret a
        | None => throw (c10_Error UnsupportedDevice)
        end;
    match ov with
    | NoArgs =>
        s ← make_storage 0 a (device_guard allocator_opt device_opt) true;
        self ← THPStorage_NewWithStorage type s DEFINITELY_UNINITIALIZED
                 allow_preexisting_pyobj_default;
        mret (Some self)
    | Sized size =>
        s ← make_storage size a (device_guard allocator_opt device_opt) true;
        self ← THPStorage_NewWithStorage type s DEFINITELY_UNINITIALIZED
                 allow_preexisting_pyobj_default;
        mret (Some self)
    | FromSequence sequence =>
        let length := PySequence_Length sequence in
        seq_type ← typename_of sequence;
        TORCH_CHECK (PySequence_Check sequence) (NotASequence seq_type);;
        TORCH_CHECK (0 <=? length) (NoSequenceLength seq_type);;
        s ← make_storage length a (device_guard allocator_opt device_opt) true;
        self ← THPStorage_NewWithStorage type s DEFINITELY_UNINITIALIZED
                 allow_preexisting_pyobj_default;
        storage ← THPStorage_Unpack_nonnull self;
        caught ← pynew_fill a storage (default [] (sequence_items sequence)) 0;
        match caught with
        | Some item =>
            item_type ← typename_of item;
            THPUtils_setError (InvalidElementType seq_type item_type);;
            mret None
        | None => mret (Some self)
        end
    end).

(** Line 668. *)
Definition THPStorage_assertNotNull (self : ObjId) : M unit :=
  c ← THPStorage_Unpack self;
  TORCH_CHECK (bool_decide (is_Some c)) NullResource.

(** Line 391. *)
Definition THPStorage_length (self : ObjId) : M Z :=
  HANDLE_TH_ERRORS (-1) (
    THPStorage_assertNotNull self;;
    storage ← THPStorage_Unpack_nonnull self;
    i ← deref_storage storage;
    mret (wrap_int64 (nbytes i))).

Definition THPByteUtils_newReal (value : Z) : PyObject := PyLong value.

(** The resource built at lines 439-454: [slicelength] bytes aliasing the
    old resource's buffer from [start] on, the old resource as deleter
    context, not resizable. *)
Definition make_slice_storage (old : StorageId) (start slicelength : Z) : M StorageId :=
  oi ← deref_storage old;
  st ← get_state;
  let s := fresh (dom (storages st)) in
  modify (set_storages
    <[s := mkStorageImpl 1 slicelength false
             (mkDataPtr (dp_buffer (data_ptr oi)) (dp_offset (data_ptr oi) + start) (Some old))
             (allocator oi) (device oi) empty_slot]>);;
  mret s.

(** Line 398. *)
Definition THPStorage_get (self : ObjId) (index : PyObject) : M (option PyObject) :=
  HANDLE_TH_ERRORS None (
    THPStorage_assertNotNull self;;
    storage ← THPStorage_Unpack_nonnull self;
    match index with
    | PyLong _ =>
        unpacked ← THPUtils_unpackLong index;
        i ← deref_storage storage;
        let nindex := if unpacked <? 0 then wrap_int64 (unpacked + nbytes i) else unpacked in
        if (nindex <? 0) || (wrap_int64 (nbytes i) <=? nindex) then
          THPUtils_setError (IndexOutOfRange nindex (nbytes i));;
          mret None
        else
          value ← storage_get storage nindex;
          mret (Some (THPByteUtils_newReal value))
    | PySlice start0 stop0 step0 =>
        i ← deref_storage storage;
        match PySlice_GetIndicesEx start0 stop0 step0 (wrap_int64 (nbytes i)) with
        | None => THPUtils_setError SliceStepZero;; mret None
        | Some (start, stop, step, slicelength) =>
            if negb (step =? 1) then
              THPUtils_setError (UnsupportedStep step);;
              mret None
            else
              old_storage_impl ← THPStorage_Unpack_nonnull self;
              intrusive_ptr_incref old_storage_impl;;
              new_storage_impl ← make_slice_storage old_storage_impl start slicelength;
              type ← Py_TYPE self;
              _ret ← THPStorage_NewWithStorage type new_storage_impl DEFINITELY_UNINITIALIZED
                       allow_preexisting_pyobj_default;
              mret (Some (PyStorage _ret))
        end
    | _ =>
        index_type ← typename_of index;
        THPUtils_setError (CannotIndexWith index_type);;
        mret None
    end).

(** The loop of line 504, [n] iterations from [start]. *)
Fixpoint set_range (n : nat) (storage : StorageId) (start : Z) (rvalue : Z) : M unit :=
  match n with
  | O => mret tt
  | S n' => storage_set storage start rvalue;; set_range n' storage (start + 1) rvalue
  end.

(** Line 471. *)
Definition THPStorage_set (self : ObjId) (index value : PyObject) : M Z :=
  HANDLE_TH_ERRORS (-1) (
    THPStorage_assertNotNull self;;
    if negb (THPByteUtils_checkReal value) then
      value_type ← typename_of value;
      THPUtils_setError (InvalidValueType value_type);;
      mret (-1)
    else
      rvalue ← unpackReal_or_throw value;
      storage ← THPStorage_Unpack_nonnull self;
      match index with
      | PyLong _ =>
          nindex ← THPUtils_unpackLong index;
          storage_set storage nindex rvalue;;
          mret 0
      | PySlice start0 stop0 step0 =>
          i ← deref_storage storage;
          match PySlice_GetIndicesEx start0 stop0 step0 (wrap_int64 (nbytes i)) with
          | None => THPUtils_setError SliceStepZero;; mret (-1)
          | Some (start, stop, step, slicelength) =>
              if negb (step =? 1) then
                THPUtils_setError (UnsupportedStep step);;
                mret 0
              else
                set_range (Z.to_nat (stop - start)) storage start rvalue;;
                mret 0
          end
      | _ =>
          index_type ← typename_of index;
          THPUtils_setError (CannotIndexWith index_type);;
          mret (-1)
      end).

(** ** Views of the state used in the statements *)

(** The bytes of a resource: [nbytes] bytes of its buffer from its offset
    on, when the buffer holds that many. *)
Definition bytes_of (st : State) (s : StorageId) : option (list Z) :=
  i ← storages st !! s;
  l ← buffers st !! dp_buffer (data_ptr i);
  if (0 <=? dp_offset (data_ptr i)) && (0 <=? nbytes i) &&
     (dp_offset (data_ptr i) + nbytes i <=? Z.of_nat (length l))
  then Some (take (Z.to_nat (nbytes i)) (drop (Z.to_nat (dp_offset (data_ptr i))) l))
  else None.

(** The resource a wrapper's handle points to. *)
Definition resource_of (st : State) (self : ObjId) : option StorageId :=
  w ← objects st !! self;
  unsafeGetStorageImpl (cdata w).

(** ** Evaluation lemmas for the primitives *)

Lemma bind_ok {A B} (m : M A) (k : A → M B) st a st' :
  m st = Ok a st' → (m ≫= k) st = k a st'.
Proof. intros H. unfold mbind, M_bind. by rewrite H. Qed.

Lemma bind_throw {A B} (m : M A) (k : A → M B) st e st' :
  m st = Throw e st' → (m ≫= k) st = Throw e st'.
Proof. intros H. unfold mbind, M_bind. by rewrite H. Qed.

Lemma deref_obj_ok st o w : objects st !! o = Some w → deref_obj o st = Ok w st.
Proof. intros H. unfold deref_obj. by rewrite H. Qed.

Lemma deref_obj_inv st o w st' :
  deref_obj o st = Ok w st' → st' = st ∧ objects st !! o = Some w.
Proof.
  unfold deref_obj. destruct (objects st !! o); [|done]. by intros [= <- <-].
Qed.

Lemma deref_storage_ok st s i : storages st !! s = Some i → deref_storage s st = Ok i st.
Proof. intros H. unfold deref_storage. by rewrite H. Qed.

Lemma deref_type_ok st t ty : types st !! t = Some ty → deref_type t st = Ok ty st.
Proof. intros H. unfold deref_type. by rewrite H. Qed.

Lemma resource_of_Some st self s :
  resource_of st self = Some s →
  ∃ w, objects st !! self = Some w ∧ unsafeGetStorageImpl (cdata w) = Some s.
Proof.
  unfold resource_of. destruct (objects st !! self) as [w|]; simpl; [|done].
  intros H. by exists w.
Qed.

Lemma Unpack_nonnull_ok st self s :
  resource_of st self = Some s → THPStorage_Unpack_nonnull self st = Ok s st.
Proof.
  intros (w & Hw & Hs)%resource_of_Some.
  unfold THPStorage_Unpack_nonnull, THPStorage_Unpack.
  rewrite (bind_ok _ _ st (Some s) st); [done|].
  by rewrite (bind_ok _ _ st w st (deref_obj_ok _ _ _ Hw)), <- Hs.
Qed.

Lemma assertNotNull_ok st self s :
  resource_of st self = Some s → THPStorage_assertNotNull self st = Ok tt st.
Proof.
  intros (w & Hw & Hs)%resource_of_Some.
  unfold THPStorage_assertNotNull, THPStorage_Unpack.
  rewrite (bind_ok _ _ st (Some s) st); [done|].
  by rewrite (bind_ok _ _ st w st (deref_obj_ok _ _ _ Hw)), <- Hs.
Qed.

Lemma bytes_of_Some st s bs :
  bytes_of st s = Some bs →
  ∃ i l, storages st !! s = Some i ∧ buffers st !! dp_buffer (data_ptr i) = Some l ∧
         0 ≤ dp_offset (data_ptr i) ∧ 0 ≤ nbytes i ∧
         dp_offset (data_ptr i) + nbytes i ≤ Z.of_nat (length l) ∧
         bs = take (Z.to_nat (nbytes i)) (drop (Z.to_nat (dp_offset (data_ptr i))) l).
Proof.
  unfold bytes_of. destruct (storages st !! s) as [i|]; simpl; [|done].
  destruct (buffers st !! dp_buffer (data_ptr i)) as [l|] eqn:El; simpl; [|done].
  destruct (_ && _) eqn:E; [|done].
  intros [= <-]. exists i, l.
  apply andb_true_iff in E as [[E1 E2]%andb_true_iff E3].
  apply Z.leb_le in E1, E2, E3. by repeat split.
Qed.

Lemma bytes_of_length st s bs i :
  bytes_of st s = Some bs → storages st !! s = Some i → Z.of_nat (length bs) = nbytes i.
Proof.
  intros (i' & l & Hi & Hl & H0 & H1 & H2 & ->)%bytes_of_Some Hi'.
  assert (i' = i) as -> by congruence.
  rewrite length_take, length_drop. lia.
Qed.

(** Reading inside the resource yields the byte of the view. *)
Lemma read_byte_ok st s bs idx b :
  bytes_of st s = Some bs → 0 ≤ idx → bs !! Z.to_nat idx = Some b →
  read_byte s idx st = Ok b st.
Proof.
  intros (i & l & Hi & Hl & H0 & H1 & H2 & ->)%bytes_of_Some Hidx Hb.
  unfold read_byte.
  rewrite (bind_ok _ _ st i st (deref_storage_ok _ _ _ Hi)).
  unfold get_state, mbind, M_bind. rewrite Hl.
  apply lookup_take_Some in Hb as [Hb Hlt]. rewrite lookup_drop in Hb.
  destruct (_ <? 0) eqn:E; [lia|].
  replace (Z.to_nat (dp_offset (data_ptr i) + idx))
    with (Z.to_nat (dp_offset (data_ptr i)) + Z.to_nat idx)%nat by lia.
  by rewrite Hb.
Qed.

Lemma storage_get_ok st s bs idx b :
  bytes_of st s = Some bs → 0 ≤ idx → bs !! Z.to_nat idx = Some b →
  storage_get s idx st = Ok b st.
Proof.
  intros Hbs Hidx Hb.
  pose proof Hbs as (i & l & Hi & _)%bytes_of_Some.
  pose proof (bytes_of_length _ _ _ _ Hbs Hi) as Hlen.
  apply lookup_lt_Some in Hb as Hlt.
  unfold storage_get.
  rewrite (bind_ok _ _ st i st (deref_storage_ok _ _ _ Hi)).
  unfold TORCH_CHECK.
  replace ((0 <=? idx) && (idx <? nbytes i)) with true
    by (symmetry; apply andb_true_iff; split; lia).
  rewrite (bind_ok _ _ st tt st); [|done].
  by eapply read_byte_ok.
Qed.

Lemma wrap_int64_id z : in_int64 z → wrap_int64 z = z.
Proof.
  unfold in_int64, INT64_MIN, INT64_MAX, wrap_int64. intros H.
  rewrite Z.mod_small; lia.
Qed.

(** ** Byte access: integer index of [THPStorage_get] *)

(** The index as line 407 compares it. *)
Definition normalised (len z : Z) : Z := if z <? 0 then z + len else z.

Lemma get_int_eval st self s bs z :
  resource_of st self = Some s → bytes_of st s = Some bs →
  in_int64 z → Z.of_nat (length bs) ≤ INT64_MAX →
  let len := Z.of_nat (length bs) in
  THPStorage_get self (PyLong z) st =
    if (normalised len z <? 0) || (len <=? normalised len z) then
      Ok None (set_py_err (Some (IndexOutOfRange (normalised len z) len)) st)
    else
      match bs !! Z.to_nat (normalised len z) with
      | Some b => Ok (Some (PyLong b)) st
      | None => Throw undefined_behaviour st
      end.
Proof.
  intros Hres Hbs Hz Hmax len.
  pose proof Hbs as (i & l & Hi & _)%bytes_of_Some.
  pose proof (bytes_of_length _ _ _ _ Hbs Hi) as Hlen. fold len in Hlen.
  assert (in_int64 len) as Hlen64.
  { unfold in_int64, INT64_MIN in *. lia. }
  unfold THPStorage_get, HANDLE_TH_ERRORS.
  rewrite (bind_ok _ _ st tt st (assertNotNull_ok _ _ _ Hres)).
  rewrite (bind_ok _ _ st s st (Unpack_nonnull_ok _ _ _ Hres)).
  assert (THPUtils_unpackLong (PyLong z) st = Ok z st) as Hunpack.
  { unfold THPUtils_unpackLong. destruct Hz as [Hz1 Hz2].
    apply Z.leb_le in Hz1, Hz2. by rewrite Hz1, Hz2. }
  rewrite (bind_ok _ _ st z st Hunpack).
  rewrite (bind_ok _ _ st i st (deref_storage_ok _ _ _ Hi)).
  rewrite <- Hlen, (wrap_int64_id len Hlen64).
  assert ((if z <? 0 then wrap_int64 (z + len) else z) = normalised len z) as ->.
  { unfold normalised. destruct (z <? 0) eqn:E; [|done].
    apply wrap_int64_id. unfold in_int64, INT64_MIN, INT64_MAX in *. lia. }
  destruct ((normalised len z <? 0) || (len <=? normalised len z)) eqn:Hout.
  - done.
  - apply orb_false_iff in Hout as [H1 H2].
    destruct (bs !! Z.to_nat (normalised len z)) as [b|] eqn:Hb.
    + rewrite (bind_ok _ _ st b st); [done|].
      eapply storage_get_ok; [done|lia|done].
    + apply lookup_ge_None in Hb. lia.
Qed.

(** An index that does not fit [int64_t] is refused by
    [THPUtils_unpackLong] (line 404), before any bound is looked at. *)
Lemma get_int_overflow st self s z :
  resource_of st self = Some s → ¬ in_int64 z →
  THPStorage_get self (PyLong z) st = Ok None (set_py_err (Some IntegerOverflow) st).
Proof.
  intros Hres Hz. unfold THPStorage_get, HANDLE_TH_ERRORS.
  rewrite (bind_ok _ _ st tt st (assertNotNull_ok _ _ _ Hres)).
  rewrite (bind_ok _ _ st s st (Unpack_nonnull_ok _ _ _ Hres)).
  assert (THPUtils_unpackLong (PyLong z) st = Throw (std_exception IntegerOverflow) st)
    as Hunpack.
  { unfold THPUtils_unpackLong, in_int64 in *.
    destruct ((INT64_MIN <=? z) && (z <=? INT64_MAX)) eqn:E; [|done].
    apply andb_true_iff in E as [?%Z.leb_le ?%Z.leb_le]. lia. }
  by rewrite (bind_throw _ _ _ _ _ Hunpack).
Qed.

(** C8 (as amended): at an integer index [z], for a resource of [len]
    bytes, [THPStorage_get] returns the byte at position [len + z] when
    [-len <= z < 0].  When [z] is outside [[-len, len)] and fits [int64_t],
    it fails with [IndexOutOfRange] carrying the length and the index as
    line 407 compares it, which is [z] itself for [z >= len] and [z + len]
    for [z < -len]; when [z] does not fit [int64_t], it fails with the
    overflow error of the conversion instead. *)
Theorem get_integer_index st self s bs z :
  resource_of st self = Some s → bytes_of st s = Some bs →
  Z.of_nat (length bs) ≤ INT64_MAX →
  let len := Z.of_nat (length bs) in
  (- len ≤ z < 0 →
     ∃ b, bs !! Z.to_nat (len + z) = Some b ∧
          THPStorage_get self (PyLong z) st = Ok (Some (PyLong b)) st) ∧
  (len ≤ z ≤ INT64_MAX →
     THPStorage_get self (PyLong z) st =
       Ok None (set_py_err (Some (IndexOutOfRange z len)) st)) ∧
  (INT64_MIN ≤ z < - len →
     THPStorage_get self (PyLong z) st =
       Ok None (set_py_err (Some (IndexOutOfRange (z + len) len)) st)) ∧
  (z < INT64_MIN ∨ INT64_MAX < z →
     THPStorage_get self (PyLong z) st =
       Ok None (set_py_err (Some IntegerOverflow) st)).
Proof.
  intros Hres Hbs Hmax len.
  assert (in_int64 z →
          THPStorage_get self (PyLong z) st =
            if (normalised len z <? 0) || (len <=? normalised len z) then
              Ok None (set_py_err (Some (IndexOutOfRange (normalised len z) len)) st)
            else
              match bs !! Z.to_nat (normalised len z) with
              | Some b => Ok (Some (PyLong b)) st
              | None => Throw undefined_behaviour st
              end) as Heval.
  { intros Hz. exact (get_int_eval st self s bs z Hres Hbs Hz Hmax). }
  unfold normalised in Heval.
  assert (INT64_MIN < 0) as Hmin by done.
  split; [|split; [|split]]; intros Hrange.
  - destruct (lookup_lt_is_Some_2 bs (Z.to_nat (len + z))) as [b Hb]; [lia|].
    exists b. split; [done|].
    rewrite Heval by (unfold in_int64, INT64_MIN, INT64_MAX in *; lia).
    replace (z <? 0) with true by lia.
    replace ((z + len <? 0) || (len <=? z + len)) with false by lia.
    by rewrite (Z.add_comm z len), Hb.
  - rewrite Heval by (unfold in_int64, INT64_MIN in *; lia).
    replace (z <? 0) with false by lia.
    by replace ((z <? 0) || (len <=? z)) with true by lia.
  - rewrite Heval by (unfold in_int64, INT64_MAX in *; lia).
    replace (z <? 0) with true by lia.
    by replace ((z + len <? 0) || (len <=? z + len)) with true by lia.
  - apply (get_int_overflow st self s z Hres). unfold in_int64. lia.
Qed.

(** ** The reference count of a resource *)

(** Everything but the storages and their buffers. *)
Definition host_side_unchanged (st st' : State) : Prop :=
  objects st' = objects st ∧ types st' = types st ∧
  THPStorageClass st' = THPStorageClass st ∧ hermetic st' = hermetic st ∧
  py_err st' = py_err st ∧ events st' = events st.

Lemma host_side_unchanged_refl st : host_side_unchanged st st.
Proof. by repeat split. Qed.

Lemma host_side_unchanged_trans st1 st2 st3 :
  host_side_unchanged st1 st2 → host_side_unchanged st2 st3 → host_side_unchanged st1 st3.
Proof.
  unfold host_side_unchanged. intros (?&?&?&?&?&?) (?&?&?&?&?&?).
  repeat split; congruence.
Qed.

(** Releasing a reference always returns: each resource destroyed on the
    way leaves the heap, so the chain of parents is shorter than the fuel. *)
Lemma decref_chain_total fuel : ∀ s st,
  (size (storages st) < fuel)%nat →
  ∃ st', decref_chain fuel s st = Some st' ∧ host_side_unchanged st st'.
Proof.
  induction fuel as [|fuel IH]; intros s st Hlt; [lia|].
  simpl. destruct (storages st !! s) as [i|] eqn:Hi.
  - destruct (1 <? use_count i).
    + eexists. split; [done|]. by repeat split.
    + destruct (dp_context (data_ptr i)) as [parent|].
      * destruct (IH parent (set_storages (delete s) st)) as (st' & Hst' & Hframe).
        { simpl. rewrite map_size_delete_Some by eauto.
          assert (size (storages st) ≠ 0%nat); [|lia].
          intros Hz. apply map_size_empty_inv in Hz. rewrite Hz in Hi.
          by rewrite lookup_empty in Hi. }
        exists st'. split; [done|].
        eapply host_side_unchanged_trans; [|exact Hframe]. by repeat split.
      * eexists. split; [done|]. by repeat split.
  - exists st. split; [done|]. apply host_side_unchanged_refl.
Qed.

Lemma intrusive_ptr_decref_total s st :
  ∃ st', intrusive_ptr_decref s st = Ok tt st' ∧ host_side_unchanged st st'.
Proof.
  destruct (decref_chain_total (S (size (storages st))) s st) as (st' & H & Hframe); [lia|].
  exists st'. unfold intrusive_ptr_decref. by rewrite H.
Qed.

(** A reference that is not the last one is just counted down. *)
Lemma intrusive_ptr_decref_shared st s i :
  storages st !! s = Some i → 1 < use_count i →
  intrusive_ptr_decref s st =
    Ok tt (set_storages <[s := with_use_count (use_count i - 1) i]> st).
Proof.
  intros Hi Hc. unfold intrusive_ptr_decref. simpl. rewrite Hi.
  by replace (1 <? use_count i) with true by lia.
Qed.

Lemma unwinding_ok {A} s (m : M A) st a st' :
  m st = Ok a st' → unwinding s m st = Ok a st'.
Proof. intros H. unfold unwinding. by rewrite H. Qed.

(** ** The slot as the interpreter reads it *)

Definition observed_pyobj (st : State) (i : StorageImpl) : option (option ObjId) :=
  if pyobj_interpreter (pyobj_slot i) then
    (if hermetic st then None else Some (pyobj (pyobj_slot i)))
  else None.

Lemma check_pyobj_ok st s i :
  storages st !! s = Some i → check_pyobj s st = Ok (observed_pyobj st i) st.
Proof.
  intros Hi. unfold check_pyobj.
  by rewrite (bind_ok _ _ st i st (deref_storage_ok _ _ _ Hi)).
Qed.

Lemma get_owns_pyobj_ok st s i :
  storages st !! s = Some i → get_owns_pyobj s st = Ok (owns_pyobj (pyobj_slot i)) st.
Proof.
  intros Hi. unfold get_owns_pyobj.
  by rewrite (bind_ok _ _ st i st (deref_storage_ok _ _ _ Hi)).
Qed.

Lemma set_owns_pyobj_ok st s i b :
  storages st !! s = Some i →
  set_owns_pyobj s b st =
    Ok tt (set_storages
             <[s := with_slot (mkSlot (pyobj_interpreter (pyobj_slot i))
                                      (pyobj (pyobj_slot i)) b) i]> st).
Proof.
  intros Hi. unfold set_owns_pyobj.
  by rewrite (bind_ok _ _ st i st (deref_storage_ok _ _ _ Hi)).
Qed.

Lemma Py_INCREF_ok st o w :
  objects st !! o = Some w →
  Py_INCREF o st = Ok tt (set_objects <[o := with_refcnt (ob_refcnt w + 1) w]> st).
Proof.
  intros Hw. unfold Py_INCREF.
  by rewrite (bind_ok _ _ st w st (deref_obj_ok _ _ _ Hw)).
Qed.

(** Assigning a handle over one that owned nothing releases nothing. *)
Lemma assign_cdata_over_borrowed st o w c :
  objects st !! o = Some w → unsafeIsBorrowed (cdata w) = true →
  assign_cdata o c st = Ok tt (set_objects <[o := with_cdata c w]> st).
Proof.
  intros Hw Hb. unfold assign_cdata.
  rewrite (bind_ok _ _ st w st (deref_obj_ok _ _ _ Hw)).
  unfold modify, mbind, M_bind. by destruct (cdata w).
Qed.

Lemma assign_cdata_total st o w c :
  objects st !! o = Some w →
  ∃ st', assign_cdata o c st = Ok tt st' ∧
         objects st' = <[o := with_cdata c w]> (objects st) ∧
         types st' = types st ∧ hermetic st' = hermetic st ∧
         THPStorageClass st' = THPStorageClass st ∧
         py_err st' = py_err st ∧ events st' = events st.
Proof.
  intros Hw. unfold assign_cdata.
  rewrite (bind_ok _ _ st w st (deref_obj_ok _ _ _ Hw)).
  unfold modify, mbind, M_bind.
  destruct (cdata w) as [s0| |].
  - destruct (intrusive_ptr_decref_total s0 (set_objects <[o:=with_cdata c w]> st))
      as (st' & -> & (H1 & H2 & H3 & H4 & H5 & H6)).
    exists st'. by repeat split.
  - eexists. by repeat split.
  - eexists. by repeat split.
Qed.

(** ** Wrapping a resource that has a wrapper *)

(** Outside hermetic mode, with a wrapper in the slot, [THPStorage_Wrap]
    is the branch of lines 102-110, whatever the depth left. *)
Lemma Wrap_fuel_existing n st s i obj :
  hermetic st = false → storages st !! s = Some i →
  observed_pyobj st i = Some (Some obj) →
  Wrap_fuel (S n) s st =
    if owns_pyobj (pyobj_slot i) then
      (set_owns_pyobj s false;; assign_cdata obj (owned s);; mret obj) st
    else
      (Py_INCREF obj;; intrusive_ptr_decref s;; mret obj) st.
Proof.
  intros Hh Hi Hobs. simpl. unfold Wrap_body.
  rewrite (bind_ok _ _ st st st) by done. rewrite Hh.
  rewrite (bind_ok _ _ st (Some (Some obj)) st).
  2:{ apply unwinding_ok. by rewrite (check_pyobj_ok _ _ _ Hi), Hobs. }
  rewrite (bind_ok _ _ st (owns_pyobj (pyobj_slot i)) st).
  2:{ apply unwinding_ok. by apply get_owns_pyobj_ok. }
  by destruct (owns_pyobj (pyobj_slot i)).
Qed.

(** ** Preservation *)

(** The state a successful preservation leaves: the slot owns the wrapper,
    the wrapper has one more host reference and borrows the resource, and
    the reference the wrapper's handle held on the resource is released. *)
Definition preserved_state (st : State) (self : ObjId) (w : THPStorage)
    (s : StorageId) (i : StorageImpl) : State :=
  set_storages
    <[s := with_use_count (use_count i - 1)
             (with_slot (mkSlot (pyobj_interpreter (pyobj_slot i))
                                (pyobj (pyobj_slot i)) true) i)]>
    (set_objects
       <[self := with_cdata (borrowed s) (with_refcnt (ob_refcnt w + 1) w)]> st).

Lemma isPreservable_eval st self w s i :
  objects st !! self = Some w → unsafeGetStorageImpl (cdata w) = Some s →
  storages st !! s = Some i →
  THPStorage_isPreservable self st =
    Ok (negb (unsafeIsBorrowed (cdata w)) &&
        bool_decide (observed_pyobj st i = Some (Some self)) &&
        (1 <? use_count i)) st.
Proof.
  intros Hw Hs Hi. unfold THPStorage_isPreservable.
  rewrite (bind_ok _ _ st w st (deref_obj_ok _ _ _ Hw)).
  destruct (unsafeIsBorrowed (cdata w)) eqn:Hb; [done|].
  assert (resource_of st self = Some s) as Hres.
  { unfold resource_of. by rewrite Hw. }
  rewrite (bind_ok _ _ st s st (Unpack_nonnull_ok _ _ _ Hres)).
  rewrite (bind_ok _ _ st _ st (check_pyobj_ok _ _ _ Hi)).
  destruct (bool_decide (observed_pyobj st i = Some (Some self))); [|done].
  cbn [negb]. rewrite (bind_ok _ _ st i st (deref_storage_ok _ _ _ Hi)). simpl.
  rewrite Z.leb_antisym. by destruct (1 <? use_count i).
Qed.





(** ** [THPStorage_NewWithStorage] on a resource that has a wrapper *)

Lemma bind_ext_on {A B} (m : M A) (k1 k2 : A → M B) st :
  (∀ a st', m st = Ok a st' → k1 a st' = k2 a st') →
  (m ≫= k1) st = (m ≫= k2) st.
Proof.
  intros H. unfold mbind, M_bind. destruct (m st) as [a st'|e st'] eqn:Hm; [|done].
  by apply H.
Qed.

Lemma PyType_IsSubtype_ok st a b :
  PyType_IsSubtype a b st = Ok (is_subtype (types st) a b) st.
Proof. done. Qed.

(** A table of types whose method resolution orders are as the host
    builds them: the order of a type lists the chain of its [tp_base], and
    lists [THPStorageType] only when that chain reaches it. *)
Definition mro_consistent (tys : gmap nat PyTypeObject) : Prop :=
  ∀ a ty, tys !! a = Some ty →
    (∀ b, subtype_chain (size tys) tys a b = true → b ∈ tp_mro ty) ∧
    (THPStorageType ∈ tp_mro ty → subtype_chain (size tys) tys a THPStorageType = true).

(** On such a table [is_subtype] is the search of [tp_mro] that
    [PyType_IsSubtype] does. *)
Lemma is_subtype_mro tys a ty b :
  mro_consistent tys → tys !! a = Some ty →
  is_subtype tys a b = bool_decide (b ∈ tp_mro ty).
Proof.
  intros Hwf Ha. destruct (Hwf a ty Ha) as [Hchain Hbase].
  unfold is_subtype, in_mro. rewrite Ha.
  destruct (subtype_chain (size tys) tys a b) eqn:Hsub.
  - simpl. symmetry. apply bool_decide_eq_true_2. auto.
  - simpl. destruct (decide (b = THPStorageType)) as [->|Hne].
    + rewrite bool_decide_eq_true_2 by done. simpl.
      rewrite bool_decide_eq_false_2; [done|]. intros Hin. by rewrite Hbase in Hsub.
    + by rewrite (bool_decide_eq_false_2 (b = THPStorageType)).
Qed.

(** The chain of [tp_base] from [a], as a list, and the consistency of a
    table as a test. *)
Fixpoint base_chain (fuel : nat) (tys : gmap nat PyTypeObject) (a : TypeId) : list TypeId :=
  a :: match fuel with
       | O => []
       | S fuel' =>
           match tys !! a with
           | Some ty =>
               match tp_base ty with
               | Some a' => base_chain fuel' tys a'
               | None => []
               end
           | None => []
           end
       end.

Lemma subtype_chain_base_chain tys b fuel : ∀ a,
  subtype_chain fuel tys a b = bool_decide (b ∈ base_chain fuel tys a).
Proof.
  assert (∀ a l, a ≠ b → b ∈ a :: l ↔ b ∈ l) as Htail.
  { intros a l Hne. rewrite elem_of_cons. split; [intros [->|?]|]; by auto. }
  induction fuel as [|fuel IH]; intros a; simpl.
  - rewrite orb_false_r. apply bool_decide_ext.
    rewrite elem_of_cons, elem_of_nil. split; [by auto|]. by intros [->|[]].
  - destruct (decide (a = b)) as [->|Hne].
    + rewrite !bool_decide_eq_true_2; [done|apply elem_of_cons; by left|done].
    + rewrite (bool_decide_eq_false_2 (a = b)) by done. simpl.
      destruct (tys !! a) as [ty|]; [destruct (tp_base ty) as [a'|]|].
      * rewrite IH. apply bool_decide_ext. by rewrite Htail.
      * symmetry. apply bool_decide_eq_false_2. rewrite Htail by done. apply not_elem_of_nil.
      * symmetry. apply bool_decide_eq_false_2. rewrite Htail by done. apply not_elem_of_nil.
Qed.

Definition mro_check (tys : gmap nat PyTypeObject) : bool :=
  bool_decide
    (map_Forall (λ a ty,
       Forall (λ b, b ∈ tp_mro ty) (base_chain (size tys) tys a) ∧
       (THPStorageType ∈ tp_mro ty → THPStorageType ∈ base_chain (size tys) tys a)) tys).

Lemma mro_check_consistent tys : mro_check tys = true → mro_consistent tys.
Proof.
  intros Hall%bool_decide_eq_true a ty Ha. destruct (Hall a ty Ha) as [Hchain Hbase].
  split.
  - intros b Hb. rewrite subtype_chain_base_chain in Hb.
    apply bool_decide_eq_true in Hb. by apply (proj1 (Forall_forall _ _) Hchain).
  - intros Hin. rewrite subtype_chain_base_chain. apply bool_decide_eq_true_2. auto.
Qed.

(** Whether a type derives from the Storage base is read off the chain of
    [tp_base]. *)
Lemma is_subtype_base tys a :
  is_subtype tys a THPStorageType = subtype_chain (size tys) tys a THPStorageType.
Proof.
  unfold is_subtype, in_mro. rewrite bool_decide_eq_true_2 by done.
  by rewrite orb_false_r.
Qed.

(** The checks of lines 38-44. *)
Lemma NewWithStorage_entry st type s :
  unwinding s (sub ← PyType_IsSubtype type THPStorageType;
               TORCH_CHECK sub NotAStorageSubclass;;
               check_pyobj s) st =
    if subtype_chain (size (types st)) (types st) type THPStorageType then
      match storages st !! s with
      | Some i => Ok (observed_pyobj st i) st
      | None => Throw undefined_behaviour st
      end
    else unwinding s (throw (c10_Error NotAStorageSubclass)) st.
Proof.
  unfold unwinding. rewrite (bind_ok _ _ _ _ _ (PyType_IsSubtype_ok _ _ _)).
  rewrite is_subtype_base.
  destruct (subtype_chain _ _ _ _); [|done]. simpl.
  rewrite (bind_ok _ _ st tt st) by done.
  destruct (storages st !! s) as [i|] eqn:Hi.
  - by rewrite (check_pyobj_ok _ _ _ Hi).
  - unfold check_pyobj, deref_storage, mbind, M_bind. rewrite Hi.
    unfold intrusive_ptr_decref. simpl. by rewrite Hi.
Qed.

Lemma unwinding_check_pyobj st s :
  unwinding s (check_pyobj s) st =
    match storages st !! s with
    | Some i => Ok (observed_pyobj st i) st
    | None => Throw undefined_behaviour st
    end.
Proof.
  destruct (storages st !! s) as [i|] eqn:Hi.
  - apply unwinding_ok. by apply check_pyobj_ok.
  - unfold unwinding, check_pyobj, deref_storage, mbind, M_bind. rewrite Hi.
    unfold intrusive_ptr_decref. simpl. by rewrite Hi.
Qed.

Lemma unwinding_throw_inv {A} s (m : M A) st a st' :
  unwinding s m st = Ok a st' → m st = Ok a st'.
Proof.
  unfold unwinding. destruct (m st) as [a0 st0|e st0]; [done|].
  by destruct (intrusive_ptr_decref s st0).
Qed.

(** With no wrapper reported, line 67 is reached and [THPStorage_Wrap] is
    not called. *)
Lemma NewWithStorage_body_no_wrapper wrap1 wrap2 st type s status allow :
  (∀ i obj, storages st !! s = Some i → observed_pyobj st i ≠ Some (Some obj)) →
  NewWithStorage_body wrap1 type s status allow st =
  NewWithStorage_body wrap2 type s status allow st.
Proof.
  intros Hnone. unfold NewWithStorage_body.
  apply bind_ext_on. intros a st' Hentry.
  rewrite NewWithStorage_entry in Hentry.
  destruct (subtype_chain _ _ _ _).
  - destruct (storages st !! s) as [i|] eqn:Hi; [|done].
    injection Hentry as <- <-.
    specialize (Hnone i). destruct (observed_pyobj st i) as [[obj|]|]; [|done..].
    by destruct (Hnone obj).
  - unfold unwinding, throw in Hentry. by destruct (intrusive_ptr_decref s st).
Qed.

Lemma observed_pyobj_hermetic st i obj :
  observed_pyobj st i = Some (Some obj) →
  hermetic st = false ∧ pyobj_interpreter (pyobj_slot i) = true ∧
  pyobj (pyobj_slot i) = Some obj.
Proof.
  unfold observed_pyobj.
  destruct (pyobj_interpreter (pyobj_slot i)), (hermetic st); naive_solver.
Qed.

Lemma bind_ok_inv {A B} (m : M A) (k : A → M B) st b st' :
  (m ≫= k) st = Ok b st' → ∃ a st1, m st = Ok a st1 ∧ k a st1 = Ok b st'.
Proof.
  unfold mbind, M_bind. destruct (m st) as [a st1|]; [|done]. intros H. by exists a, st1.
Qed.

Lemma TORCH_CHECK_msg_inv c msg st st' :
  TORCH_CHECK_msg c msg st = Ok tt st' → c = true ∧ st' = st.
Proof.
  unfold TORCH_CHECK_msg. destruct c.
  - by intros [= <-].
  - intros (e & st1 & _ & H)%bind_ok_inv. done.
Qed.

Lemma Py_TYPE_inv o st t st' :
  Py_TYPE o st = Ok t st' →
  st' = st ∧ ∃ w, objects st !! o = Some w ∧ t = ob_type w.
Proof.
  unfold Py_TYPE, deref_obj, mbind, M_bind.
  destruct (objects st !! o) as [w|]; [|done]. intros [= <- <-]. eauto.
Qed.

(** The checks of lines 46-63 read the heap and leave it as it is. *)
Lemma NewWithStorage_checks_pure st type s obj allow st' :
  unwinding s (
    TORCH_CHECK_msg allow (already_wrapped type obj false);;
    obj_type ← Py_TYPE obj;
    sub ← PyType_IsSubtype obj_type type;
    TORCH_CHECK_msg (bool_decide (obj_type = type) || sub)
                    (already_wrapped type obj true)) st = Ok tt st' →
  st' = st.
Proof.
  intros H%unwinding_throw_inv.
  apply bind_ok_inv in H as ([] & st1 & [_ ->]%TORCH_CHECK_msg_inv & H).
  apply bind_ok_inv in H as (t & st1 & [-> _]%Py_TYPE_inv & H).
  apply bind_ok_inv in H as (sub & st1 & [= _ <-] & H).
  by apply TORCH_CHECK_msg_inv in H as [_ ->].
Qed.

(** The two functions never call each other more than once in a row: any
    depth of two or more gives the result of depth two, so [diverges] is
    never an outcome of the fuel running out. *)
Lemma Wrap_fuel_enough n s st :
  Wrap_fuel (S (S n)) s st = Wrap_fuel 2 s st.
Proof.
  simpl. unfold Wrap_body.
  apply bind_ext_on. intros st0 st' [= <- <-].
  destruct (hermetic st) eqn:Hh.
  - apply NewWithStorage_body_no_wrapper.
    intros i obj _ (Hh' & _)%observed_pyobj_hermetic. congruence.
  - apply bind_ext_on. intros a st' Hcheck.
    rewrite unwinding_check_pyobj in Hcheck.
    destruct (storages st !! s) as [i|] eqn:Hi; [|done].
    injection Hcheck as <- <-.
    destruct (observed_pyobj st i) as [[obj|]|] eqn:Hobs; [done|..].
    + apply NewWithStorage_body_no_wrapper.
      intros i' obj Hi'. assert (i' = i) as -> by congruence. by rewrite Hobs.
    + apply bind_ext_on. intros i0 st' Hderef%unwinding_throw_inv.
      rewrite (deref_storage_ok _ _ _ Hi) in Hderef. injection Hderef as <- <-.
      apply NewWithStorage_body_no_wrapper.
      intros i' obj Hi'. assert (i' = i) as -> by congruence. by rewrite Hobs.
Qed.

Lemma NewWithStorage_fuel_enough n type s status allow st :
  NewWithStorage_fuel (S (S n)) type s status allow st =
  NewWithStorage_fuel 2 type s status allow st.
Proof.
  change (NewWithStorage_body (Wrap_fuel (S n)) type s status allow st =
          NewWithStorage_body (Wrap_fuel 1) type s status allow st).
  unfold NewWithStorage_body.
  apply bind_ext_on. intros a st' Hentry.
  rewrite NewWithStorage_entry in Hentry.
  destruct (subtype_chain _ _ _ _).
  2:{ unfold unwinding, throw in Hentry. by destruct (intrusive_ptr_decref s st). }
  destruct (storages st !! s) as [i|] eqn:Hi; [|done].
  injection Hentry as <- <-.
  destruct (observed_pyobj st i) as [[obj|]|] eqn:Hobs; [|done..].
  pose proof (observed_pyobj_hermetic _ _ _ Hobs) as (Hh & _ & _).
  apply bind_ext_on. intros [] st' ->%NewWithStorage_checks_pure.
  by rewrite !(Wrap_fuel_existing _ _ _ _ _ Hh Hi Hobs).
Qed.




(** What [THPStorage_Wrap] does with a wrapper in the slot, at any depth. *)
Lemma Wrap_fuel_existing_result n st s i obj w :
  hermetic st = false →
  storages st !! s = Some i →
  pyobj_interpreter (pyobj_slot i) = true → pyobj (pyobj_slot i) = Some obj →
  objects st !! obj = Some w →
  ∃ st', Wrap_fuel (S n) s st = Ok obj st' ∧
    if owns_pyobj (pyobj_slot i) then
      objects st' = <[obj := with_cdata (owned s) w]> (objects st) ∧
      (unsafeIsBorrowed (cdata w) = true →
         storages st' = <[s := with_slot (mkSlot true (Some obj) false) i]> (storages st))
    else
      objects st' = <[obj := with_refcnt (ob_refcnt w + 1) w]> (objects st) ∧
      (1 < use_count i →
         storages st' = <[s := with_use_count (use_count i - 1) i]> (storages st)).
Proof.
  intros Hh Hi Htag Hobj Hw.
  assert (observed_pyobj st i = Some (Some obj)) as Hobs.
  { unfold observed_pyobj. by rewrite Htag, Hh, Hobj. }
  rewrite (Wrap_fuel_existing _ _ _ _ _ Hh Hi Hobs).
  destruct (owns_pyobj (pyobj_slot i)) eqn:Howns.
  - rewrite (bind_ok _ _ _ _ _ (set_owns_pyobj_ok _ _ _ false Hi)).
    rewrite Htag, Hobj.
    set (st1 := set_storages _ st).
    destruct (assign_cdata_total st1 obj w (owned s) Hw) as (st' & Hst' & Hobjs & _).
    exists st'. rewrite (bind_ok _ _ _ _ _ Hst'). split; [done|]. split; [done|].
    intros Hb. rewrite (assign_cdata_over_borrowed st1 obj w _ Hw Hb) in Hst'.
    by injection Hst' as <-.
  - rewrite (bind_ok _ _ _ _ _ (Py_INCREF_ok _ _ _ Hw)).
    set (st1 := set_objects _ st).
    destruct (intrusive_ptr_decref_total s st1) as (st' & Hst' & Hframe).
    exists st'. rewrite (bind_ok _ _ _ _ _ Hst'). split; [done|]. split.
    + by destruct Hframe as [-> _].
    + intros Hc. rewrite (intrusive_ptr_decref_shared st1 s i Hi Hc) in Hst'.
      by injection Hst' as <-.
Qed.

(** C1 (as amended): outside hermetic mode, for a resource whose slot
    references a live wrapper, [THPStorage_Wrap] returns that wrapper and
    allocates none.  When the slot owns the wrapper, the wrapper's handle
    becomes [owned], its host reference count is not incremented, and (the
    old handle being a borrow) the slot's flag is cleared; otherwise the
    host reference count goes up by one and the caller's reference on the
    resource is released. *)
Theorem wrap_existing_wrapper st s i obj w :
  hermetic st = false →
  storages st !! s = Some i →
  pyobj_interpreter (pyobj_slot i) = true → pyobj (pyobj_slot i) = Some obj →
  objects st !! obj = Some w →
  ∃ st', THPStorage_Wrap s st = Ok obj st' ∧
    if owns_pyobj (pyobj_slot i) then
      objects st' = <[obj := with_cdata (owned s) w]> (objects st) ∧
      (unsafeIsBorrowed (cdata w) = true →
         storages st' = <[s := with_slot (mkSlot true (Some obj) false) i]> (storages st))
    else
      objects st' = <[obj := with_refcnt (ob_refcnt w + 1) w]> (objects st) ∧
      (1 < use_count i →
         storages st' = <[s := with_use_count (use_count i - 1) i]> (storages st)).
Proof. apply Wrap_fuel_existing_result. Qed.


(** ** The teardown sequence *)

(** A computation only ever appends to the log. *)
Definition appends_events {A} (m : M A) : Prop :=
  ∀ st, events st `prefix_of` events (final_state (m st)).

Lemma appends_bind {A B} (m : M A) (k : A → M B) :
  appends_events m → (∀ a, appends_events (k a)) → appends_events (m ≫= k).
Proof.
  intros Hm Hk st. specialize (Hm st). unfold mbind, M_bind.
  destruct (m st) as [a st'|e st']; simpl in *; [|done].
  etrans; [exact Hm|]. apply Hk.
Qed.

Lemma appends_mret {A} (a : A) : appends_events (mret a).
Proof. by intros st. Qed.

Lemma appends_throw {A} e : appends_events (@throw A e).
Proof. by intros st. Qed.

Lemma appends_modify f :
  (∀ st, events st `prefix_of` events (f st)) → appends_events (modify f).
Proof. intros H st. apply H. Qed.

Lemma appends_deref_obj o : appends_events (deref_obj o).
Proof. intros st. unfold deref_obj. by destruct (objects st !! o). Qed.

Lemma appends_deref_type t : appends_events (deref_type t).
Proof. intros st. unfold deref_type. by destruct (types st !! t). Qed.

Lemma appends_decref s : appends_events (intrusive_ptr_decref s).
Proof.
  intros st. destruct (intrusive_ptr_decref_total s st) as (st' & -> & Hframe).
  destruct Hframe as (_ & _ & _ & _ & _ & Hev). simpl. by rewrite Hev.
Qed.

Lemma appends_log ev : appends_events (modify (log_event ev)).
Proof. apply appends_modify. intros st. simpl. by apply prefix_app_r. Qed.

Lemma appends_set_objects f : appends_events (modify (set_objects f)).
Proof. by apply appends_modify. Qed.

Lemma appends_set_types f : appends_events (modify (set_types f)).
Proof. by apply appends_modify. Qed.

Lemma appends_keeping f : appends_events (modify (keeping_events f)).
Proof. by apply appends_modify. Qed.

Lemma appends_if {A} (b : bool) (m1 m2 : M A) :
  appends_events m1 → appends_events m2 → appends_events (if b then m1 else m2).
Proof. by destruct b. Qed.

Lemma appends_assert c line : appends_events (TORCH_INTERNAL_ASSERT c line).
Proof. destruct c; [apply appends_mret | apply appends_throw]. Qed.

Create HintDb appends discriminated.

#[local] Hint Resolve appends_mret appends_throw appends_deref_obj appends_deref_type
  appends_decref appends_log appends_set_objects appends_set_types appends_keeping
  appends_assert : appends.
#[local] Hint Extern 2 (appends_events (_ ≫= _)) => apply appends_bind; [|intros ?] : appends.
#[local] Hint Extern 2 (appends_events (if _ then _ else _)) => apply appends_if : appends.
#[local] Hint Extern 3 (appends_events (match ?x with _ => _ end)) => destruct x : appends.

Lemma appends_GC_UnTrack o : appends_events (PyObject_GC_UnTrack o).
Proof. unfold PyObject_GC_UnTrack. auto 10 with appends. Qed.

Lemma appends_GC_Track o : appends_events (PyObject_GC_Track o).
Proof. unfold PyObject_GC_Track. auto 10 with appends. Qed.

Lemma appends_ClearWeakRefs o : appends_events (PyObject_ClearWeakRefs o).
Proof. unfold PyObject_ClearWeakRefs. auto 10 with appends. Qed.

Lemma appends_clear_new_weakrefs o : appends_events (clear_new_weakrefs o).
Proof. unfold clear_new_weakrefs. auto 10 with appends. Qed.

Lemma appends_clear_slots base o : appends_events (clear_slots base o).
Proof. unfold clear_slots. auto 10 with appends. Qed.

Lemma appends_CallFinalizer o : appends_events (PyObject_CallFinalizerFromDealloc o).
Proof.
  unfold PyObject_CallFinalizerFromDealloc, PyObject_CallFinalizer. auto 20 with appends.
Qed.

Lemma appends_call_tp_del o : appends_events (call_tp_del o).
Proof. unfold call_tp_del. auto 12 with appends. Qed.

#[local] Hint Resolve appends_GC_UnTrack appends_GC_Track appends_ClearWeakRefs
  appends_clear_new_weakrefs appends_clear_slots appends_CallFinalizer
  appends_call_tp_del : appends.

Lemma appends_clear_slots_loop fuel : ∀ base o, appends_events (clear_slots_loop fuel base o).
Proof.
  induction fuel as [|fuel IH]; intros base o; simpl.
  - auto with appends.
  - apply appends_if; [auto with appends|].
    apply appends_bind; [auto with appends|]. intros ty.
    apply appends_bind; [auto with appends|]. intros _.
    destruct (tp_base ty); auto with appends.
Qed.

Lemma appends_teardown_del ty o : appends_events (teardown_del ty o).
Proof. unfold teardown_del. auto 12 with appends. Qed.

Lemma appends_teardown_rest type ty o : appends_events (teardown_rest type ty o).
Proof.
  unfold teardown_rest, clear_dict, Py_TYPE, destroy_cdata, tp_free, Py_DECREF_type,
    get_state.
  apply appends_bind; [auto with appends|]. intros _.
  apply appends_bind; [by intros st|]. intros st0.
  apply appends_bind; [apply appends_clear_slots_loop|]. intros _.
  auto 20 with appends.
Qed.

Lemma GC_UnTrack_ok st o w :
  objects st !! o = Some w →
  PyObject_GC_UnTrack o st =
    Ok tt (log_event (EvUnTrack o) (set_objects <[o := with_tracked false w]> st)).
Proof.
  intros Hw. unfold PyObject_GC_UnTrack.
  by rewrite (bind_ok _ _ _ _ _ (deref_obj_ok _ _ _ Hw)).
Qed.

Lemma GC_Track_ok st o w :
  objects st !! o = Some w →
  PyObject_GC_Track o st =
    Ok tt (log_event (EvTrack o) (set_objects <[o := with_tracked true w]> st)).
Proof.
  intros Hw. unfold PyObject_GC_Track.
  by rewrite (bind_ok _ _ _ _ _ (deref_obj_ok _ _ _ Hw)).
Qed.

Lemma ClearWeakRefs_ok st o w :
  objects st !! o = Some w →
  PyObject_ClearWeakRefs o st =
    Ok tt (log_event (EvClearWeakRefs o) (set_objects <[o := with_weakrefs 0 w]> st)).
Proof.
  intros Hw. unfold PyObject_ClearWeakRefs.
  by rewrite (bind_ok _ _ _ _ _ (deref_obj_ok _ _ _ Hw)).
Qed.

(** What step 1 logs. *)
Definition step_1_events (ty : PyTypeObject) (self : ObjId) : list Event :=
  if tp_have_gc ty then [EvUnTrack self] else [].

(** Whether [PyObject_CallFinalizer] runs [tp_finalize] on [w]. *)
Definition finalizer_runs (ty : PyTypeObject) (w : THPStorage) : bool :=
  tp_finalize ty && negb (tp_have_gc ty && gc_finalized w).

(** The object as [PyObject_CallFinalizer] leaves it once [tp_finalize] has
    run. *)
Definition finalized (ty : PyTypeObject) (w : THPStorage) : THPStorage :=
  if tp_have_gc ty then with_finalized true w else w.

(** What steps 1 and 2 log up to the call of the finalizer. *)
Definition step_2_events (ty : PyTypeObject) (self : ObjId) (w : THPStorage) : list Event :=
  step_1_events ty self ++
  (if tp_finalize ty
   then EvTrack self :: (if finalizer_runs ty w then [EvFinalizer self] else [])
   else []).

(** What steps 3 and 4 log up to the call of [tp_del]. *)
Definition step_4_events (ty : PyTypeObject) (self : ObjId) : list Event :=
  (if tp_weaklistoffset ty =? 0 then [] else [EvClearWeakRefs self]) ++
  [EvTrack self; EvDel self].

Definition log_events (evs : list Event) (st : State) : State :=
  mkState (storages st) (objects st) (buffers st) (types st)
          (THPStorageClass st) (hermetic st) (py_err st) (events st ++ evs).

(** The state in which the finalizer hook is entered at line 175: step 1
    and the tracking of line 174 are done and logged, and the object holds
    the one temporary reference of the host. *)
Definition finalizer_entry (st : State) (ty : PyTypeObject) (self : ObjId) (w : THPStorage)
    : State :=
  log_events (step_1_events ty self ++ [EvTrack self; EvFinalizer self])
    (set_objects <[self := with_refcnt 1 (with_tracked true w)]> st).

(** The state line 180 returns in: the one the finalizer hook left, the
    temporary reference taken back from the object [w2] found there. *)
Definition finalizer_exit (hooked : State) (ty : PyTypeObject) (self : ObjId)
    (w2 : THPStorage) : State :=
  set_objects <[self := with_refcnt (ob_refcnt w2 - 1) (finalized ty w2)]> hooked.

(** The state in which the [tp_del] hook is entered at line 192, from the
    state [st] that steps 1 and 2 left. *)
Definition del_entry (st : State) (ty : PyTypeObject) (self : ObjId) (w : THPStorage)
    : State :=
  log_events (step_4_events ty self)
    (set_objects
       <[self := with_refcnt 1
                   (with_tracked true
                      (if tp_weaklistoffset ty =? 0 then w else with_weakrefs 0 w))]> st).

(** The state line 195 returns in. *)
Definition del_exit (hooked : State) (self : ObjId) (w4 : THPStorage) : State :=
  set_objects <[self := with_refcnt (ob_refcnt w4 - 1) w4]> hooked.

Lemma step_1_ok st self w ty :
  objects st !! self = Some w →
  ∃ st1 w1, (if tp_have_gc ty then PyObject_GC_UnTrack self else mret tt) st = Ok tt st1 ∧
            objects st1 !! self = Some w1 ∧
            events st1 = events st ++ step_1_events ty self ∧
            types st1 = types st ∧ ob_type w1 = ob_type w ∧
            gc_finalized w1 = gc_finalized w.
Proof.
  intros Hw. unfold step_1_events. destruct (tp_have_gc ty).
  - rewrite (GC_UnTrack_ok _ _ _ Hw). eexists _, _. split; [done|].
    split; [simpl; apply lookup_insert_eq|done].
  - exists st, w. split; [done|]. split; [done|]. by rewrite app_nil_r.
Qed.

Lemma bind_assoc_at {A B C} (m : M A) (f : A → M B) (g : B → M C) st :
  ((m ≫= f) ≫= g) st = (m ≫= (λ a, f a ≫= g)) st.
Proof. unfold mbind, M_bind. by destruct (m st). Qed.

Lemma bind_modify {A} f (k : unit → M A) st : (modify f ≫= k) st = k tt (f st).
Proof. done. Qed.

Lemma CallFinalizer_runs st self w ty w2 :
  objects st !! self = Some w → types st !! ob_type w = Some ty →
  finalizer_runs ty w = true →
  let hooked := keeping_events (finalizer_hook self)
                  (log_event (EvFinalizer self)
                     (set_objects <[self := with_refcnt 1 w]> st)) in
  objects hooked !! self = Some w2 →
  PyObject_CallFinalizerFromDealloc self st =
    Ok (if ob_refcnt w2 - 1 =? 0 then 0 else -1) (finalizer_exit hooked ty self w2).
Proof.
  intros Hw Hty Hruns hooked Hw2.
  apply andb_prop in Hruns as [Hfin Hnot]. apply negb_true_iff in Hnot.
  unfold PyObject_CallFinalizerFromDealloc, PyObject_CallFinalizer.
  rewrite (bind_ok _ _ _ _ _ (deref_obj_ok _ _ _ Hw)), bind_modify.
  set (st1 := set_objects _ st).
  assert (objects st1 !! self = Some (with_refcnt 1 w)) as Hw1 by apply lookup_insert_eq.
  rewrite bind_assoc_at, (bind_ok _ _ _ _ _ (deref_obj_ok _ _ _ Hw1)).
  assert (types st1 !! ob_type (with_refcnt 1 w) = Some ty) as Hty1 by exact Hty.
  rewrite bind_assoc_at, (bind_ok _ _ _ _ _ (deref_type_ok _ _ _ Hty1)).
  rewrite Hfin. cbn [negb]. change (gc_finalized (with_refcnt 1 w)) with (gc_finalized w).
  rewrite Hnot.
  rewrite !bind_assoc_at, bind_modify, !bind_assoc_at, bind_modify.
  subst st1. fold hooked. unfold finalizer_exit, finalized.
  destruct (tp_have_gc ty).
  - rewrite bind_assoc_at, (bind_ok _ _ _ _ _ (deref_obj_ok _ _ _ Hw2)), bind_modify.
    set (st3 := set_objects _ hooked).
    assert (objects st3 !! self = Some (with_finalized true w2)) as Hw3
      by apply lookup_insert_eq.
    rewrite (bind_ok _ _ _ _ _ (deref_obj_ok _ _ _ Hw3)), bind_modify.
    subst st3. unfold set_objects. cbn. by rewrite insert_insert_eq.
  - rewrite (bind_ok _ _ hooked tt hooked) by done.
    by rewrite (bind_ok _ _ _ _ _ (deref_obj_ok _ _ _ Hw2)), bind_modify.
Qed.

Lemma CallFinalizer_skips st self w ty :
  objects st !! self = Some w → types st !! ob_type w = Some ty →
  finalizer_runs ty w = false →
  PyObject_CallFinalizerFromDealloc self st =
    Ok 0 (set_objects <[self := with_refcnt 0 w]> st).
Proof.
  intros Hw Hty Hruns.
  unfold PyObject_CallFinalizerFromDealloc, PyObject_CallFinalizer.
  rewrite (bind_ok _ _ _ _ _ (deref_obj_ok _ _ _ Hw)), bind_modify.
  set (st1 := set_objects _ st).
  assert (objects st1 !! self = Some (with_refcnt 1 w)) as Hw1 by apply lookup_insert_eq.
  assert (types st1 !! ob_type (with_refcnt 1 w) = Some ty) as Hty1 by exact Hty.
  rewrite bind_assoc_at, (bind_ok _ _ _ _ _ (deref_obj_ok _ _ _ Hw1)).
  rewrite bind_assoc_at, (bind_ok _ _ _ _ _ (deref_type_ok _ _ _ Hty1)).
  change (gc_finalized (with_refcnt 1 w)) with (gc_finalized w).
  unfold finalizer_runs in Hruns.
  assert (∀ k : unit → M Z,
            ((if negb (tp_finalize ty) then mret tt
              else if tp_have_gc ty && gc_finalized w then mret tt
              else modify (log_event (EvFinalizer self));;
                   modify (keeping_events (finalizer_hook self));;
                   (if tp_have_gc ty
                    then w' ← deref_obj self;
                         modify (set_objects <[self := with_finalized true w']>)
                    else mret tt)) ≫= k) st1 = k tt st1) as ->.
  { intros k. destruct (tp_finalize ty); [|done]. simpl in *.
    apply negb_false_iff in Hruns. by rewrite Hruns. }
  rewrite (bind_ok _ _ _ _ _ (deref_obj_ok _ _ _ Hw1)), bind_modify.
  subst st1. unfold set_objects. cbn. by rewrite insert_insert_eq.
Qed.

Lemma finalizer_entry_eq st self w ty :
  objects st !! self = Some w →
  ∃ st2 w1,
    ((if tp_have_gc ty then PyObject_GC_UnTrack self else mret tt);;
     PyObject_GC_Track self) st = Ok tt st2 ∧
    objects st2 !! self = Some w1 ∧ ob_type w1 = ob_type w ∧
    gc_finalized w1 = gc_finalized w ∧ types st2 = types st ∧
    events st2 = events st ++ step_1_events ty self ++ [EvTrack self] ∧
    log_event (EvFinalizer self) (set_objects <[self := with_refcnt 1 w1]> st2) =
      finalizer_entry st ty self w.
Proof.
  intros Hw. unfold finalizer_entry, step_1_events.
  destruct (tp_have_gc ty).
  - rewrite (bind_ok _ _ _ _ _ (GC_UnTrack_ok _ _ _ Hw)).
    set (st1 := log_event _ _).
    assert (objects st1 !! self = Some (with_tracked false w)) as Hw1
      by apply lookup_insert_eq.
    rewrite (GC_Track_ok _ _ _ Hw1).
    eexists _, _. split; [done|]. split; [apply lookup_insert_eq|].
    repeat (split; [done|]). split.
    { subst st1. cbn. by rewrite <- app_assoc. }
    subst st1. unfold log_event, log_events, set_objects. cbn.
    by rewrite !insert_insert_eq, <- !app_assoc.
  - rewrite (bind_ok _ _ st tt st) by done.
    rewrite (GC_Track_ok _ _ _ Hw).
    eexists _, _. split; [done|]. split; [apply lookup_insert_eq|].
    repeat (split; [done|]).
    unfold log_event, log_events, set_objects. cbn.
    by rewrite !insert_insert_eq, <- !app_assoc.
Qed.

(** Steps 1 and 2 when the finalizer runs: they stop at line 180 exactly
    when the hook left more than the temporary reference. *)
Lemma teardown_finalize_runs st self w ty w2 :
  objects st !! self = Some w → types st !! ob_type w = Some ty →
  finalizer_runs ty w = true →
  let hooked := keeping_events (finalizer_hook self) (finalizer_entry st ty self w) in
  objects hooked !! self = Some w2 →
  teardown_finalize ty self st =
    if ob_refcnt w2 - 1 =? 0
    then Ok false
           (log_event (EvUnTrack self)
              (set_objects
                 <[self := with_tracked false
                             (with_refcnt (ob_refcnt w2 - 1) (finalized ty w2))]> hooked))
    else Ok true (finalizer_exit hooked ty self w2).
Proof.
  intros Hw Hty Hruns hooked Hw2.
  destruct (finalizer_entry_eq st self w ty Hw)
    as (st2 & w1 & Hs2 & Hw1 & Hty1 & Hfin1 & Htys & _ & Hentry).
  unfold teardown_finalize.
  assert (tp_finalize ty = true) as -> by (by apply andb_prop in Hruns as [? _]).
  rewrite <- bind_assoc_at, (bind_ok _ _ _ _ _ Hs2).
  assert (types st2 !! ob_type w1 = Some ty) as Hty2 by (by rewrite Htys, Hty1).
  assert (finalizer_runs ty w1 = true) as Hruns1
    by (unfold finalizer_runs in *; by rewrite Hfin1).
  assert (objects (keeping_events (finalizer_hook self)
                     (log_event (EvFinalizer self)
                        (set_objects <[self := with_refcnt 1 w1]> st2))) !! self
          = Some w2) as Hw2' by (by rewrite Hentry).
  rewrite (bind_ok _ _ _ _ _ (CallFinalizer_runs _ _ _ _ _ Hw1 Hty2 Hruns1 Hw2')).
  rewrite Hentry. fold hooked.
  destruct (ob_refcnt w2 - 1 =? 0) eqn:Hrc; simpl; [|done].
  assert (objects (finalizer_exit hooked ty self w2) !! self =
          Some (with_refcnt (ob_refcnt w2 - 1) (finalized ty w2))) as Hw3
    by apply lookup_insert_eq.
  rewrite (bind_ok _ _ _ _ _ (GC_UnTrack_ok _ _ _ Hw3)).
  unfold finalizer_exit, log_event, set_objects. cbn. by rewrite insert_insert_eq.
Qed.

(** Steps 1 and 2 when the type has a finalizer that the host does not run
    again: the object is tracked and untracked, and the sequence goes on. *)
Lemma teardown_finalize_skips st self w ty :
  objects st !! self = Some w → types st !! ob_type w = Some ty →
  tp_finalize ty = true → finalizer_runs ty w = false →
  teardown_finalize ty self st =
    Ok false
       (log_events (step_1_events ty self ++ [EvTrack self; EvUnTrack self])
          (set_objects <[self := with_tracked false (with_refcnt 0 w)]> st)).
Proof.
  intros Hw Hty Hfin Hruns. unfold teardown_finalize. rewrite Hfin.
  destruct (step_1_ok st self w ty Hw)
    as (st1 & w1 & Hs1 & Hw1 & Hev1 & Htys & Hty1 & Hfin1).
  rewrite (bind_ok _ _ _ _ _ Hs1).
  rewrite (bind_ok _ _ _ _ _ (GC_Track_ok _ _ _ Hw1)).
  set (st2 := log_event _ _).
  assert (objects st2 !! self = Some (with_tracked true w1)) as Hw2
    by apply lookup_insert_eq.
  assert (types st2 !! ob_type (with_tracked true w1) = Some ty) as Hty2.
  { change (types st1 !! ob_type w1 = Some ty). by rewrite Htys, Hty1. }
  assert (finalizer_runs ty (with_tracked true w1) = false) as Hruns2.
  { unfold finalizer_runs in *. cbn. by rewrite Hfin1. }
  rewrite (bind_ok _ _ _ _ _ (CallFinalizer_skips _ _ _ _ Hw2 Hty2 Hruns2)).
  change (0 <? 0) with false. cbv iota.
  set (st3 := set_objects _ st2).
  assert (objects st3 !! self = Some (with_refcnt 0 (with_tracked true w1))) as Hw3
    by apply lookup_insert_eq.
  rewrite (bind_ok _ _ _ _ _ (GC_UnTrack_ok _ _ _ Hw3)).
  change ((mret false : M bool) ?x) with (Ok false x). f_equal.
  subst st3 st2. unfold step_1_events in *.
  destruct (tp_have_gc ty).
  - rewrite (GC_UnTrack_ok _ _ _ Hw) in Hs1. injection Hs1 as <-.
    simpl in Hw1. rewrite lookup_insert_eq in Hw1. injection Hw1 as <-.
    unfold log_event, log_events, set_objects. cbn.
    by rewrite !insert_insert_eq, <- !app_assoc.
  - injection Hs1 as <-. assert (w1 = w) as -> by congruence.
    unfold log_event, log_events, set_objects. cbn.
    by rewrite !insert_insert_eq, <- !app_assoc.
Qed.

(** Steps 3 and 4 when the type has a [tp_del]: they stop at line 195
    exactly when the hook left more than the temporary reference. *)
Lemma teardown_del_runs st self w ty w4 :
  objects st !! self = Some w → tp_del ty = true →
  let hooked := keeping_events (del_hook self) (del_entry st ty self w) in
  objects hooked !! self = Some w4 →
  teardown_del ty self st =
    if 0 <? ob_refcnt w4 - 1
    then Ok true (del_exit hooked self w4)
    else Ok false
           (log_event (EvUnTrack self)
              (set_objects
                 <[self := with_tracked false (with_refcnt (ob_refcnt w4 - 1) w4)]>
                 hooked)).
Proof.
  intros Hw Hdel hooked Hw4. unfold teardown_del. rewrite Hdel.
  assert (∃ st3 w3,
            ((if tp_weaklistoffset ty =? 0 then mret tt else PyObject_ClearWeakRefs self);;
             PyObject_GC_Track self) st = Ok tt st3 ∧
            objects st3 !! self = Some w3 ∧
            log_event (EvDel self) (set_objects <[self := with_refcnt 1 w3]> st3) =
              del_entry st ty self w) as (st3 & w3 & Hs3 & Hw3 & Hentry).
  { unfold del_entry, step_4_events. destruct (tp_weaklistoffset ty =? 0).
    - rewrite (bind_ok _ _ st tt st) by done. rewrite (GC_Track_ok _ _ _ Hw).
      eexists _, _. split; [done|]. split; [apply lookup_insert_eq|].
      unfold log_event, log_events, set_objects. cbn.
      by rewrite !insert_insert_eq, <- !app_assoc.
    - rewrite (bind_ok _ _ _ _ _ (ClearWeakRefs_ok _ _ _ Hw)).
      set (st1 := log_event _ _).
      assert (objects st1 !! self = Some (with_weakrefs 0 w)) as Hw1
        by apply lookup_insert_eq.
      rewrite (GC_Track_ok _ _ _ Hw1).
      eexists _, _. split; [done|]. split; [apply lookup_insert_eq|].
      subst st1. unfold log_event, log_events, set_objects. cbn.
      by rewrite !insert_insert_eq, <- !app_assoc. }
  rewrite <- bind_assoc_at, (bind_ok _ _ _ _ _ Hs3).
  unfold call_tp_del.
  rewrite !bind_assoc_at, (bind_ok _ _ _ _ _ (deref_obj_ok _ _ _ Hw3)).
  rewrite !bind_assoc_at, bind_modify, !bind_assoc_at, bind_modify,
    !bind_assoc_at, bind_modify.
  rewrite Hentry. fold hooked.
  rewrite !bind_assoc_at, (bind_ok _ _ _ _ _ (deref_obj_ok _ _ _ Hw4)), bind_modify.
  fold (del_exit hooked self w4).
  assert (objects (del_exit hooked self w4) !! self =
          Some (with_refcnt (ob_refcnt w4 - 1) w4)) as Hw5 by apply lookup_insert_eq.
  rewrite (bind_ok _ _ _ _ _ (deref_obj_ok _ _ _ Hw5)).
  change (ob_refcnt (with_refcnt (ob_refcnt w4 - 1) w4)) with (ob_refcnt w4 - 1).
  destruct (0 <? ob_refcnt w4 - 1); [done|].
  rewrite (bind_ok _ _ _ _ _ (GC_UnTrack_ok _ _ _ Hw5)).
  unfold del_exit, log_event, set_objects. cbn. by rewrite insert_insert_eq.
Qed.

(** Whatever follows the finalizer's call, [EvFinalizer] is logged first
    when the finalizer runs. *)
Lemma CallFinalizer_logs_first {A} st self w ty (k : Z → M A) :
  objects st !! self = Some w → types st !! ob_type w = Some ty →
  finalizer_runs ty w = true → (∀ rc, appends_events (k rc)) →
  events st ++ [EvFinalizer self]
    `prefix_of` events (final_state ((PyObject_CallFinalizerFromDealloc self ≫= k) st)).
Proof.
  intros Hw Hty Hruns Hk.
  apply andb_prop in Hruns as [Hfin Hnot]. apply negb_true_iff in Hnot.
  unfold PyObject_CallFinalizerFromDealloc, PyObject_CallFinalizer.
  rewrite bind_assoc_at, (bind_ok _ _ _ _ _ (deref_obj_ok _ _ _ Hw)).
  rewrite bind_assoc_at, bind_modify.
  set (st1 := set_objects _ st).
  assert (objects st1 !! self = Some (with_refcnt 1 w)) as Hw1 by apply lookup_insert_eq.
  assert (types st1 !! ob_type (with_refcnt 1 w) = Some ty) as Hty1 by exact Hty.
  rewrite !bind_assoc_at, (bind_ok _ _ _ _ _ (deref_obj_ok _ _ _ Hw1)).
  rewrite !bind_assoc_at, (bind_ok _ _ _ _ _ (deref_type_ok _ _ _ Hty1)).
  rewrite Hfin. cbn [negb]. change (gc_finalized (with_refcnt 1 w)) with (gc_finalized w).
  rewrite Hnot.
  rewrite !bind_assoc_at, bind_modify.
  set (st3 := log_event _ _).
  change (events st ++ [EvFinalizer self]) with (events st3).
  match goal with
  | |- _ `prefix_of` events (final_state (?m st3)) => assert (appends_events m) as Hm
  end.
  { repeat first
      [ apply Hk
      | apply appends_bind;
        [solve [destruct (tp_have_gc ty); auto 12 with appends]|intros ?] ]. }
  apply Hm.
Qed.

(** C4: when [THPStorage_tryPreserve] has declined and the finalizer hook
    (step 2) or the [tp_del] hook (step 4) returns with a reference on the
    object beyond the temporary one it was entered with, the deallocation
    returns at once: the state it returns is the one the hook left with the
    temporary reference taken back, so the log holds the steps up to the
    hook and nothing after, and the object is there with the references,
    the handle and the dict the hook left it.  A finalizer hook that leaves
    the temporary reference alone lets the sequence go on to step 3.  Every
    attempt, a later one included, begins with steps 1 and 2; the host runs
    the finalizer of an object of a collected type once, so a later attempt
    on such an object tracks it, untracks it and goes on to step 3 without
    the hook. *)
Theorem teardown_resurrection st self w ty :
  objects st !! self = Some w → types st !! ob_type w = Some ty →
  THPStorage_tryPreserve self st = Ok false st →
  (finalizer_runs ty w = true →
   let hooked := keeping_events (finalizer_hook self) (finalizer_entry st ty self w) in
   ∀ w2, objects hooked !! self = Some w2 →
     (1 < ob_refcnt w2 →
        THPStorage_subclass_dealloc self st = Ok tt (finalizer_exit hooked ty self w2) ∧
        events (finalizer_exit hooked ty self w2) = events st ++ step_2_events ty self w) ∧
     (ob_refcnt w2 = 1 →
        teardown_finalize ty self st =
          Ok false
            (log_event (EvUnTrack self)
               (set_objects
                  <[self := with_tracked false (with_refcnt 0 (finalized ty w2))]>
                  hooked)))) ∧
  (tp_finalize ty = true → finalizer_runs ty w = false →
   teardown_finalize ty self st =
     Ok false
        (log_events (step_1_events ty self ++ [EvTrack self; EvUnTrack self])
           (set_objects <[self := with_tracked false (with_refcnt 0 w)]> st))) ∧
  (tp_del ty = true →
   ∀ st2 w2,
     teardown_finalize ty self st = Ok false st2 → objects st2 !! self = Some w2 →
     let hooked := keeping_events (del_hook self) (del_entry st2 ty self w2) in
     ∀ w4, objects hooked !! self = Some w4 → 1 < ob_refcnt w4 →
       THPStorage_subclass_dealloc self st = Ok tt (del_exit hooked self w4) ∧
       events (del_exit hooked self w4) = events st2 ++ step_4_events ty self) ∧
  events st ++ step_2_events ty self w
    `prefix_of` events (final_state (THPStorage_subclass_dealloc self st)).
Proof.
  intros Hw Hty Hnp.
  assert (THPStorage_subclass_dealloc self st =
            (resurrected ← teardown_finalize ty self;
             if (resurrected : bool) then mret tt
             else resurrected ← teardown_del ty self;
                  if (resurrected : bool) then mret tt
                  else teardown_rest (ob_type w) ty self) st) as Hunfold.
  { unfold THPStorage_subclass_dealloc.
    rewrite (bind_ok _ _ _ _ _ Hnp). cbn [negb].
    rewrite (bind_ok _ _ st (ob_type w) st).
    2:{ unfold Py_TYPE. by rewrite (bind_ok _ _ _ _ _ (deref_obj_ok _ _ _ Hw)). }
    by rewrite (bind_ok _ _ _ _ _ (deref_type_ok _ _ _ Hty)). }
  split; [|split; [|split]].
  - intros Hruns hooked w2 Hw2. split.
    + intros Hrc. split.
      * rewrite Hunfold.
        rewrite (bind_ok _ _ _ true (finalizer_exit hooked ty self w2)); [done|].
        rewrite (teardown_finalize_runs _ _ _ _ _ Hw Hty Hruns Hw2).
        destruct (ob_refcnt w2 - 1 =? 0) eqn:E; [lia|done].
      * unfold step_2_events. rewrite Hruns.
        by apply andb_prop in Hruns as [-> _].
    + intros Hrc. rewrite (teardown_finalize_runs _ _ _ _ _ Hw Hty Hruns Hw2).
      fold hooked. by rewrite Hrc.
  - intros Hfin Hruns. by apply teardown_finalize_skips.
  - intros Hdel st2 w2 Hfin Hw2 hooked w4 Hw4 Hrc. split.
    + rewrite Hunfold, (bind_ok _ _ _ _ _ Hfin). cbn [negb].
      rewrite (bind_ok _ _ _ true (del_exit hooked self w4)); [done|].
      rewrite (teardown_del_runs _ _ _ _ _ Hw2 Hdel Hw4).
      destruct (0 <? ob_refcnt w4 - 1) eqn:E; [done|lia].
    + done.
  - rewrite Hunfold. unfold teardown_finalize, step_2_events.
    set (rest := λ resurrected : bool,
             if resurrected then mret tt
             else resurrected ← teardown_del ty self;
                  if (resurrected : bool) then mret tt
                  else teardown_rest (ob_type w) ty self).
    assert (∀ r, appends_events (rest r)) as Hrest.
    { intros [|]; unfold rest; [auto with appends|].
      apply appends_bind; [apply appends_teardown_del|].
      intros [|]; [auto with appends|apply appends_teardown_rest]. }
    destruct (tp_finalize ty) eqn:Hfin.
    + destruct (step_1_ok st self w ty Hw)
        as (st1 & w1 & Hs1 & Hw1 & Hev1 & Htys & Hty1 & Hfin1).
      rewrite bind_assoc_at, (bind_ok _ _ _ _ _ Hs1).
      rewrite bind_assoc_at, (bind_ok _ _ _ _ _ (GC_Track_ok _ _ _ Hw1)).
      set (st2 := log_event _ _).
      assert (objects st2 !! self = Some (with_tracked true w1)) as Hw2
        by apply lookup_insert_eq.
      assert (events st2 = events st ++ step_1_events ty self ++ [EvTrack self]) as Hev2.
      { subst st2. cbn. by rewrite Hev1, <- app_assoc. }
      destruct (finalizer_runs ty w) eqn:Hruns.
      * replace (events st ++ step_1_events ty self ++ [EvTrack self; EvFinalizer self])
          with (events st2 ++ [EvFinalizer self])
          by (by rewrite Hev2, <- !app_assoc).
        rewrite bind_assoc_at.
        eapply (CallFinalizer_logs_first _ _ _ ty); [done| | |].
        { change (types st1 !! ob_type w1 = Some ty). by rewrite Htys, Hty1. }
        { unfold finalizer_runs in *. cbn. by rewrite Hfin1. }
        intros rc. apply appends_bind; [auto with appends|]. apply Hrest.
      * rewrite <- Hev2.
        match goal with
        | |- _ `prefix_of` events (final_state (?m st2)) =>
            assert (appends_events m) as Hm
        end.
        { apply appends_bind; [|apply Hrest].
          apply appends_bind; [apply appends_CallFinalizer|].
          intros rc. auto with appends. }
        apply Hm.
    + rewrite app_nil_r.
      destruct (step_1_ok st self w ty Hw) as (st1 & w1 & Hs1 & Hw1 & Hev1 & _).
      rewrite <- Hev1. rewrite bind_assoc_at, (bind_ok _ _ _ _ _ Hs1).
      apply (Hrest false st1).
Qed.

(** ** A new wrapper for a resource that has none *)

(** The slot after [init_pyobj] under [status]. *)
Definition registered_slot (status : PyInterpreterStatus) (sl : PyObjectSlot) (obj : ObjId)
    : PyObjectSlot :=
  mkSlot (match status with TAGGED_BY_US => pyobj_interpreter sl | _ => true end)
         (Some obj) (owns_pyobj sl).

(** The state lines 67-84 leave: a new object of the requested type with
    one reference and an owned handle, one more reference on the type, and,
    outside hermetic mode, the object registered in the slot. *)
Definition wrapped_state (st : State) (type : TypeId) (ty : PyTypeObject)
    (s : StorageId) (i : StorageImpl) (status : PyInterpreterStatus) : State :=
  let o := fresh (dom (objects st)) in
  (if hermetic st then id
   else set_storages <[s := with_slot (registered_slot status (pyobj_slot i) o) i]>)
    (set_types <[type := with_tp_refcnt (tp_refcnt ty + 1) ty]>
       (set_objects <[o := mkTHPStorage 1 type (tp_have_gc ty) 0 [] false (owned s) false]> st)).

Lemma NewWithStorage_body_fresh wrap st type ty s i status allow :
  storages st !! s = Some i →
  (∀ obj, observed_pyobj st i ≠ Some (Some obj)) →
  types st !! type = Some ty →
  subtype_chain (size (types st)) (types st) type THPStorageType = true →
  NewWithStorage_body wrap type s status allow st =
    Ok (fresh (dom (objects st))) (wrapped_state st type ty s i status).
Proof.
  intros Hi Hnone Hty Hsub. unfold NewWithStorage_body.
  rewrite (bind_ok _ _ st (observed_pyobj st i) st).
  2:{ by rewrite NewWithStorage_entry, Hsub, Hi. }
  set (o := fresh (dom (objects st))).
  set (w0 := mkTHPStorage 1 type (tp_have_gc ty) 0 [] false borrowed_null false).
  set (st1 := set_types <[type := with_tp_refcnt (tp_refcnt ty + 1) ty]>
                (set_objects <[o := w0]> st)).
  assert (unwinding s (tp_alloc type) st = Ok o st1) as Halloc.
  { apply unwinding_ok. unfold tp_alloc.
    by rewrite (bind_ok _ _ _ _ _ (deref_type_ok _ _ _ Hty)). }
  assert (objects st1 !! o = Some w0) as Hw0 by (simpl; apply lookup_insert_eq).
  assert (∀ k : nat → M nat,
            (unwinding s (tp_alloc type) ≫= k) st = k o st1) as Hstep
    by (intros k; by apply bind_ok).
  assert (match observed_pyobj st i with
          | Some (Some obj) => False
          | _ => True
          end) as Hshape.
  { destruct (observed_pyobj st i) as [[obj|]|]; [|done..]. by destruct (Hnone obj). }
  destruct (observed_pyobj st i) as [[obj|]|]; [done|..].
  all: rewrite Hstep, (bind_ok _ _ _ _ _ (deref_obj_ok _ _ _ Hw0)), bind_modify.
  all: set (st2 := set_objects _ st1).
  all: assert (objects st2 !! o = Some w0) as Hw2
         by (subst st2; simpl; rewrite lookup_insert_eq; done).
  all: rewrite (bind_ok _ _ _ _ _ (assign_cdata_over_borrowed st2 o w0 (owned s) Hw2 eq_refl)).
  all: set (st3 := set_objects _ st2).
  all: rewrite (bind_ok _ _ st3 st3 st3) by done.
  all: assert (hermetic st3 = hermetic st) as -> by done.
  all: unfold wrapped_state; fold o.
  all: assert (st3 = set_types <[type := with_tp_refcnt (tp_refcnt ty + 1) ty]>
                       (set_objects <[o := mkTHPStorage 1 type (tp_have_gc ty) 0 [] false
                                                        (owned s) false]> st)) as Hst3
         by (subst st3 st2 st1; unfold set_types, set_objects; simpl;
             by rewrite !insert_insert_eq).
  all: destruct (hermetic st).
  all: try (rewrite (bind_ok _ _ st3 tt st3) by done; by rewrite Hst3).
  all: unfold init_pyobj.
  all: assert (storages st3 !! s = Some i) as Hi3 by done.
  all: rewrite bind_assoc_at, (bind_ok _ _ _ _ _ (deref_storage_ok _ _ _ Hi3)), bind_modify.
  all: by rewrite Hst3.
Qed.

Lemma NewWithStorage_fresh st type ty s i status allow :
  storages st !! s = Some i →
  (∀ obj, observed_pyobj st i ≠ Some (Some obj)) →
  types st !! type = Some ty →
  subtype_chain (size (types st)) (types st) type THPStorageType = true →
  THPStorage_NewWithStorage type s status allow st =
    Ok (fresh (dom (objects st))) (wrapped_state st type ty s i status).
Proof. apply NewWithStorage_body_fresh. Qed.

(** ** Construction from a sequence *)

Lemma typename_of_ok st x :
  typename_of x st = Ok (THPUtils_typename (types st) (objects st) x) st.
Proof. done. Qed.

Lemma make_storage_ok st size a g resize :
  make_storage size a g resize st =
    Ok (fresh (dom (storages st)))
       (set_storages
          <[fresh (dom (storages st)) :=
              mkStorageImpl 1 size resize (mkDataPtr (fresh (dom (buffers st))) 0 None) a
                            (allocation_device a g) empty_slot]>
          (set_buffers <[fresh (dom (buffers st)) := replicate (Z.to_nat size) 0]> st)).
Proof. done. Qed.

Lemma fresh_lookup_None {A} (m : gmap nat A) : m !! fresh (dom m) = None.
Proof. apply not_elem_of_dom. apply is_fresh. Qed.

(** ** Ownership exclusivity as an invariant *)

(** The state a call leaves behind when the program goes on: the state of
    a return, or of an exception something up the stack can catch. *)
Definition outcome {A} (r : Res A) : option State :=
  match r with
  | Ok _ st => Some st
  | Throw e st => match error_of e with Some _ => Some st | None => None end
  end.

(** The slot of a live resource owns the wrapper [o]. *)
Definition slot_owned (S : gmap nat StorageImpl) (o : ObjId) : Prop :=
  ∃ s i, S !! s = Some i ∧ pyobj (pyobj_slot i) = Some o ∧ owns_pyobj (pyobj_slot i) = true.

(** The invariant, over the three components it reads: the mode, the
    storages and the wrappers.
    - a wrapper the slot owns is live and borrows the resource, and a
      wrapper the slot records without owning it does not borrow the
      resource (I2).  The second is about the wrapper while it is live: a
      wrapper of a static type is freed by [object_dealloc] with the slot
      left as it is;
    - a slot with a wrapper is tagged, a slot that owns has a wrapper;
    - a wrapper the slot owns has the host reference the slot holds. *)
Record Inv_core (h : bool) (S : gmap nat StorageImpl) (O : gmap nat THPStorage) : Prop := {
  inv_hermetic : h = false;
  inv_owned : ∀ s i o,
    S !! s = Some i → pyobj (pyobj_slot i) = Some o → owns_pyobj (pyobj_slot i) = true →
    ∃ w, O !! o = Some w ∧ cdata w = borrowed s;
  inv_unowned : ∀ s i o w,
    S !! s = Some i → pyobj (pyobj_slot i) = Some o → owns_pyobj (pyobj_slot i) = false →
    O !! o = Some w → cdata w ≠ borrowed s;
  inv_tagged : ∀ s i,
    S !! s = Some i → is_Some (pyobj (pyobj_slot i)) → pyobj_interpreter (pyobj_slot i) = true;
  inv_owns : ∀ s i,
    S !! s = Some i → owns_pyobj (pyobj_slot i) = true → is_Some (pyobj (pyobj_slot i));
  inv_kept : ∀ s i o w,
    S !! s = Some i → pyobj (pyobj_slot i) = Some o → owns_pyobj (pyobj_slot i) = true →
    O !! o = Some w → 1 ≤ ob_refcnt w
}.

Definition Inv (st : State) : Prop := Inv_core (hermetic st) (storages st) (objects st).

(** Storages may disappear and change in anything but their slot. *)
Definition slots_shrink (S S' : gmap nat StorageImpl) : Prop :=
  ∀ s i', S' !! s = Some i' → ∃ i, S !! s = Some i ∧ pyobj_slot i' = pyobj_slot i.

Lemma slots_shrink_refl S : slots_shrink S S.
Proof. intros s i Hi. eauto. Qed.

Lemma slots_shrink_trans S1 S2 S3 :
  slots_shrink S1 S2 → slots_shrink S2 S3 → slots_shrink S1 S3.
Proof.
  intros H12 H23 s i3 Hi3. destruct (H23 s i3 Hi3) as (i2 & Hi2 & ->).
  destruct (H12 s i2 Hi2) as (i1 & Hi1 & ->). eauto.
Qed.

Lemma slots_shrink_delete S s : slots_shrink S (delete s S).
Proof. intros s' i' [_ Hi']%lookup_delete_Some. eauto. Qed.

Lemma slots_shrink_update S s i i' :
  S !! s = Some i → pyobj_slot i' = pyobj_slot i → slots_shrink S (<[s := i']> S).
Proof.
  intros Hi Hslot s2 i2. destruct (decide (s2 = s)) as [->|Hne].
  - rewrite lookup_insert_eq. intros [= <-]. eauto.
  - rewrite lookup_insert_ne by done. eauto.
Qed.

Lemma Inv_core_shrink h S S' O :
  slots_shrink S S' → Inv_core h S O → Inv_core h S' O.
Proof.
  intros Hsh [Hh HA HA' HB HC HE]. split; [done|..].
  - intros s i' o Hi' Ho. destruct (Hsh s i' Hi') as (i & Hi & Heq).
    rewrite Heq in *. eauto.
  - intros s i' o w Hi' Ho. destruct (Hsh s i' Hi') as (i & Hi & Heq).
    rewrite Heq in *. eauto.
  - intros s i' Hi' Ho. destruct (Hsh s i' Hi') as (i & Hi & Heq). rewrite Heq in *. eauto.
  - intros s i' Hi' Ho. destruct (Hsh s i' Hi') as (i & Hi & Heq). rewrite Heq in *. eauto.
  - intros s i' o w Hi' Ho Hown Hw. destruct (Hsh s i' Hi') as (i & Hi & Heq).
    rewrite Heq in *. eauto.
Qed.

Lemma slot_owned_shrink S S' o : slots_shrink S S' → slot_owned S' o → slot_owned S o.
Proof.
  intros Hsh (s & i' & Hi' & Ho & Hown). destruct (Hsh s i' Hi') as (i & Hi & Heq).
  rewrite Heq in *. by exists s, i.
Qed.

(** Releasing a reference only shrinks the storages. *)
Lemma decref_chain_shrink fuel : ∀ s st st',
  decref_chain fuel s st = Some st' → slots_shrink (storages st) (storages st').
Proof.
  induction fuel as [|fuel IH]; intros s st st' H; [done|].
  simpl in H. destruct (storages st !! s) as [i|] eqn:Hi.
  - destruct (1 <? use_count i).
    + injection H as <-. simpl. by eapply slots_shrink_update.
    + destruct (dp_context (data_ptr i)) as [parent|].
      * apply IH in H. simpl in H.
        eapply slots_shrink_trans; [apply slots_shrink_delete|exact H].
      * injection H as <-. simpl. apply slots_shrink_delete.
  - injection H as <-. apply slots_shrink_refl.
Qed.

Lemma intrusive_ptr_decref_shrink s st st' :
  intrusive_ptr_decref s st = Ok tt st' →
  slots_shrink (storages st) (storages st') ∧ host_side_unchanged st st'.
Proof.
  intros H. destruct (intrusive_ptr_decref_total s st) as (st2 & H2 & Hframe).
  rewrite H in H2. injection H2 as <-. split; [|done].
  unfold intrusive_ptr_decref in H.
  destruct (decref_chain _ s st) as [st2|] eqn:Hchain; [|done].
  injection H as <-. by eapply decref_chain_shrink.
Qed.

Lemma Inv_decref s st st' :
  intrusive_ptr_decref s st = Ok tt st' → Inv st → Inv st'.
Proof.
  intros [Hsh (Hobj & _ & _ & Hherm & _)]%intrusive_ptr_decref_shrink HI.
  unfold Inv. rewrite Hobj, Hherm. by eapply Inv_core_shrink.
Qed.

(** A wrapper changes in anything but its handle, and keeps the reference
    of the slot if the slot owns it. *)
Lemma Inv_core_update_object h S O o w w' :
  O !! o = Some w → cdata w' = cdata w →
  (slot_owned S o → 1 ≤ ob_refcnt w') →
  Inv_core h S O → Inv_core h S (<[o := w']> O).
Proof.
  intros Hw Hc Hkeep [Hh HA HA' HB HC HE]. split; try done.
  - intros s i o2 Hi Ho2 Hown. destruct (HA s i o2 Hi Ho2 Hown) as (w2 & Hw2 & Hc2).
    destruct (decide (o2 = o)) as [->|Hne].
    + rewrite lookup_insert_eq. exists w'. split; [done|].
      assert (w2 = w) as -> by congruence. by rewrite Hc.
    + rewrite lookup_insert_ne by done. eauto.
  - intros s i o2 w2 Hi Ho2 Hown. destruct (decide (o2 = o)) as [->|Hne].
    + rewrite lookup_insert_eq. intros [= <-]. rewrite Hc. eauto.
    + rewrite lookup_insert_ne by done. eauto.
  - intros s i o2 w2 Hi Ho2 Hown. destruct (decide (o2 = o)) as [->|Hne].
    + rewrite lookup_insert_eq. intros [= <-]. apply Hkeep. by exists s, i.
    + rewrite lookup_insert_ne by done. eauto.
Qed.

(** A new object whose handle borrows no resource. *)
Lemma Inv_core_new_object h S O o w :
  O !! o = None → (∀ s, cdata w ≠ borrowed s) →
  Inv_core h S O → Inv_core h S (<[o := w]> O).
Proof.
  intros Hnone Hc [Hh HA HA' HB HC HE]. split; try done.
  - intros s i o2 Hi Ho2 Hown. destruct (HA s i o2 Hi Ho2 Hown) as (w2 & Hw2 & Hc2).
    assert (o2 ≠ o) by congruence. rewrite lookup_insert_ne by done. eauto.
  - intros s i o2 w2 Hi Ho2 Hown. destruct (decide (o2 = o)) as [->|Hne].
    + rewrite lookup_insert_eq. intros [= <-]. apply Hc.
    + rewrite lookup_insert_ne by done. eauto.
  - intros s i o2 w2 Hi Ho2 Hown.
    destruct (HA s i o2 Hi Ho2 Hown) as (w3 & Hw3 & _).
    assert (o2 ≠ o) by congruence. rewrite lookup_insert_ne by done. eauto.
Qed.

(** A new resource with an empty slot. *)
Lemma Inv_core_new_storage h S O s i :
  pyobj (pyobj_slot i) = None → owns_pyobj (pyobj_slot i) = false →
  Inv_core h S O → Inv_core h (<[s := i]> S) O.
Proof.
  intros Hnone Hown [Hh HA HA' HB HC HE]. split; try done.
  - intros s2 i2 o. destruct (decide (s2 = s)) as [->|Hne].
    + rewrite lookup_insert_eq. intros [= <-]. congruence.
    + rewrite lookup_insert_ne by done. eauto.
  - intros s2 i2 o w. destruct (decide (s2 = s)) as [->|Hne].
    + rewrite lookup_insert_eq. intros [= <-]. congruence.
    + rewrite lookup_insert_ne by done. eauto.
  - intros s2 i2. destruct (decide (s2 = s)) as [->|Hne].
    + rewrite lookup_insert_eq. intros [= <-]. rewrite Hnone. by intros [? ?].
    + rewrite lookup_insert_ne by done. eauto.
  - intros s2 i2. destruct (decide (s2 = s)) as [->|Hne].
    + rewrite lookup_insert_eq. intros [= <-]. congruence.
    + rewrite lookup_insert_ne by done. eauto.
  - intros s2 i2 o w. destruct (decide (s2 = s)) as [->|Hne].
    + rewrite lookup_insert_eq. intros [= <-]. congruence.
    + rewrite lookup_insert_ne by done. eauto.
Qed.

(** A slot takes the values [(true, Some o, owns)] that agree with the
    handle of the live wrapper [o]. *)
Lemma Inv_core_set_slot h S O s i i' o w owns :
  S !! s = Some i → O !! o = Some w →
  pyobj_slot i' = mkSlot true (Some o) owns →
  cdata w = (if owns then borrowed s else owned s) →
  (owns = true → 1 ≤ ob_refcnt w) →
  Inv_core h S O → Inv_core h (<[s := i']> S) O.
Proof.
  intros Hi Hw Hslot Hc Href [Hh HA HA' HB HC HE]. split; try done.
  - intros s2 i2 o2. destruct (decide (s2 = s)) as [->|Hne].
    + rewrite lookup_insert_eq. intros [= <-]. rewrite Hslot. simpl. intros [= <-] ->.
      by exists w.
    + rewrite lookup_insert_ne by done. eauto.
  - intros s2 i2 o2 w2. destruct (decide (s2 = s)) as [->|Hne].
    + rewrite lookup_insert_eq. intros [= <-]. rewrite Hslot. simpl. intros [= <-] -> Hw2.
      assert (w2 = w) as -> by congruence. by rewrite Hc.
    + rewrite lookup_insert_ne by done. eauto.
  - intros s2 i2. destruct (decide (s2 = s)) as [->|Hne].
    + rewrite lookup_insert_eq. intros [= <-]. by rewrite Hslot.
    + rewrite lookup_insert_ne by done. eauto.
  - intros s2 i2. destruct (decide (s2 = s)) as [->|Hne].
    + rewrite lookup_insert_eq. intros [= <-]. rewrite Hslot. simpl. eauto.
    + rewrite lookup_insert_ne by done. eauto.
  - intros s2 i2 o2 w2. destruct (decide (s2 = s)) as [->|Hne].
    + rewrite lookup_insert_eq. intros [= <-]. rewrite Hslot. simpl.
      intros [= <-] -> Hw2. assert (w2 = w) as -> by congruence. by apply Href.
    + rewrite lookup_insert_ne by done. eauto.
Qed.

(** A slot and the live wrapper it refers to, whose handle is on the
    resource of the slot, change hands together. *)
Lemma Inv_core_rebind h S O s i i' o w w' owns :
  S !! s = Some i → pyobj (pyobj_slot i) = Some o → O !! o = Some w →
  unsafeGetStorageImpl (cdata w) = Some s →
  pyobj_slot i' = mkSlot true (Some o) owns →
  cdata w' = (if owns then borrowed s else owned s) →
  (owns = true → 1 ≤ ob_refcnt w') →
  Inv_core h S O → Inv_core h (<[s := i']> S) (<[o := w']> O).
Proof.
  intros Hi Ho Hw Hon Hslot Hc Href [Hh HA HA' HB HC HE].
  assert (∀ s2 i2, s2 ≠ s → S !! s2 = Some i2 → pyobj (pyobj_slot i2) = Some o →
                   owns_pyobj (pyobj_slot i2) = false) as Huniq.
  { intros s2 i2 Hne Hi2 Ho2. destruct (owns_pyobj (pyobj_slot i2)) eqn:Hown2; [|done].
    destruct (HA s2 i2 o Hi2 Ho2 Hown2) as (w2 & Hw2 & Hc2).
    assert (w2 = w) as -> by congruence. rewrite Hc2 in Hon. simpl in Hon. congruence. }
  split; try done.
  - intros s2 i2 o2. destruct (decide (s2 = s)) as [->|Hne].
    + rewrite lookup_insert_eq. intros [= <-]. rewrite Hslot. simpl. intros [= <-] ->.
      rewrite lookup_insert_eq. by exists w'.
    + rewrite lookup_insert_ne by done. intros Hi2 Ho2 Hown2.
      assert (o2 ≠ o) by (intros ->; by rewrite (Huniq s2 i2) in Hown2).
      rewrite lookup_insert_ne by done. eauto.
  - intros s2 i2 o2 w2. destruct (decide (s2 = s)) as [->|Hne].
    + rewrite lookup_insert_eq. intros [= <-]. rewrite Hslot. simpl. intros [= <-] ->.
      rewrite lookup_insert_eq. intros [= <-]. by rewrite Hc.
    + rewrite lookup_insert_ne by done. intros Hi2 Ho2 Hown2.
      destruct (decide (o2 = o)) as [->|Hneo].
      * rewrite lookup_insert_eq. intros [= <-]. rewrite Hc. destruct owns; congruence.
      * rewrite lookup_insert_ne by done. eauto.
  - intros s2 i2. destruct (decide (s2 = s)) as [->|Hne].
    + rewrite lookup_insert_eq. intros [= <-]. by rewrite Hslot.
    + rewrite lookup_insert_ne by done. eauto.
  - intros s2 i2. destruct (decide (s2 = s)) as [->|Hne].
    + rewrite lookup_insert_eq. intros [= <-]. rewrite Hslot. simpl. eauto.
    + rewrite lookup_insert_ne by done. eauto.
  - intros s2 i2 o2 w2. destruct (decide (s2 = s)) as [->|Hne].
    + rewrite lookup_insert_eq. intros [= <-]. rewrite Hslot. simpl.
      intros [= <-] ->. rewrite lookup_insert_eq. intros [= <-]. by apply Href.
    + rewrite lookup_insert_ne by done. intros Hi2 Ho2 Hown2.
      assert (o2 ≠ o) by (intros ->; by rewrite (Huniq s2 i2) in Hown2).
      rewrite lookup_insert_ne by done. eauto.
Qed.

(** An object no slot owns goes away. *)
Lemma Inv_core_delete_object h S O o :
  ¬ slot_owned S o → Inv_core h S O → Inv_core h S (delete o O).
Proof.
  intros Hunref [Hh HA HA' HB HC HE]. split; try done.
  - intros s i o2 Hi Ho2 Hown. destruct (HA s i o2 Hi Ho2 Hown) as (w2 & Hw2 & Hc2).
    assert (o2 ≠ o) by (intros ->; apply Hunref; by exists s, i).
    rewrite lookup_delete_ne by done. eauto.
  - intros s i o2 w2 Hi Ho2 Hown [_ Hw2]%lookup_delete_Some. eauto.
  - intros s i o2 w2 Hi Ho2 Hown [_ Hw2]%lookup_delete_Some. eauto.
Qed.

Lemma Inv_observed st s i :
  Inv st → storages st !! s = Some i →
  observed_pyobj st i =
    if pyobj_interpreter (pyobj_slot i) then Some (pyobj (pyobj_slot i)) else None.
Proof. intros [Hh _ _ _ _] _. unfold observed_pyobj. by rewrite Hh. Qed.

Lemma Inv_observed_obj st s i obj :
  Inv st → storages st !! s = Some i →
  observed_pyobj st i = Some (Some obj) ↔ pyobj (pyobj_slot i) = Some obj.
Proof.
  intros HI Hi. rewrite (Inv_observed _ _ _ HI Hi). split.
  - destruct (pyobj_interpreter (pyobj_slot i)); [|done]. by intros [= ->].
  - intros Ho. rewrite (inv_tagged _ _ _ HI s i Hi) by (rewrite Ho; eauto). by rewrite Ho.
Qed.

(** *** [THPStorage_Wrap] and [THPStorage_NewWithStorage] keep the invariant *)

Lemma unwinding_outcome {A} s (m : M A) st :
  (∃ a st', m st = Ok a st' ∧ unwinding s m st = Ok a st') ∨
  (∃ e st1 st2, m st = Throw e st1 ∧ intrusive_ptr_decref s st1 = Ok tt st2 ∧
                unwinding s m st = Throw e st2).
Proof.
  unfold unwinding. destruct (m st) as [a st'|e st1] eqn:Hm.
  - left. eauto.
  - right. destruct (intrusive_ptr_decref_total s st1) as (st2 & H2 & _).
    exists e, st1, st2. by rewrite H2.
Qed.

Lemma Inv_Wrap_existing n st s i obj st' :
  Inv st → storages st !! s = Some i → pyobj (pyobj_slot i) = Some obj →
  outcome (Wrap_fuel (S n) s st) = Some st' → Inv st'.
Proof.
  intros HI Hi Hobj Hout.
  pose proof (inv_hermetic _ _ _ HI) as Hh.
  pose proof (proj2 (Inv_observed_obj _ _ _ obj HI Hi) Hobj) as Hobs.
  rewrite (Wrap_fuel_existing _ _ _ _ _ Hh Hi Hobs) in Hout.
  destruct (owns_pyobj (pyobj_slot i)) eqn:Hown.
  - destruct (inv_owned _ _ _ HI s i obj Hi Hobj Hown) as (w & Hw & Hc).
    rewrite (bind_ok _ _ _ _ _ (set_owns_pyobj_ok _ _ _ false Hi)) in Hout.
    set (st1 := set_storages _ st) in Hout.
    assert (objects st1 !! obj = Some w) as Hw1 by done.
    assert (unsafeIsBorrowed (cdata w) = true) as Hb by (by rewrite Hc).
    rewrite (bind_ok _ _ _ _ _ (assign_cdata_over_borrowed st1 obj w _ Hw1 Hb)) in Hout.
    injection Hout as <-. unfold Inv, st1. simpl.
    eapply (Inv_core_rebind _ _ _ s i _ obj w _ false); try done.
    + by rewrite Hc.
    + simpl. rewrite Hobj.
      by rewrite (inv_tagged _ _ _ HI s i Hi) by (rewrite Hobj; eauto).
  - destruct (objects st !! obj) as [w|] eqn:Hw.
    + rewrite (bind_ok _ _ _ _ _ (Py_INCREF_ok _ _ _ Hw)) in Hout.
      set (st1 := set_objects _ st) in Hout.
      destruct (intrusive_ptr_decref_total s st1) as (st2 & Hdec & _).
      rewrite (bind_ok _ _ _ _ _ Hdec) in Hout. injection Hout as <-.
      apply (Inv_decref _ _ _ Hdec). unfold Inv, st1. simpl.
      eapply Inv_core_update_object; [done|done| |done].
      intros (s2 & i2 & Hi2 & Ho2 & Hown2).
      pose proof (inv_kept _ _ _ HI s2 i2 obj w Hi2 Ho2 Hown2 Hw). simpl. lia.
    + rewrite (bind_throw _ _ st undefined_behaviour st) in Hout; [done|].
      unfold Py_INCREF. apply bind_throw. unfold deref_obj. by rewrite Hw.
Qed.

Lemma Inv_wrapped_state st type ty s i status :
  Inv st → storages st !! s = Some i → pyobj (pyobj_slot i) = None →
  (status = TAGGED_BY_US → pyobj_interpreter (pyobj_slot i) = true) →
  Inv (wrapped_state st type ty s i status).
Proof.
  intros HI Hi Hnone Hstatus.
  pose proof (inv_hermetic _ _ _ HI) as Hh.
  unfold wrapped_state. rewrite Hh. unfold Inv. simpl. rewrite Hh.
  set (o := fresh (dom (objects st))).
  set (w := mkTHPStorage 1 type (tp_have_gc ty) 0 [] false (owned s) false).
  assert (owns_pyobj (pyobj_slot i) = false) as Hown.
  { destruct (owns_pyobj (pyobj_slot i)) eqn:E; [|done].
    destruct (inv_owns _ _ _ HI s i Hi E) as [? ?]. congruence. }
  eapply (Inv_core_set_slot _ _ _ s i _ o w false); try done.
  - apply lookup_insert_eq.
  - unfold registered_slot. simpl. rewrite Hown.
    destruct status; try done. by rewrite Hstatus.
  - apply Inv_core_new_object; [apply fresh_lookup_None|done|]. by rewrite <- Hh.
Qed.

Lemma Inv_NewWithStorage_body_fresh wrap st type s i status allow st' :
  Inv st → storages st !! s = Some i → pyobj (pyobj_slot i) = None →
  (status = TAGGED_BY_US → pyobj_interpreter (pyobj_slot i) = true) →
  outcome (NewWithStorage_body wrap type s status allow st) = Some st' → Inv st'.
Proof.
  intros HI Hi Hnone Hstatus Hout.
  assert (∀ obj, observed_pyobj st i ≠ Some (Some obj)) as Hobs.
  { intros obj Hobs%(Inv_observed_obj _ _ _ _ HI Hi). congruence. }
  destruct (subtype_chain (size (types st)) (types st) type THPStorageType) eqn:Hsub.
  - destruct (types st !! type) as [ty|] eqn:Hty.
    + rewrite (NewWithStorage_body_fresh _ _ _ _ _ _ _ _ Hi Hobs Hty Hsub) in Hout.
      injection Hout as <-. by apply Inv_wrapped_state.
    + exfalso. unfold NewWithStorage_body in Hout.
      rewrite (bind_ok _ _ st (observed_pyobj st i) st) in Hout.
      2:{ by rewrite NewWithStorage_entry, Hsub, Hi. }
      assert (∀ k : nat → M nat,
                outcome ((unwinding s (tp_alloc type) ≫= k) st) = None) as Hcrash.
      { intros k.
        destruct (unwinding_outcome s (tp_alloc type) st)
          as [(a & st1 & Hm & _)|(e & st1 & st2 & Hm & _ & Hu)].
        - unfold tp_alloc, deref_type, mbind, M_bind in Hm. by rewrite Hty in Hm.
        - rewrite (bind_throw _ _ _ _ _ Hu).
          unfold tp_alloc, deref_type, mbind, M_bind in Hm. rewrite Hty in Hm.
          by injection Hm as <- <-. }
      destruct (observed_pyobj st i) as [[obj|]|]; [by destruct (Hobs obj)|..];
        by rewrite Hcrash in Hout.
  - unfold NewWithStorage_body in Hout.
    assert (∃ st2, intrusive_ptr_decref s st = Ok tt st2 ∧
              unwinding s (sub ← PyType_IsSubtype type THPStorageType;
                           TORCH_CHECK sub NotAStorageSubclass;;
                           check_pyobj s) st = Throw (c10_Error NotAStorageSubclass) st2)
      as (st2 & Hdec & Hthrow).
    { rewrite NewWithStorage_entry, Hsub. unfold unwinding, throw.
      destruct (intrusive_ptr_decref_total s st) as (st2 & -> & _). eauto. }
    rewrite (bind_throw _ _ _ _ _ Hthrow) in Hout. injection Hout as <-.
    by eapply Inv_decref.
Qed.

(** A computation that reads the state and leaves it as it is, also when
    it throws. *)
Definition reads_only {A} (m : M A) : Prop := ∀ st, final_state (m st) = st.

Lemma reads_bind {A B} (m : M A) (k : A → M B) :
  reads_only m → (∀ a, reads_only (k a)) → reads_only (m ≫= k).
Proof.
  intros Hm Hk st. specialize (Hm st). unfold mbind, M_bind.
  destruct (m st) as [a st'|e st']; simpl in *; subst; [apply Hk|done].
Qed.

Lemma reads_mret {A} (a : A) : reads_only (mret a).
Proof. by intros st. Qed.

Lemma reads_throw {A} e : reads_only (@throw A e).
Proof. by intros st. Qed.

Lemma reads_deref_obj o : reads_only (deref_obj o).
Proof. intros st. unfold deref_obj. by destruct (objects st !! o). Qed.

Lemma reads_deref_type t : reads_only (deref_type t).
Proof. intros st. unfold deref_type. by destruct (types st !! t). Qed.

Lemma reads_deref_storage s : reads_only (deref_storage s).
Proof. intros st. unfold deref_storage. by destruct (storages st !! s). Qed.

Lemma reads_get_state : reads_only get_state.
Proof. by intros st. Qed.

Lemma reads_if {A} (b : bool) (m1 m2 : M A) :
  reads_only m1 → reads_only m2 → reads_only (if b then m1 else m2).
Proof. by destruct b. Qed.

Create HintDb reads discriminated.

#[local] Hint Resolve reads_mret reads_throw reads_deref_obj reads_deref_type
  reads_deref_storage reads_get_state : reads.
#[local] Hint Extern 2 (reads_only (_ ≫= _)) => apply reads_bind; [|intros ?] : reads.
#[local] Hint Extern 2 (reads_only (if _ then _ else _)) => apply reads_if : reads.
#[local] Hint Extern 3 (reads_only (match ?x with _ => _ end)) => destruct x : reads.

Lemma reads_checks type obj allow :
  reads_only (TORCH_CHECK_msg allow (already_wrapped type obj false);;
              obj_type ← Py_TYPE obj;
              sub ← PyType_IsSubtype obj_type type;
              TORCH_CHECK_msg (bool_decide (obj_type = type) || sub)
                              (already_wrapped type obj true)).
Proof.
  unfold TORCH_CHECK_msg, already_wrapped, type_name, Py_TYPE, PyType_IsSubtype.
  auto 20 with reads.
Qed.

Lemma Inv_unwinding_reads {A} s (m : M A) st st' :
  reads_only m → Inv st → outcome (unwinding s m st) = Some st' → Inv st'.
Proof.
  intros Hm HI Hout. specialize (Hm st).
  destruct (unwinding_outcome s m st)
    as [(a & st1 & Hm1 & Hu)|(e & st1 & st2 & Hm1 & Hdec & Hu)];
    rewrite Hu in Hout; rewrite Hm1 in Hm; simpl in Hm; subst st1.
  - by injection Hout as <-.
  - simpl in Hout. destruct (error_of e); [|done]. injection Hout as <-.
    by eapply Inv_decref.
Qed.

Lemma Inv_Wrap s st st' :
  Inv st → outcome (THPStorage_Wrap s st) = Some st' → Inv st'.
Proof.
  intros HI Hout. pose proof (inv_hermetic _ _ _ HI) as Hh.
  destruct (storages st !! s) as [i|] eqn:Hi.
  - destruct (pyobj (pyobj_slot i)) as [obj|] eqn:Hobj.
    + by eapply Inv_Wrap_existing.
    + unfold THPStorage_Wrap in Hout.
      change (Wrap_fuel 3) with (Wrap_body (NewWithStorage_fuel 2)) in Hout.
      unfold Wrap_body in Hout.
      rewrite (bind_ok _ _ st st st) in Hout by done. rewrite Hh in Hout.
      rewrite (bind_ok _ _ st (observed_pyobj st i) st) in Hout
        by (by rewrite unwinding_check_pyobj, Hi).
      rewrite (Inv_observed _ _ _ HI Hi), Hobj in Hout.
      change (NewWithStorage_fuel 2) with (NewWithStorage_body (Wrap_fuel 1)) in Hout.
      destruct (pyobj_interpreter (pyobj_slot i)) eqn:Htag.
      * by eapply Inv_NewWithStorage_body_fresh.
      * rewrite (bind_ok _ _ st i st) in Hout
          by (apply unwinding_ok; by apply deref_storage_ok).
        eapply Inv_NewWithStorage_body_fresh; [done..| |done].
        by destruct (use_count i <=? 1).
  - exfalso. unfold THPStorage_Wrap in Hout.
    change (Wrap_fuel 3) with (Wrap_body (NewWithStorage_fuel 2)) in Hout.
    unfold Wrap_body in Hout.
    rewrite (bind_ok _ _ st st st) in Hout by done. rewrite Hh in Hout.
    rewrite (bind_throw _ _ st undefined_behaviour st) in Hout; [done|].
    by rewrite unwinding_check_pyobj, Hi.
Qed.

Lemma Inv_NewWithStorage type s status allow st st' :
  Inv st →
  (∀ i, storages st !! s = Some i → status = TAGGED_BY_US →
        pyobj_interpreter (pyobj_slot i) = true) →
  outcome (THPStorage_NewWithStorage type s status allow st) = Some st' → Inv st'.
Proof.
  intros HI Hstatus Hout. pose proof (inv_hermetic _ _ _ HI) as Hh.
  unfold THPStorage_NewWithStorage in Hout.
  change (NewWithStorage_fuel 3) with (NewWithStorage_body (Wrap_fuel 2)) in Hout.
  destruct (storages st !! s) as [i|] eqn:Hi.
  - destruct (pyobj (pyobj_slot i)) as [obj|] eqn:Hobj.
    + pose proof (proj2 (Inv_observed_obj _ _ _ obj HI Hi) Hobj) as Hobs.
      unfold NewWithStorage_body in Hout.
      destruct (subtype_chain (size (types st)) (types st) type THPStorageType) eqn:Hsub.
      * rewrite (bind_ok _ _ st (Some (Some obj)) st) in Hout
          by (by rewrite NewWithStorage_entry, Hsub, Hi, Hobs).
        pose proof (reads_checks type obj allow) as Hreads.
        set (checks := (TORCH_CHECK_msg allow (already_wrapped type obj false);; _)) in *.
        destruct (unwinding_outcome s checks st)
          as [(a & st1 & Hm1 & Hu)|(e & st1 & st2 & Hm1 & Hdec & Hu)].
        -- specialize (Hreads st). rewrite Hm1 in Hreads. simpl in Hreads. subst st1.
           rewrite (bind_ok _ _ _ _ _ Hu) in Hout. by eapply (Inv_Wrap_existing 1).
        -- rewrite (bind_throw _ _ _ _ _ Hu) in Hout.
           eapply (Inv_unwinding_reads s checks); [done|done|]. by rewrite Hu.
      * assert (∃ st2, intrusive_ptr_decref s st = Ok tt st2 ∧
                  unwinding s (sub ← PyType_IsSubtype type THPStorageType;
                               TORCH_CHECK sub NotAStorageSubclass;;
                               check_pyobj s) st = Throw (c10_Error NotAStorageSubclass) st2)
          as (st2 & Hdec & Hthrow).
        { rewrite NewWithStorage_entry, Hsub. unfold unwinding, throw.
          destruct (intrusive_ptr_decref_total s st) as (st2 & -> & _). eauto. }
        rewrite (bind_throw _ _ _ _ _ Hthrow) in Hout. injection Hout as <-.
        by eapply Inv_decref.
    + eapply Inv_NewWithStorage_body_fresh; eauto.
  - unfold NewWithStorage_body in Hout.
    destruct (subtype_chain (size (types st)) (types st) type THPStorageType) eqn:Hsub.
    + rewrite (bind_throw _ _ st undefined_behaviour st) in Hout; [done|].
      by rewrite NewWithStorage_entry, Hsub, Hi.
    + assert (∃ st2, intrusive_ptr_decref s st = Ok tt st2 ∧
                unwinding s (sub ← PyType_IsSubtype type THPStorageType;
                             TORCH_CHECK sub NotAStorageSubclass;;
                             check_pyobj s) st = Throw (c10_Error NotAStorageSubclass) st2)
        as (st2 & Hdec & Hthrow).
      { rewrite NewWithStorage_entry, Hsub. unfold unwinding, throw.
        destruct (intrusive_ptr_decref_total s st) as (st2 & -> & _). eauto. }
      rewrite (bind_throw _ _ _ _ _ Hthrow) in Hout. injection Hout as <-.
      by eapply Inv_decref.
Qed.

(** *** Preservation and teardown keep the invariant *)

(** [THPStorage_tryPreserve], evaluated. *)
Lemma tryPreserve_eval st self w s i :
  objects st !! self = Some w → cdata w = owned s → storages st !! s = Some i →
  THPStorage_tryPreserve self st =
    if bool_decide (observed_pyobj st i = Some (Some self)) && (1 <? use_count i) then
      if owns_pyobj (pyobj_slot i) then Throw (internal_assert 148) st
      else Ok true (preserved_state st self w s i)
    else Ok false st.
Proof.
  intros Hw Hc Hi.
  assert (unsafeGetStorageImpl (cdata w) = Some s) as Hs by (by rewrite Hc).
  assert (resource_of st self = Some s) as Hres.
  { unfold resource_of. by rewrite Hw. }
  unfold THPStorage_tryPreserve.
  rewrite (bind_ok _ _ _ _ _ (isPreservable_eval _ _ _ _ _ Hw Hs Hi)), Hc. simpl.
  destruct (bool_decide (observed_pyobj st i = Some (Some self)) && (1 <? use_count i))
    eqn:Hb; [|done]. simpl.
  apply andb_true_iff in Hb as [_ Hcount].
  rewrite (bind_ok _ _ st s st (Unpack_nonnull_ok _ _ _ Hres)).
  rewrite (bind_ok _ _ _ _ _ (get_owns_pyobj_ok _ _ _ Hi)).
  destruct (owns_pyobj (pyobj_slot i)); [done|]. simpl.
  rewrite (bind_ok _ _ st tt st) by done.
  rewrite (bind_ok _ _ _ _ _ (set_owns_pyobj_ok _ _ _ true Hi)).
  set (st1 := set_storages _ st).
  assert (objects st1 !! self = Some w) as Hw1 by done.
  rewrite (bind_ok _ _ _ _ _ (Py_INCREF_ok _ _ _ Hw1)).
  set (st2 := set_objects _ st1).
  assert (assign_cdata self (borrowed s) st2 = Ok tt (preserved_state st self w s i)) as Ha.
  { unfold assign_cdata.
    rewrite (bind_ok _ _ st2 (with_refcnt (ob_refcnt w + 1) w) st2).
    2:{ apply deref_obj_ok. subst st2. simpl. apply lookup_insert_eq. }
    rewrite bind_modify. simpl. rewrite Hc.
    erewrite intrusive_ptr_decref_shared.
    2:{ simpl. apply lookup_insert_eq. }
    2:{ simpl. lia. }
    f_equal. unfold preserved_state, set_storages, set_objects. simpl.
    by rewrite !insert_insert_eq. }
  by rewrite (bind_ok _ _ _ _ _ Ha).
Qed.

Lemma tryPreserve_not_owned st self w :
  objects st !! self = Some w → unsafeIsBorrowed (cdata w) = true →
  THPStorage_tryPreserve self st = Ok false st.
Proof.
  intros Hw Hb. unfold THPStorage_tryPreserve, THPStorage_isPreservable.
  rewrite bind_assoc_at, (bind_ok _ _ _ _ _ (deref_obj_ok _ _ _ Hw)).
  cbv beta. by rewrite Hb.
Qed.

(** Under the invariant the assertion of line 148 holds. *)
Lemma Inv_tryPreserve st self w :
  Inv st → objects st !! self = Some w → 0 ≤ ob_refcnt w →
  match THPStorage_tryPreserve self st with
  | Ok true st' => Inv st'
  | Ok false st' => st' = st
  | Throw e _ => e = undefined_behaviour
  end.
Proof.
  intros HI Hw Href.
  destruct (cdata w) as [s| |] eqn:Hc.
  - destruct (storages st !! s) as [i|] eqn:Hi.
    + rewrite (tryPreserve_eval _ _ _ _ _ Hw Hc Hi).
      destruct (bool_decide (observed_pyobj st i = Some (Some self))) eqn:Hobs;
        simpl; [|done].
      apply bool_decide_eq_true in Hobs.
      apply (Inv_observed_obj _ _ _ _ HI Hi) in Hobs.
      assert (owns_pyobj (pyobj_slot i) = false) as Hown.
      { destruct (owns_pyobj (pyobj_slot i)) eqn:Hown; [|done].
        destruct (inv_owned _ _ _ HI s i self Hi Hobs Hown) as (w' & Hw' & Hc').
        congruence. }
      rewrite Hown.
      destruct (1 <? use_count i) eqn:Hcount; [|done].
      unfold Inv, preserved_state. simpl.
      eapply (Inv_core_rebind _ _ _ s i _ self w _ true); try done.
      * by rewrite Hc.
      * simpl. rewrite Hobs.
        by rewrite (inv_tagged _ _ _ HI s i Hi) by (rewrite Hobs; eauto).
      * simpl. lia.
    + unfold THPStorage_tryPreserve, THPStorage_isPreservable.
      rewrite bind_assoc_at, (bind_ok _ _ _ _ _ (deref_obj_ok _ _ _ Hw)).
      cbv beta. rewrite Hc. cbn [unsafeIsBorrowed].
      assert (resource_of st self = Some s) as Hres.
      { unfold resource_of. rewrite Hw. simpl. by rewrite Hc. }
      rewrite bind_assoc_at, (bind_ok _ _ st s st (Unpack_nonnull_ok _ _ _ Hres)).
      assert (check_pyobj s st = Throw undefined_behaviour st) as Hcheck.
      { unfold check_pyobj, deref_storage, mbind, M_bind. by rewrite Hi. }
      by rewrite bind_assoc_at, (bind_throw _ _ _ _ _ Hcheck).
  - by rewrite (tryPreserve_not_owned _ _ _ Hw) by (by rewrite Hc).
  - by rewrite (tryPreserve_not_owned _ _ _ Hw) by (by rewrite Hc).
Qed.

(** What the teardown sequence, hooks included, may change before the
    handle is destroyed: fields of the object itself other than its handle. *)
Definition teardown_rel (st0 : State) (self : ObjId) (st : State) : Prop :=
  storages st = storages st0 ∧ hermetic st = hermetic st0 ∧
  (∀ o', o' ≠ self → objects st !! o' = objects st0 !! o') ∧
  ∃ w0 w, objects st0 !! self = Some w0 ∧ objects st !! self = Some w ∧
          cdata w = cdata w0.

(** A hook acts on the object it is run for, and not on its handle. *)
Definition hook_local (hook : ObjId → State → State) : Prop :=
  ∀ o st, is_Some (objects st !! o) → teardown_rel st o (hook o st).

Lemma teardown_rel_refl st self w :
  objects st !! self = Some w → teardown_rel st self st.
Proof. intros Hw. repeat split; eauto. Qed.

Lemma teardown_rel_trans st0 st1 st2 self :
  teardown_rel st0 self st1 → teardown_rel st1 self st2 → teardown_rel st0 self st2.
Proof.
  intros (HS1 & Hh1 & Ho1 & w0 & w1 & Hw0 & Hw1 & Hc1)
         (HS2 & Hh2 & Ho2 & w1' & w2 & Hw1' & Hw2 & Hc2).
  assert (w1' = w1) as -> by congruence.
  split; [congruence|]. split; [congruence|]. split.
  - intros o' Hne. rewrite Ho2, Ho1; done.
  - exists w0, w2. repeat split; congruence.
Qed.

Lemma teardown_rel_update st0 self st w w' :
  teardown_rel st0 self st → objects st !! self = Some w → cdata w' = cdata w →
  teardown_rel st0 self (set_objects <[self := w']> st).
Proof.
  intros (HS & Hh & Ho & w0 & w1 & Hw0 & Hw1 & Hc) Hw Hc'.
  assert (w1 = w) as -> by congruence.
  split; [done|]. split; [done|]. split.
  - intros o' Hne. simpl. rewrite lookup_insert_ne by done. by apply Ho.
  - exists w0, w'. simpl. rewrite lookup_insert_eq. repeat split; congruence.
Qed.

Lemma teardown_rel_log st0 self st ev :
  teardown_rel st0 self st → teardown_rel st0 self (log_event ev st).
Proof. done. Qed.

Lemma teardown_rel_hook st0 self st hook :
  hook_local hook → teardown_rel st0 self st →
  teardown_rel st0 self (keeping_events (hook self) st).
Proof.
  intros Hhook HJ.
  pose proof HJ as (_ & _ & _ & w0 & w & _ & Hw & _).
  eapply teardown_rel_trans; [exact HJ|].
  destruct (Hhook self st) as (HS & Hh & Ho & Hself); [eauto|].
  by repeat split.
Qed.

(** The invariant carries over, for an object that no slot owns. *)
Lemma Inv_teardown_rel st0 self st :
  Inv st0 → ¬ slot_owned (storages st0) self → teardown_rel st0 self st → Inv st.
Proof.
  intros [Hh HA HA' HB HC HE] Hnot (HS & Hherm & Ho & w0 & w & Hw0 & Hw & Hc).
  unfold Inv. rewrite HS, Hherm. split; try done.
  - intros s i o Hi Hobj Hown. destruct (HA s i o Hi Hobj Hown) as (w1 & Hw1 & Hc1).
    assert (o ≠ self) by (intros ->; apply Hnot; by exists s, i).
    rewrite Ho by done. eauto.
  - intros s i o w1 Hi Hobj Hown Hw1. destruct (decide (o = self)) as [->|Hne].
    + assert (w1 = w) as -> by congruence. rewrite Hc. eauto.
    + rewrite Ho in Hw1 by done. eauto.
  - intros s i o w1 Hi Hobj Hown Hw1. destruct (decide (o = self)) as [->|Hne].
    + destruct Hnot. by exists s, i.
    + rewrite Ho in Hw1 by done. eauto.
Qed.

(** A computation that stays within [teardown_rel], whatever its outcome. *)
Definition keeps (J : State → Prop) {A} (m : M A) : Prop :=
  ∀ st, J st → J (final_state (m st)).

Lemma keeps_bind J {A B} (m : M A) (k : A → M B) :
  keeps J m → (∀ a, keeps J (k a)) → keeps J (m ≫= k).
Proof.
  intros Hm Hk st HJ. specialize (Hm st HJ). unfold mbind, M_bind.
  destruct (m st) as [a st'|e st']; simpl in *; [by apply Hk|done].
Qed.

Lemma keeps_reads J {A} (m : M A) : reads_only m → keeps J m.
Proof. intros Hm st HJ. by rewrite Hm. Qed.

Lemma keeps_if J {A} (b : bool) (m1 m2 : M A) :
  keeps J m1 → keeps J m2 → keeps J (if b then m1 else m2).
Proof. by destruct b. Qed.

Lemma keeps_log st0 self ev : keeps (teardown_rel st0 self) (modify (log_event ev)).
Proof. intros st HJ. by apply teardown_rel_log. Qed.

Lemma keeps_assert J c line : keeps J (TORCH_INTERNAL_ASSERT c line).
Proof. apply keeps_reads. destruct c; [apply reads_mret|apply reads_throw]. Qed.

(** An update of the object under teardown that leaves its handle. *)
Lemma keeps_update {A} st0 self (f : THPStorage → THPStorage) (k : M A) :
  (∀ w, cdata (f w) = cdata w) → keeps (teardown_rel st0 self) k →
  keeps (teardown_rel st0 self)
        (w ← deref_obj self; modify (set_objects <[self := f w]>);; k).
Proof.
  intros Hf Hk st HJ. unfold deref_obj, mbind at 1, M_bind at 1.
  destruct (objects st !! self) as [w|] eqn:Hw; [|done].
  rewrite bind_modify. apply Hk. by eapply teardown_rel_update.
Qed.

Section Hooks.

(** The hooks of the host are taken to act on the object they are run for. *)
Hypothesis finalizer_local : hook_local finalizer_hook.
Hypothesis del_local : hook_local del_hook.

Lemma keeps_GC_UnTrack st0 self : keeps (teardown_rel st0 self) (PyObject_GC_UnTrack self).
Proof. apply (keeps_update _ _ (with_tracked false)); [done|apply keeps_log]. Qed.

Lemma keeps_GC_Track st0 self : keeps (teardown_rel st0 self) (PyObject_GC_Track self).
Proof. apply (keeps_update _ _ (with_tracked true)); [done|apply keeps_log]. Qed.

Lemma keeps_ClearWeakRefs st0 self :
  keeps (teardown_rel st0 self) (PyObject_ClearWeakRefs self).
Proof. apply (keeps_update _ _ (with_weakrefs 0)); [done|apply keeps_log]. Qed.

Lemma keeps_clear_new_weakrefs st0 self :
  keeps (teardown_rel st0 self) (clear_new_weakrefs self).
Proof. apply (keeps_update _ _ (with_weakrefs 0)); [done|apply keeps_log]. Qed.

Lemma keeps_clear_slots st0 self base :
  keeps (teardown_rel st0 self) (clear_slots base self).
Proof.
  apply (keeps_update _ _ (λ w, with_cleared (cleared_slots w ++ [base]) w));
    [done|apply keeps_log].
Qed.

Lemma keeps_take_back st0 self {A} (r : THPStorage → A) :
  keeps (teardown_rel st0 self)
        (w' ← deref_obj self;
         modify (set_objects <[self := with_refcnt (ob_refcnt w' - 1) w']>);;
         mret (r w')).
Proof.
  intros st HJ. unfold deref_obj, mbind at 1, M_bind at 1.
  destruct (objects st !! self) as [w|] eqn:Hw; [|done].
  rewrite bind_modify. simpl. by eapply teardown_rel_update.
Qed.

Lemma keeps_PyObject_CallFinalizer st0 self :
  keeps (teardown_rel st0 self) (PyObject_CallFinalizer self).
Proof.
  unfold PyObject_CallFinalizer.
  apply keeps_bind; [apply keeps_reads, reads_deref_obj|]. intros w.
  apply keeps_bind; [apply keeps_reads, reads_deref_type|]. intros ty.
  apply keeps_if; [apply keeps_reads, reads_mret|].
  apply keeps_if; [apply keeps_reads, reads_mret|].
  apply keeps_bind; [apply keeps_log|]. intros _.
  apply keeps_bind.
  { intros st HJ. by apply teardown_rel_hook. }
  intros _. apply keeps_if; [|apply keeps_reads, reads_mret].
  intros st HJ. unfold deref_obj, mbind, M_bind.
  destruct (objects st !! self) as [w'|] eqn:Hw; [|done].
  simpl. by eapply teardown_rel_update.
Qed.

Lemma keeps_CallFinalizer st0 self :
  keeps (teardown_rel st0 self) (PyObject_CallFinalizerFromDealloc self).
Proof.
  unfold PyObject_CallFinalizerFromDealloc.
  apply (keeps_update _ _ (with_refcnt 1)); [done|].
  apply keeps_bind; [apply keeps_PyObject_CallFinalizer|].
  intros _. apply (keeps_take_back _ _ (λ w', if ob_refcnt w' - 1 =? 0 then 0 else -1)).
Qed.

Lemma keeps_call_tp_del st0 self :
  keeps (teardown_rel st0 self) (call_tp_del self).
Proof.
  unfold call_tp_del.
  apply (keeps_update _ _ (with_refcnt 1)); [done|].
  apply keeps_bind; [apply keeps_log|]. intros _.
  apply keeps_bind.
  { intros st HJ. by apply teardown_rel_hook. }
  intros _. intros st HJ. unfold deref_obj, mbind, M_bind.
  destruct (objects st !! self) as [w|] eqn:Hw; [|done].
  simpl. by eapply teardown_rel_update.
Qed.

Lemma keeps_teardown_finalize st0 self ty :
  keeps (teardown_rel st0 self) (teardown_finalize ty self).
Proof.
  unfold teardown_finalize.
  apply keeps_bind.
  { apply keeps_if; [apply keeps_GC_UnTrack|apply keeps_reads, reads_mret]. }
  intros _. apply keeps_if; [|apply keeps_reads, reads_mret].
  apply keeps_bind; [apply keeps_GC_Track|]. intros _.
  apply keeps_bind; [apply keeps_CallFinalizer|]. intros rc.
  apply keeps_if; [apply keeps_reads, reads_mret|].
  apply keeps_bind; [apply keeps_GC_UnTrack|]. intros _. apply keeps_reads, reads_mret.
Qed.

Lemma keeps_teardown_del st0 self ty :
  keeps (teardown_rel st0 self) (teardown_del ty self).
Proof.
  unfold teardown_del.
  apply keeps_bind.
  { apply keeps_if; [apply keeps_reads, reads_mret|apply keeps_ClearWeakRefs]. }
  intros _. apply keeps_if; [|apply keeps_reads, reads_mret].
  apply keeps_bind; [apply keeps_GC_Track|]. intros _.
  apply keeps_bind; [apply keeps_call_tp_del|]. intros _.
  apply keeps_bind; [apply keeps_reads, reads_deref_obj|]. intros w.
  apply keeps_if; [apply keeps_reads, reads_mret|].
  apply keeps_bind; [apply keeps_GC_UnTrack|]. intros _. apply keeps_reads, reads_mret.
Qed.

Lemma keeps_clear_slots_loop st0 self fuel : ∀ base,
  keeps (teardown_rel st0 self) (clear_slots_loop fuel base self).
Proof.
  induction fuel as [|fuel IH]; intros base; simpl.
  - apply keeps_if; apply keeps_reads; [apply reads_mret|apply reads_throw].
  - apply keeps_if; [apply keeps_reads, reads_mret|].
    apply keeps_bind; [apply keeps_reads, reads_deref_type|]. intros ty.
    apply keeps_bind.
    { apply keeps_if; [apply keeps_reads, reads_mret|apply keeps_clear_slots]. }
    intros _. destruct (tp_base ty); [apply IH|apply keeps_reads, reads_throw].
Qed.

Lemma keeps_clear_dict st0 self ty : keeps (teardown_rel st0 self) (clear_dict ty self).
Proof.
  unfold clear_dict. apply keeps_if; [apply keeps_reads, reads_mret|].
  intros st HJ. unfold deref_obj, mbind, M_bind.
  destruct (objects st !! self) as [w|] eqn:Hw; [|done].
  destruct (ob_dict w); [|done]. simpl.
  apply teardown_rel_log. by eapply teardown_rel_update.
Qed.

(** A call whose every outcome satisfies the invariant. *)
Definition good {A} (r : Res A) : Prop := ∀ st', outcome r = Some st' → Inv st'.

Lemma good_bind_keeps (J : State → Prop) {A B} (m : M A) (k : A → M B) st :
  (∀ st1, J st1 → Inv st1) → keeps J m → J st →
  (∀ a st1, J st1 → good (k a st1)) → good ((m ≫= k) st).
Proof.
  intros HJI Hm HJ Hk st' Hout. specialize (Hm st HJ).
  unfold mbind, M_bind in Hout. destruct (m st) as [a st1|e st1]; simpl in Hm.
  - exact (Hk a st1 Hm st' Hout).
  - simpl in Hout. destruct (error_of e); [|done]. injection Hout as <-. by apply HJI.
Qed.

Lemma decref_chain_removes fuel s st st' i :
  decref_chain fuel s st = Some st' → storages st !! s = Some i → use_count i ≤ 1 →
  storages st' !! s = None.
Proof.
  destruct fuel as [|fuel]; [done|]. simpl. intros H Hi Hc. rewrite Hi in H.
  replace (1 <? use_count i) with false in H by lia.
  destruct (dp_context (data_ptr i)) as [parent|].
  - apply decref_chain_shrink in H. simpl in H.
    destruct (storages st' !! s) as [i'|] eqn:Hi'; [|done].
    destruct (H s i' Hi') as (i2 & Hi2 & _). by rewrite lookup_delete_eq in Hi2.
  - injection H as <-. simpl. apply lookup_delete_eq.
Qed.

Lemma intrusive_ptr_decref_removes s st st' i :
  intrusive_ptr_decref s st = Ok tt st' → storages st !! s = Some i → use_count i ≤ 1 →
  storages st' !! s = None.
Proof.
  unfold intrusive_ptr_decref.
  destruct (decref_chain _ s st) as [st2|] eqn:Hchain; [|done].
  intros [= <-]. by eapply decref_chain_removes.
Qed.

(** Steps 8 and 9, from a state of the teardown of an object that no slot
    owns. *)
Lemma good_teardown_end st0 self st type ty :
  Inv st0 → ¬ slot_owned (storages st0) self →
  teardown_rel st0 self st →
  good ((destroy_cdata self;;
         tp_free self;;
         TORCH_INTERNAL_ASSERT (tp_heaptype ty) 243;;
         modify (log_event (EvDecrefType type));;
         Py_DECREF_type type) st).
Proof.
  intros HI0 Hnot HJ.
  pose proof (Inv_teardown_rel _ _ _ HI0 Hnot HJ) as HI.
  destruct HJ as (HS & Hherm & Ho & w0 & w & Hw0 & Hw & Hc).
  assert (∃ st4, destroy_cdata self st = Ok tt st4 ∧
                 Inv st4 ∧ objects st4 = objects st ∧
                 ¬ slot_owned (storages st4) self)
    as (st4 & Hdestroy & HI4 & Hobj4 & Hunref).
  { unfold destroy_cdata.
    rewrite (bind_ok _ _ _ _ _ (deref_obj_ok _ _ _ Hw)), bind_modify.
    set (st3 := log_event _ st).
    assert (¬ slot_owned (storages st3) self) as Hnot3 by (simpl; by rewrite HS).
    destruct (cdata w) as [s| |] eqn:Hcw; [|by exists st3..].
    destruct (intrusive_ptr_decref_total s st3) as (st4 & Hdec & Hframe).
    exists st4. split; [done|]. split; [by eapply (Inv_decref s st3)|].
    split; [by destruct Hframe as [-> _]|].
    destruct (intrusive_ptr_decref_shrink _ _ _ Hdec) as [Hsh _].
    intros Hso. apply Hnot3. by eapply slot_owned_shrink. }
  rewrite (bind_ok _ _ _ _ _ Hdestroy).
  unfold tp_free. rewrite bind_assoc_at, !bind_modify.
  set (st5 := log_event _ _).
  assert (Inv st5) as HI5.
  { unfold Inv, st5. simpl. by apply Inv_core_delete_object. }
  intros st' Hout. destruct (tp_heaptype ty).
  - rewrite (bind_ok _ _ st5 tt st5), bind_modify in Hout by done.
    unfold Py_DECREF_type, deref_type, mbind, M_bind in Hout.
    simpl in Hout. destruct (types st4 !! type); [|done].
    simpl in Hout. by injection Hout as <-.
  - by injection Hout as <-.
Qed.

Lemma Inv_dealloc self st w :
  Inv st → objects st !! self = Some w → ob_refcnt w = 0 →
  good (THPStorage_subclass_dealloc self st).
Proof.
  intros HI Hw Hzero.
  assert (¬ slot_owned (storages st) self) as Hnot.
  { intros (s & i & Hi & Hobj & Hown).
    pose proof (inv_kept _ _ _ HI s i self w Hi Hobj Hown Hw). lia. }
  pose proof (Inv_tryPreserve st self w HI Hw ltac:(lia)) as Htry.
  unfold THPStorage_subclass_dealloc.
  destruct (THPStorage_tryPreserve self st) as [[|] st1|e st1] eqn:Hp.
  - rewrite (bind_ok _ _ _ _ _ Hp). by intros st' [= <-].
  - subst st1.
    rewrite (bind_ok _ _ _ _ _ Hp). cbn [negb].
    rewrite (bind_ok _ _ st (ob_type w) st).
    2:{ unfold Py_TYPE. by rewrite (bind_ok _ _ _ _ _ (deref_obj_ok _ _ _ Hw)). }
    destruct (types st !! ob_type w) as [ty|] eqn:Hty.
    2:{ rewrite (bind_throw _ _ st undefined_behaviour st); [by intros st'|].
        unfold deref_type. by rewrite Hty. }
    rewrite (bind_ok _ _ _ _ _ (deref_type_ok _ _ _ Hty)).
    assert (∀ st1, teardown_rel st self st1 → Inv st1) as HJI
      by (intros st1; by apply Inv_teardown_rel).
    eapply (good_bind_keeps (teardown_rel st self));
      [done|apply keeps_teardown_finalize|by eapply teardown_rel_refl|].
    intros [|] st1 HJ1; [intros st' [= <-]; by apply HJI|].
    eapply (good_bind_keeps (teardown_rel st self));
      [done|apply keeps_teardown_del|done|].
    intros [|] st2 HJ2; [intros st' [= <-]; by apply HJI|].
    unfold teardown_rest.
    eapply (good_bind_keeps (teardown_rel st self)); [done| |done|].
    { apply keeps_if; [apply keeps_clear_new_weakrefs|apply keeps_reads, reads_mret]. }
    intros _ st3 HJ3.
    eapply (good_bind_keeps (teardown_rel st self));
      [done|apply keeps_reads, reads_get_state|done|].
    intros st_read st4 HJ4.
    eapply (good_bind_keeps (teardown_rel st self));
      [done|apply keeps_clear_slots_loop|done|].
    intros _ st5 HJ5.
    eapply (good_bind_keeps (teardown_rel st self));
      [done|apply keeps_clear_dict|done|].
    intros _ st6 HJ6.
    eapply (good_bind_keeps (teardown_rel st self)); [done| |done|].
    { unfold Py_TYPE. apply keeps_reads. auto with reads. }
    intros type' st7 HJ7.
    eapply (good_bind_keeps (teardown_rel st self));
      [done|apply keeps_assert|done|].
    intros _ st8 HJ8.
    by eapply good_teardown_end.
  - subst e. rewrite (bind_throw _ _ _ _ _ Hp). by intros st'.
Qed.

Lemma Inv_Py_DECREF o st w st' :
  Inv st → objects st !! o = Some w →
  1 ≤ ob_refcnt w → (slot_owned (storages st) o → 2 ≤ ob_refcnt w) →
  outcome (Py_DECREF o st) = Some st' → Inv st'.
Proof.
  intros HI Hw Hone Htwo Hout. unfold Py_DECREF in Hout.
  rewrite (bind_ok _ _ _ _ _ (deref_obj_ok _ _ _ Hw)), bind_modify in Hout.
  set (st1 := set_objects _ st) in Hout.
  assert (Inv st1) as HI1.
  { unfold Inv, st1. simpl. eapply Inv_core_update_object; [done|done| |done].
    intros Hso. specialize (Htwo Hso). simpl. lia. }
  destruct (ob_refcnt w - 1 =? 0) eqn:Hz; [|by injection Hout as <-].
  apply Z.eqb_eq in Hz.
  destruct (types st !! ob_type w) as [ty|] eqn:Hty.
  2:{ rewrite (bind_throw _ _ st1 undefined_behaviour st1) in Hout; [done|].
      unfold deref_type. simpl. by rewrite Hty. }
  assert (types st1 !! ob_type w = Some ty) as Hty1 by done.
  rewrite (bind_ok _ _ _ _ _ (deref_type_ok _ _ _ Hty1)) in Hout.
  destruct (tp_heaptype ty).
  - eapply (Inv_dealloc o st1 (with_refcnt (ob_refcnt w - 1) w)); [done| |exact Hz|done].
    simpl. apply lookup_insert_eq.
  - injection Hout as <-. unfold Inv. simpl.
    apply Inv_core_delete_object; [|exact HI1].
    intros Hso. specialize (Htwo Hso). lia.
Qed.

(** *** Byte access and construction keep the invariant *)

(** Every outcome of [m], from a state of the invariant, is one. *)
Definition inv_ok {A} (m : M A) : Prop := ∀ st, Inv st → good (m st).

Lemma inv_ok_bind {A B} (m : M A) (k : A → M B) :
  inv_ok m → (∀ a, inv_ok (k a)) → inv_ok (m ≫= k).
Proof.
  intros Hm Hk st HI st' Hout. specialize (Hm st HI).
  unfold mbind, M_bind in Hout. destruct (m st) as [a st1|e st1].
  - eapply (Hk a st1); [|done]. by apply Hm.
  - by apply Hm.
Qed.

Lemma inv_ok_reads {A} (m : M A) : reads_only m → inv_ok m.
Proof.
  intros Hm st HI st' Hout. specialize (Hm st).
  destruct (m st) as [a st1|e st1]; simpl in *; subst.
  - by injection Hout as <-.
  - destruct (error_of e); [|done]. by injection Hout as <-.
Qed.

Lemma inv_ok_modify f : (∀ st, Inv st → Inv (f st)) → inv_ok (modify f).
Proof. intros Hf st HI st' [= <-]. by apply Hf. Qed.

Lemma inv_ok_if {A} (b : bool) (m1 m2 : M A) :
  inv_ok m1 → inv_ok m2 → inv_ok (if b then m1 else m2).
Proof. by destruct b. Qed.

Lemma inv_ok_set_py_err e : inv_ok (modify (set_py_err e)).
Proof. by apply inv_ok_modify. Qed.

Lemma inv_ok_setError e : inv_ok (THPUtils_setError e).
Proof. apply inv_ok_set_py_err. Qed.

Lemma inv_ok_set_buffers f : inv_ok (modify (set_buffers f)).
Proof. by apply inv_ok_modify. Qed.

Lemma inv_ok_TORCH_CHECK c e : inv_ok (TORCH_CHECK c e).
Proof. apply inv_ok_reads. destruct c; [apply reads_mret|apply reads_throw]. Qed.

Lemma inv_ok_incref s : inv_ok (intrusive_ptr_incref s).
Proof.
  intros st HI st' Hout. unfold intrusive_ptr_incref, deref_storage, mbind, M_bind in Hout.
  destruct (storages st !! s) as [i|] eqn:Hi; [|done].
  injection Hout as <-. unfold Inv. simpl.
  eapply Inv_core_shrink; [|exact HI]. by eapply slots_shrink_update.
Qed.

Lemma inv_ok_decref s : inv_ok (intrusive_ptr_decref s).
Proof.
  intros st HI st' Hout.
  destruct (intrusive_ptr_decref_total s st) as (st2 & Hdec & _).
  rewrite Hdec in Hout. injection Hout as <-. by eapply Inv_decref.
Qed.

Lemma inv_ok_Py_INCREF o : inv_ok (Py_INCREF o).
Proof.
  intros st HI st' Hout. unfold Py_INCREF, deref_obj, mbind, M_bind in Hout.
  destruct (objects st !! o) as [w|] eqn:Hw; [|done].
  injection Hout as <-. unfold Inv. simpl.
  eapply Inv_core_update_object; [done|done| |done].
  intros (s & i & Hi & Hobj & Hown).
  pose proof (inv_kept _ _ _ HI s i o w Hi Hobj Hown Hw). simpl. lia.
Qed.

Lemma inv_ok_write_byte s idx v : inv_ok (write_byte s idx v).
Proof.
  unfold write_byte.
  apply inv_ok_bind; [apply inv_ok_reads, reads_deref_storage|]. intros i.
  apply inv_ok_bind; [apply inv_ok_reads, reads_get_state|]. intros st0.
  destruct (buffers st0 !! dp_buffer (data_ptr i)); [|apply inv_ok_reads, reads_throw].
  apply inv_ok_if; [apply inv_ok_reads, reads_throw|apply inv_ok_set_buffers].
Qed.

Lemma reads_read_byte s idx : reads_only (read_byte s idx).
Proof. unfold read_byte. auto 10 with reads. Qed.

Lemma inv_ok_storage_set s idx v : inv_ok (storage_set s idx v).
Proof.
  unfold storage_set.
  apply inv_ok_bind; [apply inv_ok_reads, reads_deref_storage|]. intros i.
  apply inv_ok_bind; [apply inv_ok_TORCH_CHECK|]. intros _. apply inv_ok_write_byte.
Qed.

Lemma inv_ok_storage_get s idx : inv_ok (storage_get s idx).
Proof.
  unfold storage_get.
  apply inv_ok_bind; [apply inv_ok_reads, reads_deref_storage|]. intros i.
  apply inv_ok_bind; [apply inv_ok_TORCH_CHECK|]. intros _.
  apply inv_ok_reads, reads_read_byte.
Qed.

Lemma inv_ok_make_storage size a g resize : inv_ok (make_storage size a g resize).
Proof.
  intros st HI st' Hout. rewrite make_storage_ok in Hout. injection Hout as <-.
  unfold Inv. simpl. by apply Inv_core_new_storage.
Qed.

Lemma inv_ok_make_slice_storage old start len : inv_ok (make_slice_storage old start len).
Proof.
  intros st HI st' Hout.
  unfold make_slice_storage, deref_storage, mbind, M_bind in Hout.
  destruct (storages st !! old) as [oi|]; [|done].
  injection Hout as <-. unfold Inv. simpl. by apply Inv_core_new_storage.
Qed.

Lemma inv_ok_try_catch {A} (m : M A) : inv_ok m → inv_ok (try_catch m).
Proof.
  intros Hm st HI st' Hout. specialize (Hm st HI). unfold try_catch in Hout.
  destruct (m st) as [a st1|e st1]; [by apply Hm|].
  apply Hm. by destruct e.
Qed.

Lemma inv_ok_HANDLE_TH_ERRORS {A} (retval : A) (m : M A) :
  inv_ok m → inv_ok (HANDLE_TH_ERRORS retval m).
Proof.
  intros Hm st HI st' Hout. specialize (Hm st HI). unfold HANDLE_TH_ERRORS in Hout.
  destruct (m st) as [a st1|e st1]; [by apply Hm|].
  assert (is_Some (error_of e) → Inv st1) as Hcaught.
  { intros [err Herr]. apply Hm. simpl. by rewrite Herr. }
  destruct (error_of e) as [err|] eqn:Herr.
  - injection Hout as <-. apply (Hcaught ltac:(eauto)).
  - simpl in Hout. by rewrite Herr in Hout.
Qed.

Lemma inv_ok_NewWithStorage_uninitialized type s allow :
  inv_ok (THPStorage_NewWithStorage type s DEFINITELY_UNINITIALIZED allow).
Proof.
  intros st HI st' Hout. eapply Inv_NewWithStorage; [exact HI| |exact Hout].
  intros; discriminate.
Qed.

Lemma reads_assertNotNull self : reads_only (THPStorage_assertNotNull self).
Proof.
  unfold THPStorage_assertNotNull, THPStorage_Unpack, TORCH_CHECK. auto 10 with reads.
Qed.

Lemma reads_Unpack_nonnull self : reads_only (THPStorage_Unpack_nonnull self).
Proof. unfold THPStorage_Unpack_nonnull, THPStorage_Unpack. auto 10 with reads. Qed.

Lemma reads_unpackLong x : reads_only (THPUtils_unpackLong x).
Proof. unfold THPUtils_unpackLong. destruct x; auto 10 with reads. Qed.

Lemma reads_typename_of x : reads_only (typename_of x).
Proof. unfold typename_of. auto with reads. Qed.

Lemma reads_unpackReal_or_throw x : reads_only (unpackReal_or_throw x).
Proof. unfold unpackReal_or_throw. auto with reads. Qed.

Lemma reads_Py_TYPE o : reads_only (Py_TYPE o).
Proof. unfold Py_TYPE. auto with reads. Qed.

#[local] Hint Resolve reads_assertNotNull reads_Unpack_nonnull reads_unpackLong
  reads_typename_of reads_unpackReal_or_throw reads_Py_TYPE reads_read_byte : reads.

Create HintDb invok discriminated.

#[local] Hint Resolve inv_ok_setError inv_ok_set_buffers inv_ok_TORCH_CHECK inv_ok_incref
  inv_ok_decref inv_ok_Py_INCREF inv_ok_write_byte inv_ok_storage_set inv_ok_storage_get
  inv_ok_make_storage inv_ok_make_slice_storage inv_ok_NewWithStorage_uninitialized : invok.
#[local] Hint Extern 1 (inv_ok (mret _)) => apply inv_ok_reads, reads_mret : invok.
#[local] Hint Extern 1 (inv_ok (throw _)) => apply inv_ok_reads, reads_throw : invok.
#[local] Hint Extern 1 (inv_ok (deref_storage _)) =>
  apply inv_ok_reads, reads_deref_storage : invok.
#[local] Hint Extern 1 (inv_ok (THPStorage_assertNotNull _)) =>
  apply inv_ok_reads, reads_assertNotNull : invok.
#[local] Hint Extern 1 (inv_ok (THPStorage_Unpack_nonnull _)) =>
  apply inv_ok_reads, reads_Unpack_nonnull : invok.
#[local] Hint Extern 1 (inv_ok (THPUtils_unpackLong _)) =>
  apply inv_ok_reads, reads_unpackLong : invok.
#[local] Hint Extern 1 (inv_ok (typename_of _)) =>
  apply inv_ok_reads, reads_typename_of : invok.
#[local] Hint Extern 1 (inv_ok (unpackReal_or_throw _)) =>
  apply inv_ok_reads, reads_unpackReal_or_throw : invok.
#[local] Hint Extern 1 (inv_ok (Py_TYPE _)) => apply inv_ok_reads, reads_Py_TYPE : invok.
#[local] Hint Extern 2 (inv_ok (_ ≫= _)) => apply inv_ok_bind; [|intros ?] : invok.
#[local] Hint Extern 2 (inv_ok (if _ then _ else _)) => apply inv_ok_if : invok.
#[local] Hint Extern 3 (inv_ok (match ?x with _ => _ end)) => destruct x : invok.

Lemma inv_ok_set_range n : ∀ s start v, inv_ok (set_range n s start v).
Proof. induction n as [|n IH]; intros s start v; simpl; auto with invok. Qed.

Lemma inv_ok_pynew_fill a s items : ∀ idx, inv_ok (pynew_fill a s items idx).
Proof.
  induction items as [|item rest IH]; intros idx; simpl; [auto with invok|].
  apply inv_ok_bind.
  { apply inv_ok_try_catch. auto 10 with invok. }
  intros [r|]; [apply IH|auto with invok].
Qed.

Lemma inv_ok_get self index : inv_ok (THPStorage_get self index).
Proof.
  unfold THPStorage_get. apply inv_ok_HANDLE_TH_ERRORS.
  apply inv_ok_bind; [auto with invok|]. intros _.
  apply inv_ok_bind; [auto with invok|]. intros storage.
  destruct index; auto 20 with invok.
Qed.

Lemma inv_ok_set self index value : inv_ok (THPStorage_set self index value).
Proof.
  unfold THPStorage_set. apply inv_ok_HANDLE_TH_ERRORS.
  apply inv_ok_bind; [auto with invok|]. intros _.
  apply inv_ok_if; [auto 10 with invok|].
  apply inv_ok_bind; [auto with invok|]. intros rvalue.
  apply inv_ok_bind; [auto with invok|]. intros storage.
  destruct index; auto 10 with invok.
  apply inv_ok_bind; [auto with invok|]. intros i.
  destruct (PySlice_GetIndicesEx _ _ _ _) as [[[[a b] c] d]|]; [|auto with invok].
  apply inv_ok_if; [auto with invok|].
  apply inv_ok_bind; [apply inv_ok_set_range|]. auto with invok.
Qed.

Lemma inv_ok_length self : inv_ok (THPStorage_length self).
Proof. unfold THPStorage_length. apply inv_ok_HANDLE_TH_ERRORS. auto 10 with invok. Qed.

Lemma inv_ok_pynew type ov allocator_opt device_opt :
  inv_ok (THPStorage_pynew type ov allocator_opt device_opt).
Proof.
  unfold THPStorage_pynew. apply inv_ok_HANDLE_TH_ERRORS.
  apply inv_ok_bind; [auto with invok|]. intros _.
  apply inv_ok_bind; [auto with invok|]. intros _.
  apply inv_ok_bind; [auto with invok|]. intros a.
  destruct ov; [auto 10 with invok..|].
  apply inv_ok_bind; [auto with invok|]. intros seq_type.
  apply inv_ok_bind; [auto with invok|]. intros _.
  apply inv_ok_bind; [auto with invok|]. intros _.
  apply inv_ok_bind; [auto with invok|]. intros s.
  apply inv_ok_bind; [auto with invok|]. intros self.
  apply inv_ok_bind; [auto with invok|]. intros storage.
  apply inv_ok_bind; [apply inv_ok_pynew_fill|]. intros caught.
  auto 10 with invok.
Qed.

(** *** The operations of the bridge as a transition system *)

(** The holders of a resource the heap knows of: the slices whose deleter
    context it is, and the wrappers whose handle owns it. *)
Definition count_if {A} (P : A → bool) (m : gmap nat A) : nat :=
  size (filter (λ kv : nat * A, P kv.2 = true) m).

Definition is_slice_of (p : StorageId) (i : StorageImpl) : bool :=
  bool_decide (dp_context (data_ptr i) = Some p).

Definition owns_resource (p : StorageId) (w : THPStorage) : bool :=
  bool_decide (cdata w = owned p).

Definition holders (S : gmap nat StorageImpl) (O : gmap nat THPStorage) (p : StorageId) : Z :=
  Z.of_nat (count_if (is_slice_of p) S + count_if (owns_resource p) O).

(** Native code has a reference of its own on [p]: one the count includes
    beyond those of the slices and wrappers. *)
Definition native_reference (st : State) (p : StorageId) : Prop :=
  ∃ i, storages st !! p = Some i ∧
       holders (storages st) (objects st) p + 1 ≤ use_count i.

(** The host has a reference of its own on [o], beyond the one the slot
    holds when it owns the wrapper. *)
Definition host_reference (st : State) (o : ObjId) : Prop :=
  ∃ w, objects st !! o = Some w ∧ 1 ≤ ob_refcnt w ∧
       (slot_owned (storages st) o → 2 ≤ ob_refcnt w).

(** One call into the bridge, by native code that passes a reference it
    holds or by the host on an object it holds, and what it leaves; native
    code also makes resources of its own, which have no wrapper yet. *)
Inductive step : State → State → Prop :=
  | step_Wrap s st st' :
      native_reference st s →
      outcome (THPStorage_Wrap s st) = Some st' → step st st'
  | step_NewWithStorage type s status allow st st' :
      native_reference st s →
      (∀ i, storages st !! s = Some i → status = TAGGED_BY_US →
            pyobj_interpreter (pyobj_slot i) = true) →
      outcome (THPStorage_NewWithStorage type s status allow st) = Some st' → step st st'
  | step_incref s st st' :
      outcome (intrusive_ptr_incref s st) = Some st' → step st st'
  | step_decref s st st' :
      native_reference st s →
      outcome (intrusive_ptr_decref s st) = Some st' → step st st'
  | step_Py_INCREF o st st' :
      host_reference st o →
      outcome (Py_INCREF o st) = Some st' → step st st'
  | step_Py_DECREF o st st' :
      host_reference st o →
      outcome (Py_DECREF o st) = Some st' → step st st'
  | step_pynew type ov allocator_opt device_opt st st' :
      outcome (THPStorage_pynew type ov allocator_opt device_opt st) = Some st' → step st st'
  | step_get self index st st' :
      host_reference st self →
      outcome (THPStorage_get self index st) = Some st' → step st st'
  | step_set self index value st st' :
      host_reference st self →
      outcome (THPStorage_set self index value st) = Some st' → step st st'
  | step_length self st st' :
      host_reference st self →
      outcome (THPStorage_length self st) = Some st' → step st st'
  | step_make_storage size a current can_resize st st' :
      outcome (make_storage size a current can_resize st) = Some st' → step st st'.

(** An empty heap outside hermetic mode, with any table of types. *)
Definition initial (tys : gmap nat PyTypeObject) (class : TypeId) : State :=
  mkState ∅ ∅ ∅ tys class false None [].

Inductive reachable : State → Prop :=
  | reachable_initial tys class : reachable (initial tys class)
  | reachable_step st st' : reachable st → step st st' → reachable st'.

Lemma Inv_initial tys class : Inv (initial tys class).
Proof. by split. Qed.

Lemma Inv_step st st' : Inv st → step st st' → Inv st'.
Proof.
  intros HI Hstep. destruct Hstep.
  - by eapply Inv_Wrap.
  - by eapply Inv_NewWithStorage.
  - by eapply (inv_ok_incref s st).
  - by eapply (inv_ok_decref s st).
  - by eapply (inv_ok_Py_INCREF o st).
  - match goal with H : host_reference _ _ |- _ => destruct H as (w & Hw & Hone & Htwo) end.
    by eapply Inv_Py_DECREF.
  - by eapply (inv_ok_pynew type ov allocator_opt device_opt st).
  - by eapply (inv_ok_get self index st).
  - by eapply (inv_ok_set self index value st).
  - by eapply (inv_ok_length self st).
  - by eapply (inv_ok_make_storage size a current can_resize st).
Qed.

Lemma Inv_reachable st : reachable st → Inv st.
Proof.
  induction 1 as [tys class|st st' _ IH Hstep]; [apply Inv_initial|by eapply Inv_step].
Qed.





(** *** Accounting of the references to a resource *)

Lemma count_if_empty {A} (P : A → bool) : count_if P (∅ : gmap nat A) = 0%nat.
Proof. unfold count_if. by rewrite map_filter_empty, map_size_empty. Qed.

Lemma count_if_delete {A} (P : A → bool) (m : gmap nat A) k v :
  m !! k = Some v →
  count_if P m = ((if P v then 1 else 0) + count_if P (delete k m))%nat.
Proof.
  intros Hk. unfold count_if. rewrite map_filter_delete, map_size_delete.
  rewrite map_lookup_filter, Hk. simpl.
  destruct (P v) eqn:HP.
  - rewrite option_guard_True by done. simpl.
    assert (size (filter (λ kv : nat * A, P kv.2 = true) m) ≠ 0%nat); [|lia].
    apply (map_size_ne_0_lookup_2 _ k). rewrite map_lookup_filter, Hk. simpl.
    by rewrite option_guard_True.
  - rewrite option_guard_False by (simpl; congruence). done.
Qed.

Lemma count_if_delete_None {A} (P : A → bool) (m : gmap nat A) k :
  m !! k = None → count_if P (delete k m) = count_if P m.
Proof. intros Hk. by rewrite delete_id. Qed.

Lemma count_if_insert {A} (P : A → bool) (m : gmap nat A) k v :
  count_if P (<[k := v]> m) = ((if P v then 1 else 0) + count_if P (delete k m))%nat.
Proof.
  rewrite (count_if_delete P (<[k := v]> m) k v) by apply lookup_insert_eq.
  by rewrite delete_insert_eq.
Qed.

Lemma count_if_insert_None {A} (P : A → bool) (m : gmap nat A) k v :
  m !! k = None →
  count_if P (<[k := v]> m) = ((if P v then 1 else 0) + count_if P m)%nat.
Proof. intros Hk. by rewrite count_if_insert, count_if_delete_None. Qed.

(** Replacing an entry by one the predicate judges alike. *)
Lemma count_if_insert_same {A} (P : A → bool) (m : gmap nat A) k v v' :
  m !! k = Some v → P v' = P v → count_if P (<[k := v']> m) = count_if P m.
Proof.
  intros Hk HP. rewrite count_if_insert, (count_if_delete P m k v Hk). by rewrite HP.
Qed.

(** The reference a running call holds on a resource and has not yet
    handed over or dropped. *)
Definition pending (pend : option StorageId) (p : StorageId) : Z :=
  if bool_decide (pend = Some p) then 1 else 0.

(** The count of a live resource covers its holders and the pending
    reference; a resource that is gone has neither. *)
Definition Acc_core (pend : option StorageId)
    (S : gmap nat StorageImpl) (O : gmap nat THPStorage) : Prop :=
  ∀ p, match S !! p with
       | Some i => holders S O p + pending pend p ≤ use_count i
       | None => holders S O p + pending pend p = 0
       end.

Definition Acc (pend : option StorageId) (st : State) : Prop :=
  Acc_core pend (storages st) (objects st).

(** The reference an owned handle holds. *)
Definition handle_of (c : MaybeOwned) : option StorageId :=
  match c with
  | owned s => Some s
  | _ => None
  end.

Lemma pending_handle_of c p :
  pending (handle_of c) p = if bool_decide (c = owned p) then 1 else 0.
Proof.
  unfold pending. destruct c as [s| |]; simpl; repeat case_bool_decide; congruence.
Qed.

Lemma pending_range pend p : 0 ≤ pending pend p ≤ 1.
Proof. unfold pending. destruct (bool_decide _); lia. Qed.

Lemma pending_Some_eq s : pending (Some s) s = 1.
Proof. unfold pending. by rewrite bool_decide_eq_true_2. Qed.

Lemma pending_Some_ne s p : p ≠ s → pending (Some s) p = 0.
Proof. intros Hne. unfold pending. by rewrite bool_decide_eq_false_2 by congruence. Qed.

Lemma pending_None p : pending None p = 0.
Proof. done. Qed.

Lemma holders_nonneg S O p : 0 ≤ holders S O p.
Proof. unfold holders. lia. Qed.

Lemma Acc_core_live S O s : Acc_core (Some s) S O → is_Some (S !! s).
Proof.
  intros HA. specialize (HA s). rewrite pending_Some_eq in HA.
  destruct (S !! s); [done|]. pose proof (holders_nonneg S O s). lia.
Qed.

Lemma Acc_core_release pend S O : Acc_core pend S O → Acc_core None S O.
Proof.
  intros HA p. specialize (HA p). pose proof (pending_range pend p).
  pose proof (holders_nonneg S O p). rewrite pending_None.
  destruct (S !! p); lia.
Qed.

Lemma holders_update_storage S O s i i' p :
  S !! s = Some i → dp_context (data_ptr i') = dp_context (data_ptr i) →
  holders (<[s := i']> S) O p = holders S O p.
Proof.
  intros Hs Hc. unfold holders.
  rewrite (count_if_insert_same _ S s i i'); [done|done|].
  unfold is_slice_of. by rewrite Hc.
Qed.

(** A resource changes in its count or its slot. *)
Lemma Acc_core_update_storage pend pend' S O s i i' :
  S !! s = Some i → dp_context (data_ptr i') = dp_context (data_ptr i) →
  (∀ p, p ≠ s → pending pend' p ≤ pending pend p) →
  use_count i + pending pend' s ≤ use_count i' + pending pend s →
  Acc_core pend S O → Acc_core pend' (<[s := i']> S) O.
Proof.
  intros Hs Hc Hp Hcount HA p. specialize (HA p).
  rewrite (holders_update_storage S O s i i' p Hs Hc).
  destruct (decide (p = s)) as [->|Hne].
  - rewrite lookup_insert_eq. rewrite Hs in HA. lia.
  - rewrite lookup_insert_ne by done. specialize (Hp p Hne).
    pose proof (pending_range pend' p). pose proof (pending_range pend p).
    pose proof (holders_nonneg S O p). destruct (S !! p); lia.
Qed.

(** A new resource with one reference, the pending one; the reference
    that was pending became that of its deleter context. *)
Lemma Acc_core_new_storage pend S O n i' :
  S !! n = None → use_count i' = 1 → dp_context (data_ptr i') = pend →
  Acc_core pend S O → Acc_core (Some n) (<[n := i']> S) O.
Proof.
  intros Hn Hc Hctx HA p.
  assert (holders (<[n := i']> S) O p = holders S O p + pending pend p) as ->.
  { unfold holders. rewrite count_if_insert_None by done.
    unfold is_slice_of, pending. rewrite Hctx. case_bool_decide; lia. }
  pose proof (HA n) as Hatn. rewrite Hn in Hatn.
  pose proof (holders_nonneg S O n). pose proof (pending_range pend n).
  destruct (decide (p = n)) as [->|Hne].
  - rewrite lookup_insert_eq, pending_Some_eq. lia.
  - rewrite lookup_insert_ne by done. rewrite pending_Some_ne by done.
    specialize (HA p). destruct (S !! p); lia.
Qed.

(** The last reference of a resource goes: the reference its deleter
    context held is now pending. *)
Lemma Acc_core_delete_storage S O s i :
  S !! s = Some i → use_count i ≤ 1 → Acc_core (Some s) S O →
  Acc_core (dp_context (data_ptr i)) (delete s S) O.
Proof.
  intros Hs Hc HA p.
  assert (holders S O p =
          holders (delete s S) O p + pending (dp_context (data_ptr i)) p) as Hh.
  { unfold holders. rewrite (count_if_delete (is_slice_of p) S s i Hs).
    unfold is_slice_of, pending. case_bool_decide; lia. }
  pose proof (HA s) as Hats. rewrite Hs, pending_Some_eq in Hats.
  pose proof (holders_nonneg S O s).
  destruct (decide (p = s)) as [->|Hne].
  - rewrite lookup_delete_eq. pose proof (holders_nonneg (delete s S) O s).
    pose proof (pending_range (dp_context (data_ptr i)) s). lia.
  - rewrite lookup_delete_ne by done. specialize (HA p).
    rewrite pending_Some_ne in HA by done. destruct (S !! p); lia.
Qed.

Lemma holders_update_object S O o w w' p :
  O !! o = Some w →
  holders S (<[o := w']> O) p + pending (handle_of (cdata w)) p =
  holders S O p + pending (handle_of (cdata w')) p.
Proof.
  intros Hw. unfold holders.
  rewrite count_if_insert, (count_if_delete (owns_resource p) O o w Hw).
  rewrite !pending_handle_of. unfold owns_resource. repeat case_bool_decide; lia.
Qed.

(** A handle is replaced: the reference of the new one was pending, that
    of the old one is now. *)
Lemma Acc_core_set_cdata S O o w w' :
  O !! o = Some w → Acc_core (handle_of (cdata w')) S O →
  Acc_core (handle_of (cdata w)) S (<[o := w']> O).
Proof.
  intros Hw HA p. specialize (HA p).
  pose proof (holders_update_object S O o w w' p Hw). destruct (S !! p); lia.
Qed.

Lemma Acc_core_update_object pend S O o w w' :
  O !! o = Some w → cdata w' = cdata w → Acc_core pend S O →
  Acc_core pend S (<[o := w']> O).
Proof.
  intros Hw Hc HA p. specialize (HA p).
  pose proof (holders_update_object S O o w w' p Hw) as Hh. rewrite Hc in Hh.
  destruct (S !! p); lia.
Qed.

Lemma Acc_core_new_object pend S O o w' :
  O !! o = None → handle_of (cdata w') = None → Acc_core pend S O →
  Acc_core pend S (<[o := w']> O).
Proof.
  intros Ho Hc HA p. specialize (HA p).
  assert (holders S (<[o := w']> O) p = holders S O p) as ->; [|done].
  unfold holders. rewrite count_if_insert_None by done.
  pose proof (pending_handle_of (cdata w') p) as Hp. rewrite Hc in Hp.
  unfold owns_resource. rewrite pending_None in Hp. case_bool_decide; lia.
Qed.

(** A wrapper is freed: the reference of its handle is pending. *)
Lemma Acc_core_delete_object S O o w :
  O !! o = Some w → Acc_core None S O → Acc_core (handle_of (cdata w)) S (delete o O).
Proof.
  intros Hw HA p. specialize (HA p). rewrite pending_None in HA.
  assert (holders S O p = holders S (delete o O) p + pending (handle_of (cdata w)) p) as Hh.
  { unfold holders. rewrite (count_if_delete (owns_resource p) O o w Hw).
    rewrite pending_handle_of. unfold owns_resource. case_bool_decide; lia. }
  destruct (S !! p); lia.
Qed.

Lemma Acc_core_clear_cdata pend S O o w w' :
  O !! o = Some w → handle_of (cdata w') = None → Acc_core pend S O →
  Acc_core pend S (<[o := w']> O).
Proof.
  intros Hw Hc HA p. specialize (HA p).
  pose proof (holders_update_object S O o w w' p Hw) as Hh.
  rewrite Hc, pending_None in Hh.
  pose proof (pending_range (handle_of (cdata w)) p).
  pose proof (holders_nonneg S (<[o := w']> O) p).
  pose proof (pending_range pend p).
  destruct (S !! p); lia.
Qed.

(** Releasing the pending reference, down the chain of deleter contexts. *)
Lemma decref_chain_Acc fuel : ∀ s st st' O,
  decref_chain fuel s st = Some st' → Acc_core (Some s) (storages st) O →
  Acc_core None (storages st') O.
Proof.
  induction fuel as [|fuel IH]; [done|]. intros s st st' O H HA. simpl in H.
  destruct (storages st !! s) as [i|] eqn:Hi.
  2:{ destruct (Acc_core_live _ _ _ HA) as [? ?]. congruence. }
  destruct (1 <? use_count i) eqn:Hc.
  - injection H as <-. simpl.
    eapply Acc_core_update_storage; [done|done| | |done].
    + intros p _. rewrite pending_None. apply pending_range.
    + rewrite pending_Some_eq, pending_None. simpl. lia.
  - apply Z.ltb_ge in Hc.
    pose proof (Acc_core_delete_storage _ _ _ _ Hi Hc HA) as HA'.
    destruct (dp_context (data_ptr i)) as [parent|].
    + by eapply IH.
    + by injection H as <-.
Qed.

Lemma Acc_core_decref s st O :
  Acc_core (Some s) (storages st) O →
  ∃ st', intrusive_ptr_decref s st = Ok tt st' ∧ objects st' = objects st ∧
         Acc_core None (storages st') O.
Proof.
  intros HA. destruct (intrusive_ptr_decref_total s st) as (st' & Hdec & Hframe).
  exists st'. split; [done|]. split; [by destruct Hframe|].
  unfold intrusive_ptr_decref in Hdec.
  destruct (decref_chain _ s st) as [st2|] eqn:Hchain; [|done].
  injection Hdec as <-. by eapply decref_chain_Acc.
Qed.

Lemma Acc_decref s st :
  Acc (Some s) st → ∃ st', intrusive_ptr_decref s st = Ok tt st' ∧ Acc None st'.
Proof.
  intros HA. destruct (Acc_core_decref s st (objects st) HA) as (st' & Hdec & Ho & HA').
  exists st'. split; [done|]. unfold Acc. by rewrite Ho.
Qed.

(** *** Calls and the pending reference *)

(** From a state of [P], a return of [m] leaves a state of [Q] and an
    exception that can be caught leaves a state of [E]. *)
Definition triple {A} (P : State → Prop) (m : M A) (Q : A → State → Prop)
    (E : State → Prop) : Prop :=
  ∀ st, P st →
    match m st with
    | Ok a st' => Q a st'
    | Throw e st' => is_Some (error_of e) → E st'
    end.

Lemma triple_bind {A B} P (m : M A) Q (k : A → M B) R E :
  triple P m Q E → (∀ a, triple (Q a) (k a) R E) → triple P (m ≫= k) R E.
Proof.
  intros Hm Hk st HP. specialize (Hm st HP). unfold mbind, M_bind.
  destruct (m st) as [a st'|e st']; [by apply Hk|done].
Qed.

Lemma triple_conseq {A} (P P' : State → Prop) (m : M A)
    (Q Q' : A → State → Prop) (E E' : State → Prop) :
  triple P m Q E → (∀ st, P' st → P st) → (∀ a st, Q a st → Q' a st) →
  (∀ st, E st → E' st) → triple P' m Q' E'.
Proof.
  intros Hm HP HQ HE st HP'. specialize (Hm st (HP st HP')).
  destruct (m st) as [a st'|e st']; [by apply HQ|]. intros He. by apply HE, Hm.
Qed.

Lemma triple_mret {A} (a : A) P (Q : A → State → Prop) E :
  (∀ st, P st → Q a st) → triple P (mret a) Q E.
Proof. intros H st HP. by apply H. Qed.

Lemma triple_throw {A} e P (Q : A → State → Prop) : triple P (throw e) Q P.
Proof. by intros st HP _. Qed.

Lemma triple_reads {A} (m : M A) P : reads_only m → triple P m (λ _, P) P.
Proof.
  intros Hm st HP. specialize (Hm st).
  destruct (m st) as [a st'|e st']; simpl in Hm; by subst.
Qed.

Lemma triple_get_state P E : triple P get_state (λ _, P) E.
Proof. by intros st HP. Qed.

Lemma triple_keeps {A} (m : M A) J : keeps J m → triple J m (λ _, J) J.
Proof.
  intros Hm st HJ. specialize (Hm st HJ).
  by destruct (m st) as [a st'|e st'].
Qed.

Lemma triple_modify f P (Q : unit → State → Prop) E :
  (∀ st, P st → Q tt (f st)) → triple P (modify f) Q E.
Proof. intros H st HP. by apply H. Qed.

Lemma triple_if {A} (b : bool) (m1 m2 : M A) P Q E :
  triple P m1 Q E → triple P m2 Q E → triple P (if b then m1 else m2) Q E.
Proof. by destruct b. Qed.

Lemma triple_decref s E :
  triple (Acc (Some s)) (intrusive_ptr_decref s) (λ _, Acc None) E.
Proof.
  intros st HA. destruct (Acc_decref s st HA) as (st' & -> & HA'). done.
Qed.

(** The by-value argument is released when the exception passes. *)
Lemma triple_unwinding {A} s (m : M A) P Q :
  triple P m Q (Acc (Some s)) → triple P (unwinding s m) Q (Acc None).
Proof.
  intros Hm st HP. specialize (Hm st HP). unfold unwinding.
  destruct (m st) as [a st'|e st']; [done|].
  destruct (intrusive_ptr_decref s st') as [[] st2|e2 st2] eqn:Hdec.
  - intros He. destruct (Acc_decref s st' (Hm He)) as (st3 & Hdec3 & HA3).
    assert (st2 = st3) as -> by congruence. done.
  - pose proof (intrusive_ptr_decref_total s st') as (st3 & Hdec3 & _). congruence.
Qed.

Ltac crash := let H := fresh in intros [? H]; simpl in H; discriminate H.

Lemma triple_Py_INCREF pend o E : triple (Acc pend) (Py_INCREF o) (λ _, Acc pend) E.
Proof.
  intros st HA. unfold Py_INCREF, deref_obj, mbind, M_bind.
  destruct (objects st !! o) as [w|] eqn:Hw; [|crash].
  simpl. by eapply Acc_core_update_object.
Qed.

Lemma Acc_update_slot pend st s i sl :
  storages st !! s = Some i → Acc pend st →
  Acc pend (set_storages <[s := with_slot sl i]> st).
Proof.
  intros Hi HA. unfold Acc. simpl.
  eapply Acc_core_update_storage; [done|done| | |done]; [auto with lia|simpl; lia].
Qed.

Lemma triple_set_owns_pyobj pend s b E :
  triple (Acc pend) (set_owns_pyobj s b) (λ _, Acc pend) E.
Proof.
  intros st HA. unfold set_owns_pyobj, deref_storage, mbind, M_bind.
  destruct (storages st !! s) as [i|] eqn:Hi; [|crash].
  simpl. by apply Acc_update_slot.
Qed.

Lemma triple_init_pyobj pend s obj status E :
  triple (Acc pend) (init_pyobj s obj status) (λ _, Acc pend) E.
Proof.
  intros st HA. unfold init_pyobj, deref_storage, mbind, M_bind.
  destruct (storages st !! s) as [i|] eqn:Hi; [|crash].
  simpl. by apply Acc_update_slot.
Qed.

(** One more reference, which the caller holds. *)
Lemma triple_incref s E :
  triple (Acc None) (intrusive_ptr_incref s) (λ _, Acc (Some s)) E.
Proof.
  intros st HA. unfold intrusive_ptr_incref, deref_storage, mbind, M_bind.
  destruct (storages st !! s) as [i|] eqn:Hi; [|crash].
  simpl. unfold Acc. simpl.
  eapply (Acc_core_update_storage None (Some s)); [done|done| | |done].
  - intros p Hne. rewrite pending_Some_ne by done. apply pending_range.
  - rewrite pending_Some_eq, pending_None. simpl. lia.
Qed.

Lemma triple_tp_alloc pend type E :
  triple (Acc pend) (tp_alloc type) (λ _, Acc pend) E.
Proof.
  intros st HA. unfold tp_alloc, deref_type, mbind, M_bind.
  destruct (types st !! type) as [ty|] eqn:Hty; [|crash].
  simpl. unfold Acc. simpl.
  apply Acc_core_new_object; [apply fresh_lookup_None|done|done].
Qed.

(** The new handle takes the pending reference; the handle that was there
    is destroyed with its own. *)
Lemma triple_assign_cdata o c E :
  triple (Acc (handle_of c)) (assign_cdata o c) (λ _, Acc None) E.
Proof.
  intros st HA. unfold assign_cdata, deref_obj, mbind at 1, M_bind at 1.
  destruct (objects st !! o) as [w|] eqn:Hw; [|crash].
  rewrite bind_modify.
  assert (Acc (handle_of (cdata w)) (set_objects <[o := with_cdata c w]> st)) as HA1.
  { unfold Acc. simpl. by apply (Acc_core_set_cdata _ _ o w (with_cdata c w)). }
  destruct (cdata w) as [s0| |]; [|done..].
  by apply triple_decref.
Qed.

Lemma triple_make_storage size a g resize E :
  triple (Acc None) (make_storage size a g resize) (λ s, Acc (Some s)) E.
Proof.
  intros st HA. rewrite make_storage_ok. unfold Acc. simpl.
  apply (Acc_core_new_storage None); [apply fresh_lookup_None|done|done|done].
Qed.

(** The slice takes over the reference its caller added to the old
    resource. *)
Lemma triple_make_slice_storage old start len E :
  triple (Acc (Some old)) (make_slice_storage old start len) (λ s, Acc (Some s)) E.
Proof.
  intros st HA. unfold make_slice_storage, deref_storage, mbind, M_bind.
  destruct (storages st !! old) as [oi|] eqn:Hi; [|crash].
  simpl. unfold Acc. simpl.
  apply (Acc_core_new_storage (Some old)); [apply fresh_lookup_None|done|done|done].
Qed.

(** A call that takes the reference on [s] its caller holds: whether it
    returns or throws, the reference has found a holder or is released. *)
Definition consumes {A} (s : StorageId) (m : M A) : Prop :=
  triple (Acc (Some s)) m (λ _, Acc None) (Acc None).

Lemma triple_unwinding_reads {A} s (m : M A) :
  reads_only m → triple (Acc (Some s)) (unwinding s m) (λ _, Acc (Some s)) (Acc None).
Proof. intros Hm. by apply triple_unwinding, triple_reads. Qed.

Lemma consumes_NewWithStorage_body wrap type s status allow :
  (∀ s', consumes s' (wrap s')) →
  consumes s (NewWithStorage_body wrap type s status allow).
Proof.
  intros Hwrap. unfold consumes, NewWithStorage_body.
  eapply triple_bind.
  { apply triple_unwinding_reads.
    unfold PyType_IsSubtype, TORCH_CHECK, check_pyobj. auto 20 with reads. }
  intros maybe_pyobj. cbv beta.
  assert (triple (Acc (Some s))
            (obj ← unwinding s (tp_alloc type);
             w ← deref_obj obj;
             modify (set_objects <[obj := with_cdata borrowed_null w]>);;
             assign_cdata obj (owned s);;
             st ← get_state;
             (if hermetic st then mret tt else init_pyobj s obj status);;
             mret obj)
            (λ _, Acc None) (Acc None)) as Hfresh.
  { eapply triple_bind; [apply triple_unwinding, triple_tp_alloc|]. intros obj.
    eapply (triple_bind _ _ (λ _, Acc (Some s))).
    { intros st HA. unfold deref_obj. destruct (objects st !! obj); [done|crash]. }
    intros w. eapply (triple_bind _ _ (λ _, Acc (Some s))).
    { intros st HA. unfold deref_obj, modify. simpl.
      destruct (objects st !! obj) as [w0|] eqn:Hw0.
      - by eapply Acc_core_clear_cdata.
      - unfold Acc. simpl. apply Acc_core_new_object; [done|done|done]. }
    intros ?; cbv beta. eapply triple_bind; [apply (triple_assign_cdata obj (owned s))|].
    intros ?; cbv beta. eapply triple_bind; [apply triple_get_state|].
    intros st0. eapply (triple_bind _ _ (λ _, Acc None)).
    { apply triple_if; [by apply triple_mret|apply triple_init_pyobj]. }
    intros ?; cbv beta. by apply triple_mret. }
  destruct maybe_pyobj as [[obj|]|]; [|exact Hfresh..].
  eapply triple_bind; [apply triple_unwinding_reads, reads_checks|].
  intros ?; cbv beta. apply Hwrap.
Qed.

Lemma consumes_Wrap_body new s :
  (∀ type s' status allow, consumes s' (new type s' status allow)) →
  consumes s (Wrap_body new s).
Proof.
  intros Hnew. unfold consumes, Wrap_body.
  eapply triple_bind; [apply triple_get_state|]. intros st0.
  apply triple_if; [apply Hnew|].
  eapply triple_bind.
  { apply triple_unwinding_reads. unfold check_pyobj. auto 20 with reads. }
  intros [[obj|]|].
  - eapply triple_bind.
    { apply triple_unwinding_reads. unfold get_owns_pyobj. auto 20 with reads. }
    intros owns. apply triple_if.
    + eapply triple_bind; [apply triple_set_owns_pyobj|]. intros ?; cbv beta.
      eapply triple_bind; [apply (triple_assign_cdata obj (owned s))|]. intros ?; cbv beta.
      by apply triple_mret.
    + eapply triple_bind; [apply triple_Py_INCREF|]. intros ?; cbv beta.
      eapply triple_bind; [apply triple_decref|]. intros ?; cbv beta.
      by apply triple_mret.
  - apply Hnew.
  - eapply triple_bind; [apply triple_unwinding_reads, reads_deref_storage|].
    intros i. apply Hnew.
Qed.

Lemma consumes_fuel n :
  (∀ s, consumes s (Wrap_fuel n s)) ∧
  (∀ type s status allow, consumes s (NewWithStorage_fuel n type s status allow)).
Proof.
  induction n as [|n [IHw IHn]].
  - split; intros; intros st HA; simpl; crash.
  - split; intros; simpl.
    + by apply consumes_Wrap_body.
    + by apply consumes_NewWithStorage_body.
Qed.

Lemma consumes_Wrap s : consumes s (THPStorage_Wrap s).
Proof. apply consumes_fuel. Qed.

Lemma consumes_NewWithStorage type s status allow :
  consumes s (THPStorage_NewWithStorage type s status allow).
Proof. apply consumes_fuel. Qed.

(** A call that holds no reference of its own, before and after. *)
Definition acc_ok {A} (m : M A) : Prop :=
  triple (Acc None) m (λ _, Acc None) (Acc None).

Lemma acc_ok_bind {A B} (m : M A) (k : A → M B) :
  acc_ok m → (∀ a, acc_ok (k a)) → acc_ok (m ≫= k).
Proof. intros Hm Hk. by eapply triple_bind. Qed.

Lemma acc_ok_reads {A} (m : M A) : reads_only m → acc_ok m.
Proof. apply triple_reads. Qed.

Lemma acc_ok_modify f : (∀ st, Acc None st → Acc None (f st)) → acc_ok (modify f).
Proof. intros Hf. by apply triple_modify. Qed.

Lemma acc_ok_if {A} (b : bool) (m1 m2 : M A) :
  acc_ok m1 → acc_ok m2 → acc_ok (if b then m1 else m2).
Proof. apply triple_if. Qed.

Lemma acc_ok_setError e : acc_ok (THPUtils_setError e).
Proof. by apply acc_ok_modify. Qed.

Lemma acc_ok_set_buffers f : acc_ok (modify (set_buffers f)).
Proof. by apply acc_ok_modify. Qed.

Lemma acc_ok_log ev : acc_ok (modify (log_event ev)).
Proof. by apply acc_ok_modify. Qed.

Lemma acc_ok_TORCH_CHECK c e : acc_ok (TORCH_CHECK c e).
Proof. apply acc_ok_reads. destruct c; [apply reads_mret|apply reads_throw]. Qed.

Lemma acc_ok_assert c line : acc_ok (TORCH_INTERNAL_ASSERT c line).
Proof. apply acc_ok_reads. destruct c; [apply reads_mret|apply reads_throw]. Qed.

Lemma acc_ok_Py_INCREF o : acc_ok (Py_INCREF o).
Proof. apply triple_Py_INCREF. Qed.

Lemma acc_ok_incref s : acc_ok (intrusive_ptr_incref s).
Proof.
  eapply triple_conseq; [apply (triple_incref s (Acc None))|done| |done].
  intros ? st. apply Acc_core_release.
Qed.

Lemma acc_ok_write_byte s idx v : acc_ok (write_byte s idx v).
Proof.
  unfold write_byte.
  apply acc_ok_bind; [apply acc_ok_reads, reads_deref_storage|]. intros i.
  apply acc_ok_bind; [apply acc_ok_reads, reads_get_state|]. intros st0.
  destruct (buffers st0 !! dp_buffer (data_ptr i)); [|apply acc_ok_reads, reads_throw].
  apply acc_ok_if; [apply acc_ok_reads, reads_throw|apply acc_ok_set_buffers].
Qed.

Lemma acc_ok_storage_set s idx v : acc_ok (storage_set s idx v).
Proof.
  unfold storage_set.
  apply acc_ok_bind; [apply acc_ok_reads, reads_deref_storage|]. intros i.
  apply acc_ok_bind; [apply acc_ok_TORCH_CHECK|]. intros _. apply acc_ok_write_byte.
Qed.

Lemma acc_ok_storage_get s idx : acc_ok (storage_get s idx).
Proof.
  unfold storage_get.
  apply acc_ok_bind; [apply acc_ok_reads, reads_deref_storage|]. intros i.
  apply acc_ok_bind; [apply acc_ok_TORCH_CHECK|]. intros _.
  apply acc_ok_reads, reads_read_byte.
Qed.

Lemma acc_ok_try_catch {A} (m : M A) : acc_ok m → acc_ok (try_catch m).
Proof.
  intros Hm st HA. specialize (Hm st HA). unfold try_catch.
  destruct (m st) as [a st1|e st1]; [done|].
  destruct e; simpl in *; first [crash | apply Hm; by eexists].
Qed.

Lemma acc_ok_HANDLE_TH_ERRORS {A} (retval : A) (m : M A) :
  acc_ok m → acc_ok (HANDLE_TH_ERRORS retval m).
Proof.
  intros Hm st HA. specialize (Hm st HA). unfold HANDLE_TH_ERRORS.
  destruct (m st) as [a st1|e st1]; [done|].
  destruct (error_of e) as [err|] eqn:Herr.
  - apply Hm. eauto.
  - simpl. rewrite Herr. crash.
Qed.

(** What a call leaves behind when the program goes on. *)
Lemma acc_ok_outcome {A} (m : M A) st st' :
  acc_ok m → Acc None st → outcome (m st) = Some st' → Acc None st'.
Proof.
  intros Hm HA Hout. specialize (Hm st HA).
  destruct (m st) as [a st1|e st1]; simpl in Hout.
  - by injection Hout as <-.
  - destruct (error_of e) as [err|] eqn:Herr; [|done].
    injection Hout as <-. apply Hm. eauto.
Qed.

Lemma consumes_outcome {A} s (m : M A) st st' :
  consumes s m → Acc (Some s) st → outcome (m st) = Some st' → Acc None st'.
Proof.
  intros Hm HA Hout. specialize (Hm st HA).
  destruct (m st) as [a st1|e st1]; simpl in Hout.
  - by injection Hout as <-.
  - destruct (error_of e) as [err|] eqn:Herr; [|done].
    injection Hout as <-. apply Hm. eauto.
Qed.

(** *** Preservation and teardown *)

Lemma reads_isPreservable self : reads_only (THPStorage_isPreservable self).
Proof.
  unfold THPStorage_isPreservable, check_pyobj. auto 20 with reads.
Qed.

Lemma acc_ok_tryPreserve self : acc_ok (THPStorage_tryPreserve self).
Proof.
  unfold THPStorage_tryPreserve.
  apply acc_ok_bind; [apply acc_ok_reads, reads_isPreservable|]. intros preservable.
  apply acc_ok_if; [apply acc_ok_reads, reads_mret|].
  apply acc_ok_bind; [apply acc_ok_reads, reads_Unpack_nonnull|]. intros s.
  apply acc_ok_bind.
  { apply acc_ok_reads. unfold get_owns_pyobj. auto with reads. }
  intros owns.
  apply acc_ok_bind; [apply acc_ok_assert|]. intros ?.
  apply acc_ok_bind; [apply triple_set_owns_pyobj|]. intros ?.
  apply acc_ok_bind; [apply acc_ok_Py_INCREF|]. intros ?.
  apply acc_ok_bind; [apply (triple_assign_cdata self (borrowed s))|]. intros ?.
  apply acc_ok_reads, reads_mret.
Qed.

Lemma Acc_teardown_rel pend st0 self st :
  teardown_rel st0 self st → Acc pend st0 → Acc pend st.
Proof.
  intros (HS & _ & Ho & w0 & w & Hw0 & Hw & Hc) HA. unfold Acc. rewrite HS.
  assert (objects st = <[self := w]> (objects st0)) as ->.
  { apply map_eq. intros o'. destruct (decide (o' = self)) as [->|Hne].
    - by rewrite lookup_insert_eq.
    - rewrite lookup_insert_ne by done. by apply Ho. }
  by eapply Acc_core_update_object.
Qed.

(** During the teardown of a live object. *)
Definition tearing (self : ObjId) (st : State) : Prop :=
  Acc None st ∧ is_Some (objects st !! self).

Lemma triple_teardown {A} (m : M A) self :
  (∀ st0, keeps (teardown_rel st0 self) m) →
  triple (tearing self) m (λ _, tearing self) (Acc None).
Proof.
  intros Hk st [HA [w Hw]].
  pose proof (Hk st st (teardown_rel_refl st self w Hw)) as HJ.
  assert (tearing self (final_state (m st))) as [HA' Hlive].
  { split; [by eapply Acc_teardown_rel|].
    destruct HJ as (_ & _ & _ & w0 & w1 & _ & Hw1 & _). eauto. }
  destruct (m st); simpl in *; done.
Qed.

Lemma triple_teardown_reads {A} (m : M A) self :
  reads_only m → triple (tearing self) m (λ _, tearing self) (Acc None).
Proof. intros Hm. apply triple_teardown. intros st0. by apply keeps_reads. Qed.

Lemma triple_Py_TYPE_live self :
  triple (Acc None) (Py_TYPE self) (λ _, tearing self) (Acc None).
Proof.
  intros st HA. unfold Py_TYPE, deref_obj, mbind, M_bind.
  destruct (objects st !! self) as [w|] eqn:Hw; [|crash].
  simpl. split; [done|]. eauto.
Qed.

(** The handle is destroyed before the object is freed: in between, the
    accounting is that of the heap without the object. *)
Lemma triple_destroy_cdata self E :
  triple (tearing self) (destroy_cdata self)
         (λ _ st, Acc_core None (storages st) (delete self (objects st))) E.
Proof.
  intros st [HA _]. unfold destroy_cdata, deref_obj, mbind at 1, M_bind at 1.
  destruct (objects st !! self) as [w|] eqn:Hw; [|crash].
  rewrite bind_modify.
  pose proof (Acc_core_delete_object _ _ _ _ Hw HA) as HA1.
  destruct (cdata w) as [s| |]; simpl in HA1; [|done..].
  destruct (Acc_core_decref s (log_event (EvDestroyHandle self) st) _ HA1)
    as (st' & -> & Ho & HA').
  by rewrite Ho.
Qed.

Lemma acc_ok_Py_DECREF_type t : acc_ok (Py_DECREF_type t).
Proof.
  intros st HA. unfold Py_DECREF_type, deref_type, mbind, M_bind.
  destruct (types st !! t); [done|crash].
Qed.

Lemma acc_ok_dealloc self : acc_ok (THPStorage_subclass_dealloc self).
Proof.
  unfold THPStorage_subclass_dealloc.
  apply acc_ok_bind; [apply acc_ok_tryPreserve|]. intros preserved.
  apply acc_ok_if; [apply acc_ok_reads, reads_mret|].
  eapply triple_bind; [apply triple_Py_TYPE_live|]. intros type. cbv beta.
  eapply triple_bind; [apply triple_teardown_reads, reads_deref_type|].
  intros ty. cbv beta.
  eapply triple_bind; [apply triple_teardown; intros; apply keeps_teardown_finalize|].
  intros resurrected. cbv beta.
  apply triple_if; [apply triple_mret; by intros st []|].
  eapply triple_bind; [apply triple_teardown; intros; apply keeps_teardown_del|].
  intros resurrected2. cbv beta.
  apply triple_if; [apply triple_mret; by intros st []|].
  unfold teardown_rest.
  eapply triple_bind.
  { apply triple_teardown. intros st0.
    apply keeps_if; [apply keeps_clear_new_weakrefs|apply keeps_reads, reads_mret]. }
  intros ?; cbv beta.
  eapply triple_bind; [apply triple_teardown_reads, reads_get_state|].
  intros st_read; cbv beta.
  eapply triple_bind; [apply triple_teardown; intros; apply keeps_clear_slots_loop|].
  intros ?; cbv beta.
  eapply triple_bind; [apply triple_teardown; intros; apply keeps_clear_dict|].
  intros ?; cbv beta.
  eapply triple_bind; [apply triple_teardown_reads, reads_Py_TYPE|].
  intros type'; cbv beta.
  eapply triple_bind; [apply triple_teardown; intros; apply keeps_assert|].
  intros ?; cbv beta.
  eapply triple_bind; [apply triple_destroy_cdata|].
  intros ?; cbv beta.
  eapply (triple_bind _ _ (λ _, Acc None)).
  { intros st HA. done. }
  intros ?; cbv beta.
  apply acc_ok_bind; [apply acc_ok_assert|]. intros ?.
  apply acc_ok_bind; [apply acc_ok_log|]. intros ?.
  apply acc_ok_Py_DECREF_type.
Qed.

Lemma acc_ok_Py_DECREF o : acc_ok (Py_DECREF o).
Proof.
  intros st HA. unfold Py_DECREF, deref_obj, mbind at 1, M_bind at 1.
  destruct (objects st !! o) as [w|] eqn:Hw; [|crash].
  rewrite bind_modify.
  assert (Acc None (set_objects <[o := with_refcnt (ob_refcnt w - 1) w]> st)) as HA1.
  { unfold Acc. simpl. by eapply Acc_core_update_object. }
  destruct (ob_refcnt w - 1 =? 0); [|done].
  set (st1 := set_objects _ st) in *.
  unfold deref_type, mbind at 1, M_bind at 1.
  destruct (types st1 !! ob_type w) as [ty|]; [|crash].
  destruct (tp_heaptype ty); [by apply acc_ok_dealloc|].
  unfold object_dealloc, tp_free. rewrite !bind_modify. unfold Acc. simpl.
  eapply Acc_core_release, Acc_core_delete_object; [apply lookup_insert_eq|exact HA1].
Qed.

(** *** Construction and byte access *)

Create HintDb accok discriminated.

#[local] Hint Resolve acc_ok_setError acc_ok_set_buffers acc_ok_TORCH_CHECK acc_ok_incref
  acc_ok_Py_INCREF acc_ok_write_byte acc_ok_storage_set acc_ok_storage_get : accok.
#[local] Hint Extern 1 (acc_ok (mret _)) => apply acc_ok_reads, reads_mret : accok.
#[local] Hint Extern 1 (acc_ok (throw _)) => apply acc_ok_reads, reads_throw : accok.
#[local] Hint Extern 1 (acc_ok (deref_storage _)) =>
  apply acc_ok_reads, reads_deref_storage : accok.
#[local] Hint Extern 1 (acc_ok (THPStorage_assertNotNull _)) =>
  apply acc_ok_reads, reads_assertNotNull : accok.
#[local] Hint Extern 1 (acc_ok (THPStorage_Unpack_nonnull _)) =>
  apply acc_ok_reads, reads_Unpack_nonnull : accok.
#[local] Hint Extern 1 (acc_ok (THPUtils_unpackLong _)) =>
  apply acc_ok_reads, reads_unpackLong : accok.
#[local] Hint Extern 1 (acc_ok (typename_of _)) =>
  apply acc_ok_reads, reads_typename_of : accok.
#[local] Hint Extern 1 (acc_ok (unpackReal_or_throw _)) =>
  apply acc_ok_reads, reads_unpackReal_or_throw : accok.
#[local] Hint Extern 1 (acc_ok (Py_TYPE _)) => apply acc_ok_reads, reads_Py_TYPE : accok.
#[local] Hint Extern 2 (acc_ok (_ ≫= _)) => apply acc_ok_bind; [|intros ?] : accok.
#[local] Hint Extern 2 (acc_ok (if _ then _ else _)) => apply acc_ok_if : accok.
#[local] Hint Extern 3 (acc_ok (match ?x with _ => _ end)) => destruct x : accok.

Lemma acc_ok_set_range n : ∀ s start v, acc_ok (set_range n s start v).
Proof. induction n as [|n IH]; intros s start v; simpl; auto with accok. Qed.

Lemma acc_ok_pynew_fill a s items : ∀ idx, acc_ok (pynew_fill a s items idx).
Proof.
  induction items as [|item rest IH]; intros idx; simpl; [auto with accok|].
  apply acc_ok_bind.
  { apply acc_ok_try_catch. auto 10 with accok. }
  intros [r|]; [apply IH|auto with accok].
Qed.

(** A new resource goes straight into its wrapper. *)
Lemma acc_ok_construct {B} size a g resize type status allow (k : ObjId → M B) :
  (∀ self, acc_ok (k self)) →
  acc_ok (s ← make_storage size a g resize;
          self ← THPStorage_NewWithStorage type s status allow;
          k self).
Proof.
  intros Hk. eapply triple_bind; [apply triple_make_storage|]. intros s. cbv beta.
  eapply triple_bind; [apply consumes_NewWithStorage|]. intros self. apply Hk.
Qed.

Lemma acc_ok_pynew type ov allocator_opt device_opt :
  acc_ok (THPStorage_pynew type ov allocator_opt device_opt).
Proof.
  unfold THPStorage_pynew. apply acc_ok_HANDLE_TH_ERRORS.
  apply acc_ok_bind; [auto with accok|]. intros _.
  apply acc_ok_bind; [auto with accok|]. intros _.
  apply acc_ok_bind; [auto with accok|]. intros a.
  destruct ov.
  - apply acc_ok_construct. auto with accok.
  - apply acc_ok_construct. auto with accok.
  - apply acc_ok_bind; [auto with accok|]. intros seq_type.
    apply acc_ok_bind; [auto with accok|]. intros ?.
    apply acc_ok_bind; [auto with accok|]. intros ?.
    apply acc_ok_construct. intros self.
    apply acc_ok_bind; [auto with accok|]. intros storage.
    apply acc_ok_bind; [apply acc_ok_pynew_fill|]. intros caught.
    auto 10 with accok.
Qed.

Lemma acc_ok_get self index : acc_ok (THPStorage_get self index).
Proof.
  unfold THPStorage_get. apply acc_ok_HANDLE_TH_ERRORS.
  apply acc_ok_bind; [auto with accok|]. intros ?.
  apply acc_ok_bind; [auto with accok|]. intros storage.
  destruct index; try (by auto 20 with accok).
  apply acc_ok_bind; [auto with accok|]. intros i.
  destruct (PySlice_GetIndicesEx _ _ _ _) as [[[[start' stop'] step'] len]|];
    [|auto with accok].
  apply acc_ok_if; [auto with accok|].
  apply acc_ok_bind; [auto with accok|]. intros old.
  eapply triple_bind; [apply triple_incref|]. intros ?; cbv beta.
  eapply triple_bind; [apply triple_make_slice_storage|]. intros new; cbv beta.
  eapply triple_bind.
  { eapply triple_conseq; [apply triple_reads, reads_Py_TYPE|done|done|].
    intros st. apply Acc_core_release. }
  intros type; cbv beta.
  eapply triple_bind; [apply consumes_NewWithStorage|]. intros ?; cbv beta.
  by apply triple_mret.
Qed.

Lemma acc_ok_set self index value : acc_ok (THPStorage_set self index value).
Proof.
  unfold THPStorage_set. apply acc_ok_HANDLE_TH_ERRORS.
  apply acc_ok_bind; [auto with accok|]. intros ?.
  apply acc_ok_if; [auto 10 with accok|].
  apply acc_ok_bind; [auto with accok|]. intros rvalue.
  apply acc_ok_bind; [auto with accok|]. intros storage.
  destruct index; auto 10 with accok.
  apply acc_ok_bind; [auto with accok|]. intros i.
  destruct (PySlice_GetIndicesEx _ _ _ _) as [[[[start' stop'] step'] len]|]; [|auto with accok].
  apply acc_ok_if; [auto with accok|].
  apply acc_ok_bind; [apply acc_ok_set_range|]. auto with accok.
Qed.

Lemma acc_ok_length self : acc_ok (THPStorage_length self).
Proof. unfold THPStorage_length. apply acc_ok_HANDLE_TH_ERRORS. auto 10 with accok. Qed.

(** *** The accounting holds in every reachable state *)

Lemma Acc_native_reference st s :
  Acc None st → native_reference st s → Acc (Some s) st.
Proof.
  intros HA (i & Hi & Hc) p. specialize (HA p). rewrite pending_None in HA.
  destruct (decide (p = s)) as [->|Hne].
  - rewrite Hi, pending_Some_eq. lia.
  - by rewrite pending_Some_ne.
Qed.

Lemma Acc_initial tys class : Acc None (initial tys class).
Proof.
  intros p. simpl. rewrite lookup_empty. unfold holders.
  by rewrite !count_if_empty.
Qed.

Lemma Acc_step st st' : Acc None st → step st st' → Acc None st'.
Proof.
  intros HA Hstep. destruct Hstep.
  - eapply consumes_outcome; [apply consumes_Wrap|by apply Acc_native_reference|done].
  - eapply consumes_outcome;
      [apply consumes_NewWithStorage|by apply Acc_native_reference|done].
  - by eapply acc_ok_outcome; [apply acc_ok_incref|..].
  - eapply (consumes_outcome s);
      [apply triple_decref|by apply Acc_native_reference|done].
  - by eapply acc_ok_outcome; [apply acc_ok_Py_INCREF|..].
  - by eapply acc_ok_outcome; [apply acc_ok_Py_DECREF|..].
  - by eapply acc_ok_outcome; [apply acc_ok_pynew|..].
  - by eapply acc_ok_outcome; [apply acc_ok_get|..].
  - by eapply acc_ok_outcome; [apply acc_ok_set|..].
  - by eapply acc_ok_outcome; [apply acc_ok_length|..].
  - eapply (acc_ok_outcome (make_storage size a current can_resize)); [|done|done].
    eapply triple_conseq; [apply (triple_make_storage _ _ _ _ (Acc None))|done| |done].
    intros s st1. apply Acc_core_release.
Qed.

Lemma Acc_reachable st : reachable st → Acc None st.
Proof.
  induction 1 as [tys class|st st' _ IH Hstep]; [apply Acc_initial|by eapply Acc_step].
Qed.

(** A live slice holds its deleter context alive. *)
Lemma Acc_slice_parent pend st n ni R :
  Acc pend st → storages st !! n = Some ni → dp_context (data_ptr ni) = Some R →
  ∃ iR, storages st !! R = Some iR ∧ 1 ≤ use_count iR.
Proof.
  intros HA Hn Hctx. specialize (HA R).
  assert (1 ≤ holders (storages st) (objects st) R) as Hone.
  { unfold holders. rewrite (count_if_delete (is_slice_of R) _ n ni Hn).
    unfold is_slice_of. rewrite bool_decide_eq_true_2 by done. lia. }
  pose proof (pending_range pend R).
  destruct (storages st !! R) as [iR|]; [|lia].
  exists iR. split; [done|lia].
Qed.

(** A live wrapper's owned handle holds its resource alive. *)
Lemma Acc_owned_resource pend st o w s :
  Acc pend st → objects st !! o = Some w → cdata w = owned s →
  ∃ i, storages st !! s = Some i ∧ 1 ≤ use_count i.
Proof.
  intros HA Hw Hc. specialize (HA s).
  assert (1 ≤ holders (storages st) (objects st) s) as Hone.
  { unfold holders. rewrite (count_if_delete (owns_resource s) _ o w Hw).
    unfold owns_resource. rewrite bool_decide_eq_true_2 by done. lia. }
  pose proof (pending_range pend s).
  destruct (storages st !! s) as [i|]; [|lia].
  exists i. split; [done|lia].
Qed.

(** *** Slices *)

(** The resource lines 439-454 build over [len] bytes of [i] from
    [start] on, with [R] as deleter context. *)
Definition slice_impl (i : StorageImpl) (R : StorageId) (start len : Z) : StorageImpl :=
  mkStorageImpl 1 len false
    (mkDataPtr (dp_buffer (data_ptr i)) (dp_offset (data_ptr i) + start) (Some R))
    (allocator i) (device i) empty_slot.

(** The state a slice of the resource [R] of a wrapper [w] leaves: one
    more reference on [R], the new resource, and its wrapper. *)
Definition sliced_state (st : State) (w : THPStorage) (ty : PyTypeObject)
    (R : StorageId) (i : StorageImpl) (start len : Z) : State :=
  let n := fresh (dom (storages st)) in
  wrapped_state
    (set_storages <[n := slice_impl i R start len]>
       (set_storages <[R := with_use_count (use_count i + 1) i]> st))
    (ob_type w) ty n (slice_impl i R start len) DEFINITELY_UNINITIALIZED.

Lemma clip_index_inside len i : 0 ≤ i ≤ len → clip_index len 1 i = i.
Proof.
  intros H. unfold clip_index.
  replace (i <? 0) with false by lia.
  destruct (len <=? i) eqn:E; [|done].
  change (1 <? 0) with false. cbv iota. lia.
Qed.

Lemma SliceIndex_id v :
  PY_SSIZE_T_MIN ≤ v ≤ PY_SSIZE_T_MAX → _PyEval_SliceIndex v = v.
Proof. unfold _PyEval_SliceIndex. lia. Qed.

(** Clipping a bound to [Py_ssize_t] first does not change where it lands
    in a sequence whose length fits [Py_ssize_t]. *)
Lemma clip_index_SliceIndex len step v :
  0 ≤ len ≤ PY_SSIZE_T_MAX →
  clip_index len step (_PyEval_SliceIndex v) = clip_index len step v.
Proof.
  intros H. unfold clip_index, _PyEval_SliceIndex, PY_SSIZE_T_MIN, PY_SSIZE_T_MAX in *.
  repeat match goal with |- context [?a <? ?b] => destruct (Z.ltb_spec a b) end;
    repeat match goal with |- context [?a <=? ?b] => destruct (Z.leb_spec a b) end;
    lia.
Qed.

Lemma slice_unpack_step_1 start stop step :
  default 1 step = 1 →
  PySlice_Unpack start stop step =
    Some (from_option _PyEval_SliceIndex 0 start,
          from_option _PyEval_SliceIndex PY_SSIZE_T_MAX stop, 1).
Proof.
  intros Hs. unfold PySlice_Unpack.
  assert (from_option _PyEval_SliceIndex 1 step = 1) as ->.
  { destruct step as [x|]; [|done]. simpl in Hs. subst x. done. }
  done.
Qed.

Lemma slice_indices start stop step len :
  0 ≤ start ≤ stop ≤ len → len ≤ PY_SSIZE_T_MAX → default 1 step = 1 →
  PySlice_GetIndicesEx (Some start) (Some stop) step len =
    Some (start, stop, 1, stop - start).
Proof.
  intros H Hmax Hs. unfold PySlice_GetIndicesEx.
  rewrite (slice_unpack_step_1 _ _ _ Hs). unfold PySlice_AdjustIndices.
  cbn [from_option].
  rewrite !clip_index_SliceIndex, !clip_index_inside by lia.
  change (1 <? 0) with false. cbv iota.
  destruct (start <? stop) eqn:E.
  - rewrite Z.div_1_r. do 3 f_equal. lia.
  - do 3 f_equal. lia.
Qed.

Lemma get_slice_eval st self w R i ty start stop step :
  objects st !! self = Some w → unsafeGetStorageImpl (cdata w) = Some R →
  storages st !! R = Some i → types st !! ob_type w = Some ty →
  subtype_chain (size (types st)) (types st) (ob_type w) THPStorageType = true →
  nbytes i ≤ INT64_MAX → 0 ≤ start ≤ stop ≤ nbytes i → default 1 step = 1 →
  THPStorage_get self (PySlice (Some start) (Some stop) step) st =
    Ok (Some (PyStorage (fresh (dom (objects st)))))
       (sliced_state st w ty R i start (stop - start)).
Proof.
  intros Hw HR Hi Hty Hsub Hmax Hb Hstep.
  assert (resource_of st self = Some R) as Hres.
  { unfold resource_of. by rewrite Hw. }
  unfold THPStorage_get, HANDLE_TH_ERRORS.
  rewrite (bind_ok _ _ st tt st (assertNotNull_ok _ _ _ Hres)).
  rewrite (bind_ok _ _ st R st (Unpack_nonnull_ok _ _ _ Hres)).
  rewrite (bind_ok _ _ st i st (deref_storage_ok _ _ _ Hi)).
  rewrite (wrap_int64_id (nbytes i)) by (unfold in_int64, INT64_MIN; lia).
  rewrite (slice_indices start stop step (nbytes i) Hb Hmax Hstep).
  replace (negb (1 =? 1)) with false by done.
  rewrite (bind_ok _ _ st R st (Unpack_nonnull_ok _ _ _ Hres)).
  set (st1 := set_storages <[R := with_use_count (use_count i + 1) i]> st).
  rewrite (bind_ok _ _ st tt st1).
  2:{ unfold intrusive_ptr_incref.
      by rewrite (bind_ok _ _ st i st (deref_storage_ok _ _ _ Hi)). }
  set (n := fresh (dom (storages st))).
  set (ni := slice_impl i R start (stop - start)).
  set (st2 := set_storages <[n := ni]> st1).
  rewrite (bind_ok _ _ st1 n st2).
  2:{ unfold make_slice_storage.
      assert (storages st1 !! R = Some (with_use_count (use_count i + 1) i)) as Hi1
        by apply lookup_insert_eq.
      rewrite (bind_ok _ _ st1 _ st1 (deref_storage_ok _ _ _ Hi1)).
      unfold get_state, mbind, M_bind, modify. simpl.
      rewrite dom_insert_lookup_L by eauto. done. }
  rewrite (bind_ok _ _ st2 (ob_type w) st2).
  2:{ assert (objects st2 !! self = Some w) as Hw2 by done.
      unfold Py_TYPE. by rewrite (bind_ok _ _ st2 w st2 (deref_obj_ok _ _ _ Hw2)). }
  rewrite (bind_ok _ _ _ _ _
             (NewWithStorage_fresh st2 (ob_type w) ty n ni DEFINITELY_UNINITIALIZED
                allow_preexisting_pyobj_default
                ltac:(apply lookup_insert_eq) ltac:(done) Hty Hsub)).
  done.
Qed.

(** Two resources over the same buffer read the same bytes, [d] apart. *)
Lemma read_byte_alias st s1 s2 i1 i2 d k :
  storages st !! s1 = Some i1 → storages st !! s2 = Some i2 →
  dp_buffer (data_ptr i1) = dp_buffer (data_ptr i2) →
  dp_offset (data_ptr i1) = dp_offset (data_ptr i2) + d →
  read_byte s1 k st = read_byte s2 (d + k) st.
Proof.
  intros H1 H2 Hb Ho. unfold read_byte.
  rewrite (bind_ok _ _ st i1 st (deref_storage_ok _ _ _ H1)).
  rewrite (bind_ok _ _ st i2 st (deref_storage_ok _ _ _ H2)).
  unfold get_state, mbind, M_bind. rewrite Hb, Ho.
  by replace (dp_offset (data_ptr i2) + d + k)
    with (dp_offset (data_ptr i2) + (d + k)) by lia.
Qed.

(** Destroying a slice removes it and releases one reference of its
    deleter context; nothing else happens. *)
Lemma slice_release st n ni R :
  storages st !! n = Some ni → use_count ni ≤ 1 → dp_context (data_ptr ni) = Some R →
  intrusive_ptr_decref n st = intrusive_ptr_decref R (set_storages (delete n) st).
Proof.
  intros Hn Hc Hctx.
  assert (size (storages st) ≠ 0%nat) as Hsize.
  { intros Hz. apply map_size_empty_inv in Hz. rewrite Hz in Hn.
    by rewrite lookup_empty in Hn. }
  destruct (decref_chain_total (size (storages st)) R (set_storages (delete n) st))
    as (st' & Hchain & _).
  { simpl. rewrite map_size_delete_Some by eauto. lia. }
  assert (decref_chain (S (size (storages st))) n st = Some st') as Hleft.
  { cbn [decref_chain]. rewrite Hn.
    replace (1 <? use_count ni) with false by lia. by rewrite Hctx. }
  assert (S (size (storages (set_storages (delete n) st))) = size (storages st)) as Hfuel.
  { simpl. rewrite map_size_delete_Some by eauto. lia. }
  unfold intrusive_ptr_decref. by rewrite Hleft, Hfuel, Hchain.
Qed.

Lemma slice_release_shared st n ni R iR :
  storages st !! n = Some ni → use_count ni ≤ 1 → dp_context (data_ptr ni) = Some R →
  storages st !! R = Some iR → 1 < use_count iR →
  intrusive_ptr_decref n st =
    Ok tt (set_storages (λ S, <[R := with_use_count (use_count iR - 1) iR]> (delete n S)) st).
Proof.
  intros Hn Hc Hctx HR HcR.
  assert (n ≠ R) as Hne by (intros ->; assert (ni = iR) by congruence; subst; lia).
  rewrite (slice_release st n ni R Hn Hc Hctx).
  rewrite (intrusive_ptr_decref_shared _ R iR); [done| |done].
  simpl. by rewrite lookup_delete_ne.
Qed.

Lemma Acc_rtc st st' : Acc None st → rtc step st st' → Acc None st'.
Proof. intros HA Hsteps. induction Hsteps; eauto using Acc_step. Qed.

(** C5: in a reachable state, take a wrapper of a Storage type on a
    resource [R] whose length fits [int64_t], and bounds
    [0 <= start <= stop <= nbytes R] with step 1 (given or left out).
    [THPStorage_get] returns a new wrapper whose handle owns a new resource;
    - the new resource has one reference and [stop - start] bytes, is not
      resizable, and its data pointer is [R]'s buffer at [R]'s offset plus
      [start], with [R] as deleter context: byte [k] of it is byte
      [start + k] of [R];
    - [R] is as before with its count one higher, and no buffer is
      allocated, copied or freed;
    - destroying the new resource, in any later state, is removing it and
      releasing one reference of [R], nothing else: when [R] has other
      references its count goes down by one and every buffer stays;
    - in every state the bridge reaches afterwards, so long as the new
      resource is live, [R] is live with a count of at least one. *)
Theorem slice_keeps_parent st self w R i ty start stop stride :
  reachable st →
  objects st !! self = Some w → unsafeGetStorageImpl (cdata w) = Some R →
  storages st !! R = Some i →
  types st !! ob_type w = Some ty →
  subtype_chain (size (types st)) (types st) (ob_type w) THPStorageType = true →
  nbytes i ≤ INT64_MAX →
  0 ≤ start ≤ stop ≤ nbytes i → default 1 stride = 1 →
  ∃ o n wo ni st',
    THPStorage_get self (PySlice (Some start) (Some stop) stride) st =
      Ok (Some (PyStorage o)) st' ∧
    storages st !! n = None ∧ storages st' !! n = Some ni ∧
    objects st' !! o = Some wo ∧ cdata wo = owned n ∧
    use_count ni = 1 ∧ nbytes ni = stop - start ∧ resizable ni = false ∧
    data_ptr ni = mkDataPtr (dp_buffer (data_ptr i)) (dp_offset (data_ptr i) + start)
                            (Some R) ∧
    (∀ k, read_byte n k st' = read_byte R (start + k) st') ∧
    storages st' !! R = Some (with_use_count (use_count i + 1) i) ∧
    buffers st' = buffers st ∧
    (∀ st1 ni1,
       storages st1 !! n = Some ni1 → data_ptr ni1 = data_ptr ni → use_count ni1 ≤ 1 →
       intrusive_ptr_decref n st1 = intrusive_ptr_decref R (set_storages (delete n) st1) ∧
       ∀ iR, storages st1 !! R = Some iR → 1 < use_count iR →
             intrusive_ptr_decref n st1 =
               Ok tt (set_storages
                        (λ S, <[R := with_use_count (use_count iR - 1) iR]> (delete n S))
                        st1)) ∧
    (∀ st2 ni2,
       rtc step st' st2 → storages st2 !! n = Some ni2 → data_ptr ni2 = data_ptr ni →
       ∃ iR, storages st2 !! R = Some iR ∧ 1 ≤ use_count iR).
Proof.
  intros Hreach Hw HR Hi Hty Hsub Hmax Hb Hstride.
  pose proof (Acc_reachable st Hreach) as HA.
  pose proof (inv_hermetic _ _ _ (Inv_reachable st Hreach)) as Hh.
  pose proof (get_slice_eval st self w R i ty start stop stride
                Hw HR Hi Hty Hsub Hmax Hb Hstride) as Heval.
  set (o := fresh (dom (objects st))) in *.
  set (n := fresh (dom (storages st))).
  set (st' := sliced_state st w ty R i start (stop - start)) in *.
  set (ni := with_slot (registered_slot DEFINITELY_UNINITIALIZED empty_slot o)
                       (slice_impl i R start (stop - start))).
  assert (storages st !! n = None) as Hfresh by apply fresh_lookup_None.
  assert (n ≠ R) as Hne by congruence.
  assert (storages st' =
          <[n := ni]> (<[n := slice_impl i R start (stop - start)]>
                         (<[R := with_use_count (use_count i + 1) i]> (storages st))))
    as HS'.
  { unfold st', sliced_state, wrapped_state. simpl. by rewrite Hh. }
  assert (storages st' !! n = Some ni) as Hn' by (rewrite HS'; apply lookup_insert_eq).
  assert (storages st' !! R = Some (with_use_count (use_count i + 1) i)) as HR'.
  { rewrite HS', !lookup_insert_ne by done. apply lookup_insert_eq. }
  assert (buffers st' = buffers st) as Hbuf.
  { unfold st', sliced_state, wrapped_state. simpl. by rewrite Hh. }
  assert (objects st' !! o =
          Some (mkTHPStorage 1 (ob_type w) (tp_have_gc ty) 0 [] false (owned n) false)) as Ho'.
  { unfold st', sliced_state, wrapped_state. simpl. rewrite Hh. simpl.
    apply lookup_insert_eq. }
  assert (Acc None st') as HA'.
  { pose proof (acc_ok_get self (PySlice (Some start) (Some stop) stride) st HA) as Hget.
    by rewrite Heval in Hget. }
  exists o, n, (mkTHPStorage 1 (ob_type w) (tp_have_gc ty) 0 [] false (owned n) false), ni, st'.
  split; [done|]. split; [done|]. split; [done|]. split; [done|].
  split; [done|]. split; [done|]. split; [done|]. split; [done|]. split; [done|].
  split.
  { intros k. by apply (read_byte_alias st' n R ni (with_use_count (use_count i + 1) i)). }
  split; [done|]. split; [done|]. split.
  - intros st1 ni1 Hn1 Hdp Hc1.
    assert (dp_context (data_ptr ni1) = Some R) as Hctx by (by rewrite Hdp).
    split; [by eapply slice_release|].
    intros iR HiR HcR. by eapply slice_release_shared.
  - intros st2 ni2 Hsteps Hn2 Hdp.
    apply (Acc_slice_parent None st2 n ni2 R); [by eapply Acc_rtc|done|by rewrite Hdp].
Qed.

(** *** What the invariants give a user of the bridge *)

(** X15: in every state the bridge reaches, the count of a live resource
    is at least the number of wrappers whose handle owns it plus the number
    of slices of it, and a wrapper's owned handle never dangles: its
    resource is live, with a count of at least one. *)
Theorem reference_accounting st :
  reachable st →
  (∀ s i, storages st !! s = Some i →
          holders (storages st) (objects st) s ≤ use_count i) ∧
  (∀ o w s, objects st !! o = Some w → cdata w = owned s →
            ∃ i, storages st !! s = Some i ∧ 1 ≤ use_count i).
Proof.
  intros HA%Acc_reachable. split.
  - intros s i Hi. specialize (HA s). rewrite Hi, pending_None in HA. lia.
  - intros o w s Hw Hc. by eapply Acc_owned_resource.
Qed.

(** X16: in every state the bridge reaches, a wrapper that a slot owns is
    live, borrows the resource of that slot and has at least one host
    reference, the one the slot holds; and a slot that owns has a wrapper
    and is tagged. *)
Theorem slot_owned_wrapper_is_kept st s i :
  reachable st → storages st !! s = Some i → owns_pyobj (pyobj_slot i) = true →
  pyobj_interpreter (pyobj_slot i) = true ∧
  ∃ o w, pyobj (pyobj_slot i) = Some o ∧ objects st !! o = Some w ∧
         cdata w = borrowed s ∧ 1 ≤ ob_refcnt w.
Proof.
  intros HI%Inv_reachable Hi Hown.
  destruct (inv_owns _ _ _ HI s i Hi Hown) as [o Hobj].
  split; [apply (inv_tagged _ _ _ HI s i Hi); eauto|].
  destruct (inv_owned _ _ _ HI s i o Hi Hobj Hown) as (w & Hw & Hc).
  exists o, w. split; [done|]. split; [done|]. split; [done|].
  by eapply (inv_kept _ _ _ HI s i o w).
Qed.

End Hooks.

(** * Further properties of the byte access paths *)

(** [l] with the values [vs] written from position [pos] on. *)
Definition overwrite (l : list Z) (pos : nat) (vs : list Z) : list Z :=
  take pos l ++ vs ++ drop (pos + length vs) l.

Lemma overwrite_nil l pos : overwrite l pos [] = l.
Proof. unfold overwrite. simpl. rewrite Nat.add_0_r. apply take_drop. Qed.

Lemma overwrite_length l pos vs :
  (pos + length vs ≤ length l)%nat → length (overwrite l pos vs) = length l.
Proof.
  intros H. unfold overwrite. rewrite !length_app, length_take, length_drop. lia.
Qed.

(** Writing the first value and then the rest one further on. *)
Lemma overwrite_cons l pos v vs :
  (pos < length l)%nat →
  overwrite (<[pos := v]> l) (S pos) vs = overwrite l pos (v :: vs).
Proof.
  intros Hlt. unfold overwrite.
  destruct (lookup_lt_is_Some_2 l pos Hlt) as [x Hx].
  rewrite take_insert_lt by lia. rewrite (take_S_r l pos x Hx).
  rewrite insert_app_r_alt by (rewrite length_take; lia).
  rewrite length_take. replace (pos - pos `min` length l)%nat with 0%nat by lia.
  rewrite drop_insert_lt by lia. simpl.
  replace (pos + S (length vs))%nat with (S (pos + length vs)) by lia.
  by rewrite <- app_assoc.
Qed.

Lemma overwrite_one l pos v :
  (pos < length l)%nat → overwrite l pos [v] = <[pos := v]> l.
Proof. intros Hlt. by rewrite <- overwrite_cons, overwrite_nil. Qed.

(** The window of a buffer a resource sees, after a write to the buffer. *)
Lemma window_insert (l : list Z) off n pos v :
  take n (drop off (<[pos := v]> l)) =
    if decide (off ≤ pos < off + n)%nat
    then <[(pos - off)%nat := v]> (take n (drop off l))
    else take n (drop off l).
Proof.
  destruct (decide (off ≤ pos < off + n)%nat) as [Hin|Hout].
  - rewrite drop_insert_ge by lia. by rewrite take_insert_lt by lia.
  - destruct (decide (pos < off)%nat).
    + by rewrite drop_insert_lt.
    + rewrite drop_insert_ge by lia. by rewrite take_insert_ge by lia.
Qed.

(** Only the buffers differ. *)
Definition only_buffers (st st' : State) : Prop :=
  storages st' = storages st ∧ host_side_unchanged st st'.

Lemma only_buffers_refl st : only_buffers st st.
Proof. split; [done|apply host_side_unchanged_refl]. Qed.

Lemma only_buffers_trans st1 st2 st3 :
  only_buffers st1 st2 → only_buffers st2 st3 → only_buffers st1 st3.
Proof.
  intros [HS1 H1] [HS2 H2]. split; [congruence|by eapply host_side_unchanged_trans].
Qed.

(** In range, [storage_set] writes the byte at the resource's offset plus
    the index. *)
Lemma storage_set_eval st s i l idx v :
  storages st !! s = Some i → buffers st !! dp_buffer (data_ptr i) = Some l →
  0 ≤ dp_offset (data_ptr i) → dp_offset (data_ptr i) + nbytes i ≤ Z.of_nat (length l) →
  0 ≤ idx < nbytes i →
  storage_set s idx v st =
    Ok tt (set_buffers
             <[dp_buffer (data_ptr i) :=
                 <[Z.to_nat (dp_offset (data_ptr i) + idx) := v]> l]> st).
Proof.
  intros Hi Hl Hoff Hfit Hidx. unfold storage_set.
  rewrite (bind_ok _ _ st i st (deref_storage_ok _ _ _ Hi)).
  unfold TORCH_CHECK. replace ((0 <=? idx) && (idx <? nbytes i)) with true by lia.
  rewrite (bind_ok _ _ st tt st) by done.
  unfold write_byte.
  rewrite (bind_ok _ _ st i st (deref_storage_ok _ _ _ Hi)).
  rewrite (bind_ok _ _ st st st) by done. rewrite Hl.
  by replace ((dp_offset (data_ptr i) + idx <? 0) ||
              (Z.of_nat (length l) <=? dp_offset (data_ptr i) + idx)) with false by lia.
Qed.

(** What a resource over buffer [b] holds once position [pos] of [b] is
    written. *)
Lemma bytes_of_written st s i l bs pos v :
  storages st !! s = Some i → buffers st !! dp_buffer (data_ptr i) = Some l →
  bytes_of st s = Some bs →
  bytes_of (set_buffers <[dp_buffer (data_ptr i) := <[pos := v]> l]> st) s =
    Some (if decide (Z.to_nat (dp_offset (data_ptr i)) ≤ pos <
                     Z.to_nat (dp_offset (data_ptr i)) + Z.to_nat (nbytes i))%nat
          then <[(pos - Z.to_nat (dp_offset (data_ptr i)))%nat := v]> bs
          else bs).
Proof.
  intros Hi Hl Hbs.
  pose proof Hbs as (i' & l' & Hi' & Hl' & H0 & H1 & H2 & ->)%bytes_of_Some.
  assert (i' = i) as -> by congruence. assert (l' = l) as -> by congruence.
  unfold bytes_of. simpl. rewrite Hi. simpl. rewrite lookup_insert_eq. simpl.
  rewrite length_insert.
  replace ((0 <=? dp_offset (data_ptr i)) && (0 <=? nbytes i) &&
           (dp_offset (data_ptr i) + nbytes i <=? Z.of_nat (length l))) with true by lia.
  by rewrite window_insert.
Qed.

(** The bytes of a resource after an in-range [storage_set]. *)
Lemma storage_set_bytes st s bs idx v :
  bytes_of st s = Some bs → 0 ≤ idx < Z.of_nat (length bs) →
  ∃ st', storage_set s idx v st = Ok tt st' ∧
         bytes_of st' s = Some (<[Z.to_nat idx := v]> bs) ∧ only_buffers st st'.
Proof.
  intros Hbs Hidx.
  pose proof Hbs as (i & l & Hi & Hl & H0 & H1 & H2 & Heq)%bytes_of_Some.
  pose proof (bytes_of_length _ _ _ _ Hbs Hi) as Hlen.
  eexists. split; [apply (storage_set_eval st s i l idx v Hi Hl H0 H2); lia|].
  split; [|by repeat split].
  rewrite (bytes_of_written st s i l bs _ v Hi Hl Hbs).
  rewrite decide_True by lia. do 2 f_equal. lia.
Qed.

Lemma set_int_eval st self s value v idx :
  resource_of st self = Some s →
  THPByteUtils_checkReal value = true → THPByteUtils_unpackReal value = Some v →
  in_int64 idx →
  THPStorage_set self (PyLong idx) value st =
    HANDLE_TH_ERRORS (-1) (storage_set s idx v;; mret 0) st.
Proof.
  intros Hres Hcheck Hv Hidx. unfold THPStorage_set, HANDLE_TH_ERRORS.
  rewrite (bind_ok _ _ st tt st (assertNotNull_ok _ _ _ Hres)).
  rewrite Hcheck. cbn [negb].
  rewrite (bind_ok _ _ st v st) by (unfold unpackReal_or_throw; by rewrite Hv).
  rewrite (bind_ok _ _ st s st (Unpack_nonnull_ok _ _ _ Hres)).
  rewrite (bind_ok _ _ st idx st); [done|].
  unfold THPUtils_unpackLong. destruct Hidx as [H1 H2].
  apply Z.leb_le in H1, H2. by rewrite H1, H2.
Qed.

(** X1: a byte stored through [THPStorage_set] at an integer index inside
    the resource is the byte [THPStorage_get] reads back at that index; the
    other bytes, the resources and the wrappers are as they were. *)
Theorem set_then_get st self s bs idx value v :
  resource_of st self = Some s → bytes_of st s = Some bs →
  THPByteUtils_checkReal value = true → THPByteUtils_unpackReal value = Some v →
  0 ≤ idx < Z.of_nat (length bs) → Z.of_nat (length bs) ≤ INT64_MAX →
  ∃ st',
    THPStorage_set self (PyLong idx) value st = Ok 0 st' ∧
    bytes_of st' s = Some (<[Z.to_nat idx := v]> bs) ∧
    THPStorage_get self (PyLong idx) st' = Ok (Some (PyLong v)) st' ∧
    only_buffers st st'.
Proof.
  intros Hres Hbs Hcheck Hv Hidx Hmax.
  assert (in_int64 idx) as H64 by (unfold in_int64, INT64_MIN, INT64_MAX in *; lia).
  destruct (storage_set_bytes st s bs idx v Hbs Hidx) as (st' & Hset & Hbs' & Hframe).
  exists st'. split.
  { rewrite (set_int_eval st self s value v idx Hres Hcheck Hv H64).
    unfold HANDLE_TH_ERRORS. by rewrite (bind_ok _ _ _ _ _ Hset). }
  split; [done|]. split; [|done].
  assert (resource_of st' self = Some s) as Hres'.
  { unfold resource_of in *. destruct Hframe as [_ [-> _]]. done. }
  assert (length (<[Z.to_nat idx := v]> bs) = length bs) as Hlen by apply length_insert.
  rewrite (get_int_eval st' self s _ idx Hres' Hbs' H64) by (rewrite Hlen; lia).
  rewrite Hlen. unfold normalised.
  replace (idx <? 0) with false by lia.
  replace ((idx <? 0) || (Z.of_nat (length bs) <=? idx)) with false by lia.
  by rewrite list_lookup_insert_eq by lia.
Qed.

(** The loop of line 504 writes [n] consecutive bytes. *)
Lemma set_range_bytes s v n : ∀ st start bs,
  bytes_of st s = Some bs → 0 ≤ start → start + Z.of_nat n ≤ Z.of_nat (length bs) →
  ∃ st', set_range n s start v st = Ok tt st' ∧
         bytes_of st' s = Some (overwrite bs (Z.to_nat start) (replicate n v)) ∧
         only_buffers st st'.
Proof.
  induction n as [|n IH]; intros st start bs Hbs H0 Hfit.
  - exists st. split; [done|]. split; [|apply only_buffers_refl].
    by rewrite overwrite_nil.
  - destruct (storage_set_bytes st s bs start v Hbs) as (st1 & Hset & Hbs1 & Hframe1);
      [lia|].
    destruct (IH st1 (start + 1) _ Hbs1) as (st' & Hrange & Hbs' & Hframe');
      [lia|rewrite length_insert; lia|].
    exists st'. split.
    { simpl. by rewrite (bind_ok _ _ _ _ _ Hset). }
    split; [|by eapply only_buffers_trans].
    rewrite Hbs'. f_equal.
    replace (Z.to_nat (start + 1)) with (S (Z.to_nat start)) by lia.
    rewrite overwrite_cons by lia. done.
Qed.

(** X2: assigning a byte to a slice with step 1 and bounds
    [0 <= start <= stop <= length] stores it at every position of
    [[start, stop)] and nowhere else, and returns 0; an empty range writes
    nothing. *)
Theorem set_slice_fills st self s bs start stop stride value v :
  resource_of st self = Some s → bytes_of st s = Some bs →
  THPByteUtils_checkReal value = true → THPByteUtils_unpackReal value = Some v →
  0 ≤ start ≤ stop ≤ Z.of_nat (length bs) → Z.of_nat (length bs) ≤ INT64_MAX →
  default 1 stride = 1 →
  ∃ st',
    THPStorage_set self (PySlice (Some start) (Some stop) stride) value st = Ok 0 st' ∧
    bytes_of st' s =
      Some (take (Z.to_nat start) bs ++ replicate (Z.to_nat (stop - start)) v ++
            drop (Z.to_nat stop) bs) ∧
    only_buffers st st'.
Proof.
  intros Hres Hbs Hcheck Hv Hb Hmax Hstride.
  pose proof Hbs as (i & l & Hi & _)%bytes_of_Some.
  pose proof (bytes_of_length _ _ _ _ Hbs Hi) as Hlen.
  destruct (set_range_bytes s v (Z.to_nat (stop - start)) st start bs Hbs)
    as (st' & Hrange & Hbs' & Hframe); [lia..|].
  exists st'. split; [|split; [|done]].
  - unfold THPStorage_set, HANDLE_TH_ERRORS.
    rewrite (bind_ok _ _ st tt st (assertNotNull_ok _ _ _ Hres)).
    rewrite Hcheck. cbn [negb].
    rewrite (bind_ok _ _ st v st) by (unfold unpackReal_or_throw; by rewrite Hv).
    rewrite (bind_ok _ _ st s st (Unpack_nonnull_ok _ _ _ Hres)).
    rewrite (bind_ok _ _ st i st (deref_storage_ok _ _ _ Hi)).
    rewrite (wrap_int64_id (nbytes i)) by (unfold in_int64, INT64_MIN; lia).
    rewrite (slice_indices start stop stride (nbytes i))
      by (done || (unfold PY_SSIZE_T_MAX, INT64_MAX in *; lia)).
    replace (negb (1 =? 1)) with false by done.
    by rewrite (bind_ok _ _ _ _ _ Hrange).
  - rewrite Hbs'. unfold overwrite. rewrite length_replicate.
    do 4 f_equal. lia.
Qed.

(** ** Slices share the bytes of their parent *)

Lemma window_window (l : list Z) off n a m :
  (a + m ≤ n)%nat →
  take m (drop a (take n (drop off l))) = take m (drop (off + a) l).
Proof.
  intros H. replace n with (a + (n - a))%nat by lia.
  rewrite <- take_drop_commute, take_take, drop_drop.
  by replace (m `min` (n - a))%nat with m by lia.
Qed.

(** What [sliced_state] holds, in either mode. *)
Lemma sliced_state_facts st w ty R i start len :
  storages st !! R = Some i →
  let n := fresh (dom (storages st)) in
  let o := fresh (dom (objects st)) in
  let st' := sliced_state st w ty R i start len in
  n ≠ R ∧
  (∃ ni, storages st' !! n = Some ni ∧
         use_count ni = 1 ∧ nbytes ni = len ∧ resizable ni = false ∧
         data_ptr ni = data_ptr (slice_impl i R start len) ∧
         allocator ni = allocator i ∧ device ni = device i) ∧
  storages st' !! R = Some (with_use_count (use_count i + 1) i) ∧
  (∀ s', s' ≠ n → s' ≠ R → storages st' !! s' = storages st !! s') ∧
  buffers st' = buffers st ∧
  objects st' =
    <[o := mkTHPStorage 1 (ob_type w) (tp_have_gc ty) 0 [] false (owned n) false]> (objects st) ∧
  hermetic st' = hermetic st ∧ py_err st' = py_err st ∧ events st' = events st ∧
  THPStorageClass st' = THPStorageClass st ∧
  types st' = <[ob_type w := with_tp_refcnt (tp_refcnt ty + 1) ty]> (types st).
Proof.
  intros Hi n o st'.
  assert (storages st !! n = None) as Hfresh by apply fresh_lookup_None.
  assert (n ≠ R) as Hne by congruence.
  split; [done|]. unfold st', sliced_state, wrapped_state. fold n. fold o.
  destruct (hermetic st) eqn:Hh; simpl; rewrite Hh; simpl.
  - split; [eexists; split; [apply lookup_insert_eq|done]|].
    split; [rewrite lookup_insert_ne by done; apply lookup_insert_eq|].
    split; [intros s' H1 H2; by rewrite !lookup_insert_ne|].
    done.
  - split; [eexists; split; [apply lookup_insert_eq|done]|].
    split; [rewrite !lookup_insert_ne by done; apply lookup_insert_eq|].
    split; [intros s' H1 H2; by rewrite !lookup_insert_ne|].
    done.
Qed.

(** X3: the wrapper [THPStorage_get] returns for a slice is a view, not a
    copy: its bytes are the parent's bytes [[start, stop)], and a byte stored
    through it at index [k] is the byte the parent's wrapper reads back at
    index [start + k]. *)
Theorem slice_writes_through st self w R i ty bs start stop stride k value v :
  objects st !! self = Some w → unsafeGetStorageImpl (cdata w) = Some R →
  storages st !! R = Some i →
  types st !! ob_type w = Some ty →
  subtype_chain (size (types st)) (types st) (ob_type w) THPStorageType = true →
  bytes_of st R = Some bs → Z.of_nat (length bs) ≤ INT64_MAX →
  0 ≤ start ≤ stop ≤ Z.of_nat (length bs) → default 1 stride = 1 →
  THPByteUtils_checkReal value = true → THPByteUtils_unpackReal value = Some v →
  0 ≤ k < stop - start →
  ∃ o n st1 st2,
    THPStorage_get self (PySlice (Some start) (Some stop) stride) st =
      Ok (Some (PyStorage o)) st1 ∧
    resource_of st1 o = Some n ∧
    bytes_of st1 n = Some (take (Z.to_nat (stop - start)) (drop (Z.to_nat start) bs)) ∧
    bytes_of st1 R = Some bs ∧
    THPStorage_set o (PyLong k) value st1 = Ok 0 st2 ∧
    bytes_of st2 R = Some (<[Z.to_nat (start + k) := v]> bs) ∧
    THPStorage_get self (PyLong (start + k)) st2 = Ok (Some (PyLong v)) st2.
Proof.
  intros Hw HR Hi Hty Hsub Hbs Hmax Hb Hstride Hcheck Hv Hk.
  pose proof Hbs as (i' & l & Hi' & Hl & H0 & H1 & H2 & Heq)%bytes_of_Some.
  assert (i' = i) as -> by congruence.
  pose proof (bytes_of_length _ _ _ _ Hbs Hi) as Hlen.
  pose proof (get_slice_eval st self w R i ty start stop stride Hw HR Hi Hty Hsub
                ltac:(lia) ltac:(lia) Hstride) as Heval.
  destruct (sliced_state_facts st w ty R i start (stop - start) Hi)
    as (Hne & (ni & Hn & Hcount & Hnb & _ & Hdp & _) & HR1 & _ & Hbuf & Hobj & _).
  set (o := fresh (dom (objects st))) in *.
  set (n := fresh (dom (storages st))) in *.
  set (st1 := sliced_state st w ty R i start (stop - start)) in *.
  assert (objects st !! o = None) as Hofresh by apply fresh_lookup_None.
  assert (self ≠ o) as Hself by congruence.
  assert (resource_of st1 o = Some n) as Hres_o.
  { unfold resource_of. by rewrite Hobj, lookup_insert_eq. }
  assert (resource_of st1 self = Some R) as Hres_self.
  { unfold resource_of. rewrite Hobj, lookup_insert_ne, Hw by done. done. }
  assert (buffers st1 !! dp_buffer (data_ptr ni) = Some l) as Hl1.
  { by rewrite Hdp, Hbuf. }
  assert (bytes_of st1 n =
          Some (take (Z.to_nat (stop - start)) (drop (Z.to_nat start) bs))) as Hbs_n.
  { unfold bytes_of. rewrite Hn. simpl. rewrite Hl1. simpl. rewrite Hdp, Hnb. simpl.
    replace ((0 <=? dp_offset (data_ptr i) + start) && (0 <=? stop - start) &&
             (dp_offset (data_ptr i) + start + (stop - start) <=? Z.of_nat (length l)))
      with true by lia.
    f_equal. rewrite Heq.
    rewrite window_window by lia. f_equal. f_equal. lia. }
  assert (bytes_of st1 R = Some bs) as Hbs_R.
  { unfold bytes_of in *. rewrite HR1. rewrite Hi in Hbs. simpl in *.
    by rewrite Hbuf. }
  set (pos := Z.to_nat (dp_offset (data_ptr i) + start + k)).
  set (st2 := set_buffers <[dp_buffer (data_ptr i) := <[pos := v]> l]> st1).
  assert (storage_set n k v st1 = Ok tt st2) as Hset.
  { rewrite (storage_set_eval st1 n ni l k v Hn Hl1); rewrite ?Hdp, ?Hnb; simpl; [done|lia..]. }
  assert (bytes_of st2 R = Some (<[Z.to_nat (start + k) := v]> bs)) as Hbs2.
  { change st2 with
      (set_buffers <[dp_buffer (data_ptr (with_use_count (use_count i + 1) i)) :=
                       <[pos := v]> l]> st1).
    rewrite (bytes_of_written st1 R (with_use_count (use_count i + 1) i) l bs pos v HR1)
      by (done || by rewrite Hbuf).
    simpl. rewrite decide_True by lia. do 2 f_equal. lia. }
  exists o, n, st1, st2.
  split; [done|]. split; [done|]. split; [done|]. split; [done|]. split.
  { assert (in_int64 k) as H64 by (unfold in_int64, INT64_MIN, INT64_MAX in *; lia).
    rewrite (set_int_eval st1 o n value v k Hres_o Hcheck Hv H64).
    unfold HANDLE_TH_ERRORS. by rewrite (bind_ok _ _ _ _ _ Hset). }
  split; [done|].
  assert (in_int64 (start + k)) as H64
    by (unfold in_int64, INT64_MIN, INT64_MAX in *; lia).
  assert (length (<[Z.to_nat (start + k) := v]> bs) = length bs) as Hlen'
    by apply length_insert.
  rewrite (get_int_eval st2 self R _ (start + k) Hres_self Hbs2 H64)
    by (rewrite Hlen'; lia).
  rewrite Hlen'. unfold normalised.
  replace (start + k <? 0) with false by lia.
  replace ((start + k <? 0) || (Z.of_nat (length bs) <=? start + k)) with false by lia.
  by rewrite list_lookup_insert_eq by lia.
Qed.

(** * Further properties of construction *)

(** The state lines 318-326 (and 330-337, 352-359) leave: a new resource
    of [size] bytes from allocator [a] with one reference, in a new wrapper
    of type [type]. *)
Definition constructed_state (st : State) (type : TypeId) (ty : PyTypeObject)
    (size : Z) (a : Allocator) (g : option DeviceType) : State :=
  let s := fresh (dom (storages st)) in
  let b := fresh (dom (buffers st)) in
  let new := mkStorageImpl 1 size true (mkDataPtr b 0 None) a (allocation_device a g)
                           empty_slot in
  wrapped_state
    (set_storages <[s := new]> (set_buffers <[b := replicate (Z.to_nat size) 0]> st))
    type ty s new DEFINITELY_UNINITIALIZED.

Lemma construct_eval {B} st type ty n a g (k : ObjId → M B) :
  types st !! type = Some ty →
  subtype_chain (size (types st)) (types st) type THPStorageType = true →
  (s ← make_storage n a g true;
   self ← THPStorage_NewWithStorage type s DEFINITELY_UNINITIALIZED
            allow_preexisting_pyobj_default;
   k self) st =
    k (fresh (dom (objects st))) (constructed_state st type ty n a g).
Proof.
  intros Hty Hsub.
  rewrite (bind_ok _ _ _ _ _ (make_storage_ok _ _ _ _ _)).
  set (s := fresh (dom (storages st))).
  set (b := fresh (dom (buffers st))).
  set (new := mkStorageImpl 1 n true (mkDataPtr b 0 None) a (allocation_device a g)
                            empty_slot).
  set (st1 := set_storages _ _).
  assert (storages st1 !! s = Some new) as Hs1 by (simpl; apply lookup_insert_eq).
  by rewrite (bind_ok _ _ _ _ _
                (NewWithStorage_fresh st1 type ty s new DEFINITELY_UNINITIALIZED
                   allow_preexisting_pyobj_default Hs1 (λ _, ltac:(done)) Hty Hsub)).
Qed.

Lemma constructed_state_facts st type ty size a g :
  let s := fresh (dom (storages st)) in
  let b := fresh (dom (buffers st)) in
  let o := fresh (dom (objects st)) in
  let st' := constructed_state st type ty size a g in
  (∃ i, storages st' !! s = Some i ∧
        use_count i = 1 ∧ nbytes i = size ∧ resizable i = true ∧
        data_ptr i = mkDataPtr b 0 None ∧ allocator i = a ∧
        device i = allocation_device a g) ∧
  (∀ s', s' ≠ s → storages st' !! s' = storages st !! s') ∧
  buffers st' = <[b := replicate (Z.to_nat size) 0]> (buffers st) ∧
  objects st' =
    <[o := mkTHPStorage 1 type (tp_have_gc ty) 0 [] false (owned s) false]> (objects st) ∧
  types st' = <[type := with_tp_refcnt (tp_refcnt ty + 1) ty]> (types st) ∧
  hermetic st' = hermetic st ∧ py_err st' = py_err st ∧ events st' = events st ∧
  THPStorageClass st' = THPStorageClass st.
Proof.
  intros s b o st'. unfold st', constructed_state, wrapped_state. fold s b o.
  destruct (hermetic st) eqn:Hh; simpl; rewrite Hh; simpl.
  - split; [eexists; split; [apply lookup_insert_eq|done]|].
    split; [intros s' H1; by rewrite !lookup_insert_ne|]. done.
  - split; [eexists; split; [apply lookup_insert_eq|done]|].
    split; [intros s' H1; by rewrite !lookup_insert_ne|]. done.
Qed.

(** The checks of lines 250-315 pass. *)
Lemma pynew_arguments_ok {B} st type allocator_opt device_opt a
    (k : Allocator → M (option B)) :
  type ≠ THPStorageType →
  (allocator_opt = None ∨ device_opt = None) →
  resolve_allocator allocator_opt device_opt = Some a →
  (TORCH_CHECK (negb (bool_decide (type = THPStorageType))) CannotConstructBase;;
   TORCH_CHECK (negb (bool_decide (is_Some allocator_opt)) ||
                negb (bool_decide (is_Some device_opt))) ConflictingAllocatorSpec;;
   a ← match resolve_allocator allocator_opt device_opt with
       | Some a => mret a
       | None => throw (c10_Error UnsupportedDevice)
       end;
   k a) st = k a st.
Proof.
  intros Hbase Hone Hres.
  rewrite (bool_decide_eq_false_2 (type = THPStorageType)) by done. cbn [negb].
  rewrite (bind_ok _ _ st tt st) by done.
  replace (negb (bool_decide (is_Some allocator_opt)) ||
           negb (bool_decide (is_Some device_opt))) with true.
  2:{ destruct Hone as [-> | ->]; simpl; [done|]. by rewrite orb_true_r. }
  rewrite (bind_ok _ _ st tt st) by done.
  rewrite Hres. by rewrite (bind_ok _ _ st a st).
Qed.

Lemma length_eval st self s i :
  resource_of st self = Some s → storages st !! s = Some i →
  THPStorage_length self st = Ok (wrap_int64 (nbytes i)) st.
Proof.
  intros Hres Hi. unfold THPStorage_length, HANDLE_TH_ERRORS.
  rewrite (bind_ok _ _ st tt st (assertNotNull_ok _ _ _ Hres)).
  rewrite (bind_ok _ _ st s st (Unpack_nonnull_ok _ _ _ Hres)).
  by rewrite (bind_ok _ _ st i st (deref_storage_ok _ _ _ Hi)).
Qed.

(** The size the constructor is asked for, when it is not given a
    sequence. *)
Definition requested_size (ov : Overload) : option Z :=
  match ov with
  | NoArgs => Some 0
  | Sized size => Some size
  | FromSequence _ => None
  end.

(** ** Construction from a sequence with an item that is no byte *)










(** X4: [torch.Storage()] and [torch.Storage(size)], for a Storage
    subclass other than the base type and at most one of allocator and
    device: the constructor returns a new wrapper of the requested type with
    one host reference, whose handle owns a new resizable resource of [size]
    bytes (none for the empty call) from the resolved allocator, with one
    reference; [THPStorage_length] of the wrapper is [size]; every other
    wrapper and resource is as before. *)
Theorem pynew_sized st type ty ov n allocator_opt device_opt a :
  type ≠ THPStorageType →
  types st !! type = Some ty →
  subtype_chain (size (types st)) (types st) type THPStorageType = true →
  (allocator_opt = None ∨ device_opt = None) →
  resolve_allocator allocator_opt device_opt = Some a →
  requested_size ov = Some n → 0 ≤ n ≤ INT64_MAX →
  ∃ o s w i st',
    THPStorage_pynew type ov allocator_opt device_opt st = Ok (Some o) st' ∧
    objects st !! o = None ∧ storages st !! s = None ∧
    objects st' !! o = Some w ∧
    ob_type w = type ∧ ob_refcnt w = 1 ∧ cdata w = owned s ∧
    storages st' !! s = Some i ∧
    use_count i = 1 ∧ nbytes i = n ∧ resizable i = true ∧ allocator i = a ∧
    THPStorage_length o st' = Ok n st' ∧
    (∀ o', o' ≠ o → objects st' !! o' = objects st !! o') ∧
    (∀ s', s' ≠ s → storages st' !! s' = storages st !! s').
Proof.
  intros Hbase Hty Hsub Hone Hres Hsize Hn.
  set (g := device_guard allocator_opt device_opt).
  destruct (constructed_state_facts st type ty n a g)
    as ((i & Hi & Hcount & Hnb & Hrs & Hdp & Hal & _) & Hothers & _ & Hobj & _).
  set (o := fresh (dom (objects st))) in *.
  set (s := fresh (dom (storages st))) in *.
  set (st' := constructed_state st type ty n a g) in *.
  exists o, s, (mkTHPStorage 1 type (tp_have_gc ty) 0 [] false (owned s) false), i, st'.
  assert (objects st' !! o =
          Some (mkTHPStorage 1 type (tp_have_gc ty) 0 [] false (owned s) false)) as Ho.
  { rewrite Hobj. apply lookup_insert_eq. }
  split.
  { unfold THPStorage_pynew, HANDLE_TH_ERRORS.
    rewrite (pynew_arguments_ok st type allocator_opt device_opt a _ Hbase Hone Hres).
    destruct ov as [|n'|]; simpl in Hsize; [injection Hsize as <-|injection Hsize as ->|done].
    - by rewrite (construct_eval st type ty 0 a g _ Hty Hsub).
    - by rewrite (construct_eval st type ty n a g _ Hty Hsub). }
  split; [apply fresh_lookup_None|]. split; [apply fresh_lookup_None|].
  split; [done|]. split; [done|]. split; [done|]. split; [done|].
  split; [done|]. split; [done|]. split; [done|]. split; [done|]. split; [done|].
  split.
  { rewrite (length_eval st' o s i); [|unfold resource_of; by rewrite Ho|done].
    rewrite Hnb, wrap_int64_id; [done|].
    unfold in_int64, INT64_MIN, INT64_MAX in *. lia. }
  split; [|done]. intros o' Hne. by rewrite Hobj, lookup_insert_ne.
Qed.

Lemma write_byte_eval st s i l idx v :
  storages st !! s = Some i → buffers st !! dp_buffer (data_ptr i) = Some l →
  0 ≤ dp_offset (data_ptr i) + idx < Z.of_nat (length l) →
  write_byte s idx v st =
    Ok tt (set_buffers
             <[dp_buffer (data_ptr i) :=
                 <[Z.to_nat (dp_offset (data_ptr i) + idx) := v]> l]> st).
Proof.
  intros Hi Hl Hidx. unfold write_byte.
  rewrite (bind_ok _ _ st i st (deref_storage_ok _ _ _ Hi)).
  rewrite (bind_ok _ _ st st st) by done. rewrite Hl.
  by replace ((dp_offset (data_ptr i) + idx <? 0) ||
              (Z.of_nat (length l) <=? dp_offset (data_ptr i) + idx)) with false by lia.
Qed.

(** The loop of line 365, when the byte macro converts every item: the
    values are written over the buffer from [idx] on. *)
Lemma pynew_fill_all a s i items : ∀ vs idx st l,
  Forall2 (λ x v, THPByteUtils_unpackReal x = Some v) items vs →
  storages st !! s = Some i → dp_offset (data_ptr i) = 0 →
  buffers st !! dp_buffer (data_ptr i) = Some l → Z.of_nat (length l) = nbytes i →
  0 ≤ idx → idx + Z.of_nat (length items) ≤ nbytes i →
  ∃ st', pynew_fill a s items idx st = Ok None st' ∧
         buffers st' =
           <[dp_buffer (data_ptr i) := overwrite l (Z.to_nat idx) vs]> (buffers st) ∧
         only_buffers st st'.
Proof.
  induction items as [|x items IH]; intros vs idx st l Hvs Hi Hoff Hl Hlen Hidx Hfit.
  - apply Forall2_nil_inv_l in Hvs as ->. exists st. split; [done|].
    split; [|apply only_buffers_refl].
    by rewrite overwrite_nil, insert_id.
  - apply Forall2_cons_inv_l in Hvs as (v & vs' & Hv & Hvs' & ->).
    simpl in Hfit.
    set (l1 := <[Z.to_nat idx := v]> l).
    set (st1 := set_buffers <[dp_buffer (data_ptr i) := l1]> st).
    assert ((value ← unpackReal_or_throw x;
             if bool_decide (a = DefaultCPUAllocator)
             then write_byte s idx value else storage_set s idx value) st
            = Ok tt st1) as Hst1.
    { unfold unpackReal_or_throw. rewrite Hv.
      rewrite (bind_ok _ _ st v st) by done.
      destruct (bool_decide (a = DefaultCPUAllocator)).
      - rewrite (write_byte_eval st s i l idx v Hi Hl) by lia.
        unfold st1, l1. by rewrite Hoff.
      - rewrite (storage_set_eval st s i l idx v Hi Hl) by lia.
        unfold st1, l1. by rewrite Hoff. }
    destruct (IH vs' (idx + 1) st1 l1 Hvs' Hi Hoff) as (st' & Hfill & Hbuf & Hframe).
    { simpl. apply lookup_insert_eq. }
    { unfold l1. rewrite length_insert. done. }
    { lia. }
    { lia. }
    exists st'. split.
    { simpl. rewrite (bind_ok _ _ st (Some tt) st1); [done|].
      unfold try_catch. by rewrite Hst1. }
    split.
    + rewrite Hbuf. simpl. rewrite insert_insert_eq. f_equal.
      replace (Z.to_nat (idx + 1)) with (S (Z.to_nat idx)) by lia.
      unfold l1. apply overwrite_cons. lia.
    + eapply only_buffers_trans; [|exact Hframe]. by repeat split.
Qed.

(** X5: construction from a list whose items the byte macro converts, for
    a Storage subclass other than the base type: the constructor returns a
    new wrapper whose resource holds exactly the converted values, in
    order; its length is the length of the list, and [THPStorage_get] at
    index [k] returns the value converted from item [k]. *)
Theorem pynew_sequence_bytes st type ty items vs allocator_opt device_opt a :
  type ≠ THPStorageType →
  types st !! type = Some ty →
  subtype_chain (size (types st)) (types st) type THPStorageType = true →
  (allocator_opt = None ∨ device_opt = None) →
  resolve_allocator allocator_opt device_opt = Some a →
  Forall2 (λ x v, THPByteUtils_unpackReal x = Some v) items vs →
  Z.of_nat (length items) ≤ INT64_MAX →
  ∃ o s st',
    THPStorage_pynew type (FromSequence (PyList items)) allocator_opt device_opt st =
      Ok (Some o) st' ∧
    objects st !! o = None ∧ storages st !! s = None ∧
    resource_of st' o = Some s ∧
    bytes_of st' s = Some vs ∧
    THPStorage_length o st' = Ok (Z.of_nat (length vs)) st' ∧
    (∀ k v, vs !! k = Some v →
            THPStorage_get o (PyLong (Z.of_nat k)) st' = Ok (Some (PyLong v)) st') ∧
    py_err st' = py_err st.
Proof.
  intros Hbase Hty Hsub Hone Hres Hvs Hmax.
  set (g := device_guard allocator_opt device_opt).
  pose proof (Forall2_length _ _ _ Hvs) as Hlen.
  set (n := Z.of_nat (length items)).
  destruct (constructed_state_facts st type ty n a g)
    as ((i & Hi & Hcount & Hnb & Hrs & Hdp & Hal & _) & Hothers & Hbuf & Hobj & _ & _ &
        Herr & _).
  set (o := fresh (dom (objects st))) in *.
  set (s := fresh (dom (storages st))) in *.
  set (b := fresh (dom (buffers st))) in *.
  set (st1 := constructed_state st type ty n a g) in *.
  assert (resource_of st1 o = Some s) as Hres1.
  { unfold resource_of. by rewrite Hobj, lookup_insert_eq. }
  destruct (pynew_fill_all a s i items vs 0 st1 (replicate (Z.to_nat n) 0) Hvs Hi)
    as (st' & Hfill & Hbuf' & HS' & Hframe).
  { by rewrite Hdp. }
  { rewrite Hdp, Hbuf. apply lookup_insert_eq. }
  { rewrite length_replicate, Hnb. lia. }
  { lia. }
  { rewrite Hnb. lia. }
  assert (overwrite (replicate (Z.to_nat n) 0) (Z.to_nat 0) vs = vs) as Hall.
  { unfold overwrite. simpl. rewrite drop_ge by (rewrite length_replicate; lia).
    apply app_nil_r. }
  rewrite Hall in Hbuf'.
  assert (storages st' !! s = Some i) as Hi' by (by rewrite HS').
  assert (resource_of st' o = Some s) as Hres'.
  { unfold resource_of in *. by destruct Hframe as [-> _]. }
  exists o, s, st'. split.
  { unfold THPStorage_pynew, HANDLE_TH_ERRORS.
    rewrite (pynew_arguments_ok st type allocator_opt device_opt a _ Hbase Hone Hres).
    rewrite (bind_ok _ _ _ _ _ (typename_of_ok _ _)).
    unfold PySequence_Check. cbn [PySequence_Length sequence_items THPUtils_typename].
    rewrite bool_decide_eq_true_2 by eauto.
    rewrite (bind_ok _ _ st tt st) by done.
    replace (0 <=? Z.of_nat (length items)) with true by lia.
    rewrite (bind_ok _ _ st tt st) by done.
    rewrite (construct_eval st type ty n a g _ Hty Hsub).
    rewrite (bind_ok _ _ _ _ _ (Unpack_nonnull_ok _ _ _ Hres1)).
    cbn [default]. by rewrite (bind_ok _ _ _ _ _ Hfill). }
  split; [apply fresh_lookup_None|]. split; [apply fresh_lookup_None|].
  split; [done|].
  assert (bytes_of st' s = Some vs) as Hbytes.
  { unfold bytes_of. rewrite Hi'. simpl. rewrite Hbuf', Hdp. simpl.
    rewrite lookup_insert_eq. simpl. rewrite Hnb.
    replace ((0 <=? n) && (0 + n <=? Z.of_nat (length vs))) with true by lia.
    f_equal. apply take_ge. lia. }
  split; [done|]. split.
  { rewrite (length_eval st' o s i Hres' Hi'), Hnb, wrap_int64_id.
    - f_equal. lia.
    - unfold in_int64, INT64_MIN, INT64_MAX in *. lia. }
  split.
  { intros k v Hk. pose proof (lookup_lt_Some _ _ _ Hk) as Hlt.
    rewrite (get_int_eval st' o s vs (Z.of_nat k) Hres' Hbytes);
      [|unfold in_int64, INT64_MIN, INT64_MAX in *; lia|lia].
    unfold normalised. replace (Z.of_nat k <? 0) with false by lia.
    replace ((Z.of_nat k <? 0) || (Z.of_nat (length vs) <=? Z.of_nat k)) with false by lia.
    by rewrite Nat2Z.id, Hk. }
  destruct Hframe as (_ & _ & _ & _ & -> & _). done.
Qed.

(** X6: the constructor checks its arguments in this order and allocates
    nothing when one fails: the base type itself cannot be constructed;
    allocator and device cannot both be given; a device without an
    allocator in this build is not recognized; the argument of the sequence
    form must be a sequence.  Each failure returns null with its own error. *)
Theorem pynew_rejects st type ov allocator_opt device_opt :
  (type = THPStorageType →
     THPStorage_pynew type ov allocator_opt device_opt st =
       Ok None (set_py_err (Some CannotConstructBase) st)) ∧
  (type ≠ THPStorageType → is_Some allocator_opt → is_Some device_opt →
     THPStorage_pynew type ov allocator_opt device_opt st =
       Ok None (set_py_err (Some ConflictingAllocatorSpec) st)) ∧
  (type ≠ THPStorageType → allocator_opt = None →
     (∃ d, device_opt = Some d ∧ allocator_of_device d = None) →
     THPStorage_pynew type ov allocator_opt device_opt st =
       Ok None (set_py_err (Some UnsupportedDevice) st)) ∧
  (type ≠ THPStorageType → (allocator_opt = None ∨ device_opt = None) →
     is_Some (resolve_allocator allocator_opt device_opt) →
     ∀ x, ov = FromSequence x → sequence_items x = None →
     THPStorage_pynew type ov allocator_opt device_opt st =
       Ok None (set_py_err
                  (Some (NotASequence (THPUtils_typename (types st) (objects st) x))) st)).
Proof.
  split; [|split; [|split]].
  - intros ->. unfold THPStorage_pynew, HANDLE_TH_ERRORS.
    by rewrite (bool_decide_eq_true_2 (THPStorageType = THPStorageType)).
  - intros Hbase Ha Hd. unfold THPStorage_pynew, HANDLE_TH_ERRORS.
    rewrite (bool_decide_eq_false_2 (type = THPStorageType)) by done. cbn [negb].
    rewrite (bind_ok _ _ st tt st) by done.
    rewrite (bool_decide_eq_true_2 (is_Some allocator_opt)) by done.
    by rewrite (bool_decide_eq_true_2 (is_Some device_opt)).
  - intros Hbase -> (d & -> & Hd). unfold THPStorage_pynew, HANDLE_TH_ERRORS.
    rewrite (bool_decide_eq_false_2 (type = THPStorageType)) by done. cbn [negb].
    rewrite (bind_ok _ _ st tt st) by done.
    rewrite (bool_decide_eq_false_2 (is_Some None)) by (by intros [? ?]). cbn [negb orb].
    rewrite (bind_ok _ _ st tt st) by done.
    simpl. by rewrite Hd.
  - intros Hbase Hone [a Hres] x -> Hseq. unfold THPStorage_pynew, HANDLE_TH_ERRORS.
    rewrite (pynew_arguments_ok st type allocator_opt device_opt a _ Hbase Hone Hres).
    rewrite (bind_ok _ _ _ _ _ (typename_of_ok _ _)).
    unfold PySequence_Check. rewrite Hseq.
    by rewrite (bool_decide_eq_false_2 (is_Some None)) by (by intros [? ?]).
Qed.

(** * The properties of the type: [device] and [_cdata] *)

(** Line 620.  [THPDevice_New] (torch/csrc/Device.h) builds the host's
    device object around the device it is given; the result is given here
    as that device, [None] for the null of a failure. *)
Definition THPStorage_device (self : ObjId) : M (option DeviceType) :=
  HANDLE_TH_ERRORS None (
    THPStorage_assertNotNull self;;
    storage ← THPStorage_Unpack_nonnull self;
    i ← deref_storage storage;
    mret (Some (device i))).

Section Identity.

(** The address of a resource, as an integer; the null pointer is 0. *)
Context (address_of : StorageId → Z).

Definition PyLong_FromVoidPtr (p : option StorageId) : PyObject :=
  PyLong (from_option address_of 0 p).

(** Line 627: no null check. *)
Definition THPStorage_get_cdata (self : ObjId) : M (option PyObject) :=
  HANDLE_TH_ERRORS None (
    c ← THPStorage_Unpack self;
    mret (Some (PyLong_FromVoidPtr c))).

Lemma assertNotNull_null st self w :
  objects st !! self = Some w → unsafeGetStorageImpl (cdata w) = None →
  THPStorage_assertNotNull self st = Throw (c10_Error NullResource) st.
Proof.
  intros Hw Hnull. unfold THPStorage_assertNotNull, THPStorage_Unpack.
  rewrite (bind_ok _ _ st None st).
  2:{ by rewrite (bind_ok _ _ st w st (deref_obj_ok _ _ _ Hw)), Hnull. }
  by rewrite (bool_decide_eq_false_2 (is_Some None)) by (by intros [? ?]).
Qed.

(** X7: on a wrapper whose handle is null, [THPStorage_length] returns -1,
    [THPStorage_get] and the [device] property return null and
    [THPStorage_set] returns -1, whatever the index and the value, each
    with the error [NullResource] and nothing else changed; [_cdata] does
    not check and returns 0 with no error. *)
Theorem null_handle_rejected st self w index value :
  objects st !! self = Some w → unsafeGetStorageImpl (cdata w) = None →
  THPStorage_length self st = Ok (-1) (set_py_err (Some NullResource) st) ∧
  THPStorage_get self index st = Ok None (set_py_err (Some NullResource) st) ∧
  THPStorage_set self index value st = Ok (-1) (set_py_err (Some NullResource) st) ∧
  THPStorage_device self st = Ok None (set_py_err (Some NullResource) st) ∧
  THPStorage_get_cdata self st = Ok (Some (PyLong 0)) st.
Proof.
  intros Hw Hnull. pose proof (assertNotNull_null st self w Hw Hnull) as Hassert.
  repeat split.
  - unfold THPStorage_length, HANDLE_TH_ERRORS. by rewrite (bind_throw _ _ _ _ _ Hassert).
  - unfold THPStorage_get, HANDLE_TH_ERRORS. by rewrite (bind_throw _ _ _ _ _ Hassert).
  - unfold THPStorage_set, HANDLE_TH_ERRORS. by rewrite (bind_throw _ _ _ _ _ Hassert).
  - unfold THPStorage_device, HANDLE_TH_ERRORS. by rewrite (bind_throw _ _ _ _ _ Hassert).
  - unfold THPStorage_get_cdata, HANDLE_TH_ERRORS, THPStorage_Unpack.
    rewrite (bind_ok _ _ st None st); [done|].
    by rewrite (bind_ok _ _ st w st (deref_obj_ok _ _ _ Hw)), Hnull.
Qed.

(** X8: [_cdata] is the address of the resource the handle points to,
    owned or borrowed: when [THPStorage_tryPreserve] preserves a wrapper,
    turning its handle into a borrow, the wrapper reports the same [_cdata]
    afterwards as before. *)
Theorem cdata_survives_preservation st st' self w s :
  objects st !! self = Some w → cdata w = owned s → is_Some (storages st !! s) →
  THPStorage_tryPreserve self st = Ok true st' →
  THPStorage_get_cdata self st = Ok (Some (PyLong (address_of s))) st ∧
  THPStorage_get_cdata self st' = Ok (Some (PyLong (address_of s))) st'.
Proof.
  intros Hw Hc [i Hi] Hp. split.
  - unfold THPStorage_get_cdata, HANDLE_TH_ERRORS, THPStorage_Unpack.
    rewrite (bind_ok _ _ st (Some s) st); [done|].
    by rewrite (bind_ok _ _ st w st (deref_obj_ok _ _ _ Hw)), Hc.
  - rewrite (tryPreserve_eval st self w s i Hw Hc Hi) in Hp.
    destruct (_ && _); [|done]. destruct (owns_pyobj _); [done|].
    injection Hp as <-.
    unfold THPStorage_get_cdata, HANDLE_TH_ERRORS, THPStorage_Unpack.
    set (st' := preserved_state st self w s i).
    assert (objects st' !! self =
            Some (with_cdata (borrowed s) (with_refcnt (ob_refcnt w + 1) w))) as Hw'
      by (simpl; apply lookup_insert_eq).
    rewrite (bind_ok _ _ st' (Some s) st'); [done|].
    by rewrite (bind_ok _ _ st' _ st' (deref_obj_ok _ _ _ Hw')).
Qed.

End Identity.

(** * Rejected indices and values *)

(** X9: on a wrapper with a resource, an index that is neither an integer
    nor a slice makes [THPStorage_get] return null and [THPStorage_set]
    return -1 with [CannotIndexWith] and the index's type name; a value the
    byte macro does not accept makes [THPStorage_set] return -1 with
    [InvalidValueType] and the value's type name, whatever the index: the
    value is checked first.  Nothing is read or written. *)
Theorem unsupported_index_or_value st self s index value :
  resource_of st self = Some s →
  (THPUtils_checkLong index = false → PySlice_Check index = false →
     THPStorage_get self index st =
       Ok None (set_py_err
                  (Some (CannotIndexWith (THPUtils_typename (types st) (objects st) index)))
                  st)) ∧
  (THPByteUtils_checkReal value = false →
     THPStorage_set self index value st =
       Ok (-1) (set_py_err
                  (Some (InvalidValueType (THPUtils_typename (types st) (objects st) value)))
                  st)) ∧
  (THPByteUtils_checkReal value = true → is_Some (THPByteUtils_unpackReal value) →
   THPUtils_checkLong index = false → PySlice_Check index = false →
     THPStorage_set self index value st =
       Ok (-1) (set_py_err
                  (Some (CannotIndexWith (THPUtils_typename (types st) (objects st) index)))
                  st)).
Proof.
  intros Hres. split; [|split].
  - intros Hlong Hslice. unfold THPStorage_get, HANDLE_TH_ERRORS.
    rewrite (bind_ok _ _ st tt st (assertNotNull_ok _ _ _ Hres)).
    rewrite (bind_ok _ _ st s st (Unpack_nonnull_ok _ _ _ Hres)).
    destruct index; try done.
  - intros Hcheck. unfold THPStorage_set, HANDLE_TH_ERRORS.
    rewrite (bind_ok _ _ st tt st (assertNotNull_ok _ _ _ Hres)).
    by rewrite Hcheck.
  - intros Hcheck [v Hv] Hlong Hslice. unfold THPStorage_set, HANDLE_TH_ERRORS.
    rewrite (bind_ok _ _ st tt st (assertNotNull_ok _ _ _ Hres)).
    rewrite Hcheck. cbn [negb].
    rewrite (bind_ok _ _ st v st) by (unfold unpackReal_or_throw; by rewrite Hv).
    rewrite (bind_ok _ _ st s st (Unpack_nonnull_ok _ _ _ Hres)).
    destruct index; try done.
Qed.

Lemma slice_indices_step start stop step len :
  step ≠ 0 →
  ∃ start' stop' slicelength,
    PySlice_GetIndicesEx start stop (Some step) len =
      Some (start', stop', Z.max (- PY_SSIZE_T_MAX) (Z.min PY_SSIZE_T_MAX step),
            slicelength).
Proof.
  intros Hstep. unfold PySlice_GetIndicesEx, PySlice_Unpack. cbn [from_option].
  assert (_PyEval_SliceIndex step ≠ 0) as Hne
    by (unfold _PyEval_SliceIndex, PY_SSIZE_T_MIN, PY_SSIZE_T_MAX; lia).
  replace (_PyEval_SliceIndex step =? 0) with false by lia.
  assert ((if _PyEval_SliceIndex step <? - PY_SSIZE_T_MAX then - PY_SSIZE_T_MAX
           else _PyEval_SliceIndex step) =
          Z.max (- PY_SSIZE_T_MAX) (Z.min PY_SSIZE_T_MAX step)) as ->.
  { unfold _PyEval_SliceIndex, PY_SSIZE_T_MIN, PY_SSIZE_T_MAX.
    destruct (Z.ltb_spec (Z.max (- (2 ^ 63 - 1) - 1) (Z.min (2 ^ 63 - 1) step))
                         (- (2 ^ 63 - 1))); lia. }
  destruct (PySlice_AdjustIndices _ _ _ _) as [[start' stop'] n]. eauto.
Qed.

(** X10: [THPStorage_get] with a slice whose step is neither 0 nor 1
    returns null with [UnsupportedStep] carrying the step as the slice
    protocol unpacks it: the step itself when its magnitude is at most
    [PY_SSIZE_T_MAX], and [PY_SSIZE_T_MAX] or [-PY_SSIZE_T_MAX] beyond.  With
    step 0 it returns null with the error of the slice protocol.  This is
    so whatever the bounds; no resource is created and no count changes. *)
Theorem get_slice_rejects_step st self s i start stop step :
  resource_of st self = Some s → storages st !! s = Some i →
  let reported := Z.max (- PY_SSIZE_T_MAX) (Z.min PY_SSIZE_T_MAX step) in
  (step ≠ 0 → step ≠ 1 →
     THPStorage_get self (PySlice start stop (Some step)) st =
       Ok None (set_py_err (Some (UnsupportedStep reported)) st)) ∧
  (- PY_SSIZE_T_MAX ≤ step ≤ PY_SSIZE_T_MAX → reported = step) ∧
  (step = 0 →
     THPStorage_get self (PySlice start stop (Some step)) st =
       Ok None (set_py_err (Some SliceStepZero) st)).
Proof.
  intros Hres Hi reported.
  split; [|split].
  - intros H0 H1.
    destruct (slice_indices_step start stop step (wrap_int64 (nbytes i)) H0)
      as (start' & stop' & len & Hidx).
    unfold THPStorage_get, HANDLE_TH_ERRORS.
    rewrite (bind_ok _ _ st tt st (assertNotNull_ok _ _ _ Hres)).
    rewrite (bind_ok _ _ st s st (Unpack_nonnull_ok _ _ _ Hres)).
    rewrite (bind_ok _ _ st i st (deref_storage_ok _ _ _ Hi)).
    rewrite Hidx. fold reported.
    assert (reported ≠ 1) as Hr by (unfold reported, PY_SSIZE_T_MAX; lia).
    by replace (reported =? 1) with false by lia.
  - unfold reported. lia.
  - intros ->.
    unfold THPStorage_get, HANDLE_TH_ERRORS.
    rewrite (bind_ok _ _ st tt st (assertNotNull_ok _ _ _ Hres)).
    rewrite (bind_ok _ _ st s st (Unpack_nonnull_ok _ _ _ Hres)).
    by rewrite (bind_ok _ _ st i st (deref_storage_ok _ _ _ Hi)).
Qed.

(** * The device of a resource *)

Lemma device_eval st self s i :
  resource_of st self = Some s → storages st !! s = Some i →
  THPStorage_device self st = Ok (Some (device i)) st.
Proof.
  intros Hres Hi. unfold THPStorage_device, HANDLE_TH_ERRORS.
  rewrite (bind_ok _ _ st tt st (assertNotNull_ok _ _ _ Hres)).
  rewrite (bind_ok _ _ st s st (Unpack_nonnull_ok _ _ _ Hres)).
  by rewrite (bind_ok _ _ st i st (deref_storage_ok _ _ _ Hi)).
Qed.

(** X11: the wrapper [THPStorage_get] returns for a slice reports the
    device of the resource it was sliced from, and has the type of the
    wrapper it was sliced through. *)
Theorem slice_keeps_device_and_type st self w R i ty start stop stride :
  objects st !! self = Some w → unsafeGetStorageImpl (cdata w) = Some R →
  storages st !! R = Some i →
  types st !! ob_type w = Some ty →
  subtype_chain (size (types st)) (types st) (ob_type w) THPStorageType = true →
  nbytes i ≤ INT64_MAX →
  0 ≤ start ≤ stop ≤ nbytes i → default 1 stride = 1 →
  ∃ o wo st',
    THPStorage_get self (PySlice (Some start) (Some stop) stride) st =
      Ok (Some (PyStorage o)) st' ∧
    objects st' !! o = Some wo ∧ ob_type wo = ob_type w ∧ ob_refcnt wo = 1 ∧
    THPStorage_device o st' = Ok (Some (device i)) st' ∧
    THPStorage_device self st' = Ok (Some (device i)) st'.
Proof.
  intros Hw HR Hi Hty Hsub Hmax Hb Hstride.
  pose proof (get_slice_eval st self w R i ty start stop stride Hw HR Hi Hty Hsub
                Hmax Hb Hstride) as Heval.
  destruct (sliced_state_facts st w ty R i start (stop - start) Hi)
    as (Hne & (ni & Hn & _ & _ & _ & _ & _ & Hdev) & HR1 & _ & _ & Hobj & _).
  set (o := fresh (dom (objects st))) in *.
  set (n := fresh (dom (storages st))) in *.
  set (st' := sliced_state st w ty R i start (stop - start)) in *.
  assert (objects st !! o = None) as Hofresh by apply fresh_lookup_None.
  assert (self ≠ o) as Hself by congruence.
  exists o, (mkTHPStorage 1 (ob_type w) (tp_have_gc ty) 0 [] false (owned n) false), st'.
  split; [done|]. split; [rewrite Hobj; apply lookup_insert_eq|].
  split; [done|]. split; [done|]. split.
  - rewrite (device_eval st' o n ni); [by rewrite Hdev| |done].
    unfold resource_of. by rewrite Hobj, lookup_insert_eq.
  - rewrite (device_eval st' self R (with_use_count (use_count i + 1) i)); [done| |done].
    unfold resource_of. by rewrite Hobj, lookup_insert_ne, Hw.
Qed.

(** * Further properties of the wrap protocol *)

(** The status line 113 picks for a resource that has no wrapper. *)
Definition wrap_status (st : State) (i : StorageImpl) : PyInterpreterStatus :=
  match observed_pyobj st i with
  | Some _ => TAGGED_BY_US
  | None => if use_count i <=? 1 then DEFINITELY_UNINITIALIZED else MAYBE_UNINITIALIZED
  end.

(** Outside hermetic mode, a resource without a wrapper gets one of the
    class of line 31. *)
Lemma Wrap_fresh st s i ty :
  hermetic st = false → storages st !! s = Some i →
  (∀ obj, observed_pyobj st i ≠ Some (Some obj)) →
  types st !! THPStorageClass st = Some ty →
  subtype_chain (size (types st)) (types st) (THPStorageClass st) THPStorageType = true →
  THPStorage_Wrap s st =
    Ok (fresh (dom (objects st)))
       (wrapped_state st (THPStorageClass st) ty s i (wrap_status st i)).
Proof.
  intros Hh Hi Hnone Hty Hsub. unfold THPStorage_Wrap.
  change (Wrap_fuel 3) with (Wrap_body (NewWithStorage_fuel 2)).
  unfold Wrap_body.
  rewrite (bind_ok _ _ st st st) by done. rewrite Hh.
  rewrite (bind_ok _ _ st (observed_pyobj st i) st)
    by (by rewrite unwinding_check_pyobj, Hi).
  change (NewWithStorage_fuel 2) with (NewWithStorage_body (Wrap_fuel 1)).
  unfold wrap_status.
  destruct (observed_pyobj st i) as [[obj|]|] eqn:Hobs.
  - by destruct (Hnone obj).
  - apply NewWithStorage_body_fresh; try done. by rewrite Hobs.
  - rewrite (bind_ok _ _ st i st) by (apply unwinding_ok; by apply deref_storage_ok).
    apply NewWithStorage_body_fresh; try done. by rewrite Hobs.
Qed.

(** The wrapper in the slot is returned with one more host reference, and
    the reference passed in is dropped. *)
Lemma Wrap_existing_share st s i obj w :
  hermetic st = false → storages st !! s = Some i →
  pyobj_interpreter (pyobj_slot i) = true → pyobj (pyobj_slot i) = Some obj →
  owns_pyobj (pyobj_slot i) = false → 1 < use_count i →
  objects st !! obj = Some w →
  THPStorage_Wrap s st =
    Ok obj (set_storages <[s := with_use_count (use_count i - 1) i]>
              (set_objects <[obj := with_refcnt (ob_refcnt w + 1) w]> st)).
Proof.
  intros Hh Hi Htag Hobj Hown Hc Hw.
  assert (observed_pyobj st i = Some (Some obj)) as Hobs.
  { unfold observed_pyobj. by rewrite Htag, Hh, Hobj. }
  unfold THPStorage_Wrap. rewrite (Wrap_fuel_existing _ _ _ _ _ Hh Hi Hobs), Hown.
  rewrite (bind_ok _ _ _ _ _ (Py_INCREF_ok _ _ _ Hw)).
  set (st1 := set_objects _ st).
  by rewrite (bind_ok _ _ _ _ _ (intrusive_ptr_decref_shared st1 s i Hi Hc)).
Qed.

(** The wrapper the slot owns takes the reference passed in. *)
Lemma Wrap_existing_flip st s i obj w :
  hermetic st = false → storages st !! s = Some i →
  pyobj_interpreter (pyobj_slot i) = true → pyobj (pyobj_slot i) = Some obj →
  owns_pyobj (pyobj_slot i) = true →
  objects st !! obj = Some w → unsafeIsBorrowed (cdata w) = true →
  THPStorage_Wrap s st =
    Ok obj (set_objects <[obj := with_cdata (owned s) w]>
              (set_storages <[s := with_slot (mkSlot true (Some obj) false) i]> st)).
Proof.
  intros Hh Hi Htag Hobj Hown Hw Hb.
  assert (observed_pyobj st i = Some (Some obj)) as Hobs.
  { unfold observed_pyobj. by rewrite Htag, Hh, Hobj. }
  unfold THPStorage_Wrap. rewrite (Wrap_fuel_existing _ _ _ _ _ Hh Hi Hobs), Hown.
  rewrite (bind_ok _ _ _ _ _ (set_owns_pyobj_ok _ _ _ false Hi)).
  rewrite Htag, Hobj. set (st1 := set_storages _ st).
  assert (objects st1 !! obj = Some w) as Hw1 by done.
  by rewrite (bind_ok _ _ _ _ _ (assign_cdata_over_borrowed st1 obj w _ Hw1 Hb)).
Qed.

(** X12: outside hermetic mode, wrapping a resource that has no wrapper
    allocates one of the class [THPStorageClass], with one host reference and
    an owned handle, and records it in the slot; wrapping the resource again
    returns that same wrapper, now with two host references, allocates
    nothing and drops the reference it was passed. *)
Theorem wrap_twice_same_wrapper st s i ty :
  hermetic st = false → storages st !! s = Some i →
  pyobj (pyobj_slot i) = None → owns_pyobj (pyobj_slot i) = false →
  1 < use_count i →
  types st !! THPStorageClass st = Some ty →
  subtype_chain (size (types st)) (types st) (THPStorageClass st) THPStorageType = true →
  ∃ o w st1 st2,
    THPStorage_Wrap s st = Ok o st1 ∧ THPStorage_Wrap s st1 = Ok o st2 ∧
    objects st !! o = None ∧
    objects st1 = <[o := w]> (objects st) ∧
    ob_type w = THPStorageClass st ∧ ob_refcnt w = 1 ∧ cdata w = owned s ∧
    (∃ i1, storages st1 = <[s := i1]> (storages st) ∧
           pyobj (pyobj_slot i1) = Some o ∧ use_count i1 = use_count i ∧
           storages st2 = <[s := with_use_count (use_count i - 1) i1]> (storages st)) ∧
    objects st2 = <[o := with_refcnt 2 w]> (objects st).
Proof.
  intros Hh Hi Hnone Hown Hc Hty Hsub.
  assert (∀ obj, observed_pyobj st i ≠ Some (Some obj)) as Hobs.
  { intros obj. unfold observed_pyobj.
    destruct (pyobj_interpreter (pyobj_slot i)), (hermetic st); congruence. }
  pose proof (Wrap_fresh st s i ty Hh Hi Hobs Hty Hsub) as Hfirst.
  set (o := fresh (dom (objects st))) in *.
  set (w := mkTHPStorage 1 (THPStorageClass st) (tp_have_gc ty) 0 [] false (owned s) false).
  set (i1 := with_slot (registered_slot (wrap_status st i) (pyobj_slot i) o) i).
  set (st1 := wrapped_state st (THPStorageClass st) ty s i (wrap_status st i)) in *.
  assert (storages st1 = <[s := i1]> (storages st)) as HS1.
  { unfold st1, wrapped_state. by rewrite Hh. }
  assert (objects st1 = <[o := w]> (objects st)) as HO1.
  { unfold st1, wrapped_state. by rewrite Hh. }
  assert (hermetic st1 = false) as Hh1.
  { unfold st1, wrapped_state. by rewrite Hh. }
  assert (pyobj_interpreter (pyobj_slot i1) = true) as Htag1.
  { unfold i1, registered_slot, wrap_status, observed_pyobj. simpl. rewrite Hh.
    by destruct (pyobj_interpreter (pyobj_slot i)), (use_count i <=? 1). }
  assert (storages st1 !! s = Some i1) as Hi1 by (rewrite HS1; apply lookup_insert_eq).
  assert (objects st1 !! o = Some w) as Hw1 by (rewrite HO1; apply lookup_insert_eq).
  pose proof (Wrap_existing_share st1 s i1 o w Hh1 Hi1 Htag1 eq_refl Hown Hc Hw1)
    as Hsecond.
  eexists o, w, st1, _. split; [done|]. split; [exact Hsecond|].
  split; [apply fresh_lookup_None|]. split; [done|].
  split; [done|]. split; [done|]. split; [done|]. split.
  - exists i1. split; [done|]. split; [done|]. split; [done|].
    simpl. by rewrite HS1, insert_insert_eq.
  - simpl. by rewrite HO1, insert_insert_eq.
Qed.

(** X13: outside hermetic mode, the host drops its last reference to a
    wrapper of a heap type (one whose [tp_dealloc] is
    [THPStorage_subclass_dealloc]) while native code still holds the
    resource: no teardown step runs, the wrapper stays in the slot, which
    now owns it, and its handle borrows.  The next wrap of the resource
    returns that same wrapper, with one host reference and an owned handle
    again: the heap is as it was before the drop, but for the count of the
    resource, one lower (the reference that was passed to wrap is now the
    wrapper's). *)
Theorem drop_then_wrap_restores st self w ty s i :
  hermetic st = false →
  objects st !! self = Some w → ob_refcnt w = 1 → cdata w = owned s →
  types st !! ob_type w = Some ty → tp_heaptype ty = true →
  storages st !! s = Some i → pyobj_slot i = mkSlot true (Some self) false →
  1 < use_count i →
  ∃ st1 w1 i1,
    Py_DECREF self st = Ok tt st1 ∧
    events st1 = events st ∧
    objects st1 !! self = Some w1 ∧ ob_refcnt w1 = 1 ∧ cdata w1 = borrowed s ∧
    storages st1 !! s = Some i1 ∧ owns_pyobj (pyobj_slot i1) = true ∧
    use_count i1 = use_count i - 1 ∧
    THPStorage_Wrap s st1 =
      Ok self (set_storages <[s := with_use_count (use_count i - 1) i]> st).
Proof.
  intros Hh Hw Hr Hc Hty Hheap Hi Hslot Hcount.
  set (w0 := with_refcnt (ob_refcnt w - 1) w).
  set (st0 := set_objects <[self := w0]> st).
  assert (objects st0 !! self = Some w0) as Hw0 by (simpl; apply lookup_insert_eq).
  assert (storages st0 !! s = Some i) as Hi0 by done.
  set (st1 := preserved_state st0 self w0 s i).
  assert (THPStorage_tryPreserve self st0 = Ok true st1) as Hp.
  { rewrite (tryPreserve_eval st0 self w0 s i Hw0 Hc Hi0).
    unfold observed_pyobj. simpl. rewrite Hh, Hslot. simpl.
    rewrite bool_decide_eq_true_2 by done.
    by replace (1 <? use_count i) with true by lia. }
  assert (Py_DECREF self st = Ok tt st1) as Hdrop.
  { unfold Py_DECREF.
    rewrite (bind_ok _ _ st w st (deref_obj_ok _ _ _ Hw)), bind_modify.
    fold w0. fold st0. rewrite Hr. simpl.
    assert (types st0 !! ob_type w = Some ty) as Hty0 by done.
    rewrite (bind_ok _ _ _ _ _ (deref_type_ok _ _ _ Hty0)), Hheap.
    unfold THPStorage_subclass_dealloc. by rewrite (bind_ok _ _ _ _ _ Hp). }
  set (w1 := with_cdata (borrowed s) (with_refcnt (ob_refcnt w0 + 1) w0)).
  set (i1 := with_use_count (use_count i - 1)
               (with_slot (mkSlot (pyobj_interpreter (pyobj_slot i))
                                  (pyobj (pyobj_slot i)) true) i)).
  assert (objects st1 !! self = Some w1) as Hw1 by (simpl; apply lookup_insert_eq).
  assert (storages st1 !! s = Some i1) as Hi1 by (simpl; apply lookup_insert_eq).
  exists st1, w1, i1.
  split; [done|]. split; [done|]. split; [done|].
  split; [simpl; lia|]. split; [done|]. split; [done|]. split; [done|].
  split; [done|].
  rewrite (Wrap_existing_flip st1 s i1 self w1); try done.
  2,3: by (unfold i1; simpl; rewrite Hslot).
  f_equal. unfold st1, preserved_state, st0, set_objects, set_storages. simpl.
  rewrite !insert_insert_eq.
  assert (with_cdata (owned s) w1 = w) as ->.
  { unfold w1, w0. destruct w. simpl in *. subst. done. }
  assert (with_slot (mkSlot true (Some self) false) i1 =
          with_use_count (use_count i - 1) i) as ->.
  { unfold i1. destruct i. simpl in *. subst. done. }
  rewrite (insert_id (objects st) self w Hw). done.
Qed.

(** X14: [THPStorage_NewWithStorage] with a type that does not derive from
    the Storage base type fails with [NotAStorageSubclass] before it looks
    at the slot or allocates anything; the reference it was passed by value
    is released on the way out: one count less on a shared resource. *)
Theorem new_with_storage_rejects_type st type s status allow :
  subtype_chain (size (types st)) (types st) type THPStorageType = false →
  ∃ st',
    intrusive_ptr_decref s st = Ok tt st' ∧
    THPStorage_NewWithStorage type s status allow st =
      Throw (c10_Error NotAStorageSubclass) st' ∧
    objects st' = objects st ∧
    (∀ i, storages st !! s = Some i → 1 < use_count i →
          storages st' = <[s := with_use_count (use_count i - 1) i]> (storages st) ∧
          buffers st' = buffers st).
Proof.
  intros Hsub.
  destruct (intrusive_ptr_decref_total s st) as (st' & Hdec & Hframe).
  exists st'. split; [done|]. split; [|split].
  - unfold THPStorage_NewWithStorage.
    change (NewWithStorage_fuel 3) with (NewWithStorage_body (Wrap_fuel 2)).
    unfold NewWithStorage_body.
    rewrite (bind_throw _ _ st (c10_Error NotAStorageSubclass) st'); [done|].
    rewrite NewWithStorage_entry, Hsub. unfold unwinding, throw. by rewrite Hdec.
  - by destruct Hframe.
  - intros i Hi Hc. rewrite (intrusive_ptr_decref_shared st s i Hi Hc) in Hdec.
    by injection Hdec as <-.
Qed.

(** * A teardown that runs to its end *)

Lemma subtype_chain_mono tys b fuel : ∀ a,
  subtype_chain fuel tys a b = true → subtype_chain (S fuel) tys a b = true.
Proof.
  induction fuel as [|fuel IH]; intros a H.
  - simpl in *. destruct (bool_decide (a = b)); [done|]. done.
  - change (bool_decide (a = b) ||
            match tys !! a with
            | Some ty => match tp_base ty with
                         | Some a' => subtype_chain (S fuel) tys a' b
                         | None => false
                         end
            | None => false
            end = true).
    simpl in H. destruct (bool_decide (a = b)); [done|]. simpl in *.
    destruct (tys !! a) as [ty|]; [|done]. destruct (tp_base ty) as [a'|]; [|done].
    by apply IH.
Qed.

(** The chain of bases does not read the reference count of a type. *)
Lemma subtype_chain_refcnt tys t ty r b fuel : ∀ a,
  tys !! t = Some ty →
  subtype_chain fuel (<[t := with_tp_refcnt r ty]> tys) a b = subtype_chain fuel tys a b.
Proof.
  induction fuel as [|fuel IH]; intros a Ht; [done|].
  simpl. f_equal. destruct (decide (a = t)) as [->|Hne].
  - rewrite lookup_insert_eq, Ht. simpl. destruct (tp_base ty); [by apply IH|done].
  - rewrite lookup_insert_ne by done.
    destruct (tys !! a) as [ty'|]; [|done]. destruct (tp_base ty'); [by apply IH|done].
Qed.

(** What steps 1 to 7 of the teardown of [self] leave as it was when no
    hook runs: everything but the log and fields of [self] other than its
    type and its handle. *)
Definition tears (st0 : State) (self : ObjId) (w0 : THPStorage) (st : State) : Prop :=
  storages st = storages st0 ∧ buffers st = buffers st0 ∧ types st = types st0 ∧
  hermetic st = hermetic st0 ∧ THPStorageClass st = THPStorageClass st0 ∧
  py_err st = py_err st0 ∧
  (∀ o', o' ≠ self → objects st !! o' = objects st0 !! o') ∧
  ∃ w, objects st !! self = Some w ∧ cdata w = cdata w0 ∧ ob_type w = ob_type w0.

Lemma tears_refl st self w : objects st !! self = Some w → tears st self w st.
Proof. intros Hw. repeat split; eauto. Qed.

Lemma tears_update st0 self w0 st w w' :
  tears st0 self w0 st → objects st !! self = Some w →
  cdata w' = cdata w → ob_type w' = ob_type w →
  tears st0 self w0 (set_objects <[self := w']> st).
Proof.
  intros (HS & HB & HT & Hh & Hcl & He & Ho & w1 & Hw1 & Hc1 & Ht1) Hw Hc Ht.
  assert (w1 = w) as -> by congruence.
  repeat split; try done.
  - intros o' Hne. simpl. rewrite lookup_insert_ne by done. by apply Ho.
  - exists w'. simpl. rewrite lookup_insert_eq. repeat split; congruence.
Qed.

(** A computation that returns and stays within [J]. *)
Definition runs (J : State → Prop) {A} (m : M A) : Prop :=
  ∀ st, J st → ∃ a st', m st = Ok a st' ∧ J st'.

Lemma runs_bind J {A B} (m : M A) (k : A → M B) :
  runs J m → (∀ a, runs J (k a)) → runs J (m ≫= k).
Proof.
  intros Hm Hk st HJ. destruct (Hm st HJ) as (a & st1 & Hst1 & HJ1).
  destruct (Hk a st1 HJ1) as (b & st2 & Hst2 & HJ2).
  exists b, st2. by rewrite (bind_ok _ _ _ _ _ Hst1).
Qed.

Lemma runs_mret J {A} (a : A) : runs J (mret a).
Proof. intros st HJ. by exists a, st. Qed.

Lemma runs_if J {A} (b : bool) (m1 m2 : M A) :
  runs J m1 → runs J m2 → runs J (if b then m1 else m2).
Proof. by destruct b. Qed.

Lemma runs_update st0 self w0 (f : THPStorage → THPStorage) ev :
  (∀ w, cdata (f w) = cdata w ∧ ob_type (f w) = ob_type w) →
  runs (tears st0 self w0)
       (w ← deref_obj self;
        modify (set_objects <[self := f w]>);;
        modify (log_event ev)).
Proof.
  intros Hf st HJ.
  pose proof HJ as (_ & _ & _ & _ & _ & _ & _ & w & Hw & _).
  exists tt. eexists. split.
  { rewrite (bind_ok _ _ st w st (deref_obj_ok _ _ _ Hw)). by rewrite !bind_modify. }
  destruct (Hf w) as [Hc Ht].
  by apply (tears_update st0 self w0 st w (f w)) in HJ.
Qed.

Lemma runs_clear_slots_loop st0 self w0 fuel : ∀ base,
  subtype_chain fuel (types st0) base THPStorageType = true →
  runs (tears st0 self w0) (clear_slots_loop fuel base self).
Proof.
  induction fuel as [|fuel IH]; intros base Hsub st HJ.
  - simpl in *. destruct (bool_decide (base = THPStorageType)); [|done].
    by exists tt, st.
  - simpl in *. destruct (bool_decide (base = THPStorageType)); [by exists tt, st|].
    simpl in Hsub.
    destruct (types st0 !! base) as [ty|] eqn:Hty; [|done].
    destruct (tp_base ty) as [base'|] eqn:Hbase; [|done].
    assert (types st !! base = Some ty) as Hty'.
    { destruct HJ as (_ & _ & -> & _). done. }
    rewrite (bind_ok _ _ st ty st (deref_type_ok _ _ _ Hty')).
    assert (runs (tears st0 self w0)
                 (if tp_size ty =? 0 then mret tt else clear_slots base self)) as Hstep.
    { apply runs_if; [apply runs_mret|].
      apply (runs_update _ _ _ (λ w, with_cleared (cleared_slots w ++ [base]) w)).
      done. }
    destruct (Hstep st HJ) as ([] & st1 & Hst1 & HJ1).
    rewrite (bind_ok _ _ _ _ _ Hst1), Hbase. by apply IH.
Qed.

Lemma runs_clear_dict st0 self w0 ty :
  runs (tears st0 self w0) (clear_dict ty self).
Proof.
  unfold clear_dict. apply runs_if; [apply runs_mret|]. intros st HJ.
  pose proof HJ as (_ & _ & _ & _ & _ & _ & _ & w & Hw & _).
  rewrite (bind_ok _ _ st w st (deref_obj_ok _ _ _ Hw)).
  destruct (ob_dict w); [|by exists tt, st].
  exists tt. eexists. split; [by rewrite bind_modify|].
  by apply (tears_update st0 self w0 st w (with_dict false w)) in HJ.
Qed.

(** Releasing a reference reads and writes the storages and the buffers
    only. *)
Lemma decref_chain_congr fuel : ∀ s st1 st2,
  storages st1 = storages st2 → buffers st1 = buffers st2 →
  match decref_chain fuel s st1, decref_chain fuel s st2 with
  | Some st1', Some st2' => storages st1' = storages st2' ∧ buffers st1' = buffers st2'
  | None, None => True
  | _, _ => False
  end.
Proof.
  induction fuel as [|fuel IH]; intros s st1 st2 HS HB; [done|].
  simpl. rewrite HS. destruct (storages st2 !! s) as [i|]; [|done].
  destruct (1 <? use_count i).
  - simpl. by rewrite HS.
  - destruct (dp_context (data_ptr i)) as [parent|].
    + apply IH; simpl; congruence.
    + simpl. by rewrite HS, HB.
Qed.

Lemma intrusive_ptr_decref_congr s st1 st2 st1' :
  storages st1 = storages st2 → buffers st1 = buffers st2 →
  intrusive_ptr_decref s st1 = Ok tt st1' →
  ∃ st2', intrusive_ptr_decref s st2 = Ok tt st2' ∧
          storages st2' = storages st1' ∧ buffers st2' = buffers st1' ∧
          host_side_unchanged st2 st2'.
Proof.
  intros HS HB H1.
  destruct (intrusive_ptr_decref_total s st2) as (st2' & H2 & Hframe).
  exists st2'. split; [done|].
  unfold intrusive_ptr_decref in *.
  pose proof (decref_chain_congr (S (size (storages st1))) s st1 st2 HS HB) as Hc.
  rewrite <- HS in H2.
  destruct (decref_chain _ s st1) as [a|]; [|done].
  destruct (decref_chain _ s st2) as [b|]; [|done].
  injection H1 as <-. injection H2 as <-. destruct Hc as [Hc1 Hc2].
  split; [done|]. split; [done|]. done.
Qed.

Lemma teardown_finalize_plain st0 self w0 ty st :
  tp_finalize ty = false → tears st0 self w0 st →
  ∃ st', teardown_finalize ty self st = Ok false st' ∧ tears st0 self w0 st'.
Proof.
  intros Hfin HJ. unfold teardown_finalize. rewrite Hfin.
  assert (runs (tears st0 self w0)
               (if tp_have_gc ty then PyObject_GC_UnTrack self else mret tt)) as Hstep.
  { apply runs_if; [|apply runs_mret].
    by apply (runs_update _ _ _ (with_tracked false)). }
  destruct (Hstep st HJ) as ([] & st' & Hst' & HJ').
  exists st'. by rewrite (bind_ok _ _ _ _ _ Hst').
Qed.

Lemma teardown_del_plain st0 self w0 ty st :
  tp_del ty = false → tears st0 self w0 st →
  ∃ st', teardown_del ty self st = Ok false st' ∧ tears st0 self w0 st'.
Proof.
  intros Hdel HJ. unfold teardown_del. rewrite Hdel.
  assert (runs (tears st0 self w0)
               (if tp_weaklistoffset ty =? 0 then mret tt
                else PyObject_ClearWeakRefs self)) as Hstep.
  { apply runs_if; [apply runs_mret|].
    by apply (runs_update _ _ _ (with_weakrefs 0)). }
  destruct (Hstep st HJ) as ([] & st' & Hst' & HJ').
  exists st'. by rewrite (bind_ok _ _ _ _ _ Hst').
Qed.

(** Steps 5 to 9 for a type without hooks: the handle's reference is
    released, the object freed, the type's count taken down. *)
Lemma teardown_rest_plain st0 self w0 s ty st st_rel :
  tp_finalize ty = false → tp_del ty = false → tp_heaptype ty = true →
  types st0 !! ob_type w0 = Some ty → cdata w0 = owned s →
  subtype_chain (size (types st0)) (types st0) (ob_type w0) THPStorageType = true →
  intrusive_ptr_decref s st0 = Ok tt st_rel →
  tears st0 self w0 st →
  ∃ st', teardown_rest (ob_type w0) ty self st = Ok tt st' ∧
         objects st' = delete self (objects st0) ∧
         storages st' = storages st_rel ∧ buffers st' = buffers st_rel ∧
         types st' =
           <[ob_type w0 := with_tp_refcnt (tp_refcnt ty - 1) ty]> (types st0) ∧
         py_err st' = py_err st0 ∧ hermetic st' = hermetic st0 ∧
         THPStorageClass st' = THPStorageClass st0.
Proof.
  intros Hfin Hdel Hheap Hty Hc Hsub Hrel HJ. unfold teardown_rest.
  rewrite Hfin, Hdel. cbn [orb andb].
  rewrite (bind_ok _ _ st tt st) by done.
  rewrite (bind_ok _ _ st st st) by done.
  assert (types st = types st0) as HT by (by destruct HJ as (_ & _ & -> & _)).
  destruct (runs_clear_slots_loop st0 self w0 (S (size (types st))) (ob_type w0)
              ltac:(rewrite HT; by apply subtype_chain_mono) st HJ)
    as ([] & st1 & Hst1 & HJ1).
  rewrite (bind_ok _ _ _ _ _ Hst1).
  destruct (runs_clear_dict st0 self w0 ty st1 HJ1) as ([] & st2 & Hst2 & HJ2).
  rewrite (bind_ok _ _ _ _ _ Hst2).
  destruct HJ2 as (HS & HB & HT2 & Hh & Hcl & He & Ho & w2 & Hw2 & Hc2 & Ht2).
  rewrite (bind_ok _ _ st2 (ob_type w0) st2).
  2:{ unfold Py_TYPE. by rewrite (bind_ok _ _ st2 w2 st2 (deref_obj_ok _ _ _ Hw2)), Ht2. }
  rewrite bool_decide_eq_true_2 by done.
  rewrite (bind_ok _ _ st2 tt st2) by done.
  set (st3 := log_event (EvDestroyHandle self) st2).
  destruct (intrusive_ptr_decref_congr s st0 st3 st_rel) as (st4 & Hdec & HS4 & HB4 & Hf4);
    [by rewrite <- HS|by rewrite <- HB|done|].
  rewrite (bind_ok _ _ st2 tt st4).
  2:{ unfold destroy_cdata.
      rewrite (bind_ok _ _ st2 w2 st2 (deref_obj_ok _ _ _ Hw2)), bind_modify.
      by rewrite Hc2, Hc. }
  destruct Hf4 as (HO4 & HT4 & Hcl4 & Hh4 & He4 & _).
  unfold tp_free. rewrite bind_assoc_at, !bind_modify.
  rewrite Hheap. rewrite (bind_ok _ _ _ tt _) by done. rewrite bind_modify.
  set (st5 := log_event _ (log_event _ (set_objects (delete self) st4))).
  assert (types st5 !! ob_type w0 = Some ty) as Hty5.
  { simpl. rewrite HT4. simpl. by rewrite HT2. }
  unfold Py_DECREF_type.
  rewrite (bind_ok _ _ st5 ty st5 (deref_type_ok _ _ _ Hty5)).
  eexists. split; [done|]. simpl.
  split.
  { rewrite HO4. simpl. apply map_eq. intros o'.
    destruct (decide (o' = self)) as [->|Hne].
    - by rewrite !lookup_delete_eq.
    - rewrite !lookup_delete_ne by done. by apply Ho. }
  split; [done|]. split; [done|].
  split; [rewrite HT4; simpl; by rewrite HT2|].
  split; [rewrite He4; simpl; done|].
  split; [rewrite Hh4; simpl; done|].
  rewrite Hcl4. simpl. done.
Qed.

Lemma Py_DECREF_teardown_eval st self w s i ty :
  objects st !! self = Some w → ob_refcnt w = 1 → cdata w = owned s →
  storages st !! s = Some i →
  (use_count i ≤ 1 ∨ observed_pyobj st i ≠ Some (Some self)) →
  types st !! ob_type w = Some ty →
  tp_finalize ty = false → tp_del ty = false → tp_heaptype ty = true →
  subtype_chain (size (types st)) (types st) (ob_type w) THPStorageType = true →
  ∃ st_rel st',
    intrusive_ptr_decref s st = Ok tt st_rel ∧
    Py_DECREF self st = Ok tt st' ∧
    objects st' = delete self (objects st) ∧
    storages st' = storages st_rel ∧ buffers st' = buffers st_rel ∧
    types st' = <[ob_type w := with_tp_refcnt (tp_refcnt ty - 1) ty]> (types st) ∧
    py_err st' = py_err st ∧ hermetic st' = hermetic st ∧
    THPStorageClass st' = THPStorageClass st.
Proof.
  intros Hw Hr Hc Hi Hnot Hty Hfin Hdel Hheap Hsub.
  destruct (intrusive_ptr_decref_total s st) as (st_rel & Hrel & _).
  set (w0 := with_refcnt (ob_refcnt w - 1) w).
  set (st0 := set_objects <[self := w0]> st).
  assert (objects st0 !! self = Some w0) as Hw0 by (simpl; apply lookup_insert_eq).
  assert (storages st0 !! s = Some i) as Hi0 by done.
  assert (THPStorage_tryPreserve self st0 = Ok false st0) as Hp.
  { rewrite (tryPreserve_eval st0 self w0 s i Hw0 Hc Hi0).
    assert (observed_pyobj st0 i = observed_pyobj st i) as -> by done.
    destruct Hnot as [Hle|Hne].
    - replace (1 <? use_count i) with false by lia. by rewrite andb_false_r.
    - by rewrite bool_decide_eq_false_2. }
  destruct (intrusive_ptr_decref_congr s st st0 st_rel eq_refl eq_refl Hrel)
    as (st_rel0 & Hrel0 & HS0 & HB0 & _).
  destruct (teardown_finalize_plain st0 self w0 ty st0 Hfin (tears_refl _ _ _ Hw0))
    as (st1 & Hst1 & HJ1).
  destruct (teardown_del_plain st0 self w0 ty st1 Hdel HJ1) as (st2 & Hst2 & HJ2).
  destruct (teardown_rest_plain st0 self w0 s ty st2 st_rel0 Hfin Hdel Hheap Hty Hc Hsub
              Hrel0 HJ2)
    as (st' & Hst' & HO & HS & HB & HT & He & Hh & Hcl).
  exists st_rel, st'. split; [done|]. split.
  { unfold Py_DECREF.
    rewrite (bind_ok _ _ st w st (deref_obj_ok _ _ _ Hw)), bind_modify.
    fold w0. fold st0. replace (ob_refcnt w - 1 =? 0) with true by lia.
    assert (types st0 !! ob_type w0 = Some ty) as Hty0 by done.
    rewrite (bind_ok _ _ st0 ty st0 (deref_type_ok _ _ _ Hty0)), Hheap.
    unfold THPStorage_subclass_dealloc.
    rewrite (bind_ok _ _ _ _ _ Hp). cbv beta iota.
    rewrite (bind_ok _ _ st0 (ob_type w0) st0).
    2:{ unfold Py_TYPE. by rewrite (bind_ok _ _ st0 w0 st0 (deref_obj_ok _ _ _ Hw0)). }
    rewrite (bind_ok _ _ st0 ty st0 (deref_type_ok _ _ _ Hty0)).
    rewrite (bind_ok _ _ _ _ _ Hst1). cbv beta iota.
    rewrite (bind_ok _ _ _ _ _ Hst2). cbv beta iota.
    exact Hst'. }
  split.
  { rewrite HO. simpl. by rewrite delete_insert_eq. }
  split; [congruence|]. split; [congruence|]. done.
Qed.

(** X17: the host drops the last reference to a wrapper that cannot be
    preserved (its resource has no other reference, or the slot does not
    record this wrapper), of a heap type without finalizer and [tp_del]
    that derives from the Storage base: the teardown runs to its end.  The
    wrapper is freed, the reference its handle held is released (exactly as
    [intrusive_ptr::decref] on the resource does), and the type loses one
    reference; no other wrapper changes and no error is set. *)
Theorem teardown_releases st self w s i ty :
  objects st !! self = Some w → ob_refcnt w = 1 → cdata w = owned s →
  storages st !! s = Some i →
  (use_count i ≤ 1 ∨ observed_pyobj st i ≠ Some (Some self)) →
  types st !! ob_type w = Some ty →
  tp_finalize ty = false → tp_del ty = false → tp_heaptype ty = true →
  subtype_chain (size (types st)) (types st) (ob_type w) THPStorageType = true →
  ∃ st_rel st',
    intrusive_ptr_decref s st = Ok tt st_rel ∧
    Py_DECREF self st = Ok tt st' ∧
    objects st' = delete self (objects st) ∧
    storages st' = storages st_rel ∧ buffers st' = buffers st_rel ∧
    types st' = <[ob_type w := with_tp_refcnt (tp_refcnt ty - 1) ty]> (types st) ∧
    py_err st' = py_err st ∧ hermetic st' = hermetic st ∧
    THPStorageClass st' = THPStorageClass st.
Proof. apply Py_DECREF_teardown_eval. Qed.

Lemma with_tp_refcnt_back ty : with_tp_refcnt (tp_refcnt ty + 1 - 1) (with_tp_refcnt (tp_refcnt ty + 1) ty) = ty.
Proof. destruct ty. unfold with_tp_refcnt. simpl. f_equal. lia. Qed.

Lemma with_use_count_back i : with_use_count (use_count i + 1 - 1) (with_use_count (use_count i + 1) i) = i.
Proof. destruct i. unfold with_use_count. simpl. f_equal. lia. Qed.

(** X18: a storage is constructed ([torch.Storage()] or
    [torch.Storage(size)]) with a heap type without finalizer and [tp_del],
    and the host drops the only reference to it: the teardown frees the
    wrapper, destroys the resource and frees its bytes, and gives the type
    its reference back.  Resources, wrappers, buffers and types are as they
    were before the construction: nothing leaks. *)
Theorem construct_then_drop st type ty ov n allocator_opt device_opt a :
  type ≠ THPStorageType →
  types st !! type = Some ty →
  subtype_chain (size (types st)) (types st) type THPStorageType = true →
  tp_finalize ty = false → tp_del ty = false → tp_heaptype ty = true →
  (allocator_opt = None ∨ device_opt = None) →
  resolve_allocator allocator_opt device_opt = Some a →
  requested_size ov = Some n → 0 ≤ n →
  ∃ o st1 st2,
    THPStorage_pynew type ov allocator_opt device_opt st = Ok (Some o) st1 ∧
    objects st !! o = None ∧ is_Some (objects st1 !! o) ∧
    Py_DECREF o st1 = Ok tt st2 ∧
    storages st2 = storages st ∧ objects st2 = objects st ∧
    buffers st2 = buffers st ∧ types st2 = types st ∧
    py_err st2 = py_err st.
Proof.
  intros Hbase Hty Hsub Hfin Hdel Hheap Hone Hres Hsize Hn.
  set (g := device_guard allocator_opt device_opt).
  destruct (constructed_state_facts st type ty n a g)
    as ((i & Hi & Hcount & Hnb & Hrs & Hdp & Hal & _) & Hothers & Hbuf & Hobj & Htys &
        _ & Herr & _).
  set (o := fresh (dom (objects st))) in *.
  set (s := fresh (dom (storages st))) in *.
  set (b := fresh (dom (buffers st))) in *.
  set (st1 := constructed_state st type ty n a g) in *.
  set (w1 := mkTHPStorage 1 type (tp_have_gc ty) 0 [] false (owned s) false) in *.
  set (ty1 := with_tp_refcnt (tp_refcnt ty + 1) ty) in *.
  assert (objects st1 !! o = Some w1) as Ho by (rewrite Hobj; apply lookup_insert_eq).
  assert (types st1 !! type = Some ty1) as Hty1 by (rewrite Htys; apply lookup_insert_eq).
  assert (subtype_chain (size (types st1)) (types st1) type THPStorageType = true)
    as Hsub1.
  { rewrite Htys, map_size_insert_Some by eauto.
    by rewrite (subtype_chain_refcnt (types st) type ty (tp_refcnt ty + 1) THPStorageType
                  (size (types st)) type Hty). }
  destruct (Py_DECREF_teardown_eval st1 o w1 s i ty1 Ho eq_refl eq_refl Hi ltac:(left; lia)
              Hty1 Hfin Hdel Hheap Hsub1)
    as (st_rel & st2 & Hrel & Hdrop & HO2 & HS2 & HB2 & HT2 & He2 & _).
  assert (storages st_rel = delete s (storages st1) ∧
          buffers st_rel = delete b (buffers st1)) as [HSrel HBrel].
  { unfold intrusive_ptr_decref in Hrel. cbn [decref_chain] in Hrel.
    rewrite Hi in Hrel. replace (1 <? use_count i) with false in Hrel by lia.
    rewrite Hdp in Hrel. simpl in Hrel. by injection Hrel as <-. }
  exists o, st1, st2. split.
  { unfold THPStorage_pynew, HANDLE_TH_ERRORS.
    rewrite (pynew_arguments_ok st type allocator_opt device_opt a _ Hbase Hone Hres).
    destruct ov as [|n'|]; simpl in Hsize;
      [injection Hsize as <-|injection Hsize as ->|done].
    - by rewrite (construct_eval st type ty 0 a g _ Hty Hsub).
    - by rewrite (construct_eval st type ty n a g _ Hty Hsub). }
  split; [apply fresh_lookup_None|]. split; [eauto|]. split; [done|].
  split.
  { rewrite HS2, HSrel. apply map_eq. intros s'.
    destruct (decide (s' = s)) as [->|Hne].
    - rewrite lookup_delete_eq. symmetry. apply fresh_lookup_None.
    - rewrite lookup_delete_ne by done. by apply Hothers. }
  split.
  { rewrite HO2, Hobj. apply delete_insert_id, fresh_lookup_None. }
  split.
  { rewrite HB2, HBrel, Hbuf. apply delete_insert_id, fresh_lookup_None. }
  split.
  { rewrite HT2, Htys. simpl. rewrite insert_insert_eq.
    unfold ty1. rewrite with_tp_refcnt_back. by apply insert_id. }
  congruence.
Qed.

(** X19: a slice is taken of a resource that has a reference, through a
    wrapper of a heap type without finalizer and [tp_del], and the host
    drops the only reference to the slice's wrapper: the wrapper and the
    slice are destroyed, the parent gets back the count it had, and no byte
    is freed.  Resources, wrappers, buffers and types are as they were
    before the slice was taken. *)
Theorem slice_then_drop st self w R i ty start stop stride :
  objects st !! self = Some w → unsafeGetStorageImpl (cdata w) = Some R →
  storages st !! R = Some i → 1 ≤ use_count i →
  types st !! ob_type w = Some ty →
  subtype_chain (size (types st)) (types st) (ob_type w) THPStorageType = true →
  tp_finalize ty = false → tp_del ty = false → tp_heaptype ty = true →
  nbytes i ≤ INT64_MAX →
  0 ≤ start ≤ stop ≤ nbytes i → default 1 stride = 1 →
  ∃ o st1 st2,
    THPStorage_get self (PySlice (Some start) (Some stop) stride) st =
      Ok (Some (PyStorage o)) st1 ∧
    objects st !! o = None ∧ is_Some (objects st1 !! o) ∧
    Py_DECREF o st1 = Ok tt st2 ∧
    storages st2 = storages st ∧ objects st2 = objects st ∧
    buffers st2 = buffers st ∧ types st2 = types st ∧
    py_err st2 = py_err st.
Proof.
  intros Hw HR Hi Hone Hty Hsub Hfin Hdel Hheap Hmax Hb Hstride.
  pose proof (get_slice_eval st self w R i ty start stop stride Hw HR Hi Hty Hsub
                Hmax Hb Hstride) as Heval.
  destruct (sliced_state_facts st w ty R i start (stop - start) Hi)
    as (Hne & (ni & Hn & Hcount & _ & _ & Hdp & _) & HR1 & Hothers & Hbuf & Hobj & _ &
        Herr & _ & _ & Htys).
  set (o := fresh (dom (objects st))) in *.
  set (n := fresh (dom (storages st))) in *.
  set (st1 := sliced_state st w ty R i start (stop - start)) in *.
  set (w1 := mkTHPStorage 1 (ob_type w) (tp_have_gc ty) 0 [] false (owned n) false) in *.
  set (ty1 := with_tp_refcnt (tp_refcnt ty + 1) ty) in *.
  assert (objects st1 !! o = Some w1) as Ho by (rewrite Hobj; apply lookup_insert_eq).
  assert (types st1 !! ob_type w = Some ty1) as Hty1
    by (rewrite Htys; apply lookup_insert_eq).
  assert (subtype_chain (size (types st1)) (types st1) (ob_type w) THPStorageType = true)
    as Hsub1.
  { rewrite Htys, map_size_insert_Some by eauto.
    by rewrite (subtype_chain_refcnt (types st) (ob_type w) ty (tp_refcnt ty + 1)
                  THPStorageType (size (types st)) (ob_type w) Hty). }
  destruct (Py_DECREF_teardown_eval st1 o w1 n ni ty1 Ho eq_refl eq_refl Hn ltac:(left; lia)
              Hty1 Hfin Hdel Hheap Hsub1)
    as (st_rel & st2 & Hrel & Hdrop & HO2 & HS2 & HB2 & HT2 & He2 & _).
  rewrite (slice_release_shared st1 n ni R (with_use_count (use_count i + 1) i))
    in Hrel; [|done|lia|by rewrite Hdp|done|simpl; lia].
  injection Hrel as <-.
  exists o, st1, st2. split; [done|].
  split; [apply fresh_lookup_None|]. split; [eauto|]. split; [done|].
  split.
  { rewrite HS2. simpl. rewrite with_use_count_back. apply map_eq. intros s'.
    destruct (decide (s' = R)) as [->|HneR].
    - by rewrite lookup_insert_eq.
    - rewrite lookup_insert_ne by done.
      destruct (decide (s' = n)) as [->|Hnen].
      + rewrite lookup_delete_eq. symmetry. apply fresh_lookup_None.
      + rewrite lookup_delete_ne by done. by apply Hothers. }
  split.
  { rewrite HO2, Hobj. apply delete_insert_id, fresh_lookup_None. }
  split; [by rewrite HB2|].
  split.
  { rewrite HT2, Htys. simpl. rewrite insert_insert_eq.
    unfold ty1. rewrite with_tp_refcnt_back. by apply insert_id. }
  congruence.
Qed.

(** * What assignment never does *)

(** Everything but the error indicator and the contents of the buffers,
    whose lengths stay. *)
Definition same_shape (st0 st : State) : Prop :=
  storages st = storages st0 ∧ objects st = objects st0 ∧ types st = types st0 ∧
  hermetic st = hermetic st0 ∧ THPStorageClass st = THPStorageClass st0 ∧
  events st = events st0 ∧
  ∀ b, length <$> buffers st !! b = length <$> buffers st0 !! b.

Lemma same_shape_refl st : same_shape st st.
Proof. by repeat split. Qed.

Lemma keeps_same_shape_err st0 e : keeps (same_shape st0) (modify (set_py_err e)).
Proof. by intros st HJ. Qed.

Lemma keeps_same_shape_write st0 s idx v : keeps (same_shape st0) (write_byte s idx v).
Proof.
  intros st HJ. unfold write_byte, deref_storage, get_state, mbind, M_bind.
  destruct (storages st !! s) as [i|]; [|done].
  destruct (buffers st !! dp_buffer (data_ptr i)) as [l|] eqn:Hl; [|done].
  destruct (_ || _); [done|]. simpl.
  destruct HJ as (HS & HO & HT & Hh & Hc & He & Hb).
  repeat split; try done.
  intros b. simpl. destruct (decide (b = dp_buffer (data_ptr i))) as [->|Hne].
  - rewrite lookup_insert_eq. simpl. rewrite length_insert.
    rewrite <- Hb, Hl. done.
  - rewrite lookup_insert_ne by done. apply Hb.
Qed.

Lemma keeps_same_shape_storage_set st0 s idx v :
  keeps (same_shape st0) (storage_set s idx v).
Proof.
  unfold storage_set.
  apply keeps_bind; [apply keeps_reads, reads_deref_storage|]. intros i.
  apply keeps_bind.
  { apply keeps_reads. unfold TORCH_CHECK. auto with reads. }
  intros _. apply keeps_same_shape_write.
Qed.

Lemma keeps_same_shape_set_range st0 s v n : ∀ start,
  keeps (same_shape st0) (set_range n s start v).
Proof.
  induction n as [|n IH]; intros start; simpl; [apply keeps_reads, reads_mret|].
  apply keeps_bind; [apply keeps_same_shape_storage_set|]. intros _. apply IH.
Qed.

Lemma keeps_same_shape_HANDLE {A} st0 (retval : A) (m : M A) :
  keeps (same_shape st0) m → keeps (same_shape st0) (HANDLE_TH_ERRORS retval m).
Proof.
  intros Hm st HJ. specialize (Hm st HJ). unfold HANDLE_TH_ERRORS.
  destruct (m st) as [a st'|e st']; [done|]. simpl in Hm.
  by destruct (error_of e).
Qed.

(** X21: whatever the wrapper, the index and the value, and whether it
    returns or fails, [THPStorage_set] changes nothing but the error
    indicator and bytes of buffers that exist: no resource, count, slot,
    wrapper or type changes, and no buffer appears, disappears or changes
    its length. *)
Theorem set_changes_bytes_only st self index value :
  same_shape st (final_state (THPStorage_set self index value st)).
Proof.
  assert (keeps (same_shape st) (THPStorage_set self index value)) as Hk.
  { unfold THPStorage_set. apply keeps_same_shape_HANDLE.
    apply keeps_bind; [apply keeps_reads, reads_assertNotNull|]. intros _.
    apply keeps_if.
    { apply keeps_bind; [apply keeps_reads, reads_typename_of|]. intros t.
      apply keeps_bind; [apply keeps_same_shape_err|]. intros _.
      apply keeps_reads, reads_mret. }
    apply keeps_bind; [apply keeps_reads, reads_unpackReal_or_throw|]. intros rvalue.
    apply keeps_bind; [apply keeps_reads, reads_Unpack_nonnull|]. intros storage.
    assert (keeps (same_shape st)
              (index_type ← typename_of index;
               THPUtils_setError (CannotIndexWith index_type);; mret (-1))) as Hother.
    { apply keeps_bind; [apply keeps_reads, reads_typename_of|]. intros t.
      apply keeps_bind; [apply keeps_same_shape_err|]. intros _.
      apply keeps_reads, reads_mret. }
    destruct index; try exact Hother.
    - apply keeps_bind; [apply keeps_reads, reads_unpackLong|]. intros nindex.
      apply keeps_bind; [apply keeps_same_shape_storage_set|]. intros _.
      apply keeps_reads, reads_mret.
    - apply keeps_bind; [apply keeps_reads, reads_deref_storage|]. intros i.
      destruct (PySlice_GetIndicesEx _ _ _ _) as [[[[start' stop'] step'] len]|].
      + apply keeps_if.
        * apply keeps_bind; [apply keeps_same_shape_err|]. intros _.
          apply keeps_reads, reads_mret.
        * apply keeps_bind; [apply keeps_same_shape_set_range|]. intros _.
          apply keeps_reads, reads_mret.
      + apply keeps_bind; [apply keeps_same_shape_err|]. intros _.
        apply keeps_reads, reads_mret. }
  apply Hk, same_shape_refl.
Qed.

(** * Slices with any bounds *)

Lemma clip_index_range len i : 0 ≤ len → 0 ≤ clip_index len 1 i ≤ len.
Proof.
  intros H. unfold clip_index. change (1 <? 0) with false. cbv iota.
  destruct (i <? 0) eqn:E1.
  - destruct (i + len <? 0) eqn:E2; lia.
  - destruct (len <=? i) eqn:E2; lia.
Qed.

(** What [PySlice_GetIndicesEx] gives for step 1: the clipped start and
    the number of positions from it to the clipped stop, none when the
    stop is not after the start. *)
Lemma slice_indices_any start stop step len :
  0 ≤ len → len ≤ PY_SSIZE_T_MAX → default 1 step = 1 →
  let a := clip_index len 1 (default 0 start) in
  let b := clip_index len 1 (default PY_SSIZE_T_MAX stop) in
  PySlice_GetIndicesEx start stop step len = Some (a, b, 1, Z.max 0 (b - a)).
Proof.
  intros H0 Hmax Hs a b. unfold PySlice_GetIndicesEx.
  rewrite (slice_unpack_step_1 _ _ _ Hs). unfold PySlice_AdjustIndices.
  assert (clip_index len 1 (from_option _PyEval_SliceIndex 0 start) = a) as ->.
  { unfold a. destruct start as [x|]; [|done]. by apply clip_index_SliceIndex. }
  assert (clip_index len 1 (from_option _PyEval_SliceIndex PY_SSIZE_T_MAX stop) = b) as ->.
  { unfold b. destruct stop as [x|]; [|done]. by apply clip_index_SliceIndex. }
  change (1 <? 0) with false. cbv iota.
  destruct (a <? b) eqn:E.
  - rewrite Z.div_1_r. do 3 f_equal. lia.
  - do 3 f_equal. lia.
Qed.

Lemma get_slice_eval_any st self w R i ty start stop step a b n :
  objects st !! self = Some w → unsafeGetStorageImpl (cdata w) = Some R →
  storages st !! R = Some i → types st !! ob_type w = Some ty →
  subtype_chain (size (types st)) (types st) (ob_type w) THPStorageType = true →
  0 ≤ nbytes i ≤ INT64_MAX →
  PySlice_GetIndicesEx start stop step (nbytes i) = Some (a, b, 1, n) →
  THPStorage_get self (PySlice start stop step) st =
    Ok (Some (PyStorage (fresh (dom (objects st))))) (sliced_state st w ty R i a n).
Proof.
  intros Hw HR Hi Hty Hsub Hmax Hidx.
  assert (resource_of st self = Some R) as Hres.
  { unfold resource_of. by rewrite Hw. }
  unfold THPStorage_get, HANDLE_TH_ERRORS.
  rewrite (bind_ok _ _ st tt st (assertNotNull_ok _ _ _ Hres)).
  rewrite (bind_ok _ _ st R st (Unpack_nonnull_ok _ _ _ Hres)).
  rewrite (bind_ok _ _ st i st (deref_storage_ok _ _ _ Hi)).
  rewrite (wrap_int64_id (nbytes i)) by (unfold in_int64, INT64_MIN; lia).
  rewrite Hidx.
  replace (negb (1 =? 1)) with false by done.
  rewrite (bind_ok _ _ st R st (Unpack_nonnull_ok _ _ _ Hres)).
  set (st1 := set_storages <[R := with_use_count (use_count i + 1) i]> st).
  rewrite (bind_ok _ _ st tt st1).
  2:{ unfold intrusive_ptr_incref.
      by rewrite (bind_ok _ _ st i st (deref_storage_ok _ _ _ Hi)). }
  set (m := fresh (dom (storages st))).
  set (ni := slice_impl i R a n).
  set (st2 := set_storages <[m := ni]> st1).
  rewrite (bind_ok _ _ st1 m st2).
  2:{ unfold make_slice_storage.
      assert (storages st1 !! R = Some (with_use_count (use_count i + 1) i)) as Hi1
        by apply lookup_insert_eq.
      rewrite (bind_ok _ _ st1 _ st1 (deref_storage_ok _ _ _ Hi1)).
      unfold get_state, mbind, M_bind, modify. simpl.
      rewrite dom_insert_lookup_L by eauto. done. }
  rewrite (bind_ok _ _ st2 (ob_type w) st2).
  2:{ assert (objects st2 !! self = Some w) as Hw2 by done.
      unfold Py_TYPE. by rewrite (bind_ok _ _ st2 w st2 (deref_obj_ok _ _ _ Hw2)). }
  rewrite (bind_ok _ _ _ _ _
             (NewWithStorage_fresh st2 (ob_type w) ty m ni DEFINITELY_UNINITIALIZED
                allow_preexisting_pyobj_default
                ltac:(apply lookup_insert_eq) ltac:(done) Hty Hsub)).
  done.
Qed.

(** X22: whatever the bounds of a slice with step 1 (absent, negative,
    reversed, beyond the end), [THPStorage_get] returns a view that lies
    inside the parent: it spans the parent's positions from [a] up to [b]
    (nothing when [b <= a]) with [0 <= a <= length] and
    [0 <= b <= length], its bytes are the parent's bytes at those
    positions, and its length reads [max 0 (b - a)].  A bound inside the
    resource is taken as it is, a negative bound counts from the end, and
    an absent bound is the start or the end of the resource. *)
Theorem slice_stays_inside st self w R i ty bs start stop stride :
  objects st !! self = Some w → unsafeGetStorageImpl (cdata w) = Some R →
  storages st !! R = Some i →
  types st !! ob_type w = Some ty →
  subtype_chain (size (types st)) (types st) (ob_type w) THPStorageType = true →
  bytes_of st R = Some bs → Z.of_nat (length bs) ≤ INT64_MAX →
  default 1 stride = 1 →
  ∃ o n st' a b,
    THPStorage_get self (PySlice start stop stride) st = Ok (Some (PyStorage o)) st' ∧
    resource_of st' o = Some n ∧
    0 ≤ a ≤ Z.of_nat (length bs) ∧ 0 ≤ b ≤ Z.of_nat (length bs) ∧
    bytes_of st' n = Some (take (Z.to_nat (b - a)) (drop (Z.to_nat a) bs)) ∧
    THPStorage_length o st' = Ok (Z.max 0 (b - a)) st' ∧
    bytes_of st' R = Some bs ∧
    (start = None → a = 0) ∧ (stop = None → b = Z.of_nat (length bs)) ∧
    (∀ x, start = Some x → 0 ≤ x ≤ Z.of_nat (length bs) → a = x) ∧
    (∀ x, stop = Some x → 0 ≤ x ≤ Z.of_nat (length bs) → b = x) ∧
    (∀ x, start = Some x → - Z.of_nat (length bs) ≤ x < 0 → a = Z.of_nat (length bs) + x) ∧
    (∀ x, stop = Some x → - Z.of_nat (length bs) ≤ x < 0 → b = Z.of_nat (length bs) + x).
Proof.
  intros Hw HR Hi Hty Hsub Hbs Hmax Hstride.
  pose proof Hbs as (i' & l & Hi' & Hl & H0 & H1 & H2 & Heq)%bytes_of_Some.
  assert (i' = i) as -> by congruence.
  pose proof (bytes_of_length _ _ _ _ Hbs Hi) as Hlen.
  set (L := Z.of_nat (length bs)) in *.
  set (a := clip_index (nbytes i) 1 (default 0 start)).
  set (b := clip_index (nbytes i) 1 (default PY_SSIZE_T_MAX stop)).
  pose proof (clip_index_range (nbytes i) (default 0 start) H1) as Ha. fold a in Ha.
  pose proof (clip_index_range (nbytes i) (default PY_SSIZE_T_MAX stop) H1) as Hb. fold b in Hb.
  pose proof (slice_indices_any start stop stride (nbytes i) H1
                ltac:(unfold PY_SSIZE_T_MAX, INT64_MAX in *; lia) Hstride) as Hidx.
  cbv zeta in Hidx. fold a b in Hidx.
  pose proof (get_slice_eval_any st self w R i ty start stop stride a b (Z.max 0 (b - a))
                Hw HR Hi Hty Hsub ltac:(lia) Hidx) as Heval.
  destruct (sliced_state_facts st w ty R i a (Z.max 0 (b - a)) Hi)
    as (Hne & (ni & Hn & Hcount & Hnb & _ & Hdp & _) & HR1 & _ & Hbuf & Hobj & _).
  set (o := fresh (dom (objects st))) in *.
  set (n := fresh (dom (storages st))) in *.
  set (st1 := sliced_state st w ty R i a (Z.max 0 (b - a))) in *.
  assert (resource_of st1 o = Some n) as Hres_o.
  { unfold resource_of. by rewrite Hobj, lookup_insert_eq. }
  assert (buffers st1 !! dp_buffer (data_ptr ni) = Some l) as Hl1.
  { by rewrite Hdp, Hbuf. }
  exists o, n, st1, a, b.
  split; [done|]. split; [done|]. split; [lia|]. split; [lia|].
  split.
  { unfold bytes_of. rewrite Hn. simpl. rewrite Hl1. simpl. rewrite Hdp, Hnb. simpl.
    replace ((0 <=? dp_offset (data_ptr i) + a) && (0 <=? Z.max 0 (b - a)) &&
             (dp_offset (data_ptr i) + a + Z.max 0 (b - a) <=? Z.of_nat (length l)))
      with true by lia.
    f_equal. rewrite Heq.
    replace (Z.to_nat (Z.max 0 (b - a))) with (Z.to_nat (b - a)) by lia.
    rewrite window_window by lia. f_equal. f_equal. lia. }
  split.
  { rewrite (length_eval st1 o n ni Hres_o Hn), Hnb.
    by rewrite wrap_int64_id by (unfold in_int64, INT64_MIN, INT64_MAX in *; lia). }
  split.
  { unfold bytes_of in *. rewrite HR1. rewrite Hi in Hbs. simpl in *.
    by rewrite Hbuf. }
  assert (∀ x, 0 ≤ x ≤ nbytes i → clip_index (nbytes i) 1 x = x) as Hin
    by (intros x Hx; by apply clip_index_inside).
  assert (∀ x, - nbytes i ≤ x < 0 → clip_index (nbytes i) 1 x = nbytes i + x) as Hneg.
  { intros x Hx. unfold clip_index.
    replace (x <? 0) with true by lia. replace (x + nbytes i <? 0) with false by lia.
    lia. }
  assert (clip_index (nbytes i) 1 PY_SSIZE_T_MAX = nbytes i) as Hend.
  { unfold clip_index. change (PY_SSIZE_T_MAX <? 0) with false. cbv iota.
    replace (nbytes i <=? PY_SSIZE_T_MAX) with true
      by (unfold PY_SSIZE_T_MAX, INT64_MAX in *; lia).
    by change (1 <? 0) with false. }
  split; [intros ->; unfold a; simpl; rewrite Hin; lia|].
  split; [intros ->; unfold b; simpl; rewrite Hend; lia|].
  split; [intros x -> Hx; unfold a; simpl; rewrite Hin; lia|].
  split; [intros x -> Hx; unfold b; simpl; rewrite Hin; lia|].
  split; [intros x -> Hx; unfold a; simpl; rewrite Hneg; lia|].
  intros x -> Hx; unfold b; simpl; rewrite Hneg; lia.
Qed.

(** * Wrapping in hermetic mode *)

Lemma Wrap_hermetic st s i ty :
  hermetic st = true → storages st !! s = Some i →
  types st !! THPStorageClass st = Some ty →
  subtype_chain (size (types st)) (types st) (THPStorageClass st) THPStorageType = true →
  THPStorage_Wrap s st =
    Ok (fresh (dom (objects st)))
       (wrapped_state st (THPStorageClass st) ty s i DEFINITELY_UNINITIALIZED).
Proof.
  intros Hh Hi Hty Hsub. unfold THPStorage_Wrap.
  change (Wrap_fuel 3) with (Wrap_body (NewWithStorage_fuel 2)).
  unfold Wrap_body.
  rewrite (bind_ok _ _ st st st) by done. rewrite Hh.
  change (NewWithStorage_fuel 2) with (NewWithStorage_body (Wrap_fuel 1)).
  apply NewWithStorage_body_fresh; try done.
  intros obj. unfold observed_pyobj. rewrite Hh.
  by destruct (pyobj_interpreter (pyobj_slot i)).
Qed.

(** X23: in hermetic mode [THPStorage_Wrap] never looks at the slot and
    never writes it: every call allocates a new wrapper of the class
    [THPStorageClass] with one host reference and an owned handle, so two
    wraps of one resource give two different wrappers that both own it,
    whatever the slot records; resources and buffers are untouched. *)
Theorem wrap_hermetic_never_shares st s i ty :
  hermetic st = true → storages st !! s = Some i →
  types st !! THPStorageClass st = Some ty →
  subtype_chain (size (types st)) (types st) (THPStorageClass st) THPStorageType = true →
  ∃ o1 o2 w st1 st2,
    THPStorage_Wrap s st = Ok o1 st1 ∧ THPStorage_Wrap s st1 = Ok o2 st2 ∧
    o1 ≠ o2 ∧ objects st !! o1 = None ∧ objects st !! o2 = None ∧
    ob_type w = THPStorageClass st ∧ ob_refcnt w = 1 ∧ cdata w = owned s ∧
    objects st2 = <[o2 := w]> (<[o1 := w]> (objects st)) ∧
    storages st2 = storages st ∧ buffers st2 = buffers st ∧
    py_err st2 = py_err st.
Proof.
  intros Hh Hi Hty Hsub.
  pose proof (Wrap_hermetic st s i ty Hh Hi Hty Hsub) as Hfirst.
  set (class := THPStorageClass st) in *.
  set (o1 := fresh (dom (objects st))) in *.
  set (w := mkTHPStorage 1 class (tp_have_gc ty) 0 [] false (owned s) false).
  set (ty1 := with_tp_refcnt (tp_refcnt ty + 1) ty).
  set (st1 := wrapped_state st class ty s i DEFINITELY_UNINITIALIZED) in *.
  assert (st1 = set_types <[class := ty1]> (set_objects <[o1 := w]> st)) as Hst1.
  { unfold st1, wrapped_state. by rewrite Hh. }
  assert (types st1 !! THPStorageClass st1 = Some ty1) as Hty1.
  { rewrite Hst1. simpl. apply lookup_insert_eq. }
  assert (subtype_chain (size (types st1)) (types st1) (THPStorageClass st1)
            THPStorageType = true) as Hsub1.
  { rewrite Hst1. simpl. rewrite map_size_insert_Some by eauto.
    by rewrite (subtype_chain_refcnt (types st) class ty (tp_refcnt ty + 1) THPStorageType
                  (size (types st)) class Hty). }
  assert (hermetic st1 = true) as Hh1 by (by rewrite Hst1).
  assert (storages st1 !! s = Some i) as Hi1 by (by rewrite Hst1).
  pose proof (Wrap_hermetic st1 s i ty1 Hh1 Hi1 Hty1 Hsub1) as Hsecond.
  set (o2 := fresh (dom (objects st1))) in *.
  assert (objects st1 !! o2 = None) as Ho2 by apply fresh_lookup_None.
  assert (objects st1 = <[o1 := w]> (objects st)) as HO1 by (by rewrite Hst1).
  assert (o1 ≠ o2) as Hne.
  { intros Heq. rewrite <- Heq, HO1, lookup_insert_eq in Ho2. done. }
  eexists o1, o2, w, st1, _. split; [done|]. split; [exact Hsecond|].
  split; [done|]. split; [apply fresh_lookup_None|].
  split.
  { rewrite HO1, lookup_insert_ne in Ho2 by done. done. }
  split; [done|]. split; [done|]. split; [done|].
  unfold wrapped_state. rewrite Hh1. fold o2. simpl.
  replace (THPStorageClass st1) with class by (by rewrite Hst1).
  replace (tp_have_gc ty1) with (tp_have_gc ty) by done.
  fold w. rewrite HO1. split; [done|]. by rewrite Hst1.
Qed.

(** * The readers *)

(** Nothing but the error indicator differs. *)
Definition error_only (st0 st : State) : Prop :=
  storages st = storages st0 ∧ objects st = objects st0 ∧ buffers st = buffers st0 ∧
  types st = types st0 ∧ hermetic st = hermetic st0 ∧
  THPStorageClass st = THPStorageClass st0 ∧ events st = events st0.

Lemma error_only_refl st : error_only st st.
Proof. by repeat split. Qed.

Lemma keeps_error_only_err st0 e : keeps (error_only st0) (modify (set_py_err e)).
Proof. by intros st HJ. Qed.

Lemma keeps_error_only_HANDLE {A} st0 (retval : A) (m : M A) :
  keeps (error_only st0) m → keeps (error_only st0) (HANDLE_TH_ERRORS retval m).
Proof.
  intros Hm st HJ. specialize (Hm st HJ). unfold HANDLE_TH_ERRORS.
  destruct (m st) as [a st'|e st']; [done|]. simpl in Hm.
  by destruct (error_of e).
Qed.

Lemma reads_storage_get s idx : reads_only (storage_get s idx).
Proof.
  unfold storage_get. apply reads_bind; [apply reads_deref_storage|]. intros i.
  apply reads_bind; [unfold TORCH_CHECK; auto with reads|]. intros _.
  apply reads_read_byte.
Qed.

Lemma reads_Unpack self : reads_only (THPStorage_Unpack self).
Proof. unfold THPStorage_Unpack. auto with reads. Qed.

(** X24: the readers of the file write nothing.  Whatever the wrapper and
    the index, and whether they return a value or fail, [THPStorage_length],
    the getters [device] and [_cdata], and [THPStorage_get] with an integer
    index leave resources, counts, slots, wrappers, bytes and types as they
    were; only the error indicator can differ.  When [THPStorage_get]
    returns a byte the state is exactly the one it was called in. *)
Theorem readers_write_nothing (address_of : StorageId → Z) st self z :
  error_only st (final_state (THPStorage_length self st)) ∧
  error_only st (final_state (THPStorage_device self st)) ∧
  error_only st (final_state (THPStorage_get_cdata address_of self st)) ∧
  error_only st (final_state (THPStorage_get self (PyLong z) st)) ∧
  (∀ v st', THPStorage_get self (PyLong z) st = Ok (Some v) st' → st' = st).
Proof.
  assert (keeps (error_only st) (THPStorage_length self)) as Hlen.
  { unfold THPStorage_length. apply keeps_error_only_HANDLE, keeps_reads.
    apply reads_bind; [apply reads_assertNotNull|]. intros _.
    apply reads_bind; [apply reads_Unpack_nonnull|]. intros s.
    apply reads_bind; [apply reads_deref_storage|]. intros i. apply reads_mret. }
  assert (keeps (error_only st) (THPStorage_device self)) as Hdev.
  { unfold THPStorage_device. apply keeps_error_only_HANDLE, keeps_reads.
    apply reads_bind; [apply reads_assertNotNull|]. intros _.
    apply reads_bind; [apply reads_Unpack_nonnull|]. intros s.
    apply reads_bind; [apply reads_deref_storage|]. intros i. apply reads_mret. }
  assert (keeps (error_only st) (THPStorage_get_cdata address_of self)) as Hcd.
  { unfold THPStorage_get_cdata. apply keeps_error_only_HANDLE, keeps_reads.
    apply reads_bind; [apply reads_Unpack|]. intros c. apply reads_mret. }
  assert (keeps (error_only st) (THPStorage_get self (PyLong z))) as Hget.
  { unfold THPStorage_get. apply keeps_error_only_HANDLE.
    apply keeps_bind; [apply keeps_reads, reads_assertNotNull|]. intros _.
    apply keeps_bind; [apply keeps_reads, reads_Unpack_nonnull|]. intros s.
    apply keeps_bind; [apply keeps_reads, reads_unpackLong|]. intros u.
    apply keeps_bind; [apply keeps_reads, reads_deref_storage|]. intros i.
    destruct (_ || _).
    - apply keeps_bind; [apply keeps_error_only_err|]. intros _.
      apply keeps_reads, reads_mret.
    - apply keeps_reads. apply reads_bind; [apply reads_storage_get|]. intros v.
      apply reads_mret. }
  split; [apply Hlen, error_only_refl|]. split; [apply Hdev, error_only_refl|].
  split; [apply Hcd, error_only_refl|]. split; [apply Hget, error_only_refl|].
  intros v st'. unfold THPStorage_get, HANDLE_TH_ERRORS.
  pose proof (reads_assertNotNull self st) as H1.
  unfold mbind, M_bind.
  destruct (THPStorage_assertNotNull self st) as [[] st1|e st1]; simpl in H1; subst st1.
  2:{ by destruct (error_of e). }
  pose proof (reads_Unpack_nonnull self st) as H2.
  destruct (THPStorage_Unpack_nonnull self st) as [s st1|e st1]; simpl in H2; subst st1.
  2:{ by destruct (error_of e). }
  pose proof (reads_unpackLong (PyLong z) st) as H3.
  destruct (THPUtils_unpackLong (PyLong z) st) as [u st1|e st1]; simpl in H3; subst st1.
  2:{ by destruct (error_of e). }
  pose proof (reads_deref_storage s st) as H4.
  destruct (deref_storage s st) as [i st1|e st1]; simpl in H4; subst st1.
  2:{ by destruct (error_of e). }
  destruct (_ || _); [done|].
  pose proof (reads_storage_get s (if u <? 0 then wrap_int64 (u + nbytes i) else u) st) as H5.
  destruct (storage_get s _ st) as [b st1|e st1]; simpl in H5; subst st1.
  2:{ by destruct (error_of e). }
  by intros [= _ <-].
Qed.

End Storage.

(** ** Closed instances *)

Import Example.

Lemma st5_resource : resource_of st5 0%nat = Some 0%nat.
Proof. reflexivity. Qed.

Lemma st5_bytes : bytes_of st5 0%nat = Some [1; 2; 3; 4; 5].
Proof. reflexivity. Qed.

(** The indexing example of the spec: on the bytes 1..5, [get(-1)] is 5 and
    [get(5)] fails with [IndexOutOfRange{index:5, length:5}]; [get(-6)]
    reports the index -1, and [get(2^63)] the overflow of the conversion. *)
Lemma get_integer_index_witness :
  (∃ b, [1; 2; 3; 4; 5] !! Z.to_nat (5 + -1) = Some b ∧
        THPStorage_get false 0%nat (PyLong (-1)) st5 = Ok (Some (PyLong b)) st5) ∧
  THPStorage_get false 0%nat (PyLong 5) st5 =
    Ok None (set_py_err (Some (IndexOutOfRange 5 5)) st5) ∧
  THPStorage_get false 0%nat (PyLong (-6)) st5 =
    Ok None (set_py_err (Some (IndexOutOfRange (-6 + 5) 5)) st5) ∧
  THPStorage_get false 0%nat (PyLong (2 ^ 63)) st5 =
    Ok None (set_py_err (Some IntegerOverflow) st5).
Proof.
  pose proof (λ z, get_integer_index false st5 0%nat 0%nat [1; 2; 3; 4; 5] z
                     st5_resource st5_bytes ltac:(by vm_compute)) as H.
  split; [|split; [|split]].
  - apply (H (-1)). simpl. lia.
  - apply (H 5). unfold INT64_MAX. simpl. lia.
  - apply (H (-6)). unfold INT64_MIN. simpl. lia.
  - apply (H (2 ^ 63)). right. unfold INT64_MAX. lia.
Defined.

(** C8, counterexample: [get(-6)] on five bytes reports index [-1], not the
    index [-6] it was given; and [get(2^63)], an index outside
    [[-5, 5)], does not fail with [IndexOutOfRange] but with the overflow
    error of the conversion to [int64_t]. *)
Lemma get_reports_normalised_index :
  (py_err (final_state (THPStorage_get false 0%nat (PyLong (-6)) st5))
     = Some (IndexOutOfRange (-1) 5) ∧
   py_err (final_state (THPStorage_get false 0%nat (PyLong (-6)) st5))
     ≠ Some (IndexOutOfRange (-6) 5)) ∧
  (py_err (final_state (THPStorage_get false 0%nat (PyLong (2 ^ 63)) st5))
     = Some IntegerOverflow ∧
   py_err (final_state (THPStorage_get false 0%nat (PyLong (2 ^ 63)) st5))
     ≠ Some (IndexOutOfRange (2 ^ 63) 5)).
Proof. split; (split; [reflexivity | by vm_compute]). Qed.

(** C9, at the failing input: [get(-1)] reads the last byte, [set(-1, 9)]
    hands [-1] to [storage_set] as it is, which rejects it; no byte is
    written. *)
Lemma set_negative_index_not_normalised :
  THPStorage_get false 0%nat (PyLong (-1)) st5 = Ok (Some (PyLong 5)) st5 ∧
  THPStorage_set checkReal unpackReal 0%nat (PyLong (-1)) (PyLong 9) st5
    = Ok (-1) (set_py_err (Some (IndexOutOfRange (-1) 5)) st5).
Proof. split; reflexivity. Qed.

(** C10, at the failing input: for a slice of step 2, [THPStorage_set]
    sets the error indicator and returns 0, the success value of the
    protocol; the sibling branch of [THPStorage_get] returns null. *)
Lemma set_step_returns_success :
  THPStorage_set checkReal unpackReal 0%nat (PySlice (Some 0) (Some 4) (Some 2)) (PyLong 9) st5
    = Ok 0 (set_py_err (Some (UnsupportedStep 2)) st5) ∧
  THPStorage_get false 0%nat (PySlice (Some 0) (Some 4) (Some 2)) st5
    = Ok None (set_py_err (Some (UnsupportedStep 2)) st5).
Proof. split; reflexivity. Qed.

(** The slot owns wrapper 0, which borrows the resource; the caller holds
    the second reference. *)
Definition st_preserved : State := heap 2 1%nat 1 (borrowed 0%nat) true false.

(** Wrapper 0 owns the resource and the caller holds a second reference. *)
Definition st_shared : State := heap 2 1%nat 1 (owned 0%nat) false false.

Lemma wrap_existing_wrapper_witness :
  (∃ st', THPStorage_Wrap false 0%nat st_preserved = Ok 0%nat st' ∧
          objects st' = <[0%nat := mkTHPStorage 1 1%nat false 0 [] false (owned 0%nat) false]>
                           (objects st_preserved) ∧
          (true = true →
           storages st' =
             <[0%nat := mkStorageImpl 2 5 true (mkDataPtr 0 0 None) DefaultCPUAllocator kCPU
                                      (mkSlot true (Some 0%nat) false)]>
               (storages st_preserved))) ∧
  (∃ st', THPStorage_Wrap false 0%nat st_shared = Ok 0%nat st' ∧
          objects st' = <[0%nat := mkTHPStorage 2 1%nat false 0 [] false (owned 0%nat) false]>
                           (objects st_shared) ∧
          (1 < 2 →
           storages st' =
             <[0%nat := mkStorageImpl 1 5 true (mkDataPtr 0 0 None) DefaultCPUAllocator kCPU
                                      (mkSlot true (Some 0%nat) false)]>
               (storages st_shared))).
Proof.
  split.
  - exact (wrap_existing_wrapper false st_preserved 0%nat _ 0%nat _
             eq_refl eq_refl eq_refl eq_refl eq_refl).
  - exact (wrap_existing_wrapper false st_shared 0%nat _ 0%nat _
             eq_refl eq_refl eq_refl eq_refl eq_refl).
Defined.

(** In hermetic mode the slot of the resource still references the live
    wrapper 0. *)
Definition st_hermetic : State := heap 2 1%nat 1 (owned 0%nat) false true.

(** C1, counterexample: in hermetic mode [THPStorage_Wrap] takes the branch
    of line 89 and allocates a second wrapper, object 1, although the slot
    references the live wrapper 0. *)
Lemma wrap_hermetic_allocates :
  (∃ i w, storages st_hermetic !! 0%nat = Some i ∧
          pyobj_interpreter (pyobj_slot i) = true ∧ pyobj (pyobj_slot i) = Some 0%nat ∧
          objects st_hermetic !! 0%nat = Some w) ∧
  ∃ st', THPStorage_Wrap false 0%nat st_hermetic = Ok 1%nat st' ∧
         objects st' !! 0%nat = objects st_hermetic !! 0%nat ∧
         objects st' !! 1%nat = Some (mkTHPStorage 1 1%nat false 0 [] false (owned 0%nat) false).
Proof.
  split.
  - by eexists _, _.
  - eexists. split; [reflexivity|]. split; reflexivity.
Qed.



(** A class with two bases, [class MixedStorage(UntypedStorage,
    OtherStorage)]: [UntypedStorage] is its [tp_base], and [OtherStorage]
    is in its method resolution order only. *)
Definition MixedStorage : PyTypeObject :=
  mkType "MixedStorage" (Some 1%nat) 5 false true false false 0 16 0
         [5%nat; 1%nat; 3%nat; 0%nat].

(** Wrapper 0 is a [MixedStorage]; the caller holds a second reference on
    the resource. *)
Definition st_mixed : State :=
  set_types <[5%nat := MixedStorage]> (heap 2 5%nat 1 (owned 0%nat) false false).

(** The tables of the examples are as the host builds them: on them
    [is_subtype] is the search of the method resolution order. *)
Lemma example_tables_consistent :
  mro_consistent type_table ∧ mro_consistent (types st_mixed).
Proof. split; apply mro_check_consistent; by vm_compute. Qed.



(** A [MyStorage] object (finalizer, [tp_del], weak references, dict and
    member slots) whose last host reference is gone and whose resource has
    no other holder. *)
Definition st_dying : State := heap 1 2%nat 0 (owned 0%nat) false false.

(** A hook that stores the object in two places: two new strong
    references. *)
Definition resurrecting_hook (o : ObjId) (st : State) : State :=
  set_objects (alter (λ w, with_refcnt (ob_refcnt w + 2) w) o) st.

Definition quiet_hook (o : ObjId) (st : State) : State := st.

(** The states the aborted attempts of the witness end in. *)
Definition st_resurrected : State :=
  Eval vm_compute in
    final_state (THPStorage_subclass_dealloc resurrecting_hook quiet_hook 0%nat st_dying).

Definition st_finalized : State :=
  Eval vm_compute in final_state (teardown_finalize quiet_hook MyStorage 0%nat st_dying).

Definition st_del_resurrected : State :=
  Eval vm_compute in
    final_state (THPStorage_subclass_dealloc quiet_hook resurrecting_hook 0%nat st_dying).

Lemma teardown_resurrection_witness :
  (THPStorage_subclass_dealloc resurrecting_hook quiet_hook 0%nat st_dying
     = Ok tt st_resurrected ∧
   events st_resurrected = [EvUnTrack 0%nat; EvTrack 0%nat; EvFinalizer 0%nat] ∧
   ob_refcnt <$> objects st_resurrected !! 0%nat = Some 2) ∧
  (THPStorage_subclass_dealloc quiet_hook resurrecting_hook 0%nat st_dying
     = Ok tt st_del_resurrected ∧
   events st_del_resurrected =
     [EvUnTrack 0%nat; EvTrack 0%nat; EvFinalizer 0%nat; EvUnTrack 0%nat;
      EvClearWeakRefs 0%nat; EvTrack 0%nat; EvDel 0%nat] ∧
   ob_refcnt <$> objects st_del_resurrected !! 0%nat = Some 2).
Proof.
  split.
  - destruct (teardown_resurrection resurrecting_hook quiet_hook st_dying 0%nat _ MyStorage
                eq_refl eq_refl eq_refl) as (H & _ & _ & _).
    destruct (H eq_refl _ eq_refl) as [Hstop _].
    destruct (Hstop ltac:(simpl; lia)) as [H1 H2].
    split; [exact H1|]. split; [exact H2|reflexivity].
  - destruct (teardown_resurrection quiet_hook resurrecting_hook st_dying 0%nat _ MyStorage
                eq_refl eq_refl eq_refl) as (_ & _ & H & _).
    assert (teardown_finalize quiet_hook MyStorage 0%nat st_dying = Ok false st_finalized)
      as Hfin by (vm_compute; reflexivity).
    destruct (H eq_refl _ _ Hfin eq_refl _ eq_refl ltac:(simpl; lia)) as [H1 H2].
    split; [exact H1|]. split; [exact H2|reflexivity].
Defined.

(** The resurrection example of the spec: the first attempt is aborted by
    the finalizer; once the new references are dropped again, a second
    attempt under the same hooks does not run the finalizer again, runs all
    nine steps and frees the object and its resource. *)
Definition st_dropped_again : State :=
  set_events [] (set_objects (alter (with_refcnt 0) 0%nat) st_resurrected).

Lemma teardown_second_attempt_completes :
  THPStorage_subclass_dealloc resurrecting_hook quiet_hook 0%nat st_dying
    = Ok tt st_resurrected ∧
  ∃ st3,
    THPStorage_subclass_dealloc resurrecting_hook quiet_hook 0%nat st_dropped_again
      = Ok tt st3 ∧
    events st3 = [EvUnTrack 0%nat; EvTrack 0%nat; EvUnTrack 0%nat;
                  EvClearWeakRefs 0%nat; EvTrack 0%nat; EvDel 0%nat; EvUnTrack 0%nat;
                  EvClearNewWeakRefs 0%nat; EvClearSlots 0%nat 2%nat;
                  EvDestroyHandle 0%nat; EvFree 0%nat; EvDecrefType 2%nat] ∧
    objects st3 !! 0%nat = None ∧ storages st3 !! 0%nat = None.
Proof.
  split; [by vm_compute|].
  exists (final_state
            (THPStorage_subclass_dealloc resurrecting_hook quiet_hook 0%nat st_dropped_again)).
  by vm_compute.
Qed.




(** A run of the bridge: a storage of five bytes is constructed, native
    code copies its handle, the host drops the wrapper, which is preserved,
    and native code wraps the resource again. *)
Lemma quiet_hook_local : hook_local quiet_hook.
Proof. intros o st [w Hw]. by eapply teardown_rel_refl. Qed.

Definition run_pynew : State :=
  Eval vm_compute in
    final_state (THPStorage_pynew false unpackReal false false allocation_device
               1%nat (Sized 5) None None
                   (initial type_table 1%nat)).

Definition run_copied : State :=
  Eval vm_compute in final_state (intrusive_ptr_incref 0%nat run_pynew).

Definition run_preserved : State :=
  Eval vm_compute in final_state (Py_DECREF quiet_hook quiet_hook 0%nat run_copied).


Lemma run_preserved_reachable :
  reachable false checkReal unpackReal false false allocation_device
             quiet_hook quiet_hook run_preserved.
Proof.
  eapply reachable_step; [eapply reachable_step; [eapply reachable_step|]|].
  - apply (reachable_initial _ _ _ _ _ _ _ _ type_table 1%nat).
  - apply (step_pynew _ _ _ _ _ _ _ _ 1%nat (Sized 5) None None). by vm_compute.
  - apply (step_incref _ _ _ _ _ _ _ _ 0%nat run_pynew run_copied). by vm_compute.
  - apply (step_Py_DECREF _ _ _ _ _ _ _ _ 0%nat run_copied run_preserved).
    + eexists. split; [reflexivity|]. split; [by vm_compute|].
      intros (s & i & Hi & _ & Hown). exfalso.
      assert (map_Forall (λ _ i, owns_pyobj (pyobj_slot i) = false) (storages run_copied))
        as Hall by (apply (bool_decide_unpack _); by vm_compute).
      specialize (Hall s i Hi). simpl in Hall. congruence.
    + by vm_compute.
Qed.









(** A slice of bytes 1 to 3 of the five-byte storage that was constructed. *)
Lemma run_pynew_reachable :
  reachable false checkReal unpackReal false false allocation_device
             quiet_hook quiet_hook run_pynew.
Proof.
  eapply reachable_step; [apply (reachable_initial _ _ _ _ _ _ _ _ type_table 1%nat)|].
  apply (step_pynew _ _ _ _ _ _ _ _ 1%nat (Sized 5) None None). by vm_compute.
Qed.

Definition run_sliced : State :=
  Eval vm_compute in
    final_state (THPStorage_get false 0%nat (PySlice (Some 1) (Some 4) None) run_pynew).

Definition run_slice_destroyed : State :=
  Eval vm_compute in final_state (intrusive_ptr_decref 1%nat run_sliced).

Lemma slice_keeps_parent_witness :
  ∃ ni,
    THPStorage_get false 0%nat (PySlice (Some 1) (Some 4) None) run_pynew =
      Ok (Some (PyStorage 1%nat)) run_sliced ∧
    storages run_sliced !! 1%nat = Some ni ∧
    use_count ni = 1 ∧ nbytes ni = 3 ∧ resizable ni = false ∧
    data_ptr ni = mkDataPtr 0%nat 1 (Some 0%nat) ∧
    use_count <$> storages run_pynew !! 0%nat = Some 1 ∧
    use_count <$> storages run_sliced !! 0%nat = Some 2 ∧
    buffers run_sliced = buffers run_pynew ∧
    intrusive_ptr_decref 1%nat run_sliced = Ok tt run_slice_destroyed ∧
    storages run_slice_destroyed !! 1%nat = None ∧
    use_count <$> storages run_slice_destroyed !! 0%nat = Some 1 ∧
    buffers run_slice_destroyed = buffers run_sliced.
Proof.
  destruct (slice_keeps_parent false checkReal unpackReal false false allocation_device
             quiet_hook quiet_hook
              quiet_hook_local quiet_hook_local run_pynew 0%nat _ 0%nat _ _
              1 4 None run_pynew_reachable eq_refl eq_refl eq_refl eq_refl eq_refl
              ltac:(by vm_compute) ltac:(simpl; lia) eq_refl)
    as (o & n & wo & ni & st' & Hget & Hfresh & Hn & Ho & Hc & Hcount & Hbytes & Hres &
        Hdp & Hread & HR & Hbuf & Hrel & Hlife).
  assert (THPStorage_get false 0%nat (PySlice (Some 1) (Some 4) None) run_pynew =
            Ok (Some (PyStorage 1%nat)) run_sliced) as Hconc by (by vm_compute).
  rewrite Hconc in Hget. injection Hget as <- <-.
  vm_compute in Ho. injection Ho as <-. injection Hc as <-.
  destruct (Hrel run_sliced ni Hn eq_refl ltac:(lia)) as [_ Hshared].
  specialize (Hshared _ HR ltac:(simpl; lia)).
  exists ni. split; [exact Hconc|]. split; [exact Hn|].
  split; [exact Hcount|]. split; [exact Hbytes|]. split; [exact Hres|].
  split; [exact Hdp|]. split; [reflexivity|]. split; [by rewrite HR|].
  split; [exact Hbuf|]. split; [rewrite Hshared; by vm_compute|].
  split; [by vm_compute|]. split; [by vm_compute|]. by vm_compute.
Defined.

(** ** Instances of the further properties *)

Definition w5 : THPStorage := mkTHPStorage 1 1%nat false 0 [] false (owned 0%nat) false.

Definition i5 : StorageImpl :=
  mkStorageImpl 1 5 true (mkDataPtr 0 0 None) DefaultCPUAllocator kCPU
                (mkSlot true (Some 0%nat) false).

Ltac by_evaluation :=
  first [ reflexivity | by vm_compute | unfold INT64_MAX; simpl; lia | left; simpl; lia
        | left; reflexivity ].

(** On the bytes 1..5, writing 9 at index 2 and reading index 2 back. *)
Lemma set_then_get_witness :
  ∃ st',
    THPStorage_set checkReal unpackReal 0%nat (PyLong 2) (PyLong 9) st5 = Ok 0 st' ∧
    bytes_of st' 0%nat = Some [1; 2; 9; 4; 5] ∧
    THPStorage_get false 0%nat (PyLong 2) st' = Ok (Some (PyLong 9)) st' ∧
    only_buffers st5 st'.
Proof.
  apply (set_then_get false checkReal unpackReal st5 0%nat 0%nat [1; 2; 3; 4; 5] 2
           (PyLong 9) 9); by_evaluation.
Defined.

(** On the bytes 1..5, filling the positions 1 to 3 with 7. *)
Lemma set_slice_fills_witness :
  ∃ st',
    THPStorage_set checkReal unpackReal 0%nat (PySlice (Some 1) (Some 4) None) (PyLong 7) st5 =
      Ok 0 st' ∧
    bytes_of st' 0%nat = Some [1; 7; 7; 7; 5] ∧
    only_buffers st5 st'.
Proof.
  apply (set_slice_fills checkReal unpackReal st5 0%nat 0%nat [1; 2; 3; 4; 5] 1 4 None
           (PyLong 7) 7); by_evaluation.
Defined.

(** The slice 1..4 of the bytes 1..5 holds 2, 3, 4; writing 9 at its
    index 1 changes byte 2 of the parent. *)
Lemma slice_writes_through_witness :
  ∃ o n st1 st2,
    THPStorage_get false 0%nat (PySlice (Some 1) (Some 4) None) st5 =
      Ok (Some (PyStorage o)) st1 ∧
    resource_of st1 o = Some n ∧
    bytes_of st1 n = Some [2; 3; 4] ∧
    bytes_of st1 0%nat = Some [1; 2; 3; 4; 5] ∧
    THPStorage_set checkReal unpackReal o (PyLong 1) (PyLong 9) st1 = Ok 0 st2 ∧
    bytes_of st2 0%nat = Some [1; 2; 9; 4; 5] ∧
    THPStorage_get false 0%nat (PyLong 2) st2 = Ok (Some (PyLong 9)) st2.
Proof.
  apply (slice_writes_through false checkReal unpackReal st5 0%nat w5 0%nat i5
           UntypedStorage [1; 2; 3; 4; 5] 1 4 None 1 (PyLong 9) 9); by_evaluation.
Defined.

(** [UntypedStorage(5)] on the empty heap. *)
Lemma pynew_sized_witness :
  ∃ o s w i st',
    THPStorage_pynew false unpackReal false false allocation_device 1%nat (Sized 5) None None
      (initial type_table 1%nat) = Ok (Some o) st' ∧
    objects (initial type_table 1%nat) !! o = None ∧
    storages (initial type_table 1%nat) !! s = None ∧
    objects st' !! o = Some w ∧
    ob_type w = 1%nat ∧ ob_refcnt w = 1 ∧ cdata w = owned s ∧
    storages st' !! s = Some i ∧
    use_count i = 1 ∧ nbytes i = 5 ∧ resizable i = true ∧
    allocator i = DefaultCPUAllocator ∧
    THPStorage_length o st' = Ok 5 st' ∧
    (∀ o', o' ≠ o → objects st' !! o' = objects (initial type_table 1%nat) !! o') ∧
    (∀ s', s' ≠ s → storages st' !! s' = storages (initial type_table 1%nat) !! s').
Proof.
  apply (pynew_sized false unpackReal false false allocation_device (initial type_table 1%nat) 1%nat
           UntypedStorage (Sized 5) 5 None None DefaultCPUAllocator); by_evaluation.
Defined.

(** [UntypedStorage([10, 20, 30])] on the empty heap. *)
Lemma pynew_sequence_bytes_witness :
  ∃ o s st',
    THPStorage_pynew false unpackReal false false allocation_device 1%nat
      (FromSequence (PyList [PyLong 10; PyLong 20; PyLong 30])) None None
      (initial type_table 1%nat) = Ok (Some o) st' ∧
    objects (initial type_table 1%nat) !! o = None ∧
    storages (initial type_table 1%nat) !! s = None ∧
    resource_of st' o = Some s ∧
    bytes_of st' s = Some [10; 20; 30] ∧
    THPStorage_length o st' = Ok 3 st' ∧
    (∀ k v, [10; 20; 30] !! k = Some v →
            THPStorage_get false o (PyLong (Z.of_nat k)) st' = Ok (Some (PyLong v)) st') ∧
    py_err st' = py_err (initial type_table 1%nat).
Proof.
  apply (pynew_sequence_bytes false unpackReal false false allocation_device
             (initial type_table 1%nat) 1%nat
           UntypedStorage [PyLong 10; PyLong 20; PyLong 30] [10; 20; 30] None None
           DefaultCPUAllocator); try by_evaluation.
  repeat constructor.
Defined.

(** A wrapper whose handle is the null storage. *)
Definition st_null : State := heap 1 1%nat 1 borrowed_null false false.

Definition address_of (s : StorageId) : Z := 4096 + 64 * Z.of_nat s.

Lemma null_handle_rejected_witness :
  THPStorage_length 0%nat st_null = Ok (-1) (set_py_err (Some NullResource) st_null) ∧
  THPStorage_get false 0%nat (PyLong 0) st_null =
    Ok None (set_py_err (Some NullResource) st_null) ∧
  THPStorage_set checkReal unpackReal 0%nat (PyLong 0) (PyLong 1) st_null =
    Ok (-1) (set_py_err (Some NullResource) st_null) ∧
  THPStorage_device 0%nat st_null = Ok None (set_py_err (Some NullResource) st_null) ∧
  THPStorage_get_cdata address_of 0%nat st_null = Ok (Some (PyLong 0)) st_null.
Proof.
  apply (null_handle_rejected false checkReal unpackReal address_of st_null 0%nat
           (mkTHPStorage 1 1%nat false 0 [] false borrowed_null false) (PyLong 0) (PyLong 1));
    by_evaluation.
Defined.

(** The teardown has taken the last host reference of a wrapper whose
    resource has a second reference; [tryPreserve] keeps the wrapper. *)
Definition st_last_ref : State := heap 2 1%nat 0 (owned 0%nat) false false.

Definition st_kept : State :=
  Eval vm_compute in final_state (THPStorage_tryPreserve 0%nat st_last_ref).

Lemma cdata_survives_preservation_witness :
  THPStorage_get_cdata address_of 0%nat st_last_ref = Ok (Some (PyLong 4096)) st_last_ref ∧
  THPStorage_get_cdata address_of 0%nat st_kept = Ok (Some (PyLong 4096)) st_kept.
Proof.
  apply (cdata_survives_preservation address_of st_last_ref st_kept 0%nat
           (mkTHPStorage 0 1%nat false 0 [] false (owned 0%nat) false) 0%nat);
    first [by_evaluation | by eexists].
Defined.

(** Indexing the bytes 1..5 with a list, and writing a list. *)
Lemma unsupported_index_or_value_witness :
  THPStorage_get false 0%nat (PyList []) st5 =
    Ok None (set_py_err (Some (CannotIndexWith
                                 (THPUtils_typename (types st5) (objects st5) (PyList []))))
               st5) ∧
  THPStorage_set checkReal unpackReal 0%nat (PyLong 0) (PyList []) st5 =
    Ok (-1) (set_py_err (Some (InvalidValueType
                                 (THPUtils_typename (types st5) (objects st5) (PyList []))))
               st5) ∧
  THPStorage_set checkReal unpackReal 0%nat (PyList []) (PyLong 1) st5 =
    Ok (-1) (set_py_err (Some (CannotIndexWith
                                 (THPUtils_typename (types st5) (objects st5) (PyList []))))
               st5).
Proof.
  destruct (unsupported_index_or_value false checkReal unpackReal st5 0%nat 0%nat
              (PyList []) (PyLong 1) eq_refl) as (Hget & _ & Hset).
  destruct (unsupported_index_or_value false checkReal unpackReal st5 0%nat 0%nat
              (PyLong 0) (PyList []) eq_refl) as (_ & Hval & _).
  split; [by apply Hget|]. split; [by apply Hval|].
  apply Hset; first [reflexivity | by eexists].
Defined.

(** The slices [[0:4:2]], [[0:4:0]] and [[0:4:-2^63]] of the bytes 1..5:
    the last step is reported as the host clips it, [-(2^63 - 1)]. *)
Lemma get_slice_rejects_step_witness :
  THPStorage_get false 0%nat (PySlice (Some 0) (Some 4) (Some 2)) st5 =
    Ok None (set_py_err (Some (UnsupportedStep 2)) st5) ∧
  THPStorage_get false 0%nat (PySlice (Some 0) (Some 4) (Some 0)) st5 =
    Ok None (set_py_err (Some SliceStepZero) st5) ∧
  THPStorage_get false 0%nat (PySlice (Some 0) (Some 4) (Some (- 2 ^ 63))) st5 =
    Ok None (set_py_err (Some (UnsupportedStep (- (2 ^ 63 - 1)))) st5).
Proof.
  pose proof (λ step, get_slice_rejects_step false st5 0%nat 0%nat i5 (Some 0) (Some 4) step
                        eq_refl eq_refl) as H.
  split; [|split].
  - destruct (H 2) as (H1 & _ & _). by apply H1.
  - destruct (H 0) as (_ & _ & H3). by apply H3.
  - destruct (H (- 2 ^ 63)) as (H1 & _ & _). by apply H1.
Defined.

(** The slice 1..4 of the CPU storage of five bytes. *)
Lemma slice_keeps_device_and_type_witness :
  ∃ o wo st',
    THPStorage_get false 0%nat (PySlice (Some 1) (Some 4) None) st5 =
      Ok (Some (PyStorage o)) st' ∧
    objects st' !! o = Some wo ∧ ob_type wo = 1%nat ∧ ob_refcnt wo = 1 ∧
    THPStorage_device o st' = Ok (Some kCPU) st' ∧
    THPStorage_device 0%nat st' = Ok (Some kCPU) st'.
Proof.
  apply (slice_keeps_device_and_type false st5 0%nat w5 0%nat i5 UntypedStorage 1 4 None);
    by_evaluation.
Defined.

(** A resource of two references that no wrapper has been made for. *)
Definition st_unwrapped : State :=
  mkState {[ 0%nat := mkStorageImpl 2 5 true (mkDataPtr 0 0 None) DefaultCPUAllocator kCPU
                                    empty_slot ]}
          ∅ {[ 0%nat := [1; 2; 3; 4; 5] ]} type_table 1%nat false None [].

Lemma wrap_twice_same_wrapper_witness :
  ∃ o w st1 st2,
    THPStorage_Wrap false 0%nat st_unwrapped = Ok o st1 ∧
    THPStorage_Wrap false 0%nat st1 = Ok o st2 ∧
    objects st_unwrapped !! o = None ∧
    objects st1 = <[o := w]> (objects st_unwrapped) ∧
    ob_type w = 1%nat ∧ ob_refcnt w = 1 ∧ cdata w = owned 0%nat ∧
    (∃ i1, storages st1 = <[0%nat := i1]> (storages st_unwrapped) ∧
           pyobj (pyobj_slot i1) = Some o ∧ use_count i1 = 2 ∧
           storages st2 = <[0%nat := with_use_count 1 i1]> (storages st_unwrapped)) ∧
    objects st2 = <[o := with_refcnt 2 w]> (objects st_unwrapped).
Proof.
  apply (wrap_twice_same_wrapper false st_unwrapped 0%nat
           (mkStorageImpl 2 5 true (mkDataPtr 0 0 None) DefaultCPUAllocator kCPU empty_slot)
           UntypedStorage); by_evaluation.
Defined.

(** The host drops the only reference to the wrapper of a resource that
    has a second reference, and the resource is wrapped again. *)
Lemma drop_then_wrap_restores_witness :
  ∃ st1 w1 i1,
    Py_DECREF quiet_hook quiet_hook 0%nat st_shared = Ok tt st1 ∧
    events st1 = events st_shared ∧
    objects st1 !! 0%nat = Some w1 ∧ ob_refcnt w1 = 1 ∧ cdata w1 = borrowed 0%nat ∧
    storages st1 !! 0%nat = Some i1 ∧ owns_pyobj (pyobj_slot i1) = true ∧
    use_count i1 = 1 ∧
    THPStorage_Wrap false 0%nat st1 =
      Ok 0%nat (set_storages <[0%nat := with_use_count 1 (with_use_count 2 i5)]> st_shared).
Proof.
  apply (drop_then_wrap_restores false quiet_hook quiet_hook st_shared 0%nat w5
           UntypedStorage 0%nat (with_use_count 2 i5)); by_evaluation.
Defined.

(** A type that does not derive from the Storage base. *)
Definition PlainObject : PyTypeObject :=
  mkType "object" None 1 false false false false 0 0 0 [4%nat].

Definition st_foreign : State := set_types <[4%nat := PlainObject]> st_shared.

Lemma new_with_storage_rejects_type_witness :
  ∃ st',
    intrusive_ptr_decref 0%nat st_foreign = Ok tt st' ∧
    THPStorage_NewWithStorage false 4%nat 0%nat TAGGED_BY_US true st_foreign =
      Throw (c10_Error NotAStorageSubclass) st' ∧
    objects st' = objects st_foreign ∧
    (∀ i, storages st_foreign !! 0%nat = Some i → 1 < use_count i →
          storages st' = <[0%nat := with_use_count (use_count i - 1) i]> (storages st_foreign) ∧
          buffers st' = buffers st_foreign).
Proof.
  apply (new_with_storage_rejects_type false st_foreign 4%nat 0%nat TAGGED_BY_US true);
    by_evaluation.
Defined.

(** The accounting in the state where the slot keeps the wrapper. *)
Lemma reference_accounting_witness :
  (∀ s i, storages run_preserved !! s = Some i →
          holders (storages run_preserved) (objects run_preserved) s ≤ use_count i) ∧
  (∀ o w s, objects run_preserved !! o = Some w → cdata w = owned s →
            ∃ i, storages run_preserved !! s = Some i ∧ 1 ≤ use_count i).
Proof.
  apply (reference_accounting false checkReal unpackReal false false allocation_device
             quiet_hook quiet_hook
           quiet_hook_local quiet_hook_local run_preserved run_preserved_reachable).
Defined.

Lemma slot_owned_wrapper_is_kept_witness :
  ∃ i,
    storages run_preserved !! 0%nat = Some i ∧ owns_pyobj (pyobj_slot i) = true ∧
    pyobj_interpreter (pyobj_slot i) = true ∧
    ∃ o w, pyobj (pyobj_slot i) = Some o ∧ objects run_preserved !! o = Some w ∧
           cdata w = borrowed 0%nat ∧ 1 ≤ ob_refcnt w.
Proof.
  eexists. split; [reflexivity|]. split; [reflexivity|].
  apply (slot_owned_wrapper_is_kept false checkReal unpackReal false false allocation_device
             quiet_hook
           quiet_hook quiet_hook_local quiet_hook_local run_preserved 0%nat _
           run_preserved_reachable eq_refl eq_refl).
Defined.

(** The host drops the only reference to the wrapper of the five bytes,
    whose resource has no other reference. *)
Lemma teardown_releases_witness :
  ∃ st_rel st',
    intrusive_ptr_decref 0%nat st5 = Ok tt st_rel ∧
    Py_DECREF quiet_hook quiet_hook 0%nat st5 = Ok tt st' ∧
    objects st' = delete 0%nat (objects st5) ∧
    storages st' = storages st_rel ∧ buffers st' = buffers st_rel ∧
    types st' = <[1%nat := with_tp_refcnt 4 UntypedStorage]> (types st5) ∧
    py_err st' = py_err st5 ∧ hermetic st' = hermetic st5 ∧
    THPStorageClass st' = THPStorageClass st5.
Proof.
  apply (teardown_releases quiet_hook quiet_hook st5 0%nat w5 0%nat i5 UntypedStorage);
    by_evaluation.
Defined.

(** [UntypedStorage(5)] on the empty heap, dropped at once. *)
Lemma construct_then_drop_witness :
  ∃ o st1 st2,
    THPStorage_pynew false unpackReal false false allocation_device 1%nat (Sized 5) None None
      (initial type_table 1%nat) = Ok (Some o) st1 ∧
    objects (initial type_table 1%nat) !! o = None ∧ is_Some (objects st1 !! o) ∧
    Py_DECREF quiet_hook quiet_hook o st1 = Ok tt st2 ∧
    storages st2 = storages (initial type_table 1%nat) ∧
    objects st2 = objects (initial type_table 1%nat) ∧
    buffers st2 = buffers (initial type_table 1%nat) ∧
    types st2 = types (initial type_table 1%nat) ∧
    py_err st2 = py_err (initial type_table 1%nat).
Proof.
  apply (construct_then_drop false unpackReal false false allocation_device quiet_hook quiet_hook
           (initial type_table 1%nat) 1%nat UntypedStorage (Sized 5) 5 None None
           DefaultCPUAllocator); by_evaluation.
Defined.

(** The slice 1..4 of the bytes 1..5, dropped at once. *)
Lemma slice_then_drop_witness :
  ∃ o st1 st2,
    THPStorage_get false 0%nat (PySlice (Some 1) (Some 4) None) st5 =
      Ok (Some (PyStorage o)) st1 ∧
    objects st5 !! o = None ∧ is_Some (objects st1 !! o) ∧
    Py_DECREF quiet_hook quiet_hook o st1 = Ok tt st2 ∧
    storages st2 = storages st5 ∧ objects st2 = objects st5 ∧
    buffers st2 = buffers st5 ∧ types st2 = types st5 ∧
    py_err st2 = py_err st5.
Proof.
  apply (slice_then_drop false quiet_hook quiet_hook st5 0%nat w5 0%nat i5 UntypedStorage
           1 4 None); by_evaluation.
Defined.

(** The four rejections of the constructor, on the empty heap, in a build
    without CUDA. *)
Lemma pynew_rejects_witness :
  THPStorage_pynew false unpackReal false false allocation_device 0%nat NoArgs None None
    (initial type_table 1%nat) =
    Ok None (set_py_err (Some CannotConstructBase) (initial type_table 1%nat)) ∧
  THPStorage_pynew false unpackReal false false allocation_device 1%nat NoArgs (Some 7) (Some kCPU)
    (initial type_table 1%nat) =
    Ok None (set_py_err (Some ConflictingAllocatorSpec) (initial type_table 1%nat)) ∧
  THPStorage_pynew false unpackReal false false allocation_device 1%nat NoArgs None (Some kCUDA)
    (initial type_table 1%nat) =
    Ok None (set_py_err (Some UnsupportedDevice) (initial type_table 1%nat)) ∧
  THPStorage_pynew false unpackReal false false allocation_device
             1%nat (FromSequence (PyLong 3)) None None
    (initial type_table 1%nat) =
    Ok None (set_py_err
               (Some (NotASequence
                        (THPUtils_typename (types (initial type_table 1%nat))
                                           (objects (initial type_table 1%nat)) (PyLong 3))))
               (initial type_table 1%nat)).
Proof.
  split; [|split; [|split]].
  - by apply (pynew_rejects false unpackReal false false allocation_device
             (initial type_table 1%nat) 0%nat
                NoArgs None None).
  - apply (pynew_rejects false unpackReal false false allocation_device
             (initial type_table 1%nat) 1%nat
             NoArgs (Some 7) (Some kCPU)); first [by_evaluation | by eexists].
  - apply (pynew_rejects false unpackReal false false allocation_device
             (initial type_table 1%nat) 1%nat
             NoArgs None (Some kCUDA)); first [by_evaluation | by eexists].
  - destruct (pynew_rejects false unpackReal false false allocation_device
             (initial type_table 1%nat) 1%nat
                (FromSequence (PyLong 3)) None None) as (_ & _ & _ & Hseq).
    apply (Hseq ltac:(by vm_compute) ltac:(by left) ltac:(by eexists) (PyLong 3));
      reflexivity.
Defined.

(** The last three of the bytes 1..5, as [[-3:]]. *)
Lemma slice_stays_inside_witness :
  ∃ o n st',
    THPStorage_get false 0%nat (PySlice (Some (-3)) None None) st5 =
      Ok (Some (PyStorage o)) st' ∧
    resource_of st' o = Some n ∧
    bytes_of st' n = Some [3; 4; 5] ∧
    THPStorage_length o st' = Ok 3 st' ∧
    bytes_of st' 0%nat = Some [1; 2; 3; 4; 5].
Proof.
  destruct (slice_stays_inside false st5 0%nat w5 0%nat i5 UntypedStorage [1; 2; 3; 4; 5]
              (Some (-3)) None None eq_refl eq_refl eq_refl eq_refl eq_refl eq_refl
              ltac:(by vm_compute) eq_refl)
    as (o & n & st' & a & b & Hget & Hres & _ & _ & Hbytes & Hlen & Hparent & _ & Hb & _ &
        _ & Ha & _).
  rewrite (Ha (-3) eq_refl ltac:(simpl; lia)), (Hb eq_refl) in Hbytes, Hlen.
  by exists o, n, st'.
Defined.

(** Two wraps, in hermetic mode, of the resource whose slot records
    wrapper 0. *)
Lemma wrap_hermetic_never_shares_witness :
  ∃ o1 o2 w st1 st2,
    THPStorage_Wrap false 0%nat st_hermetic = Ok o1 st1 ∧
    THPStorage_Wrap false 0%nat st1 = Ok o2 st2 ∧
    o1 ≠ o2 ∧ objects st_hermetic !! o1 = None ∧ objects st_hermetic !! o2 = None ∧
    ob_type w = 1%nat ∧ ob_refcnt w = 1 ∧ cdata w = owned 0%nat ∧
    objects st2 = <[o2 := w]> (<[o1 := w]> (objects st_hermetic)) ∧
    storages st2 = storages st_hermetic ∧ buffers st2 = buffers st_hermetic ∧
    py_err st2 = py_err st_hermetic.
Proof.
  apply (wrap_hermetic_never_shares false st_hermetic 0%nat (with_use_count 2 i5)
           UntypedStorage); by_evaluation.
Defined.
